(* ===== verification/_CoqProject ===== *)
-Q . S2P
Prelude.v
Text.v
Literal.v
Json.v
Float64.v
GoTime.v
GoValue.v
Ir.v
Compile.v
Rollout.v
Eval.v
AnyTrip.v
Trace.v
Segments.v
Sdk.v
Proxy.v
Jsonb.v
Db.v
PgDb.v
Store.v
SqliteText.v
PgStore.v
PgSim.v
Backends.v
AuditCursor.v
Api.v
Handlers.v
AuditApi.v
Wire.v
Rpc.v
Operator.v
Mcp.v
Mux.v
Bodies.v
Http.v
Edge.v
Connect.v
OperatorWire.v
Enums.v
Seed.v
DeepCopy.v
Boot.v
Programs.v
