(* ===== verification/Prelude.v ===== *)
(** FalseFlag: a verification of the feature-flag platform's Go code.

    The program.  An operator or a user writes flags in one of three strategies
    (JSON, CEL leaves, TypeScript).  The control plane compiles a source into a
    rules tree (the IR), stores it as a new version of the flag, and bundles the
    latest versions of a project into snapshots.  SDK clients and the proxy poll
    the latest snapshot, compile its flags again and evaluate contexts locally;
    the control plane evaluates stored versions itself.  A Kubernetes operator
    turns custom resources into calls of the Connect API, and an MCP server offers
    agents read-only tools over it.

    Files, in dependency order, and what they model under src/:
    - Prelude: results, int32 and uint64 arithmetic, list folds that fail, the
      tactics and the hint database [ff].
    - Text, Literal, Json, Float64, GoTime, GoValue: the parts of Go's standard
      library the code rests on: strings and UTF-8, JSON literals, the scanner
      and printer of encoding/json, strconv's floats, package time's calendar and
      layouts, values of type [any] with their decoding and encoding.
    - Ir: internal/config/ir.go and its encoding/json form.
    - Compile: internal/config strategy.go, json.go, cel.go, typescript.go.
    - Rollout, Eval, Trace: internal/eval.
    - AnyTrip: documents that travel as [any] (requests, responses).
    - Segments: internal/config/predicate.go and the handlers' segment resolver.
    - Sdk: internal/sdkgo; Proxy: internal/proxy.
    - Db: the SQLite schema and internal/db/sqlite; Store: internal/store with
      the SQLite backend; SqliteText: its text columns for times and ids.
    - Jsonb: PostgreSQL's document columns; PgDb: the PostgreSQL schema and the
      statements of internal/db, each written from its own SQL, with times in
      microseconds; PgStore: internal/store with the PostgreSQL backend; PgSim: the
      two backends side by side; Backends: the same with the clocks of both, SQLite's
      milliseconds and PostgreSQL's microseconds.
    - AuditCursor, Api, Handlers, AuditApi: internal/server/handlers.
    - Wire: a snapshot on its way from the store to an SDK client.
    - Rpc: internal/server/rpc, the Connect surface.
    - Operator: internal/operator and operator/api/v1alpha1.
    - Mcp: internal/mcp/tools and the names in internal/mcp/tools.go.
    - Mux: net/http's ServeMux and the parts of net/url it needs; Bodies: the JSON
      texts of requests and answers (the structs of internal/gen/openapi, the body
      cap of internal/server/server.go); Http: the REST listener, from the bytes of
      a request to its handler (internal/gen/openapi, internal/server/server.go).
    - Edge: the proxy's listener over HTTP, with the bytes of its answers, and the
      health listener of internal/mcp/health.go.
    - Connect: the Connect listener and its clients
      (internal/gen/proto/.../falseflagv1connect, internal/server/rpc/server.go,
      internal/operator/clientapi).
    - OperatorWire: the operator's and the MCP server's programs with every call
      going through the Connect client and listener.
    - Enums: the [Valid] methods of internal/gen/openapi and what the answers hold.
    - Seed: cmd/falseflag-seed, the dataset and its run over the REST listener.
    - DeepCopy: the generated deep copies of operator/api/v1alpha1 over a heap.
    - Boot: internal/appconfig and the database URL (internal/store/dsn.go and the
      DSN of sqlite_store.go).
    - Programs: the commands (cmd/, internal/buildinfo, internal/healthcheck,
      internal/logging): opening and migrating the store (internal/store), the runs
      of the API (internal/server/server.go), the proxy, the MCP server
      (internal/mcp/run.go) and the operator's manager (internal/operator/run.go),
      with what they open and release and their exit codes.

    How state and operations correspond.  A pure function of the source is a
    Rocq function of the same name.  [(value, error)] pairs are [result]s.  The
    database is a record of tables; a query or statement is a function on it, a
    store operation runs in a transaction whose faults (busy, failed commit,
    lost connection, cancelled wait) are inputs, and a handler is a program ([Api.prog]) of store
    calls, so that the calls of concurrent requests interleave
    ([Api.server_step]).  The SDK client and the proxy are step relations whose
    events are polls and their outcomes.  A reconciler or an MCP tool is a program
    of Connect calls ([Operator.oprog]), each served by a handler or lost in
    transport, and the seed command a program of HTTP requests ([Seed.sprog]).
    [Http.serve] and [Connect.rpc_serve] compose a listener from its mux, the
    generated wrappers and the handlers, [Edge.proxy_serve] the proxy's; a run of a
    command ([Programs.command_run]) is a relation between its environment
    ([Programs.world]), the trace of what it did and its result, and the listeners of
    a server are the tasks of an errgroup ([Programs.group_step]).

    What the theorems show.
    - Evaluation: the first rule that does not miss decides, values have the
      declared type, rollouts are monotone, only named attributes are read, a
      trace agrees with evaluation when no rule fails (Eval, Rollout, Trace).
    - Compilation: stored IR compiles again and decides alike, every reachable
      CEL source has its program, segment references are resolved and resolving
      terminates on acyclic segments (Compile, Segments, Eval, AnyTrip).
    - Storage: invariants of every history of operations with faults, publishing
      as an append to a log, atomic audit rows, retries (Store, Db); the
      PostgreSQL store is interchangeable with the SQLite one on calls and documents
      that both accept, a retried
      transaction takes effect at most once even when connections are lost, and
      documents that jsonb leaves stable keep their meaning there (Backends,
      PgStore, Jsonb); the
      texts SQLite compares order and read back as the numbers do (SqliteText).
    - Control plane: publish then evaluate, snapshots hold the latest versions,
      pagination by cursor texts visits every event once, the two API surfaces
      mirror each other field by field, up to the differences the relation of Rpc
      spells out (Handlers, AuditApi, Rpc).
    - Listeners: every endpoint, the audit log, health and probes included, is
      reached at its method and path, a body in which no value ends within the cap
      or that has an unknown field changes nothing, a request that changes the
      database leaves one audit row, whatever its bytes (Http); a Connect client's
      call runs the RPC of its procedure, nothing else reaches a handler, and the
      server's invariant holds for every interleaving of requests on both listeners
      (Connect).
    - Types: however requests interleave, the answers hold only strategies, value
      types and reasons that the API's enumerations know (Enums).
    - Start and end: the SQLite DSN gets the pragmas the schema relies on (Boot); a
      command releases every connection and client it made on every path, serves a
      database only after its migration, and ends with 0 only in the cases listed
      there: a signal, a cancelled context, a clean end of the operator's manager, a
      self-probe, a complete seed, the load generator's stub (Programs).
    - Clients: an SDK that polls a snapshot over HTTP decides like the server, the
      cache is the last successful poll, the proxy's contract (Sdk, Proxy, Wire,
      Http), as long as the published IRs can travel: a number out of the range of a
      float64 makes the snapshot unreadable (Http); an evaluation posted to the proxy
      and to the API is read as the same value, reason and rule, up to the caller's
      default for a null (Edge); a Flag resource synced over the Connect
      listener, with its segment references resolved, is what the REST listener
      serves (OperatorWire), and every reconciler's status says how its pass ended
      (Operator); the deep
      copies of the resources share nothing with the originals (DeepCopy); a run
      of the seed publishes each flag of the dataset once (Seed); no MCP tool
      changes the database (OperatorWire), and what validate_config accepts the
      publish handler accepts, if it is sent as a text that reads alike (Mcp).
    Some theorems state behaviour the documentation contradicts; they are listed
    as findings in the manifest.

    Bounds and fuel.  [resolveOne] follows segment references and takes fuel for
    how deep they nest; [Segments.resolve_terminates] shows the fuel that is
    enough for acyclic segments, and that a cycle has no outcome.  Scanning,
    printing and compiling recurse on the text or the tree and take no fuel
    beyond its size.  Integers have their width where it shows: int32 versions,
    limits and weights wrap ([wrap32]), FNV-1a is modulo 2^64.

    Outside the repository, and parameters with the documented behaviour the
    code relies on: the regular-expression engine, cel-go, esbuild and goja
    (classes of Compile), structpb (class of Rpc), protojson (class of Mcp), parameter
    binding of oapi-codegen's runtime (class of Http), the deep copies of
    k8s.io/apimachinery (class of DeepCopy), connect-go with the protobuf
    codec (class of Connect), the text of a UUID (class of SqliteText), how PostgreSQL writes jsonb values
    (class of Jsonb), the network, the Kubernetes client, [uuid.New] and the
    clock.

    Not modelled.  What a driver does when it dials or pings, what goose does when it
    applies a migration and what the controller-runtime manager does once started:
    their outcomes are inputs of a run.  The connections, timeouts and headers of
    net/http, the MCP transport and the records slog writes, which are I/O;
    sqlc's handles and interfaces, generated protobuf messages and the embedded
    OpenAPI document, which have no logic of their own.  Error texts are kept only where a response or
    a later decision depends on them.  The depth limit of the JSON decoder, the reuse of spare slice capacity by a decoder that meets
    an array key three times, and the order of rows that tie in an ORDER BY are
    not modelled (the theorem of Backends asks that no two calls read the clock in
    one millisecond, so no rows tie there).  A publish reads the segments it needs by
    separate look-ups; the model lets each fail by itself but reads them from one
    state of the database ([Api.Segs]).  The codec of Connect is taken to carry every
    message (class of Connect), also one whose texts are not UTF-8 and that protobuf
    refuses. *)
From stdpp Require Import base list strings numbers gmap.
From Stdlib Require Import Ascii String ZArith Lia.

Declare Scope ff_scope.
Delimit Scope ff_scope with ff.
Open Scope ff_scope.
#[global] Open Scope Z_scope.

(** ** Results: Go's [(value, error)] pairs *)

Inductive result (E A : Type) : Type :=
| Ok (a : A)
| Err (e : E).
Arguments Ok {E A} a.
Arguments Err {E A} e.

Definition rbind {E A B} (m : result E A) (k : A -> result E B) : result E B :=
  match m with Ok a => k a | Err e => Err e end.
Definition rmap_err {E E' A} (f : E -> E') (m : result E A) : result E' A :=
  match m with Ok a => Ok a | Err e => Err (f e) end.
Definition of_option {E A} (e : E) (o : option A) : result E A :=
  match o with Some a => Ok a | None => Err e end.
Definition is_ok {E A} (m : result E A) : bool :=
  match m with Ok _ => true | Err _ => false end.

Notation "'let?' x ':=' m 'in' k" := (rbind m (fun x => k))
  (at level 10, x pattern, m at level 100, k at level 200) : ff_scope.
Notation "'do?' x ':=' m 'in' k" := (mbind (fun x => k) m)
  (at level 10, x pattern, m at level 100, k at level 200) : ff_scope.
Notation "'when' c 'fail' e ';;' k" := (if c then Err e else k)
  (at level 10, c at level 99, e at level 99, k at level 200) : ff_scope.

(** A Go [for] loop over a slice whose body may return an error early. *)
Section rfold.
Context {E A S : Type} (f : S -> A -> result E S).
Fixpoint rfold (s : S) (l : list A) : result E S :=
  match l with
  | [] => Ok s
  | x :: l' => match f s x with Ok s' => rfold s' l' | Err e => Err e end
  end.
End rfold.

(** The loop of a check, with no state. *)
Definition rall {E A} (f : A -> result E unit) (l : list A) : result E unit :=
  rfold (fun _ x => f x) tt l.

Lemma rall_cons {E A} (f : A -> result E unit) x l :
  rall f (x :: l) = match f x with Ok _ => rall f l | Err e => Err e end.
Proof. unfold rall. cbn. by destruct (f x) as [[]|]. Qed.

Lemma rall_ok {E A} (f : A -> result E unit) l :
  rall f l = Ok tt <-> Forall (fun x => f x = Ok tt) l.
Proof.
  induction l as [|x l IH]; [done|]. rewrite rall_cons, list.Forall_cons, <- IH.
  destruct (f x) as [[]|]; intuition congruence.
Qed.

Lemma rfold_app {E A S} (f : S -> A -> result E S) s l1 l2 :
  rfold f s (l1 ++ l2) = rbind (rfold f s l1) (fun s' => rfold f s' l2).
Proof. revert s. induction l1 as [|x l1 IH]; intros s; [done|]. cbn. by destruct (f s x). Qed.

(** An invariant of the loop state. *)
Lemma rfold_inv {E A S} (f : S -> A -> result E S) (P : S -> Prop) l s s' :
  (forall s x s', In x l -> f s x = Ok s' -> P s -> P s') ->
  rfold f s l = Ok s' -> P s -> P s'.
Proof.
  revert s. induction l as [|x l IH]; intros s Hf; cbn; [by intros [= <-]|].
  destruct (f s x) as [s1|] eqn:E1; [|done]. intros H Hs. eapply IH; [|exact H|].
  - intros s0 y s0' Hy. apply Hf. by right.
  - eapply Hf; [by left | exact E1 | done].
Qed.

Lemma rbind_ok {E A B} (m : result E A) (k : A -> result E B) b :
  rbind m k = Ok b -> exists a, m = Ok a /\ k a = Ok b.
Proof. destruct m; simpl; [eauto | discriminate]. Qed.

Lemma rbind_err {E A B} (m : result E A) (k : A -> result E B) e :
  rbind m k = Err e -> m = Err e \/ exists a, m = Ok a /\ k a = Err e.
Proof. destruct m; simpl; [eauto | intros [= ->]; auto]. Qed.

(** ** Machine integers *)

Definition int32_min : Z := -(2 ^ 31).
Definition int32_max : Z := 2 ^ 31 - 1.
Definition int64_min : Z := -(2 ^ 63).
Definition int64_max : Z := 2 ^ 63 - 1.
(** [int32(x)] and arithmetic on [int32] wrap modulo 2^32. *)
Definition wrap32 (z : Z) : Z := (z + 2 ^ 31) mod 2 ^ 32 - 2 ^ 31.
Definition wrap_u64 (z : Z) : Z := z mod 2 ^ 64.
Definition in_int64 (z : Z) : bool := (int64_min <=? z) && (z <=? int64_max).

Lemma wrap32_id z : int32_min <= z <= int32_max -> wrap32 z = z.
Proof.
  unfold wrap32, int32_min, int32_max. intros. rewrite Z.mod_small; lia.
Qed.

Lemma wrap32_range z : int32_min <= wrap32 z <= int32_max.
Proof.
  unfold wrap32, int32_min, int32_max.
  pose proof (Z.mod_pos_bound (z + 2 ^ 31) (2 ^ 32) eq_refl). lia.
Qed.

(** ** Tactics *)

(** Case on every [match]/[if] scrutinee of the goal, clearing impossible cases. *)
Ltac crush_match :=
  repeat (first
    [ progress simplify_eq/=
    | match goal with
      | |- context [match ?x with _ => _ end] => destruct x eqn:?
      end ]); try done.

(** Split a boolean conjunction or disjunction in the hypotheses. *)
Ltac bsplit :=
  repeat match goal with
  | H : _ && _ = true |- _ => apply andb_true_iff in H; destruct H
  | H : _ || _ = false |- _ => apply orb_false_iff in H; destruct H
  | H : negb _ = true |- _ => apply negb_true_iff in H
  | H : negb _ = false |- _ => apply negb_false_iff in H
  end.

(** Invert the successful steps of a [result] computation in the hypotheses. *)
Ltac inv_ok :=
  repeat match goal with
  | H : rbind _ _ = Ok _ |- _ =>
      let a := fresh "a" in let Ha := fresh "Hok" in
      apply rbind_ok in H; destruct H as (a & Ha & H)
  | H : Ok _ = Ok _ |- _ => injection H as H; subst
  | H : Err _ = Ok _ |- _ => discriminate H
  | H : Ok _ = Err _ |- _ => discriminate H
  | H : of_option _ ?o = Ok _ |- _ => destruct o eqn:?; simpl in H
  | H : rmap_err _ ?o = Ok _ |- _ => destruct o eqn:?; simpl in H
  end.

(** Strings are rewritten as byte sequences: let [simpl] compute appends. *)
#[global] Arguments String.append : simpl nomatch.

Create HintDb ff.
