(* ===== verification/Text.v ===== *)
(** Go strings as byte sequences: the string operations of package [strings]
    the repository uses, and UTF-8 decoding as package [unicode/utf8] does it. *)
From stdpp Require Import base list strings numbers.
From Stdlib Require Import Ascii String ZArith Lia Wf_nat.
From S2P Require Import Prelude.

(** ** Characters *)

Definition dq : ascii := "034"%char.        (* double quote *)
Definition bsl : ascii := "\"%char.         (* backslash *)
Definition code (c : ascii) : Z := Z.of_N (N_of_ascii c).
Definition chr (z : Z) : ascii := ascii_of_N (Z.to_N z).
Definition byte_in (lo hi : Z) (c : ascii) : bool := (lo <=? code c) && (code c <=? hi).
Definition is_digit (c : ascii) : bool := byte_in 48 57 c.
Definition str1 (c : ascii) : string := String c EmptyString.
Definition mem (c : ascii) (l : list ascii) : bool := existsb (Ascii.eqb c) l.

Lemma code_chr z : 0 <= z < 256 -> code (chr z) = z.
Proof.
  intros. unfold code, chr. rewrite N_ascii_embedding; lia.
Qed.

Lemma chr_code c : chr (code c) = c.
Proof. unfold chr, code. rewrite N2Z.id. apply ascii_N_embedding. Qed.

Lemma code_range c : 0 <= code c < 256.
Proof. unfold code. pose proof (N_ascii_bounded c). lia. Qed.

Lemma code_inj c d : code c = code d -> c = d.
Proof. intros H. rewrite <- (chr_code c), <- (chr_code d). by rewrite H. Qed.

(** ** String lemmas *)

Lemma sapp_assoc (a b c : string) : (a +:+ b) +:+ c = a +:+ (b +:+ c).
Proof. induction a; simpl; congruence. Qed.

Lemma sapp_nil_r (a : string) : a +:+ "" = a.
Proof. induction a; simpl; congruence. Qed.

Lemma slength_app (a b : string) : String.length (a +:+ b) = (String.length a + String.length b)%nat.
Proof. induction a; simpl; congruence. Qed.

Lemma string_len_ind (P : string -> Prop) :
  (forall s, (forall t, (String.length t < String.length s)%nat -> P t) -> P s) -> forall s, P s.
Proof. intros H. apply (induction_ltof1 _ String.length). exact H. Qed.

(** ** Package strings *)

(** [strings.HasPrefix(s, prefix)]. *)
Fixpoint hasPrefix (s prefix : string) : bool :=
  match prefix, s with
  | EmptyString, _ => true
  | String p prefix', String c s' => Ascii.eqb p c && hasPrefix s' prefix'
  | String _ _, EmptyString => false
  end.

(** [strings.TrimPrefix(s, prefix)]. *)
Fixpoint drop_prefix (s prefix : string) : string :=
  match prefix, s with
  | String _ prefix', String _ s' => drop_prefix s' prefix'
  | _, _ => s
  end.
Definition trimPrefix (s prefix : string) : string :=
  if hasPrefix s prefix then drop_prefix s prefix else s.

(** [strings.Split(s, sep)] for a one-byte separator: never empty. *)
Fixpoint split_on (sep : ascii) (s : string) : list string :=
  match s with
  | EmptyString => [EmptyString]
  | String c s' =>
      if Ascii.eqb c sep then EmptyString :: split_on sep s'
      else match split_on sep s' with
           | p :: ps => String c p :: ps
           | [] => [str1 c]
           end
  end.

Fixpoint join_with (sep : ascii) (l : list string) : string :=
  match l with
  | [] => ""
  | [p] => p
  | p :: ps => p +:+ String sep (join_with sep ps)
  end.

(** [strings.Cut(s, sep)] for a one-byte separator: the part before the first
    separator and the part after it ([""] when there is none). *)
Fixpoint cut (sep : ascii) (s : string) : string * string :=
  match s with
  | EmptyString => ("", "")
  | String c s' =>
      if Ascii.eqb c sep then ("", s')
      else let '(a, b) := cut sep s' in (String c a, b)
  end.

Lemma hasPrefix_spec s p : hasPrefix s p = true <-> exists t, s = p +:+ t.
Proof.
  revert s. induction p as [|c p IH]; intros s; simpl.
  - split; [eauto | destruct s; auto].
  - destruct s as [|d s]; simpl.
    + split; [discriminate | intros [t Ht]; discriminate].
    + rewrite andb_true_iff, Ascii.eqb_eq, IH. split.
      * intros [-> [t ->]]. eauto.
      * intros [t [= -> ->]]. eauto.
Qed.

Lemma split_on_nonempty sep s : split_on sep s <> [].
Proof. destruct s; simpl; [done|]. case_match; [done|]. by destruct (split_on sep s). Qed.

Lemma join_split sep s : join_with sep (split_on sep s) = s.
Proof.
  induction s as [|c s IH]; [done|]. simpl.
  pose proof (split_on_nonempty sep s) as Hne.
  destruct (Ascii.eqb_spec c sep) as [->|Hc].
  - destruct (split_on sep s) eqn:E; [done|]. simpl in *. by f_equal.
  - destruct (split_on sep s) as [|p ps] eqn:E; [done|].
    destruct ps; simpl in *; by f_equal.
Qed.

(** Byte-wise order of strings, the order in which [json.Marshal] sorts map keys. *)
Fixpoint sltb (a b : string) : bool :=
  match a, b with
  | EmptyString, String _ _ => true
  | String x a', String y b' => if Ascii.eqb x y then sltb a' b' else code x <? code y
  | _, EmptyString => false
  end.

Lemma sltb_irrefl a : sltb a a = false.
Proof. induction a; simpl; [done|]. by rewrite Ascii.eqb_refl. Qed.

Lemma sltb_trans a b c : sltb a b = true -> sltb b c = true -> sltb a c = true.
Proof.
  revert b c. induction a as [|x a IH]; intros [|y b] [|z c]; simpl; try done.
  destruct (Ascii.eqb_spec x y), (Ascii.eqb_spec y z), (Ascii.eqb_spec x z);
    subst; intros; try done; try lia; try (eapply IH; eassumption).
Qed.

Lemma sltb_total a b : sltb a b = false -> sltb b a = false -> a = b.
Proof.
  revert b. induction a as [|x a IH]; intros [|y b]; simpl; try done.
  destruct (Ascii.eqb_spec x y), (Ascii.eqb_spec y x); subst; try done; intros.
  - f_equal. by apply IH.
  - assert (code x = code y) as ?%code_inj by lia. done.
Qed.

(** ** UTF-8 *)

Definition is_cont : ascii -> bool := byte_in 128 191.

(** The length of the well-formed rune at the head of [s], as
    [utf8.DecodeRuneInString] finds it; [None] for an ill-formed sequence
    (Go returns [RuneError] with size 1). *)
Definition rune_len (s : string) : option nat :=
  match s with
  | EmptyString => None
  | String c0 s0 =>
      if code c0 <? 128 then Some 1%nat else
      match s0 with
      | EmptyString => None
      | String c1 s1 =>
          if byte_in 194 223 c0 then (if is_cont c1 then Some 2%nat else None) else
          if byte_in 224 239 c0 then
            match s1 with
            | EmptyString => None
            | String c2 _ =>
                let lo := if code c0 =? 224 then 160 else 128 in
                let hi := if code c0 =? 237 then 159 else 191 in
                if byte_in lo hi c1 && is_cont c2 then Some 3%nat else None
            end
          else if byte_in 240 244 c0 then
            match s1 with
            | String c2 (String c3 _) =>
                let lo := if code c0 =? 240 then 144 else 128 in
                let hi := if code c0 =? 244 then 143 else 191 in
                if byte_in lo hi c1 && is_cont c2 && is_cont c3 then Some 4%nat else None
            | _ => None
            end
          else None
      end
  end.

(** [utf8.EncodeRune]; surrogates and out-of-range runes become U+FFFD. *)
Definition encode_rune (r : Z) : string :=
  if r <? 128 then str1 (chr r) else
  if r <? 2048 then String (chr (192 + r / 64)) (str1 (chr (128 + r mod 64))) else
  if ((55296 <=? r) && (r <=? 57343)) || (1114111 <? r) then
    String (chr 239) (String (chr 191) (str1 (chr 189)))
  else if r <? 65536 then
    String (chr (224 + r / 4096))
      (String (chr (128 + (r / 64) mod 64)) (str1 (chr (128 + r mod 64))))
  else
    String (chr (240 + r / 262144)) (String (chr (128 + (r / 4096) mod 64))
      (String (chr (128 + (r / 64) mod 64)) (str1 (chr (128 + r mod 64))))).

Definition rune_error : string := encode_rune 65533.
