(* ===== verification/Literal.v ===== *)
(** String literals of [encoding/json]: the grammar the scanner accepts
    ([scan_str]), the value of a literal ([unquote], the decoder's
    [unquoteBytes]), the literal [json.Marshal] writes for a Go string
    ([quote], the encoder's [appendString] with HTML escaping on) and the
    escaping it applies inside a [json.RawMessage] ([html_escape], the
    [appendCompact] pass).  A literal is the text between the quotes. *)
From stdpp Require Import base list strings numbers.
From Stdlib Require Import Ascii String ZArith Lia.
From S2P Require Import Prelude Text.

(** ** Definitions *)

Definition hexval (c : ascii) : option Z :=
  if byte_in 48 57 c then Some (code c - 48)
  else if byte_in 97 102 c then Some (code c - 87)
  else if byte_in 65 70 c then Some (code c - 55)
  else None.

Definition hexdig (z : Z) : ascii := if z <? 10 then chr (48 + z) else chr (87 + z).

(** [getu4]: the rune of four hexadecimal digits. *)
Definition hex4 (a b c d : ascii) : option Z :=
  match hexval a, hexval b, hexval c, hexval d with
  | Some x, Some y, Some z, Some w => Some (((x * 16 + y) * 16 + z) * 16 + w)
  | _, _, _, _ => None
  end.

(** The escape letters other than [u], with the byte they stand for. *)
Definition simple_esc (e : ascii) : option ascii :=
  if Ascii.eqb e dq then Some dq
  else if Ascii.eqb e bsl then Some bsl
  else if Ascii.eqb e "/"%char then Some "/"%char
  else if Ascii.eqb e "b"%char then Some (chr 8)
  else if Ascii.eqb e "f"%char then Some (chr 12)
  else if Ascii.eqb e "n"%char then Some (chr 10)
  else if Ascii.eqb e "r"%char then Some (chr 13)
  else if Ascii.eqb e "t"%char then Some (chr 9)
  else None.

Definition is_plain (c : ascii) : bool :=
  (32 <=? code c) && negb (Ascii.eqb c dq) && negb (Ascii.eqb c bsl).

(** Scan the rest of a string literal after its opening quote: the literal and
    the text after the closing quote. *)
Fixpoint scan_str (s : string) : option (string * string) :=
  match s with
  | EmptyString => None
  | String c r =>
      if Ascii.eqb c dq then Some (EmptyString, r)
      else if Ascii.eqb c bsl then
        match r with
        | EmptyString => None
        | String e r1 =>
            if Ascii.eqb e "u"%char then
              match r1 with
              | String a (String b (String c' (String d r2))) =>
                  match hex4 a b c' d, scan_str r2 with
                  | Some _, Some (l, t) =>
                      Some (String c (String e (String a (String b (String c' (String d l))))), t)
                  | _, _ => None
                  end
              | _ => None
              end
            else match simple_esc e, scan_str r1 with
                 | Some _, Some (l, t) => Some (String c (String e l), t)
                 | _, _ => None
                 end
        end
      else if is_plain c then
        match scan_str r with Some (l, t) => Some (String c l, t) | None => None end
      else None
  end.

(** The literals [scan_str] accepts. *)
Inductive str_lit : string -> Prop :=
| lit_nil : str_lit EmptyString
| lit_plain c s : is_plain c = true -> str_lit s -> str_lit (String c s)
| lit_esc e x s : Ascii.eqb e "u"%char = false -> simple_esc e = Some x -> str_lit s ->
    str_lit (String bsl (String e s))
| lit_uni a b c d u s : hex4 a b c d = Some u -> str_lit s ->
    str_lit (String bsl (String "u"%char (String a (String b (String c (String d s)))))).

Definition is_surrogate (u : Z) : bool := (55296 <=? u) && (u <=? 57343).

(** [utf16.DecodeRune]: the rune of a high and a low surrogate, [None] where
    Go returns U+FFFD. *)
Definition surrogate_pair (hi lo : Z) : option Z :=
  if (55296 <=? hi) && (hi <? 56320) && (56320 <=? lo) && (lo <? 57344)
  then Some ((hi - 55296) * 1024 + (lo - 56320) + 65536) else None.

(** The low surrogate escaped right after a high one, with what follows it. *)
Definition next_u4 (s : string) : option Z :=
  match s with
  | String b (String u (String h1 (String h2 (String h3 (String h4 _))))) =>
      if Ascii.eqb b bsl && Ascii.eqb u "u"%char then hex4 h1 h2 h3 h4 else None
  | _ => None
  end.

Definition pair_after (hi : Z) (s : string) : option Z :=
  match next_u4 s with Some lo => surrogate_pair hi lo | None => None end.

(** The Go string a literal stands for. *)
Fixpoint unquote (s : string) : string :=
  match s with
  | EmptyString => EmptyString
  | String c r =>
      if Ascii.eqb c bsl then
        match r with
        | EmptyString => EmptyString
        | String e r1 =>
            if Ascii.eqb e "u"%char then
              match r1 with
              | String h1 (String h2 (String h3 (String h4 r2))) =>
                  match hex4 h1 h2 h3 h4 with
                  | None => EmptyString
                  | Some u =>
                      if is_surrogate u then
                        match pair_after u r2, r2 with
                        | Some rr, String _ (String _ (String _ (String _ (String _ (String _ r3))))) =>
                            encode_rune rr +:+ unquote r3
                        | _, _ => rune_error +:+ unquote r2
                        end
                      else encode_rune u +:+ unquote r2
                  end
              | _ => EmptyString
              end
            else match simple_esc e with
                 | Some x => String x (unquote r1)
                 | None => EmptyString
                 end
        end
      else if code c <? 128 then String c (unquote r)
      else match rune_len s, r with
           | Some 2%nat, String c1 r1 => String c (String c1 (unquote r1))
           | Some 3%nat, String c1 (String c2 r2) => String c (String c1 (String c2 (unquote r2)))
           | Some 4%nat, String c1 (String c2 (String c3 r3)) =>
               String c (String c1 (String c2 (String c3 (unquote r3))))
           | _, _ => rune_error +:+ unquote r
           end
  end.

Definition u_esc (z : Z) : string :=
  String bsl (String "u"%char (String (hexdig (z / 4096)) (String (hexdig ((z / 256) mod 16))
    (String (hexdig ((z / 16) mod 16)) (str1 (hexdig (z mod 16))))))).

Definition is_html (c : ascii) : bool :=
  Ascii.eqb c "<"%char || Ascii.eqb c ">"%char || Ascii.eqb c "&"%char.

(** U+2028 and U+2029, as bytes E2 80 A8 and E2 80 A9. *)
Definition is_linesep (c0 c1 c2 : ascii) : bool :=
  (code c0 =? 226) && (code c1 =? 128) && ((code c2 =? 168) || (code c2 =? 169)).

Fixpoint html_escape (s : string) : string :=
  match s with
  | EmptyString => EmptyString
  | String c r =>
      if is_html c then u_esc (code c) +:+ html_escape r
      else match r with
           | String c1 (String c2 r2) =>
               if is_linesep c c1 c2 then u_esc (8064 + code c2) +:+ html_escape r2
               else String c (html_escape r)
           | _ => String c (html_escape r)
           end
  end.

(** The literal of one ASCII byte. *)
Definition quote_char (c : ascii) : string :=
  if Ascii.eqb c dq || Ascii.eqb c bsl then String bsl (str1 c)
  else if code c =? 8 then String bsl (str1 "b"%char)
  else if code c =? 12 then String bsl (str1 "f"%char)
  else if code c =? 10 then String bsl (str1 "n"%char)
  else if code c =? 13 then String bsl (str1 "r"%char)
  else if code c =? 9 then String bsl (str1 "t"%char)
  else if (code c <? 32) || is_html c then u_esc (code c)
  else str1 c.

(** The literal of a Go string. *)
Fixpoint quote (s : string) : string :=
  match s with
  | EmptyString => EmptyString
  | String c r =>
      if code c <? 128 then quote_char c +:+ quote r
      else match rune_len s, r with
           | Some 2%nat, String c1 r1 => String c (String c1 (quote r1))
           | Some 3%nat, String c1 (String c2 r2) =>
               if is_linesep c c1 c2 then u_esc (8064 + code c2) +:+ quote r2
               else String c (String c1 (String c2 (quote r2)))
           | Some 4%nat, String c1 (String c2 (String c3 r3)) =>
               String c (String c1 (String c2 (String c3 (quote r3))))
           | _, _ => u_esc 65533 +:+ quote r
           end
  end.

(** Well-formed UTF-8: every rune decodes. *)
Fixpoint utf8_valid (s : string) : bool :=
  match s with
  | EmptyString => true
  | String c r =>
      if code c <? 128 then utf8_valid r
      else match rune_len s, r with
           | Some 2%nat, String _ r1 => utf8_valid r1
           | Some 3%nat, String _ (String _ r2) => utf8_valid r2
           | Some 4%nat, String _ (String _ (String _ r3)) => utf8_valid r3
           | _, _ => false
           end
  end.

(** ** Scanning literals *)

Lemma eqb_dq_bsl : Ascii.eqb bsl dq = false.
Proof. done. Qed.

Lemma plain_tests c :
  is_plain c = true -> Ascii.eqb c dq = false /\ Ascii.eqb c bsl = false.
Proof. unfold is_plain. intros. bsplit. auto. Qed.

(** A scanned literal is well formed and is a prefix of the text, up to its
    closing quote. *)
Lemma scan_str_sound s l t :
  scan_str s = Some (l, t) -> str_lit l /\ s = l +:+ String dq t.
Proof.
  revert l t. induction s as [s IH] using string_len_ind; intros l t.
  destruct s as [|c r]; simpl; [done|].
  destruct (Ascii.eqb_spec c dq) as [->|Hq].
  { intros [= <- <-]. split; [constructor | done]. }
  destruct (Ascii.eqb_spec c bsl) as [->|Hb].
  - destruct r as [|e r1]; [done|].
    destruct (Ascii.eqb_spec e "u"%char) as [->|Hu].
    + destruct r1 as [|a [|b [|c' [|d r2]]]]; try done.
      destruct (hex4 a b c' d) eqn:Hx; [|done].
      destruct (scan_str r2) as [[l' t']|] eqn:Hs; [|done]. intros [= <- <-].
      apply IH in Hs as [Hl ->]; [|simpl; lia].
      split; [by econstructor | done].
    + destruct (simple_esc e) eqn:He; [|done].
      destruct (scan_str r1) as [[l' t']|] eqn:Hs; [|done]. intros [= <- <-].
      apply IH in Hs as [Hl ->]; [|simpl; lia].
      split; [econstructor; eauto; by apply Ascii.eqb_neq | done].
  - destruct (is_plain c) eqn:Hp; [|done].
    destruct (scan_str r) as [[l' t']|] eqn:Hs; [|done]. intros [= <- <-].
    apply IH in Hs as [Hl ->]; [|simpl; lia].
    split; [by constructor | done].
Qed.

(** Every well-formed literal is scanned back, whatever follows its quote. *)
Lemma scan_str_complete l t :
  str_lit l -> scan_str (l +:+ String dq t) = Some (l, t).
Proof.
  induction 1 as [|c s Hp _ IH|e x s Hu He _ IH|a b c d u s Hx _ IH]; simpl.
  - done.
  - destruct (plain_tests c Hp) as [-> ->]. by rewrite Hp, IH.
  - by rewrite Hu, He, IH.
  - by rewrite Hx, IH.
Qed.

Lemma str_lit_app l1 l2 : str_lit l1 -> str_lit l2 -> str_lit (l1 +:+ l2).
Proof.
  induction 1; simpl; intros; eauto using lit_plain, lit_esc, lit_uni.
Qed.

Ltac all_bytes := intros [[] [] [] [] [] [] [] []]; vm_compute; done.

Lemma lit_quote_char c : (code c <? 128) = true -> str_lit (quote_char c).
Proof.
  assert (scan_str (quote_char c +:+ str1 dq) = Some (quote_char c, "") \/ (code c <? 128) = false) as [H|H].
  { revert c. intros [[] [] [] [] [] [] [] []]; vm_compute; auto. }
  - intros _. by apply scan_str_sound in H as [? _].
  - congruence.
Qed.

Lemma lit_u_esc z : 0 <= z < 65536 -> str_lit (u_esc z).
Proof.
  intros Hz. unfold u_esc, str1.
  assert (forall d, 0 <= d < 16 -> exists x, hexval (hexdig d) = Some x) as Hd.
  { intros d Hd. unfold hexdig. assert (d < 10 \/ 10 <= d) as [|] by lia.
    - rewrite (proj2 (Z.ltb_lt _ _)) by done. unfold hexval, byte_in. rewrite code_chr by lia.
      rewrite (proj2 (Z.leb_le 48 _)), (proj2 (Z.leb_le _ 57)) by lia. eauto.
    - rewrite (proj2 (Z.ltb_ge _ _)) by done. unfold hexval, byte_in. rewrite code_chr by lia.
      rewrite (proj2 (Z.leb_gt _ 57)) by lia.
      rewrite (proj2 (Z.leb_le 97 _)), (proj2 (Z.leb_le _ 102)) by lia. rewrite andb_false_r. simpl. eauto. }
  destruct (Hd (z / 4096)) as [x1 H1]; [split; [apply Z.div_pos | apply Z.div_lt_upper_bound]; lia|].
  destruct (Hd ((z / 256) mod 16)) as [x2 H2]; [apply Z.mod_pos_bound; lia|].
  destruct (Hd ((z / 16) mod 16)) as [x3 H3]; [apply Z.mod_pos_bound; lia|].
  destruct (Hd (z mod 16)) as [x4 H4]; [apply Z.mod_pos_bound; lia|].
  eapply lit_uni; [|constructor]. unfold hex4. by rewrite H1, H2, H3, H4.
Qed.

Lemma high_plain c : (code c <? 128) = false -> is_plain c = true.
Proof. revert c. all_bytes. Qed.

(** Continuation bytes are above 127, so a multi-byte rune is plain text. *)
Lemma cont_high c : is_cont c = true -> (code c <? 128) = false.
Proof. unfold is_cont, byte_in. intros. bsplit. lia. Qed.

Lemma cont_sub lo hi c : 128 <= lo -> hi <= 191 -> byte_in lo hi c = true -> is_cont c = true.
Proof. unfold is_cont, byte_in. intros. bsplit. apply andb_true_iff. lia. Qed.

Lemma rune_len_parts c r n :
  (code c <? 128) = false -> rune_len (String c r) = Some n ->
  match n, r with
  | 2%nat, String c1 _ => is_cont c1 = true
  | 3%nat, String c1 (String c2 _) => is_cont c1 = true /\ is_cont c2 = true
  | 4%nat, String c1 (String c2 (String c3 _)) =>
      is_cont c1 = true /\ is_cont c2 = true /\ is_cont c3 = true
  | _, _ => False
  end.
Proof.
  intros Hc. unfold rune_len. rewrite Hc.
  destruct r as [|c1 r1]; [done|].
  destruct (byte_in 194 223 c).
  { destruct (is_cont c1) eqn:H1; [|done]. by intros [= <-]. }
  destruct (byte_in 224 239 c).
  { destruct r1 as [|c2 r2]; [done|].
    destruct (_ && _) eqn:Hb; [|done]. intros [= <-]. bsplit.
    split; [eapply cont_sub; try eassumption; repeat case_match; lia | done]. }
  destruct (byte_in 240 244 c); [|done].
  destruct r1 as [|c2 [|c3 r3]]; [done|done|].
  destruct (_ && _) eqn:Hb; [|done]. intros [= <-]. bsplit.
  repeat split; try done. eapply cont_sub; try eassumption; repeat case_match; lia.
Qed.

(** The decision [rune_len] takes reads only the bytes of the rune. *)
Lemma rune_len_local2 c c1 r r' :
  rune_len (String c (String c1 r)) = Some 2%nat -> rune_len (String c (String c1 r')) = Some 2%nat.
Proof.
  unfold rune_len. repeat case_match; simplify_eq; done.
Qed.

Lemma rune_len_local3 c c1 c2 r r' :
  rune_len (String c (String c1 (String c2 r))) = Some 3%nat ->
  rune_len (String c (String c1 (String c2 r'))) = Some 3%nat.
Proof. unfold rune_len. repeat case_match; simplify_eq; done. Qed.

Lemma rune_len_local4 c c1 c2 c3 r r' :
  rune_len (String c (String c1 (String c2 (String c3 r)))) = Some 4%nat ->
  rune_len (String c (String c1 (String c2 (String c3 r')))) = Some 4%nat.
Proof. unfold rune_len. repeat case_match; simplify_eq; done. Qed.

(** What [quote], [unquote] and [utf8_valid] do at a byte above 127: one lemma
    for the case split all their proofs share. *)
Inductive rune_view (c : ascii) (r : string) : Prop :=
| rv2 c1 r1 : r = String c1 r1 -> rune_len (String c r) = Some 2%nat ->
    is_cont c1 = true -> rune_view c r
| rv3 c1 c2 r2 : r = String c1 (String c2 r2) -> rune_len (String c r) = Some 3%nat ->
    is_cont c1 = true -> is_cont c2 = true -> rune_view c r
| rv4 c1 c2 c3 r3 : r = String c1 (String c2 (String c3 r3)) -> rune_len (String c r) = Some 4%nat ->
    is_cont c1 = true -> is_cont c2 = true -> is_cont c3 = true -> rune_view c r
| rvbad : rune_len (String c r) = None -> rune_view c r.

Lemma rune_viewP c r : (code c <? 128) = false -> rune_view c r.
Proof.
  intros Hc. destruct (rune_len (String c r)) as [n|] eqn:E; [|by apply rvbad].
  pose proof (rune_len_parts c r n Hc E) as Hp.
  destruct n as [|[|[|[|[|n]]]]]; try done; destruct r as [|c1 r]; try done.
  - by eapply rv2.
  - destruct r as [|c2 r]; [done|]. destruct Hp. by eapply rv3.
  - destruct r as [|c2 [|c3 r]]; try done. destruct Hp as (?&?&?). by eapply rv4.
Qed.

Lemma high_not_bsl c : (code c <? 128) = false -> Ascii.eqb c bsl = false.
Proof. revert c. all_bytes. Qed.

Lemma quote_cons_bad c r :
  (code c <? 128) = false -> rune_len (String c r) = None ->
  quote (String c r) = u_esc 65533 +:+ quote r.
Proof. intros Hc Hn. cbn [quote]. by rewrite Hc, Hn. Qed.

Lemma lit_quote s : str_lit (quote s).
Proof.
  induction s as [s IH] using string_len_ind. destruct s as [|c r]; [constructor|].
  destruct (code c <? 128) eqn:Hc.
  { cbn [quote]. rewrite Hc. apply str_lit_app; [by apply lit_quote_char|]. apply IH; simpl; lia. }
  destruct (rune_viewP c r Hc) as [c1 r1 -> Hn|c1 c2 r2 -> Hn|c1 c2 c3 r3 -> Hn|Hn];
    [cbn [quote]; rewrite Hc, Hn..|].
  - do 2 (apply lit_plain; [by auto using high_plain, cont_high|]). apply IH; simpl; lia.
  - destruct (is_linesep c c1 c2) eqn:Hl.
    + apply str_lit_app; [|apply IH; simpl; lia]. apply lit_u_esc. pose proof (code_range c2). lia.
    + do 3 (apply lit_plain; [by auto using high_plain, cont_high|]). apply IH; simpl; lia.
  - do 4 (apply lit_plain; [by auto using high_plain, cont_high|]). apply IH; simpl; lia.
  - rewrite quote_cons_bad by done. apply str_lit_app; [by apply lit_u_esc|]. apply IH; simpl; lia.
Qed.

Lemma unquote_quote_char c r :
  (code c <? 128) = true -> unquote (quote_char c +:+ r) = String c (unquote r).
Proof. revert c. intros [[] [] [] [] [] [] [] []]; intros H; first [discriminate H | reflexivity]. Qed.

Lemma linesep_bytes c c1 c2 :
  is_linesep c c1 c2 = true -> c = chr 226 /\ c1 = chr 128 /\ (c2 = chr 168 \/ c2 = chr 169).
Proof.
  unfold is_linesep. intros. bsplit.
  apply orb_true_iff in H0. rewrite !Z.eqb_eq in *.
  repeat split; try destruct H0; try (left; apply code_inj; by rewrite H0);
    try (right; apply code_inj; by rewrite H0); apply code_inj; by rewrite ?H, ?H1.
Qed.

Lemma unquote_linesep c c1 c2 r :
  is_linesep c c1 c2 = true ->
  unquote (u_esc (8064 + code c2) +:+ r) = String c (String c1 (String c2 (unquote r))).
Proof. intros (-> & -> & [->| ->])%linesep_bytes; reflexivity. Qed.

(** Decoding the literal the encoder writes gives the string back, for every
    well-formed UTF-8 string. *)
Lemma unquote_quote s : utf8_valid s = true -> unquote (quote s) = s.
Proof.
  induction s as [s IH] using string_len_ind. destruct s as [|c r]; [done|].
  destruct (code c <? 128) eqn:Hc.
  { cbn [quote utf8_valid]. rewrite Hc. intros Hv.
    rewrite unquote_quote_char, IH; simpl; auto. }
  pose proof (high_not_bsl c Hc) as Hb.
  destruct (rune_viewP c r Hc) as [c1 r1 -> Hn|c1 c2 r2 -> Hn|c1 c2 c3 r3 -> Hn|Hn];
    cbn [quote utf8_valid]; rewrite Hc, Hn; intros Hv; [..|done].
  - cbn [unquote]. rewrite Hb, Hc, (rune_len_local2 _ _ _ _ Hn), IH; simpl; auto; lia.
  - destruct (is_linesep c c1 c2) eqn:Hl.
    + rewrite (unquote_linesep c c1 c2), IH; simpl; auto; lia.
    + cbn [unquote]. rewrite Hb, Hc, (rune_len_local3 _ _ _ _ _ Hn), IH; simpl; auto; lia.
  - cbn [unquote]. rewrite Hb, Hc, (rune_len_local4 _ _ _ _ _ _ Hn), IH; simpl; auto; lia.
Qed.

(** ** HTML escaping inside a raw message keeps the value *)

Lemma html_plain_cons c r :
  is_html c = false -> code c <> 226 -> html_escape (String c r) = String c (html_escape r).
Proof.
  intros Hh Hc. cbn [html_escape]. rewrite Hh. unfold is_linesep.
  rewrite (proj2 (Z.eqb_neq _ _) Hc). by destruct r as [|? [|? ?]].
Qed.

Lemma html_nosep_cons c c1 c2 r :
  is_html c = false -> is_linesep c c1 c2 = false ->
  html_escape (String c (String c1 (String c2 r))) = String c (html_escape (String c1 (String c2 r))).
Proof. intros Hh Hl. cbn [html_escape]. by rewrite Hh, Hl. Qed.

Lemma cont_not_html c : is_cont c = true -> is_html c = false /\ code c <> 226.
Proof.
  unfold is_cont, byte_in. intros. bsplit. split; [|lia].
  unfold is_html. destruct (Ascii.eqb_spec c "<"%char), (Ascii.eqb_spec c ">"%char),
    (Ascii.eqb_spec c "&"%char); subst; simpl in *; try done; lia.
Qed.

Lemma html_cont c r : is_cont c = true -> html_escape (String c r) = String c (html_escape r).
Proof. intros [? ?]%cont_not_html. by apply html_plain_cons. Qed.

Lemma html_lit_tests :
  (forall e x, simple_esc e = Some x -> is_html e = false /\ code e <> 226) /\
  (forall h x, hexval h = Some x -> is_html h = false /\ code h <> 226) /\
  is_html bsl = false /\ code bsl <> 226 /\ is_html "u"%char = false /\ code "u"%char <> 226.
Proof.
  repeat split; try done; intros; generalize dependent x; try revert e; try revert h;
    intros [[] [] [] [] [] [] [] []]; vm_compute; done.
Qed.

Lemma high_not_html c : (code c <? 128) = false -> is_html c = false.
Proof. revert c. all_bytes. Qed.

(** The first continuation byte of an escaped text is the one of the text. *)
Lemma html_head r d t :
  html_escape r = String d t -> is_cont d = true -> exists r1, r = String d r1 /\ t = html_escape r1.
Proof.
  destruct r as [|c r]; [done|]. cbn [html_escape].
  destruct (is_html c); [intros [= <- _]; done|].
  destruct r as [|c1 [|c2 r2]]; try (intros [= <- <-]; eauto).
  destruct (is_linesep c c1 c2); [intros [= <- _]; done|]. intros [= <- <-]; eauto.
Qed.

(** E2, the lead byte of U+2028 and U+2029, leads three-byte runes only. *)
Lemma rune_len_e2 c r n : code c = 226 -> rune_len (String c r) = Some n -> n = 3%nat.
Proof.
  intros Hc. assert (c = chr 226) as -> by by apply code_inj.
  unfold rune_len. simpl. repeat case_match; intros; simplify_eq; done.
Qed.

Lemma rune_len_linesep c c1 c2 r :
  is_linesep c c1 c2 = true -> rune_len (String c (String c1 (String c2 r))) = Some 3%nat.
Proof. by intros (-> & -> & [->| ->])%linesep_bytes. Qed.

Lemma html_bad_head c r :
  (code c <? 128) = false -> rune_len (String c r) = None ->
  html_escape (String c r) = String c (html_escape r) /\
  rune_len (String c (html_escape r)) = None.
Proof.
  intros Hc Hn. split.
  { cbn [html_escape]. rewrite high_not_html by done.
    destruct r as [|c1 [|c2 r2]]; [done|done|].
    destruct (is_linesep c c1 c2) eqn:Hl; [|done].
    by rewrite (rune_len_linesep _ _ _ r2 Hl) in Hn. }
  destruct (rune_viewP c (html_escape r) Hc) as [c1 r1 E Hm H1|c1 c2 r2 E Hm H1 H2|c1 c2 c3 r3 E Hm H1 H2 H3|Hm];
    [exfalso..|done]; rewrite E in Hm; apply html_head in E as (q & -> & E); try done.
  - by rewrite (rune_len_local2 _ _ _ q Hm) in Hn.
  - symmetry in E. apply html_head in E as (q' & -> & E); [|done].
    by rewrite (rune_len_local3 _ _ _ _ q' Hm) in Hn.
  - symmetry in E. apply html_head in E as (q' & -> & E); [|done].
    symmetry in E. apply html_head in E as (q'' & -> & E); [|done].
    by rewrite (rune_len_local4 _ _ _ _ _ q'' Hm) in Hn.
Qed.

Lemma hex4_digits a b c d u :
  hex4 a b c d = Some u ->
  exists x y z w, hexval a = Some x /\ hexval b = Some y /\ hexval c = Some z /\ hexval d = Some w.
Proof.
  unfold hex4. destruct (hexval a), (hexval b), (hexval c), (hexval d); intros [=]; eauto 10.
Qed.

Lemma html_uni a b c d u s :
  hex4 a b c d = Some u ->
  html_escape (String bsl (String "u"%char (String a (String b (String c (String d s)))))) =
  String bsl (String "u"%char (String a (String b (String c (String d (html_escape s)))))).
Proof.
  intros (x & y & z & w & Ha & Hb & Hc & Hd)%hex4_digits.
  destruct html_lit_tests as (_ & Hhex & ? & ? & ? & ?).
  destruct (Hhex _ _ Ha), (Hhex _ _ Hb), (Hhex _ _ Hc), (Hhex _ _ Hd).
  by rewrite !html_plain_cons by done.
Qed.

Lemma html_esc e x s :
  simple_esc e = Some x ->
  html_escape (String bsl (String e s)) = String bsl (String e (html_escape s)).
Proof.
  intros He. destruct html_lit_tests as (Hs & _ & ? & ? & _). destruct (Hs _ _ He).
  by rewrite !html_plain_cons by done.
Qed.

Lemma next_u4_not_bsl c r : Ascii.eqb c bsl = false -> next_u4 (String c r) = None.
Proof. intros H. simpl. rewrite H. by destruct r as [|? [|? [|? [|? [|? ?]]]]]. Qed.

Lemma surrogate_pair_low hi lo : lo < 56320 -> surrogate_pair hi lo = None.
Proof.
  intros. unfold surrogate_pair. rewrite (proj2 (Z.leb_gt 56320 lo)) by lia.
  by rewrite andb_false_r.
Qed.

(** The escapes [html_escape] writes. *)
Lemma next_u4_html c t : is_html c = true -> next_u4 (u_esc (code c) +:+ t) = Some (code c).
Proof. unfold is_html. rewrite !orb_true_iff, !Ascii.eqb_eq. by intros [[->| ->]| ->]. Qed.

Lemma next_u4_linesep c c1 c2 t :
  is_linesep c c1 c2 = true -> next_u4 (u_esc (8064 + code c2) +:+ t) = Some (8064 + code c2).
Proof. by intros (_ & _ & [->| ->])%linesep_bytes. Qed.

(** Escaping introduces no low surrogate after a high one. *)
Lemma pair_after_html hi s : str_lit s -> pair_after hi (html_escape s) = pair_after hi s.
Proof.
  unfold pair_after. intros Hs. inversion Hs as [|c r Hp Hr E|e x r Hu He Hr E|a b c d u r Hx Hr E]; subst.
  - done.
  - destruct (plain_tests c Hp) as [_ Hb]. rewrite (next_u4_not_bsl c r Hb).
    cbn [html_escape]. destruct (is_html c) eqn:Hh.
    { rewrite next_u4_html by done. apply surrogate_pair_low. pose proof (code_range c). lia. }
    destruct r as [|c1 [|c2 r2]]; try by rewrite next_u4_not_bsl.
    destruct (is_linesep c c1 c2) eqn:Hl; [|by rewrite next_u4_not_bsl].
    rewrite (next_u4_linesep c c1 c2) by done. apply surrogate_pair_low. pose proof (code_range c2). lia.
  - rewrite (html_esc _ _ _ He). simpl. rewrite Hu.
    destruct (html_escape r) as [|? [|? [|? [|? ?]]]], r as [|? [|? [|? [|? ?]]]]; done.
  - by rewrite (html_uni _ _ _ _ _ _ Hx).
Qed.

Lemma lit_tail_high c s : (code c <? 128) = false -> str_lit (String c s) -> str_lit s.
Proof.
  intros Hc Hl. inversion Hl; subst; try done; by apply high_not_bsl in Hc.
Qed.

Lemma lit_html s : str_lit s -> str_lit (html_escape s).
Proof.
  induction s as [s IH] using string_len_ind; intros Hs.
  inversion Hs as [|c r Hp Hr E|e x r Hu He Hr E|a b c d u r Hx Hr E]; subst.
  - constructor.
  - destruct (is_html c) eqn:Hh.
    { cbn [html_escape]. rewrite Hh. apply str_lit_app; [|apply IH; simpl; auto].
      apply lit_u_esc. pose proof (code_range c). lia. }
    destruct r as [|c1 [|c2 r2]].
    { cbn [html_escape]. rewrite Hh. by apply lit_plain. }
    { change (String c1 "") with (str1 c1) in *.
      assert (html_escape (String c (str1 c1)) = String c (html_escape (str1 c1))) as ->
        by (unfold str1; cbn [html_escape]; by rewrite Hh).
      apply lit_plain; [done|]. apply IH; [simpl; lia | done]. }
    destruct (is_linesep c c1 c2) eqn:Hl.
    + cbn [html_escape]. rewrite Hh, Hl. apply linesep_bytes in Hl as (-> & -> & Hc2).
      apply str_lit_app; [destruct Hc2 as [->| ->]; by apply lit_u_esc|].
      apply IH; [simpl; lia|]. apply (lit_tail_high c2); [by destruct Hc2 as [->| ->]|].
      by apply (lit_tail_high (chr 128)).
    + rewrite html_nosep_cons by done. apply lit_plain; [done|]. apply IH; [simpl; lia | done].
  - rewrite (html_esc _ _ _ He). eapply lit_esc; eauto. apply IH; [simpl; lia | done].
  - rewrite (html_uni _ _ _ _ _ _ Hx). eapply lit_uni; eauto. apply IH; [simpl; lia | done].
Qed.

Lemma unquote_html_char c r : is_html c = true -> unquote (u_esc (code c) +:+ r) = String c (unquote r).
Proof.
  unfold is_html. rewrite !orb_true_iff, !Ascii.eqb_eq. by intros [[->| ->]| ->].
Qed.

Lemma unquote_html s : str_lit s -> unquote (html_escape s) = unquote s.
Proof.
  induction s as [s IH] using string_len_ind; intros Hs.
  inversion Hs as [|c r Hp Hr E|e x r Hu He Hr E|a b c d u r Hx Hr E]; subst.
  - done.
  - destruct (plain_tests c Hp) as [_ Hb]. destruct (code c <? 128) eqn:Hc.
    { transitivity (String c (unquote r)); [|cbn [unquote]; by rewrite Hb, Hc].
      destruct (is_html c) eqn:Hh.
      - cbn [html_escape]. rewrite Hh, unquote_html_char, IH; simpl; auto.
      - rewrite html_plain_cons by (done || lia). cbn [unquote]. rewrite Hb, Hc, IH; simpl; auto. }
    destruct (rune_viewP c r Hc) as [c1 r1 -> Hn H1|c1 c2 r2 -> Hn H1 H2|c1 c2 c3 r3 -> Hn H1 H2 H3|Hn].
    + assert (Hr1 : str_lit r1) by (apply (lit_tail_high c1); auto using cont_high).
      assert (code c <> 226) by (intros E2; by apply rune_len_e2 in Hn).
      rewrite html_plain_cons, html_cont by auto using high_not_html.
      cbn [unquote]. rewrite Hb, Hc, Hn, (rune_len_local2 _ _ _ _ Hn), IH; simpl; auto; lia.
    + assert (Hr2 : str_lit r2) by (apply (lit_tail_high c2), (lit_tail_high c1); auto using cont_high).
      destruct (is_linesep c c1 c2) eqn:Hl.
      * cbn [html_escape]. rewrite high_not_html, Hl by done. rewrite (unquote_linesep c c1 c2) by done.
        cbn [unquote]. rewrite Hb, Hc, Hn, IH; simpl; auto; lia.
      * rewrite html_nosep_cons, !html_cont by auto using high_not_html.
        cbn [unquote]. rewrite Hb, Hc, Hn, (rune_len_local3 _ _ _ _ _ Hn), IH; simpl; auto; lia.
    + assert (Hr3 : str_lit r3) by (apply (lit_tail_high c3), (lit_tail_high c2), (lit_tail_high c1); auto using cont_high).
      assert (code c <> 226) by (intros E2; by apply rune_len_e2 in Hn).
      rewrite html_plain_cons, !html_cont by auto using high_not_html.
      cbn [unquote]. rewrite Hb, Hc, Hn, (rune_len_local4 _ _ _ _ _ _ Hn), IH; simpl; auto; lia.
    + destruct (html_bad_head c r Hc Hn) as [-> Hn'].
      cbn [unquote]. rewrite Hb, Hc, Hn, Hn', IH; simpl; auto.
  - rewrite (html_esc _ _ _ He). simpl. rewrite Hu, He. rewrite IH; simpl; auto.
  - rewrite (html_uni _ _ _ _ _ _ Hx). simpl. rewrite Hx.
    destruct (is_surrogate u); [|rewrite IH; simpl; auto; lia].
    rewrite pair_after_html by done.
    unfold pair_after. destruct (next_u4 r) as [lo|] eqn:Hnx; [|rewrite IH; simpl; auto; lia].
    destruct (surrogate_pair u lo); [|rewrite IH; simpl; auto; lia].
    inversion Hr as [|c' r' Hp'|e' x' r' Hu'|a' b' c' d' u' r' Hx' Hr']; subst; simpl in Hnx; try done.
    + destruct (plain_tests c' Hp') as [_ Hb']. rewrite Hb' in Hnx.
      by destruct r' as [|? [|? [|? [|? [|? ?]]]]].
    + rewrite Hu' in Hnx. by destruct r' as [|? [|? [|? [|? ?]]]].
    + rewrite (html_uni _ _ _ _ _ _ Hx'), IH; simpl; auto; lia.
Qed.

(** ** Decoded strings are well-formed UTF-8 *)

Lemma byte_in_chr lo hi z : 0 <= z < 256 -> lo <= z <= hi -> byte_in lo hi (chr z) = true.
Proof. intros. unfold byte_in. rewrite code_chr by done. apply andb_true_iff. lia. Qed.

Lemma byte_in_chr_no lo hi z : 0 <= z < 256 -> z < lo \/ hi < z -> byte_in lo hi (chr z) = false.
Proof. intros. unfold byte_in. rewrite code_chr by done. apply andb_false_iff. lia. Qed.

Lemma high_chr z : 128 <= z < 256 -> (code (chr z) <? 128) = false.
Proof. intros. rewrite code_chr; lia. Qed.

#[local] Ltac Zify.zify_post_hook ::= Z.div_mod_to_equations.

Lemma utf8_encode_rune r t : 0 <= r -> utf8_valid (encode_rune r +:+ t) = utf8_valid t.
Proof.
  intros Hr. unfold encode_rune, str1.
  destruct (Z.ltb_spec r 128).
  { cbn. rewrite code_chr by lia. by rewrite (proj2 (Z.ltb_lt r 128)). }
  destruct (Z.ltb_spec r 2048).
  { cbn [append utf8_valid]. rewrite high_chr by lia. unfold rune_len. rewrite high_chr by lia.
    unfold is_cont. by rewrite !byte_in_chr by lia. }
  destruct (((55296 <=? r) && (r <=? 57343)) || (1114111 <? r)) eqn:Hs; [done|].
  apply orb_false_iff in Hs as [Hs%andb_false_iff Hm].
  destruct (Z.ltb_spec r 65536).
  - cbn [append utf8_valid]. rewrite high_chr by lia. unfold rune_len. rewrite high_chr by lia.
    rewrite (byte_in_chr_no 194 223), (byte_in_chr 224 239) by lia.
    rewrite code_chr by lia. unfold is_cont.
    rewrite (byte_in_chr (if 224 + r / 4096 =? 224 then 160 else 128)), (byte_in_chr 128) by (repeat case_match; lia). done.
  - cbn [append utf8_valid]. rewrite high_chr by lia. unfold rune_len. rewrite high_chr by lia.
    rewrite (byte_in_chr_no 194 223), (byte_in_chr_no 224 239), (byte_in_chr 240 244) by lia.
    rewrite code_chr by lia. unfold is_cont.
    rewrite (byte_in_chr (if 240 + r / 262144 =? 240 then 144 else 128)), !(byte_in_chr 128) by (repeat case_match; lia). done.
Qed.

#[local] Ltac Zify.zify_post_hook ::= idtac.

Lemma hex4_nonneg a b c d u : hex4 a b c d = Some u -> 0 <= u.
Proof.
  assert (forall h x, hexval h = Some x -> 0 <= x) as Hh.
  { intros h x. unfold hexval, byte_in. repeat case_match; intros; simplify_eq; bsplit; lia. }
  unfold hex4. destruct (hexval a) eqn:Ha, (hexval b) eqn:Hb, (hexval c) eqn:Hc, (hexval d) eqn:Hd; try done.
  apply Hh in Ha, Hb, Hc, Hd. intros [= <-]. lia.
Qed.

Lemma simple_esc_ascii e x : simple_esc e = Some x -> (code x <? 128) = true.
Proof. unfold simple_esc. repeat case_match; intros; simplify_eq; done. Qed.

Lemma utf8_unquote s : utf8_valid (unquote s) = true.
Proof.
  induction s as [s IH] using string_len_ind. destruct s as [|c r]; [done|].
  cbn [unquote]. destruct (Ascii.eqb c bsl) eqn:Hb.
  - destruct r as [|e r1]; [done|]. destruct (Ascii.eqb e "u"%char).
    + destruct r1 as [|h1 [|h2 [|h3 [|h4 r2]]]]; try done.
      destruct (hex4 h1 h2 h3 h4) as [u|] eqn:Hx; [|done]. apply hex4_nonneg in Hx.
      assert (utf8_valid (rune_error +:+ unquote r2) = true) as Herr
        by (unfold rune_error; rewrite utf8_encode_rune by lia; apply IH; simpl; lia).
      destruct (is_surrogate u); [|rewrite utf8_encode_rune by done; apply IH; simpl; lia].
      destruct (pair_after u r2) as [rr|] eqn:Hp; [|done].
      destruct r2 as [|? [|? [|? [|? [|? [|? r3]]]]]]; try done.
      rewrite utf8_encode_rune; [apply IH; simpl; lia|].
      unfold pair_after, surrogate_pair in Hp. repeat case_match; simplify_eq; bsplit; lia.
    + destruct (simple_esc e) as [x|] eqn:He; [|done]. apply simple_esc_ascii in He.
      cbn [utf8_valid]. rewrite He. apply IH; simpl; lia.
  - destruct (code c <? 128) eqn:Hc; [cbn [utf8_valid]; rewrite Hc; apply IH; simpl; lia|].
    destruct (rune_viewP c r Hc) as [c1 r1 -> Hn|c1 c2 r2 -> Hn|c1 c2 c3 r3 -> Hn|Hn]; rewrite Hn.
    + cbn [utf8_valid]. rewrite Hc, (rune_len_local2 _ _ _ _ Hn). apply IH; simpl; lia.
    + cbn [utf8_valid]. rewrite Hc, (rune_len_local3 _ _ _ _ _ Hn). apply IH; simpl; lia.
    + cbn [utf8_valid]. rewrite Hc, (rune_len_local4 _ _ _ _ _ _ Hn). apply IH; simpl; lia.
    + unfold rune_error. rewrite utf8_encode_rune by lia. apply IH; simpl; lia.
Qed.

#[export] Hint Resolve lit_quote lit_html utf8_unquote : ff.
