(* ===== verification/Json.v ===== *)
(** JSON texts as [encoding/json] reads and writes them.

    A document ([jdoc]) is a syntax tree that keeps number and string literals
    as they are spelled (a string literal without its quotes) and drops the
    white space between tokens.  [scan] is the scanner ([checkValid] and the
    value walk of [decode.go]); [print] writes a document without white space,
    as [appendCompact] does.  The theorems are that scanning a printed
    document gives it back and that a scanned document is well formed.  The
    decoder's limit of 10000 nested values is not modelled. *)
From stdpp Require Import base list strings numbers.
From Stdlib Require Import Ascii String ZArith Lia.
From S2P Require Import Prelude Text Literal.

Unset Elimination Schemes.
Inductive jdoc : Type :=
| JNull
| JBool (b : bool)
| JNum (lit : string)
| JStr (lit : string)
| JArr (l : list jdoc)
| JObj (m : list (string * jdoc)).
Set Elimination Schemes.

(** Induction over the elements of arrays and the members of objects. *)
Section jdoc_ind.
Variable P : jdoc -> Prop.
Hypothesis P_null : P JNull.
Hypothesis P_bool : forall b, P (JBool b).
Hypothesis P_num : forall l, P (JNum l).
Hypothesis P_str : forall l, P (JStr l).
Hypothesis P_arr : forall l, Forall P l -> P (JArr l).
Hypothesis P_obj : forall m, Forall (fun kv => P kv.2) m -> P (JObj m).

Fixpoint jdoc_ind (d : jdoc) : P d :=
  match d with
  | JNull => P_null
  | JBool b => P_bool b
  | JNum l => P_num l
  | JStr l => P_str l
  | JArr l => P_arr l ((fix go (l : list jdoc) : Forall P l :=
      match l with [] => Forall_nil_2 _ | d :: l => Forall_cons_2 _ _ _ (jdoc_ind d) (go l) end) l)
  | JObj m => P_obj m ((fix go (m : list (string * jdoc)) : Forall (fun kv => P kv.2) m :=
      match m with [] => Forall_nil_2 _ | kv :: m => Forall_cons_2 _ _ _ (jdoc_ind kv.2) (go m) end) m)
  end.
End jdoc_ind.

(** ** Printing *)

Fixpoint sep_by (sep : ascii) (l : list string) : string :=
  match l with
  | [] => ""
  | [x] => x
  | x :: l' => x +:+ String sep (sep_by sep l')
  end.

Definition in_quotes (lit : string) : string := String dq (lit +:+ str1 dq).

Fixpoint print (d : jdoc) : string :=
  match d with
  | JNull => "null"
  | JBool true => "true"
  | JBool false => "false"
  | JNum lit => lit
  | JStr lit => in_quotes lit
  | JArr l => String "["%char (sep_by ","%char (map print l) +:+ "]")
  | JObj m => String "{"%char
      (sep_by ","%char (map (fun kv => in_quotes kv.1 +:+ String ":"%char (print kv.2)) m) +:+ "}")
  end.

(** ** Scanning *)

Definition is_ws (c : ascii) : bool :=
  (code c =? 32) || (code c =? 9) || (code c =? 10) || (code c =? 13).

Fixpoint skip_ws (s : string) : string :=
  match s with
  | String c r => if is_ws c then skip_ws r else s
  | EmptyString => EmptyString
  end.

Fixpoint take_digits (s : string) : string * string :=
  match s with
  | String c r => if is_digit c then let '(d, t) := take_digits r in (String c d, t) else ("", s)
  | EmptyString => ("", "")
  end.

Definition take_char (c : ascii) (s : string) : string * string :=
  match s with
  | String d r => if Ascii.eqb c d then (str1 c, r) else ("", s)
  | EmptyString => ("", "")
  end.

(** The integer part: [0] or a digit 1-9 and more digits. *)
Definition scan_int (s : string) : option (string * string) :=
  match s with
  | String c r =>
      if Ascii.eqb c "0"%char then Some (str1 c, r)
      else if is_digit c then Some (take_digits s)
      else None
  | EmptyString => None
  end.

(** The optional fraction: a dot and at least one digit. *)
Definition scan_frac (s : string) : option (string * string) :=
  match s with
  | String c r =>
      if Ascii.eqb c "."%char then
        match take_digits r with
        | (EmptyString, _) => None
        | (d, t) => Some (String c d, t)
        end
      else Some ("", s)
  | EmptyString => Some ("", "")
  end.

Definition is_sign (c : ascii) : bool := Ascii.eqb c "+"%char || Ascii.eqb c "-"%char.
Definition take_sign (s : string) : string * string :=
  match s with
  | String c r => if is_sign c then (str1 c, r) else ("", s)
  | EmptyString => ("", "")
  end.

(** The optional exponent. *)
Definition scan_exp (s : string) : option (string * string) :=
  match s with
  | String c r =>
      if Ascii.eqb c "e"%char || Ascii.eqb c "E"%char then
        let '(sg, r1) := take_sign r in
        match take_digits r1 with
        | (EmptyString, _) => None
        | (d, t) => Some (String c (sg +:+ d), t)
        end
      else Some ("", s)
  | EmptyString => Some ("", "")
  end.

Definition scan_num (s : string) : option (string * string) :=
  let '(m, s0) := take_char "-"%char s in
  match scan_int s0 with
  | None => None
  | Some (i, s1) =>
      match scan_frac s1 with
      | None => None
      | Some (f, s2) =>
          match scan_exp s2 with
          | None => None
          | Some (e, s3) => Some (m +:+ i +:+ f +:+ e, s3)
          end
      end
  end.

(** Values, array elements and object members.  Each recursive call reads at
    least one byte, so the length of the text is enough fuel. *)
Fixpoint scan_value (fuel : nat) (s : string) : option (jdoc * string) :=
  match fuel with
  | O => None
  | S f =>
      match skip_ws s with
      | EmptyString => None
      | String c r =>
          if Ascii.eqb c dq then
            match scan_str r with Some (l, t) => Some (JStr l, t) | None => None end
          else if Ascii.eqb c "["%char then
            match skip_ws r with
            | String c' r' =>
                if Ascii.eqb c' "]"%char then Some (JArr [], r')
                else match scan_elems f r with Some (l, t) => Some (JArr l, t) | None => None end
            | EmptyString => None
            end
          else if Ascii.eqb c "{"%char then
            match skip_ws r with
            | String c' r' =>
                if Ascii.eqb c' "}"%char then Some (JObj [], r')
                else match scan_members f r with Some (m, t) => Some (JObj m, t) | None => None end
            | EmptyString => None
            end
          else if hasPrefix (String c r) "null" then Some (JNull, drop_prefix (String c r) "null")
          else if hasPrefix (String c r) "true" then Some (JBool true, drop_prefix (String c r) "true")
          else if hasPrefix (String c r) "false" then Some (JBool false, drop_prefix (String c r) "false")
          else match scan_num (String c r) with Some (l, t) => Some (JNum l, t) | None => None end
      end
  end
with scan_elems (fuel : nat) (s : string) : option (list jdoc * string) :=
  match fuel with
  | O => None
  | S f =>
      match scan_value f s with
      | None => None
      | Some (d, t) =>
          match skip_ws t with
          | EmptyString => None
          | String c r =>
              if Ascii.eqb c "]"%char then Some ([d], r)
              else if Ascii.eqb c ","%char then
                match scan_elems f r with Some (l, t') => Some (d :: l, t') | None => None end
              else None
          end
      end
  end
with scan_members (fuel : nat) (s : string) : option (list (string * jdoc) * string) :=
  match fuel with
  | O => None
  | S f =>
      match skip_ws s with
      | String q r =>
          if Ascii.eqb q dq then
            match scan_str r with
            | None => None
            | Some (k, t) =>
                match skip_ws t with
                | String c r1 =>
                    if Ascii.eqb c ":"%char then
                      match scan_value f r1 with
                      | None => None
                      | Some (d, t1) =>
                          match skip_ws t1 with
                          | EmptyString => None
                          | String c' r2 =>
                              if Ascii.eqb c' "}"%char then Some ([(k, d)], r2)
                              else if Ascii.eqb c' ","%char then
                                match scan_members f r2 with
                                | Some (m, t') => Some ((k, d) :: m, t')
                                | None => None
                                end
                              else None
                          end
                      end
                    else None
                | EmptyString => None
                end
            end
          else None
      | EmptyString => None
      end
  end.

(** A whole text: one value between white space. *)
Definition scan (s : string) : option jdoc :=
  match scan_value (S (String.length s)) s with
  | Some (d, t) => match skip_ws t with EmptyString => Some d | _ => None end
  | None => None
  end.

(** ** Well-formed documents *)

Definition num_lit (l : string) : Prop := scan_num l = Some (l, "").

Fixpoint wf_doc (d : jdoc) : Prop :=
  match d with
  | JNull | JBool _ => True
  | JNum l => num_lit l
  | JStr l => str_lit l
  | JArr l => foldr (fun d P => wf_doc d /\ P) True l
  | JObj m => foldr (fun kv P => (str_lit kv.1 /\ wf_doc kv.2) /\ P) True m
  end.

(** ** Number literals *)

(** [head_ok p t]: [t] is empty or starts with a byte that satisfies [p]. *)
Definition head_ok (p : ascii -> bool) (t : string) : Prop :=
  match t with EmptyString => True | String c _ => p c = true end.

Definition no_digit (c : ascii) : bool := negb (is_digit c).
Definition no_exp (c : ascii) : bool :=
  negb (is_digit c) && negb (Ascii.eqb c "e"%char || Ascii.eqb c "E"%char).
Definition no_num (c : ascii) : bool := no_exp c && negb (Ascii.eqb c "."%char).

Lemma head_ok_impl (p q : ascii -> bool) t :
  (forall c, p c = true -> q c = true) -> head_ok p t -> head_ok q t.
Proof. destruct t; simpl; auto. Qed.

Lemma no_exp_digit c : no_exp c = true -> no_digit c = true.
Proof. by intros [? _]%andb_true_iff. Qed.
Lemma no_num_exp c : no_num c = true -> no_exp c = true.
Proof. by intros [? _]%andb_true_iff. Qed.
Lemma no_num_dot c : no_num c = true -> negb (Ascii.eqb c "."%char) = true.
Proof. by intros [_ ?]%andb_true_iff. Qed.

Lemma take_digits_spec s d t :
  take_digits s = (d, t) ->
  s = d +:+ t /\ head_ok no_digit t /\
  (forall t', head_ok no_digit t' -> take_digits (d +:+ t') = (d, t')).
Proof.
  revert d t. induction s as [|c s IH]; intros d t; cbn [take_digits].
  - intros [= <- <-]. repeat split. intros [|c t']; [done|]. cbn. unfold no_digit.
    by intros ->%negb_true_iff.
  - destruct (is_digit c) eqn:Hc.
    + destruct (take_digits s) as [d' t0] eqn:E. intros [= <- <-].
      destruct (IH d' t0 eq_refl) as (-> & Ht & Hr). repeat split; [done|].
      intros t' Ht'. cbn. by rewrite Hc, (Hr t' Ht').
    + intros [= <- <-]. repeat split.
      * cbn. unfold no_digit. by rewrite Hc.
      * intros [|c' t']; [done|]. cbn. unfold no_digit. by intros ->%negb_true_iff.
Qed.

Lemma scan_int_spec s i t :
  scan_int s = Some (i, t) ->
  s = i +:+ t /\ (exists c i', i = String c i' /\ is_digit c = true) /\
  (forall t', head_ok no_digit t' -> scan_int (i +:+ t') = Some (i, t')).
Proof.
  destruct s as [|c s]; [done|]. cbn [scan_int].
  destruct (Ascii.eqb_spec c "0"%char) as [->|Hc].
  - intros [= <- <-]. repeat split; eauto.
  - destruct (is_digit c) eqn:Hd; [|done]. destruct (take_digits (String c s)) as [d t0] eqn:E.
    intros [= <- <-]. pose proof E as (-> & Ht & Hr)%take_digits_spec.
    assert (exists d', d = String c d') as [d' ->].
    { cbn in E. rewrite Hd in E. destruct (take_digits s). injection E as <- _. eauto. }
    repeat split; [eauto|].
    intros t' Ht'. cbn [append scan_int]. destruct (Ascii.eqb_spec c "0"%char); [done|].
    rewrite Hd. f_equal. exact (Hr t' Ht').
Qed.

Lemma scan_frac_spec s f t :
  scan_frac s = Some (f, t) ->
  s = f +:+ t /\ (f = "" \/ exists f', f = String "."%char f') /\
  (forall t', head_ok no_digit t' -> head_ok (fun c => negb (Ascii.eqb c "."%char)) t' ->
     scan_frac (f +:+ t') = Some (f, t')).
Proof.
  destruct s as [|c s]; cbn [scan_frac].
  { intros [= <- <-]. repeat split; [by left|]. intros [|c t']; [done|]. simpl.
    by intros _ ->%negb_true_iff. }
  destruct (Ascii.eqb_spec c "."%char) as [->|Hc].
  - destruct (take_digits s) as [[|d ds] t0] eqn:E; [done|]. intros [= <- <-].
    apply take_digits_spec in E as (-> & _ & Hr). repeat split; [eauto|].
    intros t' Ht' _. specialize (Hr t' Ht'). cbn [append scan_frac] in *. by rewrite Hr.
  - intros [= <- <-]. repeat split; [by left|]. intros [|c' t']; [done|]. simpl.
    by intros _ ->%negb_true_iff.
Qed.

Lemma digit_not_sign c : is_digit c = true -> is_sign c = false.
Proof. revert c. intros [[] [] [] [] [] [] [] []]; vm_compute; done. Qed.

Lemma take_sign_spec s sg t :
  take_sign s = (sg, t) ->
  s = sg +:+ t /\ (forall t', head_ok (fun c => negb (is_sign c)) t' -> take_sign (sg +:+ t') = (sg, t')).
Proof.
  destruct s as [|c s]; cbn [take_sign].
  { intros [= <- <-]. split; [done|]. intros [|c t']; [done|]. simpl. by intros ->%negb_true_iff. }
  destruct (is_sign c) eqn:Hc; intros [= <- <-].
  - split; [done|]. intros t' _. cbn. by rewrite Hc.
  - split; [done|]. intros [|c' t']; [done|]. simpl. by intros ->%negb_true_iff.
Qed.

Lemma scan_exp_spec s e t :
  scan_exp s = Some (e, t) ->
  s = e +:+ t /\ (e = "" \/ exists c e', e = String c e' /\ (c = "e"%char \/ c = "E"%char)) /\
  (forall t', head_ok no_exp t' -> scan_exp (e +:+ t') = Some (e, t')).
Proof.
  assert (forall t', head_ok no_exp t' -> scan_exp t' = Some ("", t')) as Hnil.
  { intros [|c t']; [done|]. cbn. unfold no_exp. intros [_ ->%negb_true_iff]%andb_true_iff. done. }
  destruct s as [|c s]; cbn [scan_exp].
  { intros [= <- <-]. eauto. }
  destruct (Ascii.eqb c "e"%char || Ascii.eqb c "E"%char) eqn:Hc.
  - destruct (take_sign s) as [sg r1] eqn:Es. destruct (take_digits r1) as [[|d ds] t0] eqn:E; [done|].
    intros [= <- <-]. apply take_sign_spec in Es as (-> & Hs).
    pose proof E as (-> & _ & Hr)%take_digits_spec.
    assert (is_digit d = true) as Hd by (revert E; cbn; by destruct (is_digit d)).
    repeat split.
    + cbn. by rewrite sapp_assoc.
    + right. exists c, (sg +:+ String d ds). split; [done|].
      apply orb_true_iff in Hc. rewrite !Ascii.eqb_eq in Hc. done.
    + intros t' Ht'. cbn [append scan_exp]. rewrite Hc, sapp_assoc, Hs; [|simpl; by rewrite digit_not_sign].
      rewrite Hr; [done|]. eapply head_ok_impl; [exact no_exp_digit | exact Ht'].
  - intros [= <- <-]. eauto.
Qed.

Lemma digit_not_minus c : is_digit c = true -> Ascii.eqb "-"%char c = false.
Proof. revert c. intros [[] [] [] [] [] [] [] []]; vm_compute; done. Qed.

(** A scanned number is a prefix of the text and is scanned back before any
    byte that cannot continue a number. *)
Lemma scan_num_spec s l t :
  scan_num s = Some (l, t) ->
  s = l +:+ t /\ (forall t', head_ok no_num t' -> scan_num (l +:+ t') = Some (l, t')).
Proof.
  unfold scan_num. destruct (take_char "-"%char s) as [m s0] eqn:Em.
  destruct (scan_int s0) as [[i s1]|] eqn:Ei; [|done].
  destruct (scan_frac s1) as [[f s2]|] eqn:Ef; [|done].
  destruct (scan_exp s2) as [[e s3]|] eqn:Ee; [|done]. intros [= <- <-].
  apply scan_int_spec in Ei as (-> & (c & i' & -> & Hd) & Hi).
  apply scan_frac_spec in Ef as (-> & Hf0 & Hf).
  apply scan_exp_spec in Ee as (-> & He0 & He).
  assert (s = m +:+ (String c i' +:+ f +:+ e +:+ s3) /\
          forall x, take_char "-"%char (m +:+ String c i' +:+ x) = (m, String c i' +:+ x)) as [-> Hm].
  { destruct s as [|c0 s']; [discriminate Em|]. cbn [take_char] in Em.
    destruct (Ascii.eqb "-"%char c0) eqn:E0; inversion Em; subst; clear Em.
    - apply Ascii.eqb_eq in E0 as <-. done.
    - split; [done|]. intros x. cbn [append take_char]. by rewrite digit_not_minus. }
  split; [by rewrite !sapp_assoc|].
  intros t' Ht'.
  assert (head_ok no_exp t') as H1 by (eapply head_ok_impl; [exact no_num_exp | exact Ht']).
  assert (head_ok no_digit (e +:+ t') /\ head_ok (fun c => negb (Ascii.eqb c "."%char)) (e +:+ t')) as [H2 H3].
  { destruct He0 as [->|(c' & e' & -> & [->| ->])]; [|done..]. split.
    - eapply head_ok_impl; [exact no_exp_digit | exact H1].
    - eapply head_ok_impl; [exact no_num_dot | exact Ht']. }
  rewrite !sapp_assoc, Hm, Hi.
  - by rewrite Hf, He.
  - destruct Hf0 as [->|[f' ->]]; [exact H2 | done].
Qed.

Lemma num_lit_scan l t : num_lit l -> head_ok no_num t -> scan_num (l +:+ t) = Some (l, t).
Proof. intros Hl. by apply (scan_num_spec l l ""). Qed.

Lemma num_lit_of_scan s l t : scan_num s = Some (l, t) -> num_lit l.
Proof.
  intros [_ H]%scan_num_spec. unfold num_lit. rewrite <- (sapp_nil_r l) at 1. by apply H.
Qed.

(** ** Scanning a printed document *)

Lemma num_lit_head l :
  num_lit l -> exists c r, l = String c r /\ (c = "-"%char \/ is_digit c = true).
Proof.
  unfold num_lit, scan_num. destruct (take_char "-"%char l) as [m s0] eqn:Em.
  destruct (scan_int s0) as [[i s1]|] eqn:Ei; [|done]. intros _.
  apply scan_int_spec in Ei as (-> & (c & i' & -> & Hd) & _).
  destruct l as [|c0 l']; [discriminate Em|]. cbn [take_char] in Em. exists c0, l'. split; [done|].
  destruct (Ascii.eqb_spec "-"%char c0) as [<-|_]; [by left|]. injection Em as _ <- _. by right.
Qed.

(** The first byte of a printed document. *)
Definition value_head (c : ascii) : bool :=
  negb (is_ws c) && negb (Ascii.eqb c "]"%char) && negb (Ascii.eqb c "}"%char).

Lemma digit_value_head c : is_digit c = true -> value_head c = true.
Proof. revert c. intros [[] [] [] [] [] [] [] []]; vm_compute; done. Qed.

Lemma print_head d : wf_doc d -> exists c r, print d = String c r /\ value_head c = true.
Proof.
  destruct d as [|[]|l|l|l|m]; simpl; intros Hw; try by eauto.
  destruct (num_lit_head l Hw) as (c & r & -> & [->|Hc]); eauto.
  exists c, r. split; [done|]. by apply digit_value_head.
Qed.

Lemma skip_ws_head c r : value_head c = true -> skip_ws (String c r) = String c r.
Proof. unfold value_head. intros. bsplit. simpl. by rewrite H. Qed.

Lemma num_head_tests c :
  c = "-"%char \/ is_digit c = true ->
  Ascii.eqb c dq = false /\ Ascii.eqb c "["%char = false /\ Ascii.eqb c "{"%char = false /\
  forall r, hasPrefix (String c r) "null" = false /\ hasPrefix (String c r) "true" = false /\
            hasPrefix (String c r) "false" = false.
Proof.
  intros [->|H]; [done|]. revert c H.
  intros [[] [] [] [] [] [] [] []]; intros H; first [discriminate H | done].
Qed.

Lemma scan_value_num f l rest :
  num_lit l -> head_ok no_num rest -> scan_value (S f) (l +:+ rest) = Some (JNum l, rest).
Proof.
  intros Hl Hr. pose proof (num_lit_scan l rest Hl Hr) as Hs.
  destruct (num_lit_head l Hl) as (c & r & -> & Hc).
  assert (value_head c = true) as Hv.
  { destruct Hc as [->|Hc]; [done|]. by apply digit_value_head. }
  cbn [append] in *. cbn [scan_value]. rewrite (skip_ws_head c _ Hv).
  destruct (num_head_tests c Hc) as (-> & -> & -> & Hp). destruct (Hp (r +:+ rest)) as (-> & -> & ->).
  by rewrite Hs.
Qed.

Definition scans_back (d : jdoc) : Prop :=
  forall fuel rest, (String.length (print d) <= fuel)%nat -> head_ok no_num rest ->
  scan_value fuel (print d +:+ rest) = Some (d, rest).

Lemma scan_elems_print (l : list jdoc) :
  l <> [] -> Forall (fun d => wf_doc d /\ scans_back d) l ->
  forall fuel rest, (String.length (sep_by ","%char (map print l)) < fuel)%nat ->
  scan_elems fuel (sep_by ","%char (map print l) +:+ String "]"%char rest) = Some (l, rest).
Proof.
  intros Hne Hl. induction Hl as [|d l [Hw Hd] Hl IH]; [done|].
  intros [|f] rest Hf; [lia|]. cbn [scan_elems].
  destruct l as [|d' l'].
  - cbn [map sep_by] in *. rewrite Hd; [|lia|done]. done.
  - change (sep_by ","%char (map print (d :: d' :: l'))) with
      (print d +:+ String ","%char (sep_by ","%char (map print (d' :: l')))) in *.
    rewrite slength_app in Hf. cbn [String.length] in Hf.
    rewrite sapp_assoc, Hd; [|lia|done]. cbn [append skip_ws].
    change (is_ws ","%char) with false. cbn.
    rewrite IH; [done|done|lia].
Qed.

Definition print_member (kv : string * jdoc) : string :=
  in_quotes kv.1 +:+ String ":"%char (print kv.2).

Lemma scan_members_print (m : list (string * jdoc)) :
  m <> [] -> Forall (fun kv => str_lit kv.1 /\ scans_back kv.2) m ->
  forall fuel rest, (String.length (sep_by ","%char (map print_member m)) < fuel)%nat ->
  scan_members fuel (sep_by ","%char (map print_member m) +:+ String "}"%char rest) = Some (m, rest).
Proof.
  intros Hne Hm. induction Hm as [|[k d] m [Hk Hd] Hm IH]; [done|].
  intros [|f] rest Hf; [lia|]. cbn [fst snd] in *.
  assert (forall x g, (String.length (print d) <= g)%nat -> head_ok no_num x ->
    scan_members (S g) (print_member (k, d) +:+ x) =
    match skip_ws x with
    | EmptyString => None
    | String c' r2 =>
        if Ascii.eqb c' "}"%char then Some ([(k, d)], r2)
        else if Ascii.eqb c' ","%char then
          match scan_members g r2 with Some (m, t') => Some ((k, d) :: m, t') | None => None end
        else None
    end) as Hone.
  { intros x g Hg Hx. unfold print_member, in_quotes, str1. cbn [fst snd append].
    rewrite !sapp_assoc. cbn [append]. cbn [scan_members skip_ws]. change (is_ws dq) with false. cbn [fst].
    change (Ascii.eqb dq dq) with true. cbn [fst].
    rewrite scan_str_complete by done. cbn [skip_ws]. change (is_ws ":"%char) with false. cbn [fst].
    change (Ascii.eqb ":"%char ":"%char) with true. cbn [fst].
    by rewrite Hd. }
  destruct m as [|kv' m'].
  - cbn [map sep_by] in *. unfold print_member in Hf at 1. cbn [fst snd] in Hf.
    rewrite slength_app in Hf. cbn [String.length] in Hf.
    rewrite Hone; [done|lia|done].
  - change (sep_by ","%char (map print_member ((k, d) :: kv' :: m'))) with
      (print_member (k, d) +:+ String ","%char (sep_by ","%char (map print_member (kv' :: m')))) in *.
    rewrite slength_app in Hf. unfold print_member in Hf at 1. cbn [fst snd] in Hf.
    rewrite slength_app in Hf. cbn [String.length] in Hf.
    rewrite sapp_assoc, Hone; [|lia|done]. cbn [append skip_ws].
    change (is_ws ","%char) with false. cbn [fst].
    change (Ascii.eqb ","%char "}"%char) with false. change (Ascii.eqb ","%char ","%char) with true. cbn [fst].
    rewrite IH; [done|done|lia].
Qed.

Lemma wf_arr l : wf_doc (JArr l) <-> Forall wf_doc l.
Proof. cbn [wf_doc]. induction l as [|d l IH]; cbn [foldr]; [done|]. by rewrite IH, Forall_cons_iff. Qed.

Lemma wf_obj m : wf_doc (JObj m) <-> Forall (fun kv => str_lit kv.1 /\ wf_doc kv.2) m.
Proof. cbn [wf_doc]. induction m as [|kv m IH]; cbn [foldr]; [done|]. by rewrite IH, Forall_cons_iff. Qed.

Lemma sep_by_head l c r s : sep_by ","%char (String c r :: l) +:+ s = String c ((match l with [] => r | _ => r +:+ String ","%char (sep_by ","%char l) end) +:+ s).
Proof. by destruct l. Qed.

(** Scanning what [print] writes gives the document back, with the rest of the
    text untouched. *)
Lemma scan_value_print d : wf_doc d -> scans_back d.
Proof.
  induction d as [|b|l|l|l IH|m IH] using jdoc_ind; intros Hw [|f] rest Hf Hr;
    try (exfalso; destruct (print_head _ Hw) as (c & r & E & _); rewrite E in Hf; simpl in Hf; lia).
  - by destruct rest.
  - by destruct b, rest.
  - by apply scan_value_num.
  - cbn [print]. unfold in_quotes, str1. cbn [append]. rewrite sapp_assoc. cbn [append scan_value skip_ws].
    change (is_ws dq) with false. cbn [fst]. change (Ascii.eqb dq dq) with true. cbn [fst].
    by rewrite scan_str_complete.
  - rewrite wf_arr in Hw. destruct l as [|d l]; [done|].
    assert (Forall (fun d => wf_doc d /\ scans_back d) (d :: l)) as Hl.
    { rewrite Forall_forall in *. intros x Hx. split; [by apply Hw|]. apply IH; [done|]. by apply Hw. }
    cbn [print append] in *. rewrite sapp_assoc in *. cbn [String.length append] in *.
    rewrite slength_app in Hf. change (String.length "]") with 1%nat in Hf. change (String.length "}") with 1%nat in Hf.
    destruct (print_head d) as (c & r & E & Hc); [by inversion Hw|].
    cbn [scan_value skip_ws]. change (is_ws "["%char) with false. cbn [fst].
    change (Ascii.eqb "["%char dq) with false. change (Ascii.eqb "["%char "["%char) with true. cbn [fst].
    pose proof (scan_elems_print (d :: l) ltac:(done) Hl f rest) as He.
    cbn [map] in *. rewrite E, sep_by_head in *. rewrite (skip_ws_head c _ Hc).
    assert (Ascii.eqb c "]"%char = false) as -> by (unfold value_head in Hc; by bsplit).
    rewrite He; [done|lia].
  - rewrite wf_obj in Hw. destruct m as [|kv m]; [done|].
    assert (Forall (fun kv => str_lit kv.1 /\ scans_back kv.2) (kv :: m)) as Hl.
    { rewrite Forall_forall in *. intros x Hx. split; [by apply Hw|]. apply IH; [done|]. by apply Hw. }
    change (print (JObj (kv :: m))) with
      (String "{"%char (sep_by ","%char (map print_member (kv :: m)) +:+ "}")) in *.
    cbn [append]. rewrite sapp_assoc. cbn [String.length append] in *.
    rewrite slength_app in Hf. change (String.length "]") with 1%nat in Hf. change (String.length "}") with 1%nat in Hf.
    cbn [scan_value skip_ws]. change (is_ws "{"%char) with false. cbn [fst].
    change (Ascii.eqb "{"%char dq) with false. change (Ascii.eqb "{"%char "["%char) with false.
    change (Ascii.eqb "{"%char "{"%char) with true. cbn [fst].
    pose proof (scan_members_print (kv :: m) ltac:(done) Hl f rest) as He.
    assert (exists r, print_member kv = String dq r) as [r E] by (unfold print_member, in_quotes; eauto).
    cbn [map] in *. rewrite E, sep_by_head in *. rewrite (skip_ws_head dq _ eq_refl).
    change (Ascii.eqb dq "}"%char) with false. rewrite He; [done|lia].
Qed.

(** Printing and scanning a whole text is the identity on documents. *)
Theorem scan_print d : wf_doc d -> scan (print d) = Some d.
Proof.
  intros Hw. unfold scan. rewrite <- (sapp_nil_r (print d)) at 2.
  rewrite (scan_value_print d Hw); [done|lia|done].
Qed.

(** ** What the scanner accepts is well formed *)

(** Every value the three scanners return is well formed, whatever the fuel. *)
Lemma scan_wf fuel :
  (forall s d t, scan_value fuel s = Some (d, t) -> wf_doc d) /\
  (forall s l t, scan_elems fuel s = Some (l, t) -> Forall wf_doc l) /\
  (forall s m t, scan_members fuel s = Some (m, t) -> Forall (fun kv => str_lit kv.1 /\ wf_doc kv.2) m).
Proof.
  induction fuel as [|f (IHv & IHe & IHm)]; [done|]. repeat split.
  - intros s d t. cbn [scan_value].
    destruct (skip_ws s) as [|c r]; [done|].
    destruct (Ascii.eqb c dq).
    { destruct (scan_str r) as [[l t0]|] eqn:E; [|done]. intros [= <- <-].
      by apply scan_str_sound in E as [? _]. }
    destruct (Ascii.eqb c "["%char).
    { destruct (skip_ws r) as [|c' r']; [done|]. destruct (Ascii.eqb c' _); [by intros [= <- <-]|].
      destruct (scan_elems f r) as [[l t0]|] eqn:E; [|done]. intros [= <- <-]. apply wf_arr. eauto. }
    destruct (Ascii.eqb c "{"%char).
    { destruct (skip_ws r) as [|c' r']; [done|]. destruct (Ascii.eqb c' _); [by intros [= <- <-]|].
      destruct (scan_members f r) as [[l t0]|] eqn:E; [|done]. intros [= <- <-]. apply wf_obj. eauto. }
    repeat (destruct (hasPrefix _ _); [by intros [= <- <-]|]).
    destruct (scan_num _) as [[l t0]|] eqn:E; [|done]. intros [= <- <-].
    by eapply num_lit_of_scan.
  - intros s l t. cbn [scan_elems].
    destruct (scan_value f s) as [[d t0]|] eqn:E; [|done]. destruct (skip_ws t0) as [|c r]; [done|].
    destruct (Ascii.eqb c _); [intros [= <- <-]; repeat constructor; eauto|].
    destruct (Ascii.eqb c _); [|done].
    destruct (scan_elems f r) as [[l' t']|] eqn:E'; [|done]. intros [= <- <-]. constructor; eauto.
  - intros s m t. cbn [scan_members].
    destruct (skip_ws s) as [|q r]; [done|]. destruct (Ascii.eqb q dq); [|done].
    destruct (scan_str r) as [[k t0]|] eqn:Ek; [|done]. destruct (skip_ws t0) as [|c r1]; [done|].
    destruct (Ascii.eqb c _); [|done]. destruct (scan_value f r1) as [[d t1]|] eqn:E; [|done].
    assert (str_lit k /\ wf_doc d) by (split; [by apply scan_str_sound in Ek as [? _] | eauto]).
    destruct (skip_ws t1) as [|c' r2]; [done|].
    destruct (Ascii.eqb c' _); [intros [= <- <-]; by apply Forall_singleton|].
    destruct (Ascii.eqb c' _); [|done].
    destruct (scan_members f r2) as [[m' t']|] eqn:E'; [|done]. intros [= <- <-]. constructor; eauto.
Qed.

Lemma scan_sound s d : scan s = Some d -> wf_doc d.
Proof.
  unfold scan. destruct (scan_value _ s) as [[d' t]|] eqn:E; [|done].
  destruct (skip_ws t); [|done]. intros [= <-]. by eapply scan_wf.
Qed.

#[export] Hint Resolve scan_sound : ff.
