(* ===== verification/Float64.v ===== *)
(** Floating-point numbers as Go's [strconv] and [encoding/json] read and write
    them.

    A [float64] is a [spec_float] of the Standard Library (53 bits of mantissa,
    exponent bound 1024), a [float32] one with 24 and 128.  [parse_float] is
    [strconv.ParseFloat] on a JSON number literal: the decimal value rounded to
    nearest, ties to even, with an overflow reported as an error ([None]).
    [fmt_float] is the text [json.Marshal] writes: the shortest decimal that
    reads back as the same number. *)
From stdpp Require Import base list strings numbers.
From Stdlib Require Import Ascii String ZArith Lia Floats.SpecFloat.
From S2P Require Import Prelude Text Literal Json.

(** ** Decimal texts of integers *)

Fixpoint digits_aux (fuel : nat) (z : Z) (acc : string) : string :=
  match fuel with
  | O => acc
  | S f =>
      let acc := String (chr (48 + z mod 10)) acc in
      if z <? 10 then acc else digits_aux f (z / 10) acc
  end.

(** The decimal digits of a natural number; [log2 z + 1] steps are enough. *)
Definition digits (z : Z) : string := digits_aux (S (Z.to_nat (Z.log2 z))) z "".

(** [strconv.Itoa]. *)
Definition itoa (z : Z) : string :=
  if z <? 0 then String "-"%char (digits (- z)) else digits z.

Fixpoint digits_val (acc : Z) (s : string) : Z :=
  match s with
  | String c r => digits_val (acc * 10 + (code c - 48)) r
  | EmptyString => acc
  end.

Fixpoint all_digits (s : string) : bool :=
  match s with EmptyString => true | String c r => is_digit c && all_digits r end.
(** ** Integer texts *)

Lemma digit_code z : 0 <= z < 10 -> code (chr (48 + z)) = 48 + z.
Proof. intros. apply code_chr. lia. Qed.

Lemma is_digit_chr z : 0 <= z < 10 -> is_digit (chr (48 + z)) = true.
Proof. intros. unfold is_digit, byte_in. rewrite digit_code by lia. lia. Qed.

Lemma half_bound z f : 0 <= z -> 10 <= z -> z < 2 ^ Z.of_nat (S f) -> 0 <= z / 10 < 2 ^ Z.of_nat f.
Proof.
  intros H0 H1 H2. rewrite Nat2Z.inj_succ, Z.pow_succ_r in H2 by lia.
  split; [apply Z.div_pos; lia|]. apply Z.div_lt_upper_bound; lia.
Qed.

Lemma digits_aux_val fuel z acc :
  (0 < fuel)%nat -> 0 <= z < 2 ^ Z.of_nat fuel ->
  digits_val 0 (digits_aux fuel z acc) = digits_val z acc.
Proof.
  revert z acc. induction fuel as [|f IH]; intros z acc Hf [H0 H1]; [lia|]. cbn [digits_aux].
  pose proof (Z.mod_pos_bound z 10 eq_refl) as Hm.
  destruct (Z.ltb_spec z 10).
  - cbn [digits_val]. rewrite digit_code, Z.mod_small by lia. f_equal. lia.
  - pose proof (half_bound z f H0 H H1) as Hb.
    destruct f as [|f']; [change (2 ^ Z.of_nat 0) with 1 in Hb; change (2 ^ Z.of_nat 1) with 2 in H1; lia|].
    rewrite IH by lia. cbn [digits_val]. rewrite digit_code by lia. f_equal.
    pose proof (Z.div_mod z 10). lia.
Qed.

Lemma digits_aux_all fuel z acc : all_digits acc = true -> 0 <= z -> all_digits (digits_aux fuel z acc) = true.
Proof.
  revert z acc. induction fuel as [|f IH]; intros z acc Ha Hz; [done|]. cbn [digits_aux].
  pose proof (Z.mod_pos_bound z 10 eq_refl) as Hm.
  assert (all_digits (String (chr (48 + z mod 10)) acc) = true) as Ha'.
  { cbn. by rewrite is_digit_chr, Ha by lia. }
  destruct (z <? 10); [done|]. apply IH; [done|]. apply Z.div_pos; lia.
Qed.

Lemma digits_aux_head fuel z acc :
  0 < z < 2 ^ Z.of_nat fuel ->
  exists c r, digits_aux fuel z acc = String c r /\ is_digit c = true /\ Ascii.eqb c "0"%char = false.
Proof.
  revert z acc. induction fuel as [|f IH]; intros z acc [H0 H1].
  { change (2 ^ Z.of_nat 0) with 1 in H1. lia. }
  cbn [digits_aux]. destruct (Z.ltb_spec z 10).
  - rewrite Z.mod_small by lia. eexists _, _. split; [done|]. split; [apply is_digit_chr; lia|].
    apply Ascii.eqb_neq. intros E. apply (f_equal code) in E. rewrite digit_code in E by lia.
    change (code "0"%char) with 48 in E. lia.
  - apply IH. pose proof (half_bound z f). split; [|lia]. apply Z.div_str_pos. lia.
Qed.

Lemma digits_fuel z : 0 <= z -> z < 2 ^ Z.of_nat (S (Z.to_nat (Z.log2 z))).
Proof.
  intros Hz. rewrite Nat2Z.inj_succ, Z2Nat.id by apply Z.log2_nonneg.
  destruct (Z.eq_dec z 0) as [->|]; [done|]. by apply Z.log2_spec; lia.
Qed.

Lemma digits_val_digits z : 0 <= z -> digits_val 0 (digits z) = z.
Proof.
  intros Hz. unfold digits. rewrite digits_aux_val; [done|lia|]. split; [done|]. by apply digits_fuel.
Qed.

Lemma digits_all z : 0 <= z -> all_digits (digits z) = true.
Proof. intros. by apply digits_aux_all. Qed.

Lemma digits_head z :
  0 <= z -> exists c r, digits z = String c r /\ is_digit c = true /\ (Ascii.eqb c "0"%char = true -> r = "").
Proof.
  intros Hz. destruct (Z.eq_dec z 0) as [->|]; [by exists "0"%char, ""|].
  destruct (digits_aux_head (S (Z.to_nat (Z.log2 z))) z "") as (c & r & E & Hc & H0).
  { split; [lia|]. by apply digits_fuel. }
  exists c, r. split; [done|]. split; [done|]. by rewrite H0.
Qed.

Lemma take_all_digits s : all_digits s = true -> take_digits s = (s, "").
Proof.
  induction s as [|c s IH]; cbn; [done|]. intros [Hc Hs]%andb_true_iff. by rewrite Hc, IH.
Qed.

Lemma num_lit_digits z : 0 <= z -> scan_int (digits z) = Some (digits z, "").
Proof.
  intros Hz. destruct (digits_head z Hz) as (c & r & E & Hc & H0).
  pose proof (digits_all z Hz) as Ha. rewrite E in *. cbn [scan_int].
  destruct (Ascii.eqb c "0"%char) eqn:E0; [by rewrite (H0 eq_refl)|].
  by rewrite Hc, take_all_digits.
Qed.

(** An integer's text is a number literal. *)
Lemma num_lit_itoa z : num_lit (itoa z).
Proof.
  unfold num_lit, itoa, scan_num. destruct (Z.ltb_spec z 0).
  - change (take_char "-"%char (String "-"%char (digits (- z)))) with (str1 "-"%char, digits (- z)).
    cbv beta iota. rewrite num_lit_digits by lia. cbn [scan_frac scan_exp str1 append]. by rewrite sapp_nil_r.
  - destruct (digits_head z) as (c & r & E & Hc & _); [done|].
    pose proof (num_lit_digits z H) as Hn. rewrite E in *. cbn [take_char].
    rewrite digit_not_minus by done. rewrite Hn. cbn. by rewrite sapp_nil_r.
Qed.

(** ** Reading *)

(** A literal in parts: sign, digits (the dot dropped) and decimal exponent. *)
Record decimal := mkDecimal { dneg : bool; dmant : Z; ddigits : Z; dexp : Z }.

Definition signed_val (s : string) : Z :=
  match s with
  | String c r =>
      if Ascii.eqb c "-"%char then - digits_val 0 r
      else if Ascii.eqb c "+"%char then digits_val 0 r
      else digits_val 0 s
  | EmptyString => 0
  end.

Definition read_decimal (s : string) : decimal :=
  let '(m, s0) := take_char "-"%char s in
  let '(i, s1) := take_digits s0 in
  let '(f, s2) := match s1 with
                  | String "."%char r => take_digits r
                  | _ => ("", s1)
                  end in
  let e := match s2 with String _ r => signed_val r | EmptyString => 0 end in
  mkDecimal (negb (String.eqb m "")) (digits_val 0 (i +:+ f))
    (Z.of_nat (String.length (i +:+ f))) (e - Z.of_nat (String.length f)).

Section format.
Variables prec emax : Z.

(** The decimal [m * 10^e], [m] positive, rounded to the format. *)
Definition round_dec (neg : bool) (m : positive) (e : Z) : spec_float :=
  if 0 <=? e then
    match binary_normalize prec emax (Zpos m * 10 ^ e) 0 false with
    | S754_finite _ m' e' => S754_finite neg m' e'
    | S754_infinity _ => S754_infinity neg
    | S754_zero _ => S754_zero neg
    | S754_nan => S754_nan
    end
  else
    let '(q, e', l) := SFdiv_core_binary prec emax (Zpos m) 0 (10 ^ (- e)) 0 in
    binary_round_aux prec emax neg q e' l.

(** [ParseFloat]: [None] is [ErrRange].  The value of a literal with [n]
    digits is below [10^(n+e)] and, if not zero, at least [10^e]: magnitudes
    past 10^400 and below 10^-400 overflow and round to zero. *)
Definition parse_float (s : string) : option spec_float :=
  let d := read_decimal s in
  match dmant d with
  | Zpos m =>
      if 400 <? dexp d then None
      else if ddigits d + dexp d <? -400 then Some (S754_zero (dneg d))
      else match round_dec (dneg d) m (dexp d) with
           | S754_infinity _ | S754_nan => None
           | f => Some f
           end
  | _ => Some (S754_zero (dneg d))
  end.

(** ** Writing *)

(** [m * 2^e] as a fraction. *)
Definition fraction (m : positive) (e : Z) : Z * Z :=
  if 0 <=? e then (Zpos m * 2 ^ e, 1) else (Zpos m, 2 ^ (- e)).

(** The number of digits before the dot: the first [k] with [num/den < 10^k]. *)
Definition dec_point (num den : Z) : Z :=
  let k0 := (Z.log2 num - Z.log2 den) * 30103 / 100000 in
  let below k := if 0 <=? k then num <? den * 10 ^ k else num * 10 ^ (- k) <? den in
  if below (k0 - 1) then k0 - 1 else if below k0 then k0
  else if below (k0 + 1) then k0 + 1 else k0 + 2.

Fixpoint strip_zeros (fuel : nat) (c e : Z) : Z * Z :=
  match fuel with
  | O => (c, e)
  | S f => if (c mod 10 =? 0) && negb (c =? 0) then strip_zeros f (c / 10) (e + 1) else (c, e)
  end.

Fixpoint zeros (n : nat) : string :=
  match n with O => "" | S n' => String "0"%char (zeros n') end.

Definition split_digits (n : nat) (s : string) : string * string :=
  (substring 0 n s, substring n (String.length s - n) s).

(** The text of [c * 10^e]: with an exponent when [sci], else in full. *)
Definition render (neg sci : bool) (c e : Z) : string :=
  let '(c, e) := strip_zeros 20 c e in
  let ds := digits c in
  let nd := Z.of_nat (String.length ds) in
  let dp := nd + e in
  let body :=
    if sci then
      let '(d1, rest) := split_digits 1 ds in
      d1 +:+ (if String.eqb rest "" then "" else String "."%char rest) +:+
      String "e"%char (if dp - 1 <? 0 then itoa (dp - 1) else String "+"%char (itoa (dp - 1)))
    else if dp <=? 0 then "0." +:+ zeros (Z.to_nat (- dp)) +:+ ds
    else if nd <=? dp then ds +:+ zeros (Z.to_nat (dp - nd))
    else let '(a, b) := split_digits (Z.to_nat dp) ds in a +:+ String "."%char b in
  if neg then String "-"%char body else body.

Definition sf_eqb (a b : spec_float) : bool :=
  match a, b with
  | S754_zero s, S754_zero s' => Bool.eqb s s'
  | S754_infinity s, S754_infinity s' => Bool.eqb s s'
  | S754_nan, S754_nan => true
  | S754_finite s m e, S754_finite s' m' e' => Bool.eqb s s' && Pos.eqb m m' && Z.eqb e e'
  | _, _ => false
  end.

(** [t] is a number literal that reads back as [f]. *)
Definition reads_back (f : spec_float) (t : string) : bool :=
  match scan_num t with
  | Some (l, "") =>
      String.eqb l t && match parse_float t with Some g => sf_eqb f g | None => false end
  | _ => false
  end.

(** The candidates with [n] digits: the two neighbours of the exact value,
    the nearer one first (ties to even). *)
Definition neighbours (num den k : Z) (n : Z) : list (Z * Z) :=
  let x := n - k in
  let '(a, b) := if 0 <=? x then (num * 10 ^ x, den) else (num, den * 10 ^ (- x)) in
  let lo := a / b in
  let r2 := 2 * (a - lo * b) in
  if (r2 <? b) || ((r2 =? b) && Z.even lo) then [(lo, k - n); (lo + 1, k - n)]
  else [(lo + 1, k - n); (lo, k - n)].

(** The exponent form is used below 1e-6 and from 1e21 on. *)
Definition use_sci (num den : Z) : bool :=
  (match round_dec false 1 (-6) with
   | S754_finite _ m e => let '(a, b) := fraction m e in num * b <? a * den
   | _ => false
   end) ||
  (match round_dec false 1 21 with
   | S754_finite _ m e => let '(a, b) := fraction m e in a * den <=? num * b
   | _ => false
   end).

(** The shortest text that reads back; the search stops at the 17 digits of a
    binary64 number. *)
Definition fmt_finite (neg : bool) (m : positive) (e : Z) : string :=
  let '(num, den) := fraction m e in
  let k := dec_point num den in
  let sci := use_sci num den in
  let texts := map (fun ce => render neg sci ce.1 ce.2)
                 (flat_map (neighbours num den k) (map Z.of_nat (seq 1 17))) in
  match List.find (reads_back (S754_finite neg m e)) texts with
  | Some t => t
  | None => match neighbours num den k 17 with
            | (c, x) :: _ => render neg sci c x
            | [] => ""
            end
  end.

(** [json.Marshal] of a float: infinities and NaN are errors. *)
Definition fmt_float (f : spec_float) : option string :=
  match f with
  | S754_zero true => Some "-0"
  | S754_zero false => Some "0"
  | S754_finite s m e => Some (fmt_finite s m e)
  | _ => None
  end.
End format.

(** ** float64 *)

Definition float64 : Type := spec_float.
Definition parse64 : string -> option float64 := parse_float 53 1024.
Definition fmt64 : float64 -> option string := fmt_float 53 1024.
Definition fmt32 : spec_float -> option string := fmt_float 24 128.
(** [float64(n)] of an integer. *)
Definition of_int64 (z : Z) : float64 := binary_normalize 53 1024 z 0 false.

(** The floats whose text is a literal that reads back, as an executable test. *)
Definition fmt_okb (f : float64) : bool :=
  match fmt64 f with Some t => reads_back 53 1024 f t | None => false end.

#[global] Instance spec_float_eq_dec : EqDecision spec_float.
Proof. solve_decision. Defined.

Lemma sf_eqb_eq a b : sf_eqb a b = true -> a = b.
Proof.
  destruct a, b; simpl; try done; intros H; bsplit;
    rewrite ?Bool.eqb_true_iff, ?Pos.eqb_eq, ?Z.eqb_eq in *; by subst.
Qed.

Lemma fmt_ok_spec f t :
  fmt_okb f = true -> fmt64 f = Some t -> num_lit t /\ parse64 t = Some f.
Proof.
  unfold fmt_okb, reads_back. intros H E. rewrite E in H.
  destruct (scan_num t) as [[l [|]]|] eqn:Es; try discriminate H.
  apply andb_true_iff in H as [Hl H]. apply String.eqb_eq in Hl as ->.
  split; [exact Es|]. unfold parse64. destruct (parse_float 53 1024 t); [|done].
  apply sf_eqb_eq in H. by subst.
Qed.

Lemma fmt_ok_some f : fmt_okb f = true -> exists t, fmt64 f = Some t.
Proof. unfold fmt_okb. destruct (fmt64 f); eauto; done. Qed.

(** Distinct floats have distinct texts. *)
Lemma fmt64_inj f g :
  fmt_okb f = true -> fmt_okb g = true -> fmt64 f = fmt64 g -> f = g.
Proof.
  intros Hf Hg E. destruct (fmt_ok_some f Hf) as [t Ef].
  destruct (fmt_ok_spec f t Hf Ef) as [_ H1].
  rewrite E in Ef. destruct (fmt_ok_spec g t Hg Ef) as [_ H2]. congruence.
Qed.

Example fmt64_ex :
  map (fun s => do? f := parse64 s in fmt64 f)
    ["25"; "0.1"; "1e3"; "-3.50"; "1e21"; "123456789012345678901"; "1e-7"; "0.000001"; "1e400"; "-0"; "5e-324"; "1.7976931348623157e308"] =
  [Some "25"; Some "0.1"; Some "1000"; Some "-3.5"; Some "1e+21"; Some "123456789012345680000"; Some "1e-7";
   Some "0.000001"; None; Some "-0"; Some "5e-324"; Some "1.7976931348623157e+308"].
Proof. vm_compute. reflexivity. Qed.
