(* ===== verification/GoTime.v ===== *)
(** Package [time] as the repository uses it: the proleptic Gregorian calendar,
    [Time.UTC().Format] and [time.Parse].

    A time is its instant, in nanoseconds since the Unix epoch.  A layout is the
    sequence of chunks [nextStdChunk] cuts it into; the chunks are those of the
    repository's layouts.  Parse errors carry no text. *)
From stdpp Require Import base list strings numbers.
From Stdlib Require Import Ascii String ZArith Lia.
From S2P Require Import Prelude Text Json Float64.

Definition Time : Type := Z.

(** ** The calendar *)

Definition isLeap (year : Z) : bool :=
  (year mod 4 =? 0) && (negb (year mod 100 =? 0) || (year mod 400 =? 0)).

(** Days of a year before the first of a month, for months 1 to 13. *)
Definition daysBefore (leap : bool) (month : Z) : Z :=
  nth (Z.to_nat (month - 1)) [0; 31; 59; 90; 120; 151; 181; 212; 243; 273; 304; 334; 365] 0
  + (if leap && (3 <=? month) then 1 else 0).
Definition daysIn (month year : Z) : Z :=
  daysBefore (isLeap year) (month + 1) - daysBefore (isLeap year) month.

(** Days from the first of January of year 1 to that of a year. *)
Definition yearStart (year : Z) : Z :=
  let y := year - 1 in 365 * y + y / 4 - y / 100 + y / 400.
Definition epochDay : Z := 719162.
Definition dayOf (year month day : Z) : Z :=
  yearStart year + daysBefore (isLeap year) month + day - 1 - epochDay.

(** The year of a day and the day in that year: cycles of 400, 100, 4 years and
    single years, the last century and the last year of a cycle one day longer. *)
Definition yearOf (d : Z) : Z * Z :=
  let d := d + epochDay in
  let n400 := d / 146097 in
  let d := d mod 146097 in
  let n100 := Z.min 3 (d / 36524) in
  let d := d - 36524 * n100 in
  let n4 := d / 1461 in
  let d := d mod 1461 in
  let n1 := Z.min 3 (d / 365) in
  (1 + 400 * n400 + 100 * n100 + 4 * n4 + n1, d - 365 * n1).

(** The last month that starts at or before a day of the year. *)
Fixpoint monthFrom (leap : bool) (yday : Z) (month : nat) : Z :=
  match month with
  | O => 1
  | S m => if daysBefore leap (Z.of_nat month) <=? yday then Z.of_nat month else monthFrom leap yday m
  end.
Definition monthOf (leap : bool) (yday : Z) : Z := monthFrom leap yday 12.

Definition dateOf (d : Z) : Z * Z * Z :=
  let '(year, yday) := yearOf d in
  let month := monthOf (isLeap year) yday in
  (year, month, yday - daysBefore (isLeap year) month + 1).

(** ** Layouts *)

Inductive chunk : Type :=
| Lit (s : string)
| StdLongYear | StdZeroMonth | StdZeroDay | StdHour | StdZeroMinute | StdZeroSecond
| StdFracSecond0 (digits : nat) | StdFracSecond9 (digits : nat)
| StdISO8601ColonTZ.
Definition layout : Type := list chunk.

Definition dateLayout : layout := [StdLongYear; Lit "-"; StdZeroMonth; Lit "-"; StdZeroDay].
Definition clockLayout : layout := [StdHour; Lit ":"; StdZeroMinute; Lit ":"; StdZeroSecond].
Definition RFC3339 : layout := dateLayout ++ [Lit "T"] ++ clockLayout ++ [StdISO8601ColonTZ].
Definition RFC3339Nano : layout := dateLayout ++ [Lit "T"] ++ clockLayout ++ [StdFracSecond9 9; StdISO8601ColonTZ].

(** ** Format *)

(** The last [w] decimal digits. *)
Fixpoint fixed (w : nat) (n : Z) : string :=
  match w with O => "" | S w' => String (chr (48 + (n / 10 ^ Z.of_nat w') mod 10)) (fixed w' n) end.
Definition padded (w : nat) (n : Z) : string := if n <? 10 ^ Z.of_nat w then fixed w n else digits n.
Definition appendInt (n : Z) (w : nat) : string :=
  if n <? 0 then String "-"%char (padded w (- n)) else padded w n.

(** Without the zeros at the end. *)
Fixpoint trim0 (s : string) : string :=
  match s with
  | EmptyString => ""
  | String c r => match trim0 r with EmptyString => if Ascii.eqb c "0"%char then "" else str1 c | r' => String c r' end
  end.

Definition secs (t : Time) : Z := t / 10 ^ 9.
Definition nanos (t : Time) : Z := t mod 10 ^ 9.
Definition day (t : Time) : Z := secs t / 86400.
Definition clock (t : Time) : Z := secs t mod 86400.

Definition format_chunk (t : Time) (c : chunk) : string :=
  let '(year, month, mday) := dateOf (day t) in
  match c with
  | Lit s => s
  | StdLongYear => appendInt year 4
  | StdZeroMonth => appendInt month 2
  | StdZeroDay => appendInt mday 2
  | StdHour => appendInt (clock t / 3600) 2
  | StdZeroMinute => appendInt (clock t / 60 mod 60) 2
  | StdZeroSecond => appendInt (clock t mod 60) 2
  | StdFracSecond0 n => String "."%char (fixed n (nanos t / 10 ^ (9 - Z.of_nat n)))
  | StdFracSecond9 n =>
      match trim0 (fixed n (nanos t / 10 ^ (9 - Z.of_nat n))) with EmptyString => "" | s => String "."%char s end
  | StdISO8601ColonTZ => "Z"
  end.
Definition Format (t : Time) (l : layout) : string := foldr (fun c s => format_chunk t c +:+ s) "" l.

(** ** Parse *)

Record fields : Type := mkFields {
  p_year : Z; p_month : Z; p_day : Z; p_hour : Z; p_min : Z; p_sec : Z; p_nsec : Z; p_offset : Z
}.
Definition no_fields : fields := mkFields 0 1 1 0 0 0 0 0.

Definition digit (c : ascii) : Z := code c - 48.
Definition commaOrPeriod (c : ascii) : bool := Ascii.eqb c "."%char || Ascii.eqb c ","%char.

(** Two digits, or one where the layout allows it. *)
Definition getnum (fixed : bool) (s : string) : option (Z * string) :=
  match s with
  | String c r =>
      if negb (is_digit c) then None else
      match r with
      | String c2 r2 =>
          if is_digit c2 then Some (digit c * 10 + digit c2, r2) else if fixed then None else Some (digit c, r)
      | EmptyString => if fixed then None else Some (digit c, r)
      end
  | EmptyString => None
  end.

(** [atoi]: an optional sign and any number of digits. *)
Definition atoi (s : string) : option Z :=
  let '(neg, body) := match s with
    | String c r => if Ascii.eqb c "-"%char then (true, r) else if Ascii.eqb c "+"%char then (false, r) else (false, s)
    | EmptyString => (false, s)
    end in
  if all_digits body then Some (if neg then - digits_val 0 body else digits_val 0 body) else None.

(** Of a separator and the digits behind it; digits past the ninth do not count. *)
Definition parseNanoseconds (sep : ascii) (frac : string) : option Z :=
  if negb (commaOrPeriod sep) then None else
  let frac := substring 0 9 frac in
  do? ns := atoi frac in
  if ns <? 0 then None else Some (ns * 10 ^ (9 - Z.of_nat (String.length frac))).

(** A literal of the layout; a space stands for any number of them. *)
Fixpoint cutspace (s : string) : string :=
  match s with String c r => if Ascii.eqb c " "%char then cutspace r else s | EmptyString => "" end.
Fixpoint skip (value prefix : string) : option string :=
  match prefix with
  | EmptyString => Some value
  | String p prefix' =>
      if Ascii.eqb p " "%char then
        match value with
        | String c _ => if Ascii.eqb c " "%char then skip (cutspace value) prefix' else None
        | EmptyString => skip value prefix'
        end
      else match value with String c r => if Ascii.eqb c p then skip r prefix' else None | EmptyString => None end
  end.

(** Whether the layout goes on with a fraction. *)
Fixpoint fraction_next (l : layout) : bool :=
  match l with
  | Lit _ :: l' => fraction_next l'
  | (StdFracSecond0 _ | StdFracSecond9 _) :: _ => true
  | _ => false
  end.

(** A fraction of any length at the head of the text, if there is one. *)
Definition parse_fraction (f : fields) (s : string) : option (fields * string) :=
  match s with
  | String sep (String c _ as r) =>
      if commaOrPeriod sep && is_digit c then
        let '(frac, rest) := take_digits r in
        do? ns := parseNanoseconds sep frac in
        Some (mkFields (p_year f) (p_month f) (p_day f) (p_hour f) (p_min f) (p_sec f) ns (p_offset f), rest)
      else Some (f, s)
  | _ => Some (f, s)
  end.

Definition parse_chunk (c : chunk) (next : layout) (f : fields) (s : string) : option (fields * string) :=
  let '(mkFields y mo d h mi se ns off) := f in
  match c with
  | Lit p => do? r := skip s p in Some (f, r)
  | StdLongYear =>
      if (String.length s <? 4)%nat then None else
      let p := substring 0 4 s in
      if negb (match p with String c _ => is_digit c | EmptyString => false end) then None else
      do? v := atoi p in Some (mkFields v mo d h mi se ns off, substring 4 (String.length s - 4) s)
  | StdZeroMonth =>
      do? (v, r) := getnum true s in
      if (v <=? 0) || (12 <? v) then None else Some (mkFields y v d h mi se ns off, r)
  | StdZeroDay => do? (v, r) := getnum true s in Some (mkFields y mo v h mi se ns off, r)
  | StdHour =>
      do? (v, r) := getnum false s in
      if (v <? 0) || (24 <=? v) then None else Some (mkFields y mo d v mi se ns off, r)
  | StdZeroMinute =>
      do? (v, r) := getnum true s in
      if (v <? 0) || (60 <=? v) then None else Some (mkFields y mo d h v se ns off, r)
  | StdZeroSecond =>
      do? (v, r) := getnum true s in
      if (v <? 0) || (60 <=? v) then None else
      let f := mkFields y mo d h mi v ns off in
      if fraction_next next then Some (f, r) else parse_fraction f r
  | StdFracSecond0 n =>
      match s with
      | String sep r =>
          if (String.length r <? n)%nat then None else
          do? v := parseNanoseconds sep (substring 0 n r) in
          Some (mkFields y mo d h mi se v off, substring n (String.length r - n) r)
      | EmptyString => None
      end
  | StdFracSecond9 _ => parse_fraction f s
  | StdISO8601ColonTZ =>
      match s with
      | String sign rest =>
          if Ascii.eqb sign "Z"%char then Some (f, rest) else
          match rest with
          | String h1 (String h2 (String colon (String m1 (String m2 r)))) =>
              if negb (Ascii.eqb colon ":"%char) then None else
              do? (hr, _) := getnum true (String h1 (str1 h2)) in
              do? (mm, _) := getnum true (String m1 (str1 m2)) in
              if (24 <? hr) || (60 <? mm) then None else
              let off := (hr * 60 + mm) * 60 in
              if Ascii.eqb sign "+"%char then Some (mkFields y mo d h mi se ns off, r)
              else if Ascii.eqb sign "-"%char then Some (mkFields y mo d h mi se ns (- off), r)
              else None
          | _ => None
          end
      | EmptyString => None
      end
  end.

Fixpoint parse_fields (l : layout) (f : fields) (s : string) : option fields :=
  match l with
  | [] => if String.eqb s "" then Some f else None
  | c :: l' => do? (f', r) := parse_chunk c l' f s in parse_fields l' f' r
  end.

Definition instant (f : fields) : Time :=
  (dayOf (p_year f) (p_month f) (p_day f) * 86400 + p_hour f * 3600 + p_min f * 60 + p_sec f - p_offset f) * 10 ^ 9 + p_nsec f.
Definition Parse (l : layout) (s : string) : option Time :=
  do? f := parse_fields l no_fields s in
  if (p_day f <? 1) || (daysIn (p_month f) (p_year f) <? p_day f) then None else Some (instant f).

(** ** Calendar lemmas *)

Lemma yearOf_spec d :
  let '(y, yd) := yearOf d in
  yearStart y + yd - epochDay = d /\ 0 <= yd < 365 + (if isLeap y then 1 else 0).
Proof.
  unfold yearOf, yearStart, isLeap. cbv zeta.
  remember (d + epochDay) as x eqn:E. assert (d = x - epochDay) as -> by lia. clear E.
  set (a := x / 146097). assert (0 <= x mod 146097 < 146097) by (apply Z.mod_pos_bound; lia).
  assert (x = 146097 * a + x mod 146097) as Hx by (apply Z.div_mod; lia). set (r := x mod 146097) in *. clearbody r a.
  set (b := Z.min 3 (r / 36524)). assert (0 <= b <= 3 /\ 36524 * b <= r /\ (b < 3 -> r < 36524 * (b + 1))) as (? & ? & ?)
    by (unfold b; Z.div_mod_to_equations; lia). clearbody b.
  set (r2 := r - 36524 * b) in *. assert (0 <= r2 < 36524 \/ r2 = 36524 /\ b = 3) by lia.
  set (c := r2 / 1461). assert (0 <= c <= 24 /\ r2 = 1461 * c + r2 mod 1461 /\ 0 <= r2 mod 1461 < 1461) as (? & ? & ?)
    by (unfold c; Z.div_mod_to_equations; lia). set (r3 := r2 mod 1461) in *. clearbody c r3.
  set (e := Z.min 3 (r3 / 365)). assert (0 <= e <= 3 /\ 365 * e <= r3 /\ (e < 3 -> r3 < 365 * (e + 1))) as (? & ? & ?)
    by (unfold e; Z.div_mod_to_equations; lia). clearbody e.
  replace (1 + 400 * a + 100 * b + 4 * c + e - 1) with (400 * a + 100 * b + 4 * c + e) by lia.
  assert ((400 * a + 100 * b + 4 * c + e) / 4 = 100 * a + 25 * b + c) as -> by (Z.div_mod_to_equations; lia).
  assert ((400 * a + 100 * b + 4 * c + e) / 100 = 4 * a + b) as -> by (Z.div_mod_to_equations; lia).
  assert ((400 * a + 100 * b + 4 * c + e) / 400 = a) as -> by (Z.div_mod_to_equations; lia).
  split; [lia|].
  assert ((1 + 400 * a + 100 * b + 4 * c + e) mod 4 = (e + 1) mod 4) as -> by (Z.div_mod_to_equations; lia).
  assert ((1 + 400 * a + 100 * b + 4 * c + e) mod 100 = (4 * c + e + 1) mod 100) as -> by (Z.div_mod_to_equations; lia).
  assert ((1 + 400 * a + 100 * b + 4 * c + e) mod 400 = (100 * b + 4 * c + e + 1) mod 400) as -> by (Z.div_mod_to_equations; lia).
  destruct (Z.eqb_spec ((e + 1) mod 4) 0), (Z.eqb_spec ((4 * c + e + 1) mod 100) 0), (Z.eqb_spec ((100 * b + 4 * c + e + 1) mod 400) 0);
    cbn; Z.div_mod_to_equations; lia.
Qed.

(** Months tile the year. *)
Definition month_ok (leap : bool) (yday : Z) : bool :=
  let m := monthOf leap yday in
  (1 <=? m) && (m <=? 12) && (daysBefore leap m <=? yday) && (yday <? daysBefore leap (m + 1)).
Lemma monthOf_ok (leap : bool) yday : 0 <= yday < 365 + (if leap then 1 else 0) -> month_ok leap yday = true.
Proof.
  intros H. assert (forallb (fun n => month_ok leap (Z.of_nat n)) (seq 0 (if leap then 366 else 365)%nat) = true) as Hall
    by (destruct leap; vm_compute; reflexivity).
  rewrite forallb_forall in Hall. rewrite <- (Z2Nat.id yday) by lia. apply Hall, in_seq. destruct leap; lia.
Qed.

Definition valid_date (y m d : Z) : Prop := 1 <= m <= 12 /\ 1 <= d <= daysIn m y.

Lemma dateOf_spec z :
  let '(y, m, d) := dateOf z in valid_date y m d /\ dayOf y m d = z.
Proof.
  unfold dateOf. pose proof (yearOf_spec z) as H. destruct (yearOf z) as [y yd]. destruct H as [Hd Hr].
  pose proof (monthOf_ok (isLeap y) yd Hr) as Hm. unfold month_ok in Hm. cbv zeta in Hm.
  unfold valid_date, daysIn, dayOf. lia.
Qed.

(** A day of a year comes before the next month and the next year. *)
Lemma daysBefore_mono leap m m' : 1 <= m -> m < m' <= 13 -> daysBefore leap (m + 1) <= daysBefore leap m'.
Proof.
  intros H1 H2. assert (forallb (fun m => forallb (fun m' =>
      daysBefore leap (Z.of_nat m + 1) <=? daysBefore leap (Z.of_nat m')) (seq (S m) (13 - m))) (seq 1 12) = true) as Hall
    by (destruct leap; vm_compute; reflexivity).
  rewrite forallb_forall in Hall. assert (In (Z.to_nat m) (seq 1 12)) as Hm by (apply in_seq; lia). specialize (Hall _ Hm).
  rewrite forallb_forall in Hall. assert (In (Z.to_nat m') (seq (S (Z.to_nat m)) (13 - Z.to_nat m))) as Hm' by (apply in_seq; lia).
  specialize (Hall _ Hm'). rewrite !Z2Nat.id in Hall by lia. lia.
Qed.
Lemma daysBefore_ends (leap : bool) : daysBefore leap 1 = 0 /\ daysBefore leap 13 = 365 + (if leap then 1 else 0).
Proof. by destruct leap. Qed.
Lemma daysBefore_range leap m : 1 <= m <= 12 -> 0 <= daysBefore leap m.
Proof.
  intros H. destruct (Z.eq_dec m 1) as [->|]; [by destruct leap|]. pose proof (daysBefore_mono leap 1 m).
  assert (daysBefore leap (1 + 1) = 31) by (by destruct leap). lia.
Qed.

Lemma yearStart_S y : yearStart (y + 1) = yearStart y + 365 + (if isLeap y then 1 else 0).
Proof.
  unfold yearStart, isLeap. replace (y + 1 - 1) with y by lia.
  destruct (Z.eqb_spec (y mod 4) 0), (Z.eqb_spec (y mod 100) 0), (Z.eqb_spec (y mod 400) 0); cbn; Z.div_mod_to_equations; lia.
Qed.
Lemma yearStart_mono y y' : y <= y' -> yearStart y <= yearStart y'.
Proof. unfold yearStart. intros. Z.div_mod_to_equations; lia. Qed.

Lemma dayOf_in_year y m d : valid_date y m d -> yearStart y <= dayOf y m d + epochDay < yearStart (y + 1).
Proof.
  intros [Hm Hd]. rewrite yearStart_S. unfold dayOf, daysIn in *. pose proof (daysBefore_range (isLeap y) m Hm).
  pose proof (daysBefore_ends (isLeap y)) as [_ He].
  assert (daysBefore (isLeap y) (m + 1) <= daysBefore (isLeap y) 13) by (by apply daysBefore_mono; lia). lia.
Qed.

Definition date_before (a b : Z * Z * Z) : bool :=
  let '(y, m, d) := a in let '(y', m', d') := b in
  (y <? y') || ((y =? y') && ((m <? m') || ((m =? m') && (d <? d')))).

Lemma dayOf_mono y m d y' m' d' :
  valid_date y m d -> valid_date y' m' d' -> date_before (y, m, d) (y', m', d') = true -> dayOf y m d < dayOf y' m' d'.
Proof.
  intros H H'. pose proof (dayOf_in_year _ _ _ H). pose proof (dayOf_in_year _ _ _ H'). unfold date_before.
  destruct (Z.ltb_spec y y') as [Hy|Hy]; cbn [orb]; [pose proof (yearStart_mono (y + 1) y'); lia|].
  destruct (Z.eqb_spec y y') as [<-|]; [|done]. cbn [andb]. destruct H as [Hm Hd], H' as [Hm' Hd']. unfold dayOf, daysIn in *.
  destruct (Z.ltb_spec m m'); cbn [orb]; [pose proof (daysBefore_mono (isLeap y) m m'); lia|].
  destruct (Z.eqb_spec m m') as [<-|]; [|done]. lia.
Qed.

Lemma dateOf_order z z' : date_before (dateOf z) (dateOf z') = (z <? z').
Proof.
  pose proof (dateOf_spec z) as H. pose proof (dateOf_spec z') as H'.
  destruct (dateOf z) as [[y m] d], (dateOf z') as [[y' m'] d']. destruct H as [Hv <-], H' as [Hv' <-].
  destruct (date_before (y, m, d) (y', m', d')) eqn:E; [pose proof (dayOf_mono _ _ _ _ _ _ Hv Hv' E); lia|].
  destruct (date_before (y', m', d') (y, m, d)) eqn:E'; [pose proof (dayOf_mono _ _ _ _ _ _ Hv' Hv E'); lia|].
  assert (y = y' /\ m = m' /\ d = d') as (-> & -> & ->) by (unfold date_before in *; lia). lia.
Qed.

(** ** Text lemmas *)

Lemma slength_fixed w n : String.length (fixed w n) = w.
Proof. induction w; cbn; congruence. Qed.

Lemma digit_of n w : 48 + (n / 10 ^ Z.of_nat w) mod 10 = code (chr (48 + (n / 10 ^ Z.of_nat w) mod 10)) /\
  is_digit (chr (48 + (n / 10 ^ Z.of_nat w) mod 10)) = true.
Proof.
  pose proof (Z.mod_pos_bound (n / 10 ^ Z.of_nat w) 10 eq_refl). split; [by rewrite digit_code | by apply is_digit_chr].
Qed.

Lemma all_digits_fixed w n : all_digits (fixed w n) = true.
Proof. induction w as [|w IH]; [done|]. cbn [fixed all_digits]. by rewrite IH, (proj2 (digit_of n w)). Qed.

(** The number splits into its first digit and the rest. *)
Lemma fixed_split n w : n mod 10 ^ Z.of_nat (S w) = (n / 10 ^ Z.of_nat w) mod 10 * 10 ^ Z.of_nat w + n mod 10 ^ Z.of_nat w.
Proof.
  rewrite Nat2Z.inj_succ, Z.pow_succ_r by lia. rewrite (Z.mul_comm 10), Z.rem_mul_r by lia. lia.
Qed.

Lemma digits_val_fixed w n acc : digits_val acc (fixed w n) = acc * 10 ^ Z.of_nat w + n mod 10 ^ Z.of_nat w.
Proof.
  revert acc. induction w as [|w IH]; intros acc; [cbn; rewrite Z.mod_1_r; lia|].
  cbn [fixed digits_val]. rewrite IH, fixed_split, <- (proj1 (digit_of n w)).
  rewrite Nat2Z.inj_succ, Z.pow_succ_r by lia. ring.
Qed.
Lemma fixed_value w n : 0 <= n < 10 ^ Z.of_nat w -> digits_val 0 (fixed w n) = n.
Proof. intros. by rewrite digits_val_fixed, Z.mod_small by lia. Qed.

(** Texts of the same width are ordered as their numbers. *)
Lemma sltb_fixed w n m x y :
  0 <= n < 10 ^ Z.of_nat w -> 0 <= m < 10 ^ Z.of_nat w ->
  sltb (fixed w n +:+ x) (fixed w m +:+ y) = (n <? m) || ((n =? m) && sltb x y).
Proof.
  intros Hn Hm. rewrite <- (Z.mod_small n (10 ^ Z.of_nat w)), <- (Z.mod_small m (10 ^ Z.of_nat w)) at 2 3 by done. clear Hn Hm.
  induction w as [|w IH]; [cbn; by rewrite !Z.mod_1_r|].
  cbn [fixed append sltb]. pose proof (digit_of n w) as [Dn _]. pose proof (digit_of m w) as [Dm _].
  pose proof (Z.mod_pos_bound n (10 ^ Z.of_nat w)). pose proof (Z.mod_pos_bound m (10 ^ Z.of_nat w)).
  assert (0 < 10 ^ Z.of_nat w) by (apply Z.pow_pos_nonneg; lia).
  rewrite !fixed_split. rewrite IH, <- Dn, <- Dm.
  destruct (Ascii.eqb_spec (chr (48 + (n / 10 ^ Z.of_nat w) mod 10)) (chr (48 + (m / 10 ^ Z.of_nat w) mod 10))) as [E|E].
  - assert ((n / 10 ^ Z.of_nat w) mod 10 = (m / 10 ^ Z.of_nat w) mod 10) as -> by (apply (f_equal code) in E; lia).
    destruct (sltb x y); lia.
  - assert ((n / 10 ^ Z.of_nat w) mod 10 <> (m / 10 ^ Z.of_nat w) mod 10) as Hne by (intros Hd; apply E; by rewrite Hd).
    set (a := (n / 10 ^ Z.of_nat w) mod 10) in *. set (b := (m / 10 ^ Z.of_nat w) mod 10) in *.
    set (p := 10 ^ Z.of_nat w) in *. clearbody a b p. destruct (Z.ltb_spec (48 + a) (48 + b)), (sltb x y); nia.
Qed.

Lemma sltb_cons c x y : sltb (String c x) (String c y) = sltb x y.
Proof. cbn. by rewrite Ascii.eqb_refl. Qed.

Lemma substring_prefix a b : substring 0 (String.length a) (a +:+ b) = a.
Proof. induction a as [|c a IH]; [by destruct b|]. cbn. by rewrite IH. Qed.
Lemma substring_all a : substring 0 (String.length a) a = a.
Proof. rewrite <- (sapp_nil_r a) at 2. apply substring_prefix. Qed.
Lemma substring_suffix a b : substring (String.length a) (String.length b) (a +:+ b) = b.
Proof. induction a as [|c a IH]; [apply substring_all | exact IH]. Qed.

Lemma atoi_digits s : all_digits s = true -> atoi s = Some (digits_val 0 s).
Proof.
  intros H. unfold atoi. destruct s as [|c r]; [done|]. pose proof H as [Hc _]%andb_true_iff.
  assert (Ascii.eqb c "-"%char = false /\ Ascii.eqb c "+"%char = false) as [-> ->].
  { split; destruct (Ascii.eqb_spec c "-"%char), (Ascii.eqb_spec c "+"%char); subst; done. }
  by rewrite H.
Qed.

(** ** The chunks of a formatted time are read back *)

Lemma getnum_fixed b n r : 0 <= n < 100 -> getnum b (fixed 2 n +:+ r) = Some (n, r).
Proof.
  intros H. pose proof (digit_of n 1) as [D1 E1]. pose proof (digit_of n 0) as [D0 E0].
  cbn [fixed append]. unfold getnum. rewrite E1, E0. cbn [negb]. unfold digit. rewrite <- D1, <- D0. do 2 f_equal.
  change (10 ^ Z.of_nat 1) with 10. change (10 ^ Z.of_nat 0) with 1. Z.div_mod_to_equations. lia.
Qed.

Lemma appendInt_fixed n w : 0 <= n < 10 ^ Z.of_nat w -> appendInt n w = fixed w n.
Proof. intros H. unfold appendInt, padded. destruct (Z.ltb_spec n 0), (Z.ltb_spec n (10 ^ Z.of_nat w)); try lia; done. Qed.

Lemma nanoseconds_fixed w n : (w <= 9)%nat -> 0 <= n < 10 ^ Z.of_nat w ->
  parseNanoseconds "."%char (fixed w n) = Some (n * 10 ^ (9 - Z.of_nat w)).
Proof.
  intros Hw Hn. unfold parseNanoseconds. cbn [commaOrPeriod Ascii.eqb negb orb].
  assert (substring 0 9 (fixed w n) = fixed w n) as ->.
  { revert Hw. generalize 9%nat. clear Hn. induction w as [|w IH]; intros k Hk; [by destruct k|]. destruct k as [|k]; [lia|].
    cbn. rewrite IH by lia. done. }
  rewrite atoi_digits by apply all_digits_fixed. cbn [mbind option_bind]. rewrite fixed_value, slength_fixed by done.
  destruct (Z.ltb_spec n 0); [lia | done].
Qed.

(** The times with a year of four digits. *)
Definition in_years (t : Time) : Prop := -62167219200 * 10 ^ 9 <= t < 253402300800 * 10 ^ 9.

Lemma in_years_date t : in_years t ->
  let '(y, m, d) := dateOf (day t) in 0 <= y < 10 ^ Z.of_nat 4 /\ 1 <= m <= 12 /\ 1 <= d <= 31 /\ valid_date y m d /\ dayOf y m d = day t.
Proof.
  intros H. unfold in_years in H. pose proof (dateOf_spec (day t)) as Hd. destruct (dateOf (day t)) as [[y m] d]. destruct Hd as [Hv E].
  pose proof (dayOf_in_year _ _ _ Hv) as Hy. rewrite E in Hy.
  assert (-719528 <= day t < 2932897) as Hr by (unfold day, secs; Z.div_mod_to_equations; lia).
  unfold epochDay in Hy. change (10 ^ Z.of_nat 4) with 10000. split_and!; try done; try apply Hv.
  - destruct (Z.le_gt_cases 0 y); [done|]. pose proof (yearStart_mono (y + 1) 0). change (yearStart 0) with (-366) in *. lia.
  - destruct (Z.lt_ge_cases y 10000); [done|]. pose proof (yearStart_mono 10000 y). change (yearStart 10000) with 3652059 in *. lia.
  - destruct Hv as [Hm Hd]. assert (daysIn m y <= 31); [|lia]. unfold daysIn. clear -Hm.
    assert (forallb (fun n => daysBefore (isLeap y) (Z.of_nat n + 1) - daysBefore (isLeap y) (Z.of_nat n) <=? 31) (seq 1 12) = true) as Hall
      by (destruct (isLeap y); vm_compute; reflexivity).
    rewrite forallb_forall in Hall. assert (In (Z.to_nat m) (seq 1 12)) as Hi by (apply in_seq; lia). specialize (Hall _ Hi).
    rewrite Z2Nat.id in Hall by lia. lia.
Qed.

(** Date and clock, which every layout starts with. *)
Definition timeLayout (rest : layout) : layout := dateLayout ++ [Lit "T"] ++ clockLayout ++ rest.
Definition time_fields (t : Time) : fields :=
  let '(y, m, d) := dateOf (day t) in
  mkFields y m d (clock t / 3600) (clock t / 60 mod 60) (clock t mod 60) 0 0.

Lemma clock_parts t :
  0 <= clock t / 3600 < 24 /\ 0 <= clock t / 60 mod 60 < 60 /\ 0 <= clock t mod 60 < 60 /\
  clock t = clock t / 3600 * 3600 + clock t / 60 mod 60 * 60 + clock t mod 60.
Proof.
  assert (0 <= clock t < 86400) by (apply Z.mod_pos_bound; lia). Z.div_mod_to_equations. lia.
Qed.

Lemma format_time t rest : in_years t ->
  Format t (timeLayout rest) =
  let '(mkFields y m d h mi s _ _) := time_fields t in
  fixed 4 y +:+ String "-"%char (fixed 2 m +:+ String "-"%char (fixed 2 d +:+ String "T"%char (fixed 2 h +:+
    String ":"%char (fixed 2 mi +:+ String ":"%char (fixed 2 s +:+ Format t rest))))).
Proof.
  intros H%in_years_date. pose proof (clock_parts t) as (Hh & Hmi & Hs & _). unfold time_fields, Format, timeLayout, dateLayout, clockLayout.
  cbn [app foldr]. unfold format_chunk at 1 2 3 4 5 6 7 8 9 10 11. destruct (dateOf (day t)) as [[y m] d]. destruct H as (Hy & Hm & Hd & _).
  by rewrite !appendInt_fixed by (cbn [Z.of_nat Pos.of_succ_nat Z.pow Z.pow_pos Pos.iter] in *; lia).
Qed.

(** Reading a chunk behind which the text goes on. *)
Lemma parse_year y next f r : 0 <= y < 10 ^ Z.of_nat 4 ->
  parse_chunk StdLongYear next f (fixed 4 y +:+ r) =
  Some (mkFields y (p_month f) (p_day f) (p_hour f) (p_min f) (p_sec f) (p_nsec f) (p_offset f), r).
Proof.
  intros Hy. destruct f as [y0 mo d h mi se ns off]. unfold parse_chunk.
  assert (String.length (fixed 4 y +:+ r) = 4 + String.length r)%nat as -> by (by rewrite slength_app, slength_fixed).
  replace (4 + String.length r - 4)%nat with (String.length r) by lia. cbn [Nat.add Nat.ltb Nat.leb].
  assert (substring 0 4 (fixed 4 y +:+ r) = fixed 4 y) as -> by (rewrite <- (slength_fixed 4 y) at 1; apply substring_prefix).
  assert (substring 4 (String.length r) (fixed 4 y +:+ r) = r) as -> by (rewrite <- (slength_fixed 4 y) at 1; apply substring_suffix).
  rewrite atoi_digits, fixed_value by (apply all_digits_fixed || done). cbn [mbind option_bind fixed].
  by rewrite (proj2 (digit_of y 3)).
Qed.
Lemma parse_lit c next f r : Ascii.eqb c " "%char = false -> parse_chunk (Lit (str1 c)) next f (String c r) = Some (f, r).
Proof. intros H. destruct f. cbn. by rewrite H, Ascii.eqb_refl. Qed.

(** The same for a number of two digits in its range. *)
Ltac read_number :=
  intros; match goal with f : fields |- _ => destruct f end; unfold parse_chunk; rewrite getnum_fixed by lia; cbn [mbind option_bind];
  repeat match goal with
  | |- context [?a <? ?b] => destruct (Z.ltb_spec a b); try lia
  | |- context [?a <=? ?b] => destruct (Z.leb_spec a b); try lia
  end; done.
Lemma parse_month n next f r : 1 <= n <= 12 ->
  parse_chunk StdZeroMonth next f (fixed 2 n +:+ r) =
  Some (mkFields (p_year f) n (p_day f) (p_hour f) (p_min f) (p_sec f) (p_nsec f) (p_offset f), r).
Proof. read_number. Qed.
Lemma parse_day n next f r : 1 <= n <= 31 ->
  parse_chunk StdZeroDay next f (fixed 2 n +:+ r) =
  Some (mkFields (p_year f) (p_month f) n (p_hour f) (p_min f) (p_sec f) (p_nsec f) (p_offset f), r).
Proof. read_number. Qed.
Lemma parse_hour n next f r : 0 <= n < 24 ->
  parse_chunk StdHour next f (fixed 2 n +:+ r) =
  Some (mkFields (p_year f) (p_month f) (p_day f) n (p_min f) (p_sec f) (p_nsec f) (p_offset f), r).
Proof. read_number. Qed.
Lemma parse_minute n next f r : 0 <= n < 60 ->
  parse_chunk StdZeroMinute next f (fixed 2 n +:+ r) =
  Some (mkFields (p_year f) (p_month f) (p_day f) (p_hour f) n (p_sec f) (p_nsec f) (p_offset f), r).
Proof. read_number. Qed.
Lemma parse_second n next f r : 0 <= n < 60 ->
  let f' := mkFields (p_year f) (p_month f) (p_day f) (p_hour f) (p_min f) n (p_nsec f) (p_offset f) in
  parse_chunk StdZeroSecond next f (fixed 2 n +:+ r) = if fraction_next next then Some (f', r) else parse_fraction f' r.
Proof. intros ? f'. destruct f. unfold parse_chunk. rewrite getnum_fixed by lia. cbn [mbind option_bind].
  destruct (Z.ltb_spec n 0), (Z.leb_spec 60 n); try lia. done.
Qed.

(** Reading a time under a layout that goes on differently from the one it was
    written with: a layout without a fraction takes one that is there. *)
Lemma parse_time t rest written : in_years t ->
  parse_fields (timeLayout rest) no_fields (Format t (timeLayout written)) =
  if fraction_next rest then parse_fields rest (time_fields t) (Format t written)
  else do? (f, r) := parse_fraction (time_fields t) (Format t written) in parse_fields rest f r.
Proof.
  intros H. rewrite format_time by done. pose proof (in_years_date t H) as Hd. pose proof (clock_parts t) as (Hh & Hmi & Hs & _).
  unfold time_fields. destruct (dateOf (day t)) as [[y m] d]. destruct Hd as (Hy & Hm & Hd & _).
  unfold timeLayout, dateLayout, clockLayout. cbn [app parse_fields].
  rewrite parse_year by done. cbn [mbind option_bind]. rewrite (parse_lit "-") by done. cbn [mbind option_bind].
  rewrite parse_month by done. cbn [mbind option_bind]. rewrite (parse_lit "-") by done. cbn [mbind option_bind].
  rewrite parse_day by done. cbn [mbind option_bind]. rewrite (parse_lit "T") by done. cbn [mbind option_bind].
  rewrite parse_hour by done. cbn [mbind option_bind]. rewrite (parse_lit ":") by done. cbn [mbind option_bind].
  rewrite parse_minute by done. cbn [mbind option_bind]. rewrite (parse_lit ":") by done. cbn [mbind option_bind].
  rewrite parse_second by done. cbv zeta. by destruct (fraction_next rest).
Qed.

(** What the fields stand for once the fraction is read. *)
Lemma instant_time t ns : in_years t -> let f := time_fields t in
  instant (mkFields (p_year f) (p_month f) (p_day f) (p_hour f) (p_min f) (p_sec f) ns 0) = t - nanos t + ns /\
  (p_day f <? 1) || (daysIn (p_month f) (p_year f) <? p_day f) = false.
Proof.
  intros H%in_years_date. pose proof (clock_parts t) as (_ & _ & _ & Hc). unfold time_fields, instant.
  destruct (dateOf (day t)) as [[y m] d]. destruct H as (_ & _ & _ & [_ Hd] & E). cbn [p_year p_month p_day p_hour p_min p_sec p_nsec p_offset].
  split; [|lia]. rewrite E. assert (day t * 86400 + clock t = secs t) as Hs by (unfold day, clock; Z.div_mod_to_equations; lia).
  assert (secs t * 10 ^ 9 + nanos t = t) by (unfold secs, nanos; Z.div_mod_to_equations; lia). lia.
Qed.

(** ** Nanoseconds without trailing zeros *)

Lemma trim0_length s : (String.length (trim0 s) <= String.length s)%nat.
Proof. induction s as [|c s IH]; [done|]. cbn. destruct (trim0 s); [destruct (Ascii.eqb c "0"%char); cbn; lia | cbn in *; lia]. Qed.
Lemma trim0_digits s : all_digits s = true -> all_digits (trim0 s) = true.
Proof.
  induction s as [|c s IH]; [done|]. cbn. intros [Hc Hs]%andb_true_iff. specialize (IH Hs).
  destruct (trim0 s); [destruct (Ascii.eqb c "0"%char); cbn; by rewrite ?Hc | cbn in *; by rewrite Hc, IH].
Qed.
Lemma trim0_value s acc :
  digits_val acc (trim0 s) * 10 ^ Z.of_nat (String.length s - String.length (trim0 s)) = digits_val acc s.
Proof.
  revert acc. induction s as [|c s IH]; intros acc; [cbn; lia|]. pose proof (trim0_length s) as Hl.
  cbn [trim0]. destruct (trim0 s) as [|c' r] eqn:E.
  - destruct (Ascii.eqb_spec c "0"%char) as [->|].
    + cbn [digits_val String.length]. rewrite <- IH. cbn [digits_val String.length]. change (code "0"%char - 48) with 0.
      rewrite !Nat.sub_0_r, Nat2Z.inj_succ, Z.pow_succ_r by lia. ring.
    + cbn [digits_val str1 String.length]. rewrite <- IH. cbn [digits_val String.length].
      by replace (S (String.length s) - 1)%nat with (String.length s - 0)%nat by lia.
  - cbn [digits_val String.length] in *. rewrite <- IH.
    by replace (S (String.length s) - S (S (String.length r)))%nat with (String.length s - S (String.length r))%nat by lia.
Qed.
Lemma take_digits_app s r : all_digits s = true -> (match r with String c _ => is_digit c | EmptyString => false end) = false ->
  take_digits (s +:+ r) = (s, r).
Proof.
  intros Hs Hr. induction s as [|c s IH].
  - destruct r as [|c r]; [done|]. cbn in *. by rewrite Hr.
  - cbn in *. apply andb_true_iff in Hs as [-> Hs]. by rewrite IH.
Qed.

Lemma parse_zone next f : parse_chunk StdISO8601ColonTZ next f "Z" = Some (f, "").
Proof. by destruct f. Qed.
Lemma substring_short k s : (String.length s <= k)%nat -> substring 0 k s = s.
Proof. revert k. induction s as [|c s IH]; intros [|k] Hk; cbn in *; try done; try lia. by rewrite IH by lia. Qed.

(** A trimmed fraction. *)
Lemma parse_trimmed f ns :
  p_nsec f = 0 -> 0 <= ns < 10 ^ Z.of_nat 9 ->
  parse_fraction f
    ((match trim0 (fixed 9 ns) with EmptyString => "" | s => String "."%char s end) +:+ "Z") =
  Some (mkFields (p_year f) (p_month f) (p_day f) (p_hour f) (p_min f) (p_sec f) ns (p_offset f), "Z").
Proof.
  intros H0 Hn.
  pose proof (trim0_value (fixed 9 ns) 0) as Hv. rewrite fixed_value, slength_fixed in Hv by done.
  pose proof (trim0_digits _ (all_digits_fixed 9 ns)) as Ha. pose proof (trim0_length (fixed 9 ns)) as Hl.
  rewrite slength_fixed in Hl. destruct (trim0 (fixed 9 ns)) as [|c r].
  - cbn in Hv. destruct f. cbn in *. by subst.
  - pose proof Ha as [Hc _]%andb_true_iff. unfold parse_fraction. cbn [append].
    cbn [commaOrPeriod Ascii.eqb Bool.eqb orb andb]. rewrite Hc. change (String c (r +:+ "Z")) with (String c r +:+ "Z").
    rewrite take_digits_app by done. unfold parseNanoseconds. cbn [commaOrPeriod Ascii.eqb Bool.eqb orb negb].
    rewrite substring_short, atoi_digits by done. cbn [mbind option_bind].
    replace (Z.of_nat (9 - String.length (String c r))) with (9 - Z.of_nat (String.length (String c r))) in Hv by lia. rewrite Hv.
    destruct (Z.ltb_spec (digits_val 0 (String c r)) 0) as [Hneg|]; [|done].
    pose proof (Z.pow_nonneg 10 (9 - Z.of_nat (String.length (String c r)))). nia.
Qed.

Lemma time_fields_zero t : p_nsec (time_fields t) = 0 /\ p_offset (time_fields t) = 0.
Proof. unfold time_fields. by destruct (dateOf (day t)) as [[? ?] ?]. Qed.
Lemma nanos_range t : 0 <= nanos t < 10 ^ Z.of_nat 9.
Proof. by apply Z.mod_pos_bound. Qed.

(** RFC 3339 with nanoseconds is read back as it was written, under the layout with
    the fraction and under the one without. *)
Lemma parse_nano_fields t rest : in_years t -> (rest = [StdFracSecond9 9; StdISO8601ColonTZ] \/ rest = [StdISO8601ColonTZ]) ->
  let f := time_fields t in
  parse_fields (timeLayout rest) no_fields (Format t RFC3339Nano) =
  Some (mkFields (p_year f) (p_month f) (p_day f) (p_hour f) (p_min f) (p_sec f) (nanos t) 0).
Proof.
  intros H Hrest f. change RFC3339Nano with (timeLayout [StdFracSecond9 9; StdISO8601ColonTZ]). rewrite parse_time by done.
  assert (Format t [StdFracSecond9 9; StdISO8601ColonTZ] =
    (match trim0 (fixed 9 (nanos t)) with EmptyString => "" | s => String "."%char s end) +:+ "Z") as ->.
  { unfold Format, format_chunk. cbn [foldr]. destruct (dateOf (day t)) as [[? ?] ?].
    change (9 - Z.of_nat 9) with 0. by rewrite Z.div_1_r, sapp_nil_r. }
  destruct (time_fields_zero t) as [H0 Ho]. pose proof (parse_trimmed (time_fields t) (nanos t) H0 (nanos_range t)) as Hf.
  destruct Hrest as [->| ->]; cbn [fraction_next parse_fields].
  - assert (forall s next, parse_chunk (StdFracSecond9 9) next (time_fields t) s = parse_fraction (time_fields t) s) as ->
      by (by destruct (time_fields t)). rewrite Hf. cbn [mbind option_bind]. rewrite parse_zone, Ho. done.
  - rewrite Hf. cbn [mbind option_bind]. rewrite parse_zone, Ho. done.
Qed.
Lemma parse_nano l t : in_years t -> (l = RFC3339Nano \/ l = RFC3339) -> Parse l (Format t RFC3339Nano) = Some t.
Proof.
  intros H Hl. unfold Parse. assert (exists rest, l = timeLayout rest /\
    (rest = [StdFracSecond9 9; StdISO8601ColonTZ] \/ rest = [StdISO8601ColonTZ])) as (rest & -> & Hr).
  { destruct Hl as [->| ->]; eexists; (split; [reflexivity|]); auto. }
  rewrite (parse_nano_fields t rest H Hr). cbn [mbind option_bind]. destruct (instant_time t (nanos t) H) as [E1 E2].
  cbn [p_year p_month p_day p_hour p_min p_sec p_nsec p_offset]. rewrite E2, E1. f_equal. lia.
Qed.
Lemma parse_format_nano t : in_years t -> Parse RFC3339Nano (Format t RFC3339Nano) = Some t.
Proof. intros H. apply parse_nano; auto. Qed.
Lemma parse_format_json t : in_years t -> Parse RFC3339 (Format t RFC3339Nano) = Some t.
Proof. intros H. apply parse_nano; auto. Qed.
