(* ===== verification/GoValue.v ===== *)
(** Go's [any] values and their JSON encoding.

    [goval] has the dynamic types the evaluator inspects.  [unmarshal_any] is
    [json.Unmarshal] into an [any]: it returns the value it built together with
    the error flag, because a range error in a number leaves [nil] in its place
    and decoding goes on.  [marshal] is [json.Marshal].  A map is a key-sorted
    association list, the order in which the encoder writes it. *)
From stdpp Require Import base list strings numbers.
From Stdlib Require Import Ascii String ZArith Lia Floats.SpecFloat.
From S2P Require Import Prelude Text Literal Json Float64.

Unset Elimination Schemes.
Inductive goval : Type :=
| VNil
| VBool (b : bool)
| VFloat64 (f : float64)
| VFloat32 (f : spec_float)
| VInt (z : Z)
| VInt64 (z : Z)
| VNumber (lit : string)     (* json.Number, a number literal *)
| VStr (s : string)
| VSlice (l : list goval)
| VMap (m : list (string * goval)).
Set Elimination Schemes.

Section goval_ind.
Variable P : goval -> Prop.
Hypothesis P_nil : P VNil.
Hypothesis P_bool : forall b, P (VBool b).
Hypothesis P_f64 : forall f, P (VFloat64 f).
Hypothesis P_f32 : forall f, P (VFloat32 f).
Hypothesis P_int : forall z, P (VInt z).
Hypothesis P_int64 : forall z, P (VInt64 z).
Hypothesis P_number : forall l, P (VNumber l).
Hypothesis P_str : forall s, P (VStr s).
Hypothesis P_slice : forall l, Forall P l -> P (VSlice l).
Hypothesis P_map : forall m, Forall (fun kv => P kv.2) m -> P (VMap m).

Fixpoint goval_ind (v : goval) : P v :=
  match v with
  | VNil => P_nil
  | VBool b => P_bool b
  | VFloat64 f => P_f64 f
  | VFloat32 f => P_f32 f
  | VInt z => P_int z
  | VInt64 z => P_int64 z
  | VNumber l => P_number l
  | VStr s => P_str s
  | VSlice l => P_slice l ((fix go (l : list goval) : Forall P l :=
      match l with [] => Forall_nil_2 _ | x :: l => Forall_cons_2 _ _ _ (goval_ind x) (go l) end) l)
  | VMap m => P_map m ((fix go (m : list (string * goval)) : Forall (fun kv => P kv.2) m :=
      match m with [] => Forall_nil_2 _ | kv :: m => Forall_cons_2 _ _ _ (goval_ind kv.2) (go m) end) m)
  end.
End goval_ind.

(** ** Sorted association maps *)

Section assoc.
Context {A : Type}.

Fixpoint map_get (k : string) (m : list (string * A)) : option A :=
  match m with
  | [] => None
  | (k', v) :: m' => if String.eqb k k' then Some v else map_get k m'
  end.

Fixpoint map_set (k : string) (v : A) (m : list (string * A)) : list (string * A) :=
  match m with
  | [] => [(k, v)]
  | (k', v') :: m' =>
      if String.eqb k k' then (k, v) :: m'
      else if sltb k k' then (k, v) :: m
      else (k', v') :: map_set k v m'
  end.

Lemma map_get_set k v m k' :
  map_get k' (map_set k v m) = if String.eqb k' k then Some v else map_get k' m.
Proof.
  induction m as [|[k0 v0] m IH]; simpl; [done|].
  destruct (String.eqb_spec k k0) as [->|Hk]; simpl; [by destruct (String.eqb_spec k' k0)|].
  destruct (sltb k k0); simpl; [done|]. rewrite IH.
  destruct (String.eqb_spec k' k0), (String.eqb_spec k' k); congruence.
Qed.

Lemma map_set_Forall (P : string * A -> Prop) k v m : P (k, v) -> Forall P m -> Forall P (map_set k v m).
Proof.
  intros Hkv. induction m as [|[k1 v1] m IH]; cbn; intros H; [by constructor|]. inversion H; subst.
  repeat case_match; repeat constructor; auto.
Qed.

(** Keys strictly increasing. *)
Fixpoint keys_sorted (m : list (string * A)) : bool :=
  match m with
  | (k, _) :: ((k', _) :: _) as m' => sltb k k' && keys_sorted m'
  | _ => true
  end.

Lemma keys_sorted_cons k v m :
  keys_sorted ((k, v) :: m) = true <->
  (forall k', map_get k' m <> None -> sltb k k' = true) /\ keys_sorted m = true.
Proof.
  revert k v. induction m as [|[k0 v0] m IH]; intros k v.
  - simpl. naive_solver.
  - cbn [keys_sorted]. rewrite andb_true_iff. split.
    + intros [H1 H2]. split; [|done]. intros k'. simpl.
      destruct (String.eqb_spec k' k0) as [->|]; [done|]. intros Hg.
      eapply sltb_trans; [exact H1|]. by apply (IH k0 v0).
    + intros [H1 H2]. split; [|done]. apply H1. simpl. by rewrite String.eqb_refl.
Qed.

Lemma map_set_sorted k v m : keys_sorted m = true -> keys_sorted (map_set k v m) = true.
Proof.
  induction m as [|[k0 v0] m IH]; intros Hs; [done|]. cbn [map_set].
  destruct (String.eqb_spec k k0) as [->|Hk].
  - apply keys_sorted_cons in Hs as [H1 H2]. by apply keys_sorted_cons.
  - destruct (sltb k k0) eqn:E.
    + cbn [keys_sorted]. by rewrite E.
    + apply keys_sorted_cons in Hs as [H1 H2]. apply keys_sorted_cons. split; [|by apply IH].
      intros k'. rewrite map_get_set. destruct (String.eqb_spec k' k) as [->|]; [|by auto].
      intros _. destruct (sltb k0 k) eqn:E'; [done|]. by apply sltb_total in E.
Qed.
End assoc.

(** ** Decoding into [any] *)

Section loops.
Context {A B : Type}.
(** [for _, x := range l { v, bad := f x; ... }] with the error flags joined. *)
Definition map_bad (f : A -> B * bool) (l : list A) : list B * bool :=
  (map (fun x => (f x).1) l, existsb (fun x => (f x).2) l).
End loops.

(** The value of a document, and whether a number was out of range. *)
Fixpoint any_of (d : jdoc) : goval * bool :=
  match d with
  | JNull => (VNil, false)
  | JBool b => (VBool b, false)
  | JNum l => match parse64 l with Some f => (VFloat64 f, false) | None => (VNil, true) end
  | JStr l => (VStr (unquote l), false)
  | JArr l => let '(vs, bad) := map_bad any_of l in (VSlice vs, bad)
  | JObj m =>
      let r := map_bad (fun kv => let '(v, bad) := any_of kv.2 in ((unquote kv.1, v), bad)) m in
      (VMap (fold_left (fun acc kv => map_set kv.1 kv.2 acc) r.1 []), r.2)
  end.

(** [var v any; err := json.Unmarshal(raw, &v)]: the value left in [v] and
    whether [err] is not nil. *)
Definition unmarshal_any (raw : string) : goval * bool :=
  match scan raw with
  | None => (VNil, true)
  | Some d => any_of d
  end.

(** [var s string; err := json.Unmarshal(raw, &s)]: [null] leaves [s] empty. *)
Definition unmarshal_string (raw : string) : option string :=
  match scan raw with
  | Some (JStr l) => Some (unquote l)
  | Some JNull => Some ""
  | _ => None
  end.

(** ** Encoding *)

Fixpoint doc_of (v : goval) : option jdoc :=
  match v with
  | VNil => Some JNull
  | VBool b => Some (JBool b)
  | VFloat64 f => do? t := fmt64 f in Some (JNum t)
  | VFloat32 f => do? t := fmt32 f in Some (JNum t)
  | VInt z | VInt64 z => Some (JNum (itoa z))
  | VNumber l => if String.eqb l "" then Some (JNum "0") else
      match scan_num l with Some (_, "") => Some (JNum l) | _ => None end
  | VStr s => Some (JStr (quote s))
  | VSlice l => do? ds := mapM doc_of l in Some (JArr ds)
  | VMap m => do? ds := mapM (fun kv => do? d := doc_of kv.2 in Some (quote kv.1, d)) m in Some (JObj ds)
  end.

(** [json.Marshal(v)]; [None] is an error. *)
Definition marshal (v : goval) : option string := do? d := doc_of v in Some (print d).

(** ** Well-formed values and the round trip *)

(** The values decoding produces: no integer, float32 or [json.Number], finite
    floats with a text, valid UTF-8, sorted keys. *)
Fixpoint plain (v : goval) : bool :=
  match v with
  | VNil | VBool _ => true
  | VFloat64 f => fmt_okb f
  | VStr s => utf8_valid s
  | VSlice l => forallb plain l
  | VMap m => keys_sorted m && forallb (fun kv => utf8_valid kv.1 && plain kv.2) m
  | _ => false
  end.

Lemma map_bad_cons {A B} (f : A -> B * bool) x l :
  map_bad f (x :: l) = ((f x).1 :: (map_bad f l).1, (f x).2 || (map_bad f l).2).
Proof. done. Qed.

Definition load (m acc : list (string * goval)) : list (string * goval) :=
  fold_left (fun acc kv => map_set kv.1 kv.2 acc) m acc.

Lemma map_set_last {A} k v (m : list (string * A)) :
  (forall k', map_get k' m <> None -> sltb k' k = true) -> map_set k v m = m ++ [(k, v)].
Proof.
  induction m as [|[k0 v0] m IH]; intros H; [done|]. simpl.
  assert (sltb k0 k = true) as H0 by (apply H; simpl; by rewrite String.eqb_refl).
  destruct (String.eqb_spec k k0) as [->|Hk]; [by rewrite sltb_irrefl in H0|].
  destruct (sltb k k0) eqn:E.
  { pose proof (sltb_trans _ _ _ E H0) as Hc. by rewrite sltb_irrefl in Hc. }
  rewrite IH; [done|]. intros k' Hk'. apply H. simpl. by destruct (String.eqb k' k0).
Qed.

Lemma map_get_app {A} k (m1 m2 : list (string * A)) :
  map_get k (m1 ++ m2) = match map_get k m1 with Some v => Some v | None => map_get k m2 end.
Proof. induction m1 as [|[k0 v0] m1 IH]; simpl; [done|]. by destruct (String.eqb k k0). Qed.

(** Inserting the entries of a sorted map one by one rebuilds it. *)
Lemma load_sorted m acc :
  keys_sorted m = true ->
  (forall k k', map_get k acc <> None -> map_get k' m <> None -> sltb k k' = true) ->
  load m acc = acc ++ m.
Proof.
  revert acc. induction m as [|[k v] m IH]; intros acc Hs Ha; unfold load; simpl.
  { by rewrite app_nil_r. }
  apply keys_sorted_cons in Hs as [H1 H2].
  rewrite map_set_last; [|intros k' Hk'; apply Ha; [done|simpl; by rewrite String.eqb_refl]].
  fold (load m (acc ++ [(k, v)])). rewrite IH; [by rewrite <- app_assoc|done|].
  intros k1 k2. rewrite map_get_app. intros Hk1 Hk2.
  destruct (map_get k1 acc) eqn:E.
  - apply Ha; [congruence|]. simpl. by destruct (String.eqb k2 k).
  - simpl in Hk1. destruct (String.eqb_spec k1 k) as [->|]; [by apply H1|done].
Qed.

(** What a plain value is encoded to decodes to it. *)
Definition decodes_back (v : goval) : Prop :=
  exists d, doc_of v = Some d /\ wf_doc d /\ any_of d = (v, false).

Lemma mapM_cons_some {A B} (f : A -> option B) x y l ys :
  f x = Some y -> mapM f l = Some ys -> mapM f (x :: l) = Some (y :: ys).
Proof. intros H1 H2. cbn. rewrite H1. cbn. by rewrite H2. Qed.

Lemma doc_of_slice l :
  Forall decodes_back l ->
  exists ds, mapM doc_of l = Some ds /\ Forall wf_doc ds /\ map_bad any_of ds = (l, false).
Proof.
  induction 1 as [|v l (d & E & Hw & Ha) Hl (ds & Es & Hws & Has)]; [by exists []|].
  exists (d :: ds). split; [by apply mapM_cons_some|]. split; [by constructor|].
  rewrite map_bad_cons, Ha, Has. done.
Qed.

Definition any_member (kv : string * jdoc) : (string * goval) * bool :=
  let '(v, bad) := any_of kv.2 in ((unquote kv.1, v), bad).
Definition doc_member (kv : string * goval) : option (string * jdoc) :=
  do? d := doc_of kv.2 in Some (quote kv.1, d).

Lemma doc_of_members m :
  Forall (fun kv => utf8_valid kv.1 = true /\ decodes_back kv.2) m ->
  exists ds, mapM doc_member m = Some ds /\ Forall (fun kv => str_lit kv.1 /\ wf_doc kv.2) ds /\
             map_bad any_member ds = (m, false).
Proof.
  induction 1 as [|[k v] m (Hk & d & E & Hw & Ha) Hl (ds & Es & Hws & Has)]; [by exists []|].
  exists ((quote k, d) :: ds). cbn [fst snd] in *. split.
  { apply mapM_cons_some; [|done]. unfold doc_member. cbn [fst snd]. by rewrite E. }
  split.
  - constructor; [split; [apply lit_quote | done] | done].
  - assert (any_member (quote k, d) = ((k, v), false)) as Hm.
    { unfold any_member. cbn [fst snd]. by rewrite Ha, unquote_quote. }
    by rewrite map_bad_cons, Hm, Has.
Qed.

Lemma plain_decodes v : plain v = true -> decodes_back v.
Proof.
  induction v as [|b|f|f|z|z|l|s|l IH|m IH] using goval_ind; intros Hp; try discriminate Hp.
  - by exists JNull.
  - by exists (JBool b).
  - destruct (fmt_ok_some f Hp) as [t Ht]. destruct (fmt_ok_spec f t Hp Ht) as [Hl Hb].
    exists (JNum t). unfold doc_of. rewrite Ht. split; [done|]. split; [done|]. cbn. by rewrite Hb.
  - exists (JStr (quote s)). split; [done|]. split; [apply lit_quote|]. cbn. rewrite unquote_quote; [done | exact Hp].
  - cbn in Hp.
    assert (Forall decodes_back l) as Hl.
    { rewrite Forall_forall in *. rewrite forallb_forall in Hp. intros x Hx. apply IH; [done|].
      by apply Hp. }
    destruct (doc_of_slice l Hl) as (ds & E & Hw & Ha). exists (JArr ds). cbn [doc_of]. rewrite E.
    split; [done|]. split; [by apply wf_arr|]. cbn [any_of]. by rewrite Ha.
  - cbn in Hp. apply andb_true_iff in Hp as [Hs Hp].
    assert (Forall (fun kv => utf8_valid kv.1 = true /\ decodes_back kv.2) m) as Hm.
    { rewrite Forall_forall in *. rewrite forallb_forall in Hp. intros x Hx.
      assert (utf8_valid x.1 && plain x.2 = true) as [? ?]%andb_true_iff by (by apply Hp).
      auto. }
    destruct (doc_of_members m Hm) as (ds & E & Hw & Ha). exists (JObj ds). cbn [doc_of].
    fold doc_member. rewrite E. split; [done|]. split; [by apply wf_obj|].
    cbn [any_of]. fold any_member. rewrite Ha. cbn [fst snd]. fold (load m []).
    rewrite load_sorted; done.
Qed.

(** [json.Unmarshal] reads back what [json.Marshal] writes. *)
Lemma unmarshal_marshal v :
  plain v = true -> exists t, marshal v = Some t /\ unmarshal_any t = (v, false).
Proof.
  intros (d & E & Hw & Ha)%plain_decodes. exists (print d). unfold marshal, unmarshal_any.
  by rewrite E, scan_print.
Qed.

(** Distinct plain values have distinct texts. *)
Lemma marshal_inj v w :
  plain v = true -> plain w = true -> marshal v = marshal w -> v = w.
Proof.
  intros (t & E & H)%unmarshal_marshal (t' & E' & H')%unmarshal_marshal Hm. congruence.
Qed.
