(* ===== verification/Ir.v ===== *)
(** The rules-tree IR ([internal/config/ir.go]) and its JSON form.

    The types are those of the source; [json.RawMessage] is its text, with the
    empty text for a nil message.  [dec_tree] is [json.Unmarshal] into a
    [RulesTree]: fields are matched by exact and then case-folded key,
    repeated keys decode into the value of the earlier ones, [null] leaves
    strings and numbers unchanged, resets slices and pointers, and is kept as a
    raw message.  (An array key that occurs three times could still see
    elements its second occurrence cut off; that reuse of a slice's spare
    capacity is not modelled.)  [enc_tree] is [json.Marshal]. *)
From stdpp Require Import base list strings numbers.
From Stdlib Require Import Ascii String ZArith Lia.
From S2P Require Import Prelude Text Literal Json Float64 GoValue.

Definition RawMessage : Type := string.

(** ** ValueType *)

Definition ValueType : Type := string.
Definition ValueTypeBoolean : ValueType := "boolean".
Definition ValueTypeString : ValueType := "string".
Definition ValueTypeNumber : ValueType := "number".
Definition ValueTypeObject : ValueType := "object".

(** ** Predicate kinds *)

(** The kinds the source names.  A [PredicateKind] is any string; a [switch]
    on it is a [match] on [kind_case]. *)
Inductive kind_case : Type :=
| PredEq | PredNeq | PredIn | PredGt | PredGte | PredLt | PredLte | PredMatches
| PredStartsWith | PredRollout | PredAll | PredAny | PredNot | PredCEL | PredAlways
| PredSegment | PredOther.

#[global] Instance kind_case_eq_dec : EqDecision kind_case.
Proof. solve_decision. Defined.

Definition PredicateKind : Type := string.
Definition kind_name (k : kind_case) : PredicateKind :=
  match k with
  | PredEq => "eq" | PredNeq => "neq" | PredIn => "in" | PredGt => "gt" | PredGte => "gte"
  | PredLt => "lt" | PredLte => "lte" | PredMatches => "matches" | PredStartsWith => "starts_with"
  | PredRollout => "rollout" | PredAll => "all" | PredAny => "any" | PredNot => "not"
  | PredCEL => "cel" | PredAlways => "always" | PredSegment => "segment" | PredOther => ""
  end.

Definition all_kinds : list kind_case :=
  [PredEq; PredNeq; PredIn; PredGt; PredGte; PredLt; PredLte; PredMatches; PredStartsWith;
   PredRollout; PredAll; PredAny; PredNot; PredCEL; PredAlways; PredSegment].

Definition kind_of (k : PredicateKind) : kind_case :=
  match List.find (fun c => String.eqb (kind_name c) k) all_kinds with
  | Some c => c
  | None => PredOther
  end.

(** ** The tree *)

Unset Elimination Schemes.
Inductive Predicate : Type := mkPredicate {
  Kind : PredicateKind;
  Attr : string;
  Value : RawMessage;
  Values : list RawMessage;
  Pattern : string;
  Salt : string;
  Percent : Z;
  Of : list (option Predicate);
  OfOne : option Predicate;
  Source : string;
  SegmentKey : string
}.
Set Elimination Schemes.

Record Rule : Type := mkRule {
  ID : string;
  When : option Predicate;
  RuleValue : RawMessage
}.

(** [Rules] is [None] for a nil slice, which [json.Marshal] writes as [null]. *)
Record RulesTree : Type := mkRulesTree {
  TreeValueType : ValueType;
  Default : RawMessage;
  Rules : option (list Rule)
}.

Definition rules_of (t : RulesTree) : list Rule := default [] (Rules t).

Section Predicate_ind.
Variable P : Predicate -> Prop.
Definition opt_all (o : option Predicate) : Prop := match o with Some p => P p | None => True end.
Hypothesis step : forall p, Forall opt_all (Of p) -> opt_all (OfOne p) -> P p.

Fixpoint Predicate_ind (p : Predicate) : P p :=
  step p
    ((fix go (l : list (option Predicate)) : Forall opt_all l :=
        match l with
        | [] => Forall_nil_2 _
        | o :: l' => Forall_cons_2 _ o l'
            (match o as o return opt_all o with Some q => Predicate_ind q | None => I end) (go l')
        end) (Of p))
    (match OfOne p as o return opt_all o with Some q => Predicate_ind q | None => I end).
End Predicate_ind.

Definition zero_pred : Predicate := mkPredicate "" "" "" [] "" "" 0 [] None "" "".
Definition zero_rule : Rule := mkRule "" None "".
Definition zero_tree : RulesTree := mkRulesTree "" "" None.

(** ** Decoding *)

(** The folded form of a key: ASCII letters in upper case, and the two runes
    outside ASCII that fold to an ASCII letter. *)
Fixpoint fold_key (s : string) : string :=
  match s with
  | EmptyString => EmptyString
  | String c r =>
      if byte_in 97 122 c then String (chr (code c - 32)) (fold_key r)
      else match r with
           | String c1 r1 =>
               if (code c =? 197) && (code c1 =? 191) then String "S"%char (fold_key r1)
               else match r1 with
                    | String c2 r2 =>
                        if (code c =? 226) && (code c1 =? 132) && (code c2 =? 170)
                        then String "K"%char (fold_key r2) else String c (fold_key r)
                    | EmptyString => String c (fold_key r)
                    end
           | EmptyString => String c (fold_key r)
           end
  end.

(** The field a key names: an exact match first, then a folded one. *)
Definition field_of {F} (names : list (string * F)) (k : string) : option F :=
  match List.find (fun nf => String.eqb nf.1 k) names with
  | Some nf => Some nf.2
  | None => match List.find (fun nf => String.eqb (fold_key nf.1) (fold_key k)) names with
            | Some nf => Some nf.2
            | None => None
            end
  end.

Definition dec_str (d : jdoc) (old : string) : option string :=
  match d with JNull => Some old | JStr l => Some (unquote l) | _ => None end.

(** [strconv.ParseInt(lit, 10, 64)] on a number literal. *)
Definition parse_int (lit : string) : option Z :=
  let '(m, ds) := take_char "-"%char lit in
  if all_digits ds && negb (String.eqb ds "") then
    let z := if String.eqb m "" then digits_val 0 ds else - digits_val 0 ds in
    if in_int64 z then Some z else None
  else None.

Definition dec_int (d : jdoc) (old : Z) : option Z :=
  match d with JNull => Some old | JNum l => parse_int l | _ => None end.

Definition dec_raw (d : jdoc) : RawMessage := print d.

Section dec_slice.
Context {A : Type} (zero : A) (dec : jdoc -> A -> option A).
(** The elements of an array, each decoded into the old element at its index. *)
Fixpoint dec_elems (ds : list jdoc) (old : list A) : option (list A) :=
  match ds with
  | [] => Some []
  | d :: ds' =>
      do? x := dec d (match old with o :: _ => o | [] => zero end) in
      do? xs := dec_elems ds' (match old with _ :: old' => old' | [] => [] end) in
      Some (x :: xs)
  end.
End dec_slice.

Section dec_members.
Context {A F : Type} (names : list (string * F)) (set : F -> jdoc -> A -> option A).
(** The members of an object, in order; unknown keys are skipped. *)
Fixpoint dec_members (m : list (string * jdoc)) (acc : A) : option A :=
  match m with
  | [] => Some acc
  | (k, d) :: m' =>
      do? acc' := match field_of names (unquote k) with
                  | Some f => set f d acc
                  | None => Some acc
                  end in
      dec_members m' acc'
  end.
End dec_members.

Inductive pfield : Type :=
| FKind | FAttr | FValue | FValues | FPattern | FSalt | FPercent | FOf | FOfOne | FSource | FKey.

Definition pfields : list (string * pfield) :=
  [("kind", FKind); ("attr", FAttr); ("value", FValue); ("values", FValues); ("pattern", FPattern);
   ("salt", FSalt); ("percent", FPercent); ("of", FOf); ("of_one", FOfOne); ("source", FSource);
   ("key", FKey)].

(** Decode one member into a predicate, with [dec] for the child pointers. *)
Definition pred_set (dec : jdoc -> option Predicate -> option (option Predicate))
    (f : pfield) (d : jdoc) (p : Predicate) : option Predicate :=
  let '(mkPredicate k a v vs pat s pc o o1 src key) := p in
  match f with
  | FKind => do? k := dec_str d k in Some (mkPredicate k a v vs pat s pc o o1 src key)
  | FAttr => do? a := dec_str d a in Some (mkPredicate k a v vs pat s pc o o1 src key)
  | FValue => Some (mkPredicate k a (dec_raw d) vs pat s pc o o1 src key)
  | FValues =>
      match d with
      | JNull => Some (mkPredicate k a v [] pat s pc o o1 src key)
      | JArr ds => Some (mkPredicate k a v (map dec_raw ds) pat s pc o o1 src key)
      | _ => None
      end
  | FPattern => do? pat := dec_str d pat in Some (mkPredicate k a v vs pat s pc o o1 src key)
  | FSalt => do? s := dec_str d s in Some (mkPredicate k a v vs pat s pc o o1 src key)
  | FPercent => do? pc := dec_int d pc in Some (mkPredicate k a v vs pat s pc o o1 src key)
  | FOf =>
      match d with
      | JNull => Some (mkPredicate k a v vs pat s pc [] o1 src key)
      | JArr ds => do? o := dec_elems None dec ds o in
                   Some (mkPredicate k a v vs pat s pc o o1 src key)
      | _ => None
      end
  | FOfOne => do? o1 := dec d o1 in Some (mkPredicate k a v vs pat s pc o o1 src key)
  | FSource => do? src := dec_str d src in Some (mkPredicate k a v vs pat s pc o o1 src key)
  | FKey => do? key := dec_str d key in Some (mkPredicate k a v vs pat s pc o o1 src key)
  end.

(** Decode into a [*Predicate]: [null] stores nil, an object decodes into the
    old predicate or a new one. *)
Fixpoint dec_pred (d : jdoc) (old : option Predicate) {struct d} : option (option Predicate) :=
  match d with
  | JNull => Some None
  | JObj m =>
      do? p := dec_members pfields (pred_set dec_pred) m (default zero_pred old) in
      Some (Some p)
  | _ => None
  end.

Inductive rfield : Type := FID | FWhen | FRuleValue.
Definition rfields : list (string * rfield) := [("id", FID); ("when", FWhen); ("value", FRuleValue)].

Definition rule_set (f : rfield) (d : jdoc) (r : Rule) : option Rule :=
  let '(mkRule i w v) := r in
  match f with
  | FID => do? i := dec_str d i in Some (mkRule i w v)
  | FWhen => do? w := dec_pred d w in Some (mkRule i w v)
  | FRuleValue => Some (mkRule i w (dec_raw d))
  end.
Definition dec_rule (d : jdoc) (old : Rule) : option Rule :=
  match d with
  | JNull => Some old
  | JObj m => dec_members rfields rule_set m old
  | _ => None
  end.

Inductive tfield : Type := FValueType | FDefault | FRules.
Definition tfields : list (string * tfield) :=
  [("value_type", FValueType); ("default", FDefault); ("rules", FRules)].

Definition tree_set (f : tfield) (d : jdoc) (t : RulesTree) : option RulesTree :=
  let '(mkRulesTree vt df rs) := t in
  match f with
  | FValueType => do? vt := dec_str d vt in Some (mkRulesTree vt df rs)
  | FDefault => Some (mkRulesTree vt (dec_raw d) rs)
  | FRules =>
      match d with
      | JNull => Some (mkRulesTree vt df None)
      | JArr ds => do? rs := dec_elems zero_rule dec_rule ds (default [] rs) in
                   Some (mkRulesTree vt df (Some rs))
      | _ => None
      end
  end.
Definition dec_tree_doc (d : jdoc) (old : RulesTree) : option RulesTree :=
  match d with
  | JNull => Some old
  | JObj m => dec_members tfields tree_set m old
  | _ => None
  end.

(** [var tree RulesTree; err := json.Unmarshal(source, &tree)]. *)
Definition dec_tree (source : string) : option RulesTree :=
  do? d := scan source in dec_tree_doc d zero_tree.

(** [var p Predicate; err := json.Unmarshal(source, &p)] into a struct, where a
    top-level [null] leaves the zero value. *)
Definition dec_predicate (source : string) : option Predicate :=
  do? d := scan source in
  do? o := dec_pred d None in
  Some (default zero_pred o).

(** ** Encoding *)

(** The string literals of an embedded raw message are HTML-escaped. *)
Fixpoint esc_doc (d : jdoc) : jdoc :=
  match d with
  | JStr l => JStr (html_escape l)
  | JArr l => JArr (map esc_doc l)
  | JObj m => JObj (map (fun kv => (html_escape kv.1, esc_doc kv.2)) m)
  | d => d
  end.

(** A raw message inside a marshalled value: nil is [null], an invalid text an
    error. *)
Definition enc_raw (r : RawMessage) : option jdoc :=
  if String.eqb r "" then Some JNull else do? d := scan r in Some (esc_doc d).

Definition enc_str (s : string) : jdoc := JStr (quote s).

(** A member that [omitempty] drops. *)
Definition omit_str (k s : string) : list (string * jdoc) :=
  if String.eqb s "" then [] else [(k, enc_str s)].
Definition omit_raw (k : string) (r : RawMessage) : option (list (string * jdoc)) :=
  if String.eqb r "" then Some [] else do? d := enc_raw r in Some [(k, d)].
Definition omit_arr (k : string) (l : list jdoc) : list (string * jdoc) :=
  match l with [] => [] | _ => [(k, JArr l)] end.

Fixpoint enc_pred (p : Predicate) : option jdoc :=
  let enc_ptr (o : option Predicate) := match o with Some q => enc_pred q | None => Some JNull end in
  do? v := omit_raw "value" (Value p) in
  do? vs := mapM enc_raw (Values p) in
  do? os := mapM enc_ptr (Of p) in
  do? o1 := match OfOne p with
            | Some q => do? d := enc_pred q in Some [("of_one", d)]
            | None => Some []
            end in
  Some (JObj ([("kind", enc_str (Kind p))] ++ omit_str "attr" (Attr p) ++ v ++
    omit_arr "values" vs ++ omit_str "pattern" (Pattern p) ++ omit_str "salt" (Salt p) ++
    (if Percent p =? 0 then [] else [("percent", JNum (itoa (Percent p)))]) ++
    omit_arr "of" os ++ o1 ++ omit_str "source" (Source p) ++ omit_str "key" (SegmentKey p))).

Definition enc_ptr (o : option Predicate) : option jdoc :=
  match o with Some q => enc_pred q | None => Some JNull end.

Definition enc_rule (r : Rule) : option jdoc :=
  do? w := enc_ptr (When r) in
  do? v := enc_raw (RuleValue r) in
  Some (JObj [("id", enc_str (ID r)); ("when", w); ("value", v)]).

Definition enc_tree_doc (t : RulesTree) : option jdoc :=
  do? df := enc_raw (Default t) in
  do? rs := match Rules t with
            | None => Some JNull
            | Some l => do? ds := mapM enc_rule l in Some (JArr ds)
            end in
  Some (JObj [("value_type", enc_str (TreeValueType t)); ("default", df); ("rules", rs)]).

(** [json.Marshal(tree)]. *)
Definition enc_tree (t : RulesTree) : option string :=
  do? d := enc_tree_doc t in Some (print d).

(** [json.Marshal(p)] of a predicate. *)
Definition enc_predicate (p : Predicate) : option string :=
  do? d := enc_pred p in Some (print d).

(** [ParseInt] reads back what [Itoa] writes. *)
Lemma parse_int_itoa z : in_int64 z = true -> parse_int (itoa z) = Some z.
Proof.
  intros Hz. unfold parse_int, itoa. destruct (Z.ltb_spec z 0).
  - change (take_char "-"%char (String "-"%char (digits (- z)))) with (str1 "-"%char, digits (- z)).
    cbv beta iota. destruct (digits_head (- z)) as (c & r & E & _); [lia|].
    rewrite digits_all by lia. rewrite E at 1. cbn [andb negb String.eqb str1].
    rewrite digits_val_digits, Z.opp_involutive by lia. by rewrite Hz.
  - destruct (digits_head z) as (c & r & E & Hc & _); [done|].
    pose proof (digits_all z H) as Ha. pose proof (digits_val_digits z H) as Hv.
    rewrite E in *. cbn [take_char]. rewrite digit_not_minus by done. rewrite Ha. cbn [andb negb String.eqb].
    by rewrite Hv, Hz.
Qed.

(** ** Raw messages after marshalling *)

Lemma wf_esc d : wf_doc d -> wf_doc (esc_doc d).
Proof.
  induction d as [| | | |l IH|m IH] using jdoc_ind; try done; cbn [esc_doc].
  - apply lit_html.
  - rewrite !wf_arr. induction IH as [|d l Hd Hl IHl]; [done|]. inversion 1; subst.
    constructor; auto.
  - rewrite !wf_obj. induction IH as [|[k d] m Hd Hl IHl]; [done|]. inversion 1 as [|? ? [? ?]]; subst.
    constructor; [split; [by apply lit_html | by apply Hd] | auto].
Qed.

(** Escaping does not change the value a message stands for. *)
Lemma any_esc d : wf_doc d -> any_of (esc_doc d) = any_of d.
Proof.
  induction d as [| | | |l IH|m IH] using jdoc_ind; try done; cbn [esc_doc any_of].
  - intros H. by rewrite unquote_html.
  - rewrite wf_arr. intros Hw.
    assert (map_bad any_of (map esc_doc l) = map_bad any_of l) as ->; [|done].
    induction IH as [|d l Hd Hl IHl]; [done|]. inversion Hw; subst. cbn [map].
    by rewrite !map_bad_cons, Hd, IHl.
  - rewrite wf_obj. intros Hw. fold any_member.
    assert (map_bad any_member (map (fun kv => (html_escape kv.1, esc_doc kv.2)) m) = map_bad any_member m)
      as ->; [|done].
    induction IH as [|[k d] m Hd Hl IHl]; [done|]. inversion Hw as [|? ? [? ?]]; subst. cbn [map].
    rewrite !map_bad_cons, IHl by done. unfold any_member. cbn [fst snd] in *.
    by rewrite Hd, unquote_html.
Qed.

Definition raw_ok (r : RawMessage) : bool := match scan r with Some _ => true | None => false end.

(** The text a raw message has after [json.Marshal] and [json.Unmarshal]. *)
Definition norm_raw (r : RawMessage) : RawMessage :=
  match scan r with Some d => print (esc_doc d) | None => r end.

Lemma raw_ok_scan r : raw_ok r = true -> exists d, scan r = Some d /\ wf_doc d.
Proof. unfold raw_ok. destruct (scan r) eqn:E; [|done]. eauto with ff. Qed.

Lemma raw_ok_nonempty r : raw_ok r = true -> String.eqb r "" = false.
Proof. by destruct r. Qed.

Lemma print_nonempty d : wf_doc d -> String.eqb (print d) "" = false.
Proof. intros (c & r & -> & _)%print_head. done. Qed.

Lemma enc_raw_ok r :
  raw_ok r = true -> exists d, enc_raw r = Some d /\ wf_doc d /\ dec_raw d = norm_raw r.
Proof.
  intros Hr. destruct (raw_ok_scan r Hr) as (d & E & Hw). exists (esc_doc d).
  unfold enc_raw, norm_raw. rewrite (raw_ok_nonempty r Hr), E. eauto using wf_esc.
Qed.

(** Two raw messages the program cannot tell apart. *)
Definition raw_equiv (r r' : RawMessage) : Prop :=
  unmarshal_any r = unmarshal_any r' /\ unmarshal_string r = unmarshal_string r' /\
  String.eqb r "" = String.eqb r' "".

#[global] Instance raw_equiv_equivalence : Equivalence raw_equiv.
Proof. unfold raw_equiv. split; [done | by intros ?? (?&?&?) | intros ??? (?&?&?) (?&?&?); split_and!; congruence]. Qed.

Lemma norm_raw_equiv r : raw_equiv (norm_raw r) r.
Proof.
  unfold norm_raw. destruct (scan r) as [d|] eqn:E; [|done].
  pose proof (scan_sound r d E) as Hw. pose proof (wf_esc d Hw) as Hw'.
  unfold raw_equiv, unmarshal_any, unmarshal_string. rewrite (scan_print _ Hw'), E. split_and!.
  - by apply any_esc.
  - destruct d; try done. cbn in *. by rewrite unquote_html.
  - rewrite print_nonempty by done. by destruct r.
Qed.

(** ** Trees the decoder builds *)

Fixpoint wf_pred (p : Predicate) : bool :=
  utf8_valid (Kind p) && utf8_valid (Attr p) &&
  (String.eqb (Value p) "" || raw_ok (Value p)) && forallb raw_ok (Values p) &&
  utf8_valid (Pattern p) && utf8_valid (Salt p) && in_int64 (Percent p) &&
  forallb (fun o => match o with Some q => wf_pred q | None => true end) (Of p) &&
  (match OfOne p with Some q => wf_pred q | None => true end) &&
  utf8_valid (Source p) && utf8_valid (SegmentKey p).

Definition wf_ptr (o : option Predicate) : bool := match o with Some q => wf_pred q | None => true end.
Definition wf_raw (r : RawMessage) : bool := String.eqb r "" || raw_ok r.
Definition wf_rule (r : Rule) : bool := utf8_valid (ID r) && wf_ptr (When r) && wf_raw (RuleValue r).
Definition wf_tree (t : RulesTree) : bool :=
  utf8_valid (TreeValueType t) && wf_raw (Default t) && forallb wf_rule (rules_of t).

(** A tree with every raw message respelled; the form a round trip gives it. *)
Section respell.
Variable f : RawMessage -> RawMessage.
Fixpoint respell_pred (p : Predicate) : Predicate :=
  mkPredicate (Kind p) (Attr p) (f (Value p)) (map f (Values p)) (Pattern p) (Salt p)
    (Percent p) (map (fmap respell_pred) (Of p)) (fmap respell_pred (OfOne p)) (Source p) (SegmentKey p).
Definition respell_rule (r : Rule) : Rule :=
  mkRule (ID r) (fmap respell_pred (When r)) (f (RuleValue r)).
Definition respell_tree (t : RulesTree) : RulesTree :=
  mkRulesTree (TreeValueType t) (f (Default t)) (fmap (map respell_rule) (Rules t)).
End respell.
Abbreviation norm_pred := (respell_pred norm_raw).
Abbreviation norm_rule := (respell_rule norm_raw).
Abbreviation norm_tree := (respell_tree norm_raw).

(** ** Round trip *)

Lemma dec_members_app {A F} (names : list (string * F)) set m1 m2 (acc : A) :
  dec_members names set (m1 ++ m2) acc = (dec_members names set m1 acc ≫= dec_members names set m2).
Proof.
  revert acc. induction m1 as [|[k d] m1 IH]; intros acc; [done|]. cbn [app dec_members].
  destruct (field_of names (unquote k)); cbn; [|apply IH]. destruct (set f d acc); cbn; [apply IH|done].
Qed.

Section segments.
Variable dec : jdoc -> option Predicate -> option (option Predicate).
Abbreviation step := (dec_members pfields (pred_set dec)).
Variables (k a : string) (v : RawMessage) (vs : list RawMessage) (pat s : string) (pc : Z)
          (o : list (option Predicate)) (o1 : option Predicate) (src key : string).

#[local] Ltac seg_str n f x :=
  unfold omit_str; destruct (String.eqb_spec x ""); subst; [done|]; cbn [dec_members];
  change (field_of pfields (unquote n)) with (Some f); cbn [pred_set dec_str enc_str];
  by rewrite unquote_quote.

Lemma seg_kind x : utf8_valid x = true ->
  step [("kind", enc_str x)] (mkPredicate k a v vs pat s pc o o1 src key) =
  Some (mkPredicate x a v vs pat s pc o o1 src key).
Proof.
  intros. cbn [dec_members]. change (field_of pfields (unquote "kind")) with (Some FKind).
  cbn [pred_set dec_str enc_str]. by rewrite unquote_quote.
Qed.
Lemma seg_attr x : utf8_valid x = true ->
  step (omit_str "attr" x) (mkPredicate k "" v vs pat s pc o o1 src key) = Some (mkPredicate k x v vs pat s pc o o1 src key).
Proof. intros. seg_str "attr" FAttr x. Qed.
Lemma seg_pattern x : utf8_valid x = true ->
  step (omit_str "pattern" x) (mkPredicate k a v vs "" s pc o o1 src key) = Some (mkPredicate k a v vs x s pc o o1 src key).
Proof. intros. seg_str "pattern" FPattern x. Qed.
Lemma seg_salt x : utf8_valid x = true ->
  step (omit_str "salt" x) (mkPredicate k a v vs pat "" pc o o1 src key) = Some (mkPredicate k a v vs pat x pc o o1 src key).
Proof. intros. seg_str "salt" FSalt x. Qed.
Lemma seg_source x : utf8_valid x = true ->
  step (omit_str "source" x) (mkPredicate k a v vs pat s pc o o1 "" key) = Some (mkPredicate k a v vs pat s pc o o1 x key).
Proof. intros. seg_str "source" FSource x. Qed.
Lemma seg_key x : utf8_valid x = true ->
  step (omit_str "key" x) (mkPredicate k a v vs pat s pc o o1 src "") = Some (mkPredicate k a v vs pat s pc o o1 src x).
Proof. intros. seg_str "key" FKey x. Qed.
Lemma seg_percent z : in_int64 z = true ->
  step (if z =? 0 then [] else [("percent", JNum (itoa z))]) (mkPredicate k a v vs pat s 0 o o1 src key) =
  Some (mkPredicate k a v vs pat s z o o1 src key).
Proof.
  intros. destruct (Z.eqb_spec z 0) as [->|]; [done|]. cbn [dec_members].
  change (field_of pfields (unquote "percent")) with (Some FPercent). cbn [pred_set dec_int].
  by rewrite parse_int_itoa.
Qed.
Lemma seg_values ds :
  step (omit_arr "values" ds) (mkPredicate k a v [] pat s pc o o1 src key) =
  Some (mkPredicate k a v (map dec_raw ds) pat s pc o o1 src key).
Proof. by destruct ds. Qed.
Lemma seg_of ds os : dec_elems None dec ds [] = Some os ->
  step (omit_arr "of" ds) (mkPredicate k a v vs pat s pc [] o1 src key) =
  Some (mkPredicate k a v vs pat s pc os o1 src key).
Proof.
  destruct ds as [|d ds]; [by intros [= <-]|]. intros H. cbn [omit_arr dec_members].
  change (field_of pfields (unquote "of")) with (Some FOf). cbn [pred_set]. by rewrite H.
Qed.
Lemma seg_of_one d x : dec d None = Some x ->
  step [("of_one", d)] (mkPredicate k a v vs pat s pc o None src key) =
  Some (mkPredicate k a v vs pat s pc o x src key).
Proof.
  intros H. cbn [dec_members]. change (field_of pfields (unquote "of_one")) with (Some FOfOne).
  cbn [pred_set]. by rewrite H.
Qed.
End segments.

(** The value member, dropped when empty. *)
Lemma omit_raw_ok r :
  wf_raw r = true ->
  exists m, omit_raw "value" r = Some m /\ Forall (fun kv => str_lit kv.1 /\ wf_doc kv.2) m /\
    forall dec k a vs pat s pc o o1 src key,
      dec_members pfields (pred_set dec) m (mkPredicate k a "" vs pat s pc o o1 src key) =
      Some (mkPredicate k a (norm_raw r) vs pat s pc o o1 src key).
Proof.
  unfold wf_raw, omit_raw. destruct (String.eqb_spec r "") as [->|]; intros H.
  - by exists [].
  - destruct (enc_raw_ok r H) as (d & E & Hw & Hd). exists [("value", d)]. rewrite E.
    split; [done|]. split; [|intros; cbn; by rewrite Hd].
    constructor; [|done]. split; [|done]. by apply (lit_quote "value").
Qed.

Lemma enc_raws_ok rs :
  forallb raw_ok rs = true ->
  exists ds, mapM enc_raw rs = Some ds /\ Forall wf_doc ds /\ map dec_raw ds = map norm_raw rs.
Proof.
  induction rs as [|r rs IH]; intros H; [by exists []|]. cbn in H. apply andb_true_iff in H as [Hr Hrs].
  destruct (enc_raw_ok r Hr) as (d & E & Hw & Hd). destruct (IH Hrs) as (ds & Es & Hws & Hds).
  exists (d :: ds). split; [by apply mapM_cons_some|]. split; [by constructor|]. cbn. by rewrite Hd, Hds.
Qed.

Definition pred_trip (p : Predicate) : Prop :=
  wf_pred p = true ->
  exists d, enc_pred p = Some d /\ wf_doc d /\ dec_pred d None = Some (Some (norm_pred p)).

Lemma enc_ptr_trip o :
  opt_all pred_trip o -> wf_ptr o = true ->
  exists d, enc_ptr o = Some d /\ wf_doc d /\ dec_pred d None = Some (fmap norm_pred o).
Proof. destruct o as [q|]; [auto|]. intros _ _. by exists JNull. Qed.

Lemma enc_ptrs_trip os :
  Forall (opt_all pred_trip) os -> forallb wf_ptr os = true ->
  exists ds, mapM enc_ptr os = Some ds /\ Forall wf_doc ds /\
    dec_elems None dec_pred ds [] = Some (map (fmap norm_pred) os).
Proof.
  induction 1 as [|o os Ho Hos IH]; intros H; [by exists []|]. cbn in H. apply andb_true_iff in H as [H1 H2].
  destruct (enc_ptr_trip o Ho H1) as (d & E & Hw & Hd). destruct (IH H2) as (ds & Es & Hws & Hds).
  exists (d :: ds). split; [by apply mapM_cons_some|]. split; [by constructor|].
  cbn [dec_elems]. rewrite Hd. cbn [mbind option_bind]. by rewrite Hds.
Qed.

Lemma lit_name (n : string) : quote n = n -> str_lit n.
Proof. intros <-. apply lit_quote. Qed.

Lemma wf_omit_str n s : quote n = n -> Forall (fun kv => str_lit kv.1 /\ wf_doc kv.2) (omit_str n s).
Proof.
  intros. unfold omit_str. destruct (String.eqb s ""); [done|]. apply Forall_singleton.
  split; [by apply lit_name | apply lit_quote].
Qed.
Lemma wf_omit_arr n l : quote n = n -> Forall wf_doc l ->
  Forall (fun kv => str_lit kv.1 /\ wf_doc kv.2) (omit_arr n l).
Proof.
  intros Hn Hl. destruct l; [done|]. apply Forall_singleton. split; [by apply lit_name | by apply wf_arr].
Qed.

Lemma pred_trip_all p : pred_trip p.
Proof.
  induction p as [[k a v vs pat s pc o o1 src key] IHo IHo1] using Predicate_ind. intros Hp.
  cbn [Of OfOne] in *. cbn [wf_pred Kind Attr Value Values Pattern Salt Percent Of OfOne Source SegmentKey] in Hp.
  bsplit.
  destruct (omit_raw_ok v) as (mv & Ev & Wv & Dv); [done|].
  destruct (enc_raws_ok vs) as (dvs & Evs & Wvs & Dvs); [done|].
  destruct (enc_ptrs_trip o) as (ds & Eo & Wo & Do); [done|done|].
  assert (exists m1, (match o1 with Some q => do? d := enc_pred q in Some [("of_one", d)] | None => Some [] end) = Some m1 /\
    Forall (fun kv => str_lit kv.1 /\ wf_doc kv.2) m1 /\
    forall k a v vs pat s pc o src key,
      dec_members pfields (pred_set dec_pred) m1 (mkPredicate k a v vs pat s pc o None src key) =
      Some (mkPredicate k a v vs pat s pc o (fmap norm_pred o1) src key)) as (m1 & E1 & W1 & D1).
  { destruct o1 as [q|]; [|by exists []]. destruct IHo1 as (d & E & Hw & Hd); [done|].
    exists [("of_one", d)]. rewrite E. split; [done|]. split.
    - apply Forall_singleton. split; [by apply lit_name | done].
    - intros. by apply seg_of_one. }
  eexists. split.
  { cbn [enc_pred Kind Attr Value Values Pattern Salt Percent Of OfOne Source SegmentKey].
    fold enc_ptr. rewrite Ev, Evs, Eo, E1. cbn [mbind option_bind]. reflexivity. }
  split.
  - apply wf_obj. rewrite !Forall_app. split_and!; auto using wf_omit_str, wf_omit_arr.
    + apply Forall_singleton. split; [by apply lit_name | apply lit_quote].
    + destruct (pc =? 0); [done|]. apply Forall_singleton. split; [by apply lit_name | apply num_lit_itoa].
  - cbn [dec_pred]. rewrite dec_members_app. unfold zero_pred. cbn [default from_option id].
    rewrite seg_kind by done. cbn [mbind option_bind].
    repeat (rewrite ?dec_members_app; first [rewrite seg_attr by done | rewrite Dv | rewrite seg_values | rewrite seg_pattern by done
      | rewrite seg_salt by done | rewrite seg_percent by done | rewrite (seg_of _ _ _ _ _ _ _ _ _ _ _ _ _ Do)
      | rewrite D1 | rewrite seg_source by done | rewrite seg_key by done]; cbn [mbind option_bind]).
    by rewrite Dvs.
Qed.

(** The messages a validated tree has: none is empty. *)
Definition full_rule (r : Rule) : bool := wf_rule r && raw_ok (RuleValue r).
Definition full_tree (t : RulesTree) : bool :=
  wf_tree t && raw_ok (Default t) && forallb full_rule (rules_of t).

Lemma rule_trip r :
  full_rule r = true ->
  exists d, enc_rule r = Some d /\ wf_doc d /\ dec_rule d zero_rule = Some (norm_rule r).
Proof.
  unfold full_rule, wf_rule. intros H. bsplit. destruct r as [i w v]. cbn [ID When RuleValue] in *.
  destruct (enc_ptr_trip w) as (d & E & Hw & Hd); [destruct w; [apply pred_trip_all | done] | done |].
  destruct (enc_raw_ok v) as (dv & Ev & Wv & Dv); [done|].
  exists (JObj [("id", enc_str i); ("when", d); ("value", dv)]).
  unfold enc_rule. cbn [ID When RuleValue]. rewrite E. cbn [mbind option_bind]. rewrite Ev.
  split; [done|]. split.
  - apply wf_obj. repeat constructor; try done; try (by apply lit_name); apply lit_quote.
  - unfold dec_rule. cbn [dec_members]. change (field_of rfields (unquote "id")) with (Some FID).
    change (field_of rfields (unquote "when")) with (Some FWhen).
    change (field_of rfields (unquote "value")) with (Some FRuleValue).
    unfold zero_rule. cbn [rule_set dec_str enc_str mbind option_bind]. rewrite unquote_quote by done.
    cbn [rule_set mbind option_bind]. rewrite Hd. cbn [rule_set mbind option_bind]. by rewrite Dv.
Qed.

Lemma rules_trip rs :
  forallb full_rule rs = true ->
  exists ds, mapM enc_rule rs = Some ds /\ Forall wf_doc ds /\
    dec_elems zero_rule dec_rule ds [] = Some (map norm_rule rs).
Proof.
  induction rs as [|r rs IH]; intros H; [by exists []|]. cbn in H. apply andb_true_iff in H as [H1 H2].
  destruct (rule_trip r H1) as (d & E & Hw & Hd). destruct (IH H2) as (ds & Es & Hws & Hds).
  exists (d :: ds). split; [by apply mapM_cons_some|]. split; [by constructor|].
  cbn [dec_elems]. rewrite Hd. cbn [mbind option_bind]. by rewrite Hds.
Qed.

Lemma rules_field_trip o :
  forallb full_rule (default [] o) = true ->
  exists d, (match o with None => Some JNull | Some l => do? ds := mapM enc_rule l in Some (JArr ds) end) = Some d /\
    wf_doc d /\ forall vt df, tree_set FRules d (mkRulesTree vt df None) = Some (mkRulesTree vt df (fmap (map norm_rule) o)).
Proof.
  destruct o as [rs|]; intros H; [|by exists JNull].
  destruct (rules_trip rs H) as (ds & E & Hw & Hd). exists (JArr ds). rewrite E.
  split; [done|]. split; [by apply wf_arr|]. intros. cbn [tree_set default from_option id]. by rewrite Hd.
Qed.

(** [json.Marshal] of a full tree succeeds and [json.Unmarshal] reads it back,
    each raw message in its escaped form. *)
Lemma tree_trip t :
  full_tree t = true ->
  exists s, enc_tree t = Some s /\ dec_tree s = Some (norm_tree t).
Proof.
  unfold full_tree, wf_tree. intros H. bsplit. destruct t as [vt df rs]. cbn [TreeValueType Default Rules] in *.
  destruct (enc_raw_ok df) as (dd & Ed & Wd & Dd); [done|].
  destruct (rules_field_trip rs) as (d & E & Wr & Dr); [done|].
  exists (print (JObj [("value_type", enc_str vt); ("default", dd); ("rules", d)])).
  unfold enc_tree, enc_tree_doc. cbn [TreeValueType Default Rules]. rewrite Ed. cbn [mbind option_bind]. rewrite E.
  split; [done|]. unfold dec_tree. rewrite scan_print.
  - cbn [mbind option_bind dec_tree_doc dec_members].
    change (field_of tfields (unquote "value_type")) with (Some FValueType).
    change (field_of tfields (unquote "default")) with (Some FDefault).
    change (field_of tfields (unquote "rules")) with (Some FRules).
    unfold zero_tree. cbn [mbind option_bind]. unfold tree_set at 3. cbn [dec_str enc_str mbind option_bind].
    rewrite unquote_quote by done. cbn [mbind option_bind]. unfold tree_set at 2. rewrite Dd.
    cbn [mbind option_bind]. by rewrite Dr.
  - apply wf_obj. repeat constructor; try done; try (by apply lit_name); apply lit_quote.
Qed.

(** ** Decoded trees are well formed *)

Lemma dec_raw_ok d : wf_doc d -> raw_ok (dec_raw d) = true.
Proof. intros H. unfold raw_ok, dec_raw. by rewrite scan_print. Qed.

Lemma dec_str_utf8 d old s : dec_str d old = Some s -> utf8_valid old = true -> utf8_valid s = true.
Proof. destruct d; cbn; try done; intros [= <-]; auto with ff. Qed.

Lemma dec_int_range d old z : dec_int d old = Some z -> in_int64 old = true -> in_int64 z = true.
Proof.
  destruct d; cbn; try done; [by intros [= <-]|]. unfold parse_int.
  destruct (take_char _ _). destruct (all_digits _ && _); [|done].
  destruct (in_int64 _) eqn:E; [|done]. by intros [= <-].
Qed.

Lemma dec_members_inv {A F} (names : list (string * F)) set (P : A -> Prop) m acc acc' :
  (forall k d f a a', In (k, d) m -> set f d a = Some a' -> P a -> P a') ->
  dec_members names set m acc = Some acc' -> P acc -> P acc'.
Proof.
  revert acc. induction m as [|[k d] m IH]; intros acc Hs; cbn [dec_members]; [by intros [= <-]|].
  intros H Ha. destruct (field_of names (unquote k)) as [f|].
  - destruct (set f d acc) as [a|] eqn:E; [|done]. cbn in H.
    eapply IH; [|exact H|].
    + intros k' d' f' a1 a2 Hin. apply (Hs k' d' f'). by right.
    + eapply Hs; [by left | exact E | done].
  - eapply IH; [|exact H|done]. intros k' d' f' a1 a2 Hin. apply (Hs k' d' f'). by right.
Qed.

Lemma dec_elems_inv {A} (zero : A) dec (P : A -> bool) ds old l :
  P zero = true ->
  Forall (fun d => forall a a', dec d a = Some a' -> P a = true -> P a' = true) ds ->
  dec_elems zero dec ds old = Some l -> forallb P old = true -> forallb P l = true.
Proof.
  intros Hz Hd. revert old l. induction Hd as [|d ds Hd Hds IH]; intros old l; cbn [dec_elems]; [by intros [= <-]|].
  destruct (dec d _) as [x|] eqn:Ex; [|done]. cbn. destruct (dec_elems zero dec ds _) as [xs|] eqn:E; [|done].
  intros [= <-] Ho. cbn. apply andb_true_iff. split.
  - eapply Hd; [exact Ex|]. destruct old; [done|]. cbn in Ho. by bsplit.
  - eapply IH; [exact E|]. destruct old; [done|]. cbn in Ho. by bsplit.
Qed.

(** Unfold the well-formedness of an explicit predicate into its parts. *)
#[local] Ltac pcbn :=
  cbn [wf_pred Kind Attr Value Values Pattern Salt Percent Of OfOne Source SegmentKey];
  rewrite ?andb_true_iff; split_and!; try done.

Lemma pred_set_wf dec f d p p' :
  wf_doc d ->
  (forall a a', dec d a = Some a' -> wf_ptr a = true -> wf_ptr a' = true) ->
  (forall ds, d = JArr ds -> Forall (fun x => forall a a', dec x a = Some a' -> wf_ptr a = true -> wf_ptr a' = true) ds) ->
  pred_set dec f d p = Some p' -> wf_pred p = true -> wf_pred p' = true.
Proof.
  intros Hw Hd Hds. destruct p as [k a v vs pat s pc o o1 src key]. intros E Hp.
  cbn [wf_pred Kind Attr Value Values Pattern Salt Percent Of OfOne Source SegmentKey] in Hp. bsplit.
  fold wf_ptr in *. change (match o1 with Some q => wf_pred q | None => true end) with (wf_ptr o1) in *.
  assert (wf_raw (dec_raw d) = true) as Hraw by (unfold wf_raw; rewrite dec_raw_ok by done; apply orb_true_r).
  destruct f; cbn [pred_set] in E;
    try (destruct (dec_str d _) as [x|] eqn:Ex; [|discriminate E]; eapply dec_str_utf8 in Ex; [|by eauto]).
  all: try (injection E as <-).
  all: try by pcbn.
  - destruct d as [| | | |ds|]; try discriminate E; injection E as <-;
      pcbn; try done.
    apply forallb_forall. intros x (d & <- & Hin)%in_map_iff. apply dec_raw_ok.
    apply wf_arr in Hw. rewrite List.Forall_forall in Hw. auto.
  - destruct (dec_int d pc) as [z|] eqn:Ez; [|discriminate E]. apply dec_int_range in Ez; [|done].
    injection E as <-. by pcbn.
  - destruct d as [| | | |ds|]; try discriminate E.
    + injection E as <-. by pcbn.
    + destruct (dec_elems None dec ds o) as [os|] eqn:Eo; [|discriminate E]. injection E as <-.
      apply (dec_elems_inv None dec wf_ptr) in Eo; [|done|by apply Hds|done].
      by pcbn.
  - destruct (dec d o1) as [x|] eqn:Ex; [|discriminate E]. apply Hd in Ex; [|done]. injection E as <-.
    by pcbn.
Qed.

Definition dec_wf (d : jdoc) : Prop :=
  wf_doc d -> forall a a', dec_pred d a = Some a' -> wf_ptr a = true -> wf_ptr a' = true.

Lemma dec_pred_wf_all d : dec_wf d /\ (forall ds, d = JArr ds -> Forall dec_wf ds).
Proof.
  induction d as [| | | |l IH|m IH] using jdoc_ind; (split; [intros Hw a a'; cbn [dec_pred] | try done]).
  - by intros [= <-].
  - done.
  - done.
  - done.
  - done.
  - intros ds [= <-]. eapply List.Forall_impl; [|exact IH]. by intros d [? _].
  - destruct (dec_members _ _ m _) as [p|] eqn:E; [|done]. intros [= <-] Ha.
    eapply (dec_members_inv _ _ (fun p => wf_pred p = true)); [|exact E|by destruct a].
    intros k d f q q' Hin. rewrite wf_obj, List.Forall_forall in Hw. rewrite List.Forall_forall in IH.
    destruct (Hw _ Hin) as [_ Hd], (IH _ Hin) as [IH1 IH2]. apply pred_set_wf; [done|by apply IH1|].
    intros ds ->. specialize (IH2 ds eq_refl). apply wf_arr in Hd. rewrite List.Forall_forall in *.
    intros x Hx. by apply IH2, Hd.
Qed.

Lemma dec_pred_wf d a a' : wf_doc d -> dec_pred d a = Some a' -> wf_ptr a = true -> wf_ptr a' = true.
Proof. intros. by eapply dec_pred_wf_all. Qed.

Lemma dec_rule_wf d r r' : wf_doc d -> dec_rule d r = Some r' -> wf_rule r = true -> wf_rule r' = true.
Proof.
  intros Hw. destruct d as [| | | | |m]; cbn [dec_rule]; try done; [by intros [= <-]|].
  intros E Hr. eapply (dec_members_inv _ _ (fun r => wf_rule r = true)); [|exact E|done].
  intros k d f [i w v] q' Hin. rewrite wf_obj, List.Forall_forall in Hw. destruct (Hw _ Hin) as [_ Hd].
  cbn [snd] in Hd. unfold wf_rule. intros Eq Hq. cbn [ID When RuleValue] in Hq. bsplit. destruct f; cbn [rule_set] in Eq.
  - destruct (dec_str d i) as [x|] eqn:Ex; [|done]. injection Eq as <-. apply dec_str_utf8 in Ex; [|done].
    rewrite !andb_true_iff. done.
  - destruct (dec_pred d w) as [x|] eqn:Ex; [|done]. injection Eq as <-. apply dec_pred_wf in Ex; [|done|done].
    rewrite !andb_true_iff. done.
  - injection Eq as <-. rewrite !andb_true_iff. split_and!; try done. unfold wf_raw.
    cbn [RuleValue]. by rewrite dec_raw_ok, orb_true_r.
Qed.

(** What [json.Unmarshal] leaves in a tree is well formed. *)
Lemma dec_tree_wf s t : dec_tree s = Some t -> wf_tree t = true.
Proof.
  unfold dec_tree. destruct (scan s) as [d|] eqn:Es; [|done]. apply scan_sound in Es as Hw. cbn [mbind option_bind].
  destruct d as [| | | | |m]; cbn [dec_tree_doc]; try done; [by intros [= <-]|].
  intros E. eapply (dec_members_inv _ _ (fun t => wf_tree t = true)); [|exact E|done].
  intros k d f [vt df rs] q' Hin. rewrite wf_obj, List.Forall_forall in Hw. destruct (Hw _ Hin) as [_ Hd].
  cbn [snd] in Hd. unfold wf_tree, rules_of. intros Eq Hq. cbn [TreeValueType Default Rules] in Hq. bsplit.
  destruct f; cbn [tree_set] in Eq.
  - destruct (dec_str d vt) as [x|] eqn:Ex; [|done]. injection Eq as <-. apply dec_str_utf8 in Ex; [|done].
    rewrite !andb_true_iff. done.
  - injection Eq as <-. rewrite !andb_true_iff. split_and!; try done. unfold wf_raw.
    cbn [Default]. by rewrite dec_raw_ok, orb_true_r.
  - destruct d as [| | | |ds|]; try done.
    + injection Eq as <-. rewrite !andb_true_iff. done.
    + destruct (dec_elems _ _ ds _) as [l|] eqn:El; [|done]. injection Eq as <-.
      apply (dec_elems_inv zero_rule dec_rule wf_rule) in El; [rewrite !andb_true_iff; done|done| |done].
      apply wf_arr in Hd. eapply List.Forall_impl; [|exact Hd]. intros d' Hd' a a'. by apply dec_rule_wf.
Qed.

(** A tree with its missing messages written as [null], which is how
    [json.Marshal] writes them. *)
Definition fill_raw (r : RawMessage) : RawMessage := if String.eqb r "" then "null" else r.
Definition fill_tree (t : RulesTree) : RulesTree :=
  mkRulesTree (TreeValueType t) (fill_raw (Default t))
    (fmap (map (fun r => mkRule (ID r) (When r) (fill_raw (RuleValue r)))) (Rules t)).

Lemma enc_fill r : enc_raw (fill_raw r) = enc_raw r.
Proof. unfold fill_raw. by destruct (String.eqb_spec r "") as [->|]. Qed.

Lemma fill_ok r : wf_raw r = true -> raw_ok (fill_raw r) = true /\ wf_raw (fill_raw r) = true.
Proof. unfold wf_raw, fill_raw. destruct (String.eqb_spec r "") as [->|]; [done|]. cbn. intros ->. by rewrite orb_true_r. Qed.

Lemma mapM_map_ext {A B} (f : A -> option B) (g : A -> A) l :
  (forall x, f (g x) = f x) -> mapM f (map g l) = mapM f l.
Proof. intros H. induction l as [|x l IH]; [done|]. cbn. rewrite H. destruct (f x); cbn; [by rewrite IH | done]. Qed.

(** Marshalling any decoded tree succeeds, and the text decodes to the tree with
    its missing messages filled in. *)
Lemma tree_trip_fill t :
  wf_tree t = true ->
  exists s, enc_tree t = Some s /\ dec_tree s = Some (norm_tree (fill_tree t)).
Proof.
  intros Hw. destruct (tree_trip (fill_tree t)) as (s & Es & Ds).
  - unfold full_tree, wf_tree, rules_of in *. destruct t as [vt df [rs|]]; cbn in *; bsplit;
      destruct (fill_ok df) as [-> ->]; try done; rewrite H; [|done]. cbn.
    assert (forallb full_rule (map (fun r => mkRule (ID r) (When r) (fill_raw (RuleValue r))) rs) = true) as Hf.
    { apply forallb_forall. intros r' (r & <- & Hin)%in_map_iff. rewrite forallb_forall in H0. specialize (H0 r Hin).
      unfold full_rule, wf_rule in *. cbn. bsplit. destruct (fill_ok (RuleValue r)) as [-> ->]; [done|].
      by rewrite H0, H3. }
    rewrite Hf, !andb_true_r. apply forallb_forall. rewrite forallb_forall in Hf. intros r Hin.
    specialize (Hf r Hin). unfold full_rule in Hf. by bsplit.
  - exists s. split; [|done]. rewrite <- Es. unfold enc_tree, enc_tree_doc, fill_tree. cbn [Default Rules TreeValueType].
    rewrite enc_fill. destruct (Rules t) as [rs|]; [|done]. cbn [fmap option_fmap option_map].
    assert (mapM enc_rule (map (fun r => mkRule (ID r) (When r) (fill_raw (RuleValue r))) rs) = mapM enc_rule rs) as ->; [|done].
    apply mapM_map_ext. intros r. unfold enc_rule. cbn [ID When RuleValue]. by rewrite enc_fill.
Qed.

Lemma dec_predicate_wf s p : dec_predicate s = Some p -> wf_pred p = true.
Proof.
  unfold dec_predicate. destruct (scan s) as [d|] eqn:Es; [|done]. apply scan_sound in Es. cbn [mbind option_bind].
  destruct (dec_pred d None) as [o|] eqn:E; [|done]. apply dec_pred_wf in E; [|done|done]. intros [= <-].
  by destruct o.
Qed.
