(* ===== verification/Compile.v ===== *)
(** The configuration strategies of [internal/config]: predicate and tree
    validation, CEL pre-compilation, and the JSON, CEL and TypeScript compilers.

    The regular-expression engine, cel-go, esbuild and goja are outside the
    repository: each is a class whose fields are the calls the source makes. *)
From stdpp Require Import base list strings numbers gmap.
From Stdlib Require Import Ascii String ZArith Lia.
From S2P Require Import Prelude Text Literal Json Float64 GoValue Ir.

(** ** Strategies and errors *)

Definition Strategy : Type := string.
Definition StrategyJSON : Strategy := "json".
Definition StrategyCEL : Strategy := "cel".
Definition StrategyTypeScript : Strategy := "typescript".
Definition AllStrategies : list Strategy := [StrategyJSON; StrategyCEL; StrategyTypeScript].

Definition Strategy_Valid (s : Strategy) : bool :=
  String.eqb s StrategyJSON || String.eqb s StrategyCEL || String.eqb s StrategyTypeScript.

(** The sentinels of [strategy.go]. *)
Inductive sentinel : Type :=
| ErrUnknownStrategy | ErrInvalidIR | ErrInvalidPredicate | ErrInvalidValueType
| ErrCELCompileFailure | ErrTypeScriptCompileFailure.

#[global] Instance sentinel_eq_dec : EqDecision sentinel.
Proof. solve_decision. Defined.

Record EsbuildMessage : Type := mkEsbuildMessage {
  EM_File : string; EM_Line : Z; EM_Column : Z; EM_Text : string
}.

(** An error value: one that wraps a sentinel, or one of the two structured
    errors of the TypeScript compiler.  Message texts are not kept. *)
Inductive cfg_error : Type :=
| Wraps (s : sentinel)
| EsbuildError (messages : list EsbuildMessage)
| GojaError (message : string).

(** [errors.Is(err, target)]. *)
Definition errors_is (e : cfg_error) (target : sentinel) : bool :=
  match e with
  | Wraps s => bool_decide (s = target)
  | EsbuildError _ | GojaError _ => bool_decide (target = ErrTypeScriptCompileFailure)
  end.

(** ** Code outside the repository *)

(** [regexp.Compile] and [Regexp.MatchString]. *)
Class RegexpLib : Type := {
  Regexp : Type;
  regexp_Compile : string -> option Regexp;
  MatchString : Regexp -> string -> bool
}.

(** cel-go: the environment of [celEnv] is built once per compilation and is
    always the same, so its calls take no environment argument.  [Eval] gives an
    error, a [types.Bool], or another value. *)
Class CelLib : Type := {
  Ast : Type;
  Program : Type;
  NewEnv_ok : bool;
  env_Compile : string -> option Ast;
  OutputType_is_bool : Ast -> bool;
  env_Program : Ast -> option Program;
  Eval : Program -> list (string * goval) -> result unit (option bool)
}.

(** esbuild's [Build] on a source text: its diagnostics and output files, or for
    goja: the calls on a runtime.  A missing or undefined value is [None]. *)
Inductive goja_err : Type :=
| Interrupted (context_error : bool)
| Exception (message : string).

Class TsLib : Type := {
  Build : string -> list (string * option (string * Z * Z)) * list string;
  VM : Type;
  JsValue : Type;
  goja_New : VM;
  RunString : VM -> string -> result goja_err VM;
  vm_Get : VM -> string -> option JsValue;
  (** [module], [exports] and [require] installed; [None] when a [Set] fails. *)
  vm_SetModule : VM -> JsValue -> option VM;
  obj_Get : VM -> JsValue -> string -> option JsValue;
  Export : VM -> JsValue -> goval;
  (** The embedded [typescript_shim.js]. *)
  dslShim : string
}.

(** [map[string]CELProgram]; a nil map reads as an empty one. *)
Abbreviation programs := (gmap string Program).

Section config.
Context {RX : RegexpLib} {CEL : CelLib} {TS : TsLib}.

(** ** Predicate validation ([json.go]) *)

Definition invalid_predicate {A} : result cfg_error A := Err (Wraps ErrInvalidPredicate).
Definition is_empty (s : string) : bool := String.eqb s "".

Fixpoint validatePredicate (p : Predicate) (allowCEL : bool) {struct p} : result cfg_error unit :=
  let validate_ptr (o : option Predicate) :=
    match o with None => invalid_predicate | Some q => validatePredicate q allowCEL end in
  match kind_of (Kind p) with
  | PredEq | PredNeq | PredGt | PredGte | PredLt | PredLte | PredStartsWith =>
      if is_empty (Attr p) then invalid_predicate
      else if is_empty (Value p) then invalid_predicate
      else Ok tt
  | PredIn =>
      if is_empty (Attr p) then invalid_predicate
      else if (List.length (Values p) =? 0)%nat then invalid_predicate
      else Ok tt
  | PredMatches =>
      if is_empty (Attr p) || is_empty (Pattern p) then invalid_predicate
      else match regexp_Compile (Pattern p) with None => invalid_predicate | Some _ => Ok tt end
  | PredRollout =>
      if is_empty (Attr p) || is_empty (Salt p) then invalid_predicate
      else if (Percent p <? 0) || (100 <? Percent p) then invalid_predicate
      else Ok tt
  | PredAll | PredAny =>
      if (List.length (Of p) =? 0)%nat then invalid_predicate
      else rall validate_ptr (Of p)
  | PredNot =>
      match OfOne p with None => invalid_predicate | Some q => validatePredicate q allowCEL end
  | PredCEL =>
      if negb allowCEL then invalid_predicate
      else if is_empty (Source p) then invalid_predicate
      else Ok tt
  | PredAlways => Ok tt
  | PredSegment => if is_empty (SegmentKey p) then invalid_predicate else Ok tt
  | PredOther => invalid_predicate
  end.

(** [validatePredicate] on a pointer. *)
Definition validate_ptr (o : option Predicate) (allowCEL : bool) : result cfg_error unit :=
  match o with None => invalid_predicate | Some q => validatePredicate q allowCEL end.

(** [predicate.go] re-exports it. *)
Definition ValidatePredicate := validate_ptr.

Definition valid_value_type (vt : ValueType) : bool :=
  String.eqb vt ValueTypeBoolean || String.eqb vt ValueTypeString ||
  String.eqb vt ValueTypeNumber || String.eqb vt ValueTypeObject.

Definition validate_rule (allowCEL : bool) (r : Rule) : result cfg_error unit :=
  when is_empty (ID r) fail Wraps ErrInvalidIR ;;
  when is_empty (RuleValue r) fail Wraps ErrInvalidIR ;;
  match When r with
  | None => Err (Wraps ErrInvalidIR)
  | Some _ => validate_ptr (When r) allowCEL
  end.

Definition validateTree (tree : RulesTree) : result cfg_error unit :=
  when negb (valid_value_type (TreeValueType tree)) fail Wraps ErrInvalidValueType ;;
  when is_empty (Default tree) fail Wraps ErrInvalidIR ;;
  rall (validate_rule false) (rules_of tree).

(** [cel.go]'s counterpart. *)
Definition validateTreeWith (tree : RulesTree) (allowCEL : bool) : result cfg_error unit :=
  when negb (valid_value_type (TreeValueType tree)) fail Wraps ErrInvalidValueType ;;
  when is_empty (Default tree) fail Wraps ErrInvalidIR ;;
  rall (validate_rule allowCEL) (rules_of tree).

(** ** CEL compilation ([cel.go]) *)

Definition celEnv : result cfg_error unit :=
  if NewEnv_ok then Ok tt else Err (Wraps ErrCELCompileFailure).

Definition compile_source (src : string) (out : programs) : result cfg_error programs :=
  match out !! src with
  | Some _ => Ok out
  | None =>
      match env_Compile src with
      | None => Err (Wraps ErrCELCompileFailure)
      | Some ast =>
          if negb (OutputType_is_bool ast) then Err (Wraps ErrCELCompileFailure)
          else match env_Program ast with
               | None => Err (Wraps ErrCELCompileFailure)
               | Some prog => Ok (<[src := prog]> out)
               end
      end
  end.

Fixpoint walkAndCompile (p : Predicate) (out : programs) {struct p} : result cfg_error programs :=
  let walk_ptr (out : programs) (o : option Predicate) :=
    match o with None => Ok out | Some q => walkAndCompile q out end in
  match kind_of (Kind p) with
  | PredCEL => compile_source (Source p) out
  | PredAll | PredAny => rfold walk_ptr out (Of p)
  | PredNot => match OfOne p with None => Ok out | Some q => walkAndCompile q out end
  | _ => Ok out
  end.

Definition walk_ptr (out : programs) (o : option Predicate) : result cfg_error programs :=
  match o with None => Ok out | Some q => walkAndCompile q out end.

Definition compilePredicates (rules : list Rule) (out : programs) : result cfg_error programs :=
  rfold (fun out r => walk_ptr out (When r)) out rules.

(** [EvalCEL]: a value that is not a boolean is false. *)
Definition celRefToBool (v : option bool) : bool := default false v.
Definition EvalCEL (prog : Program) (ctx : list (string * goval)) : result unit bool :=
  match Eval prog ctx with
  | Err e => Err e
  | Ok out => Ok (celRefToBool out)
  end.

(** ** Compilers *)

Record Compiled : Type := mkCompiled {
  CStrategy : Strategy;
  IR : RulesTree;
  CELPrograms : programs
}.

Definition unmarshal_tree (source : string) : result cfg_error RulesTree :=
  of_option (Wraps ErrInvalidIR) (dec_tree source).

(** [jsonCompiler.Compile]. *)
Definition json_Compile (source : string) : result cfg_error Compiled :=
  let? tree := unmarshal_tree source in
  let? _ := validateTree tree in
  Ok (mkCompiled StrategyJSON tree ∅).

(** [celCompiler.Compile]. *)
Definition cel_Compile (source : string) : result cfg_error Compiled :=
  let? tree := unmarshal_tree source in
  let? _ := validateTreeWith tree true in
  let? _ := celEnv in
  let? progs := compilePredicates (rules_of tree) ∅ in
  Ok (mkCompiled StrategyCEL tree progs).

Definition maxSourceTextBytes : nat := 32 * 1024.
Definition maxIRBytes : nat := 32 * 1024.

Definition ts_failure {A} : result cfg_error A := Err (Wraps ErrTypeScriptCompileFailure).

Definition tryRehydrateIR (source : string) : option Compiled :=
  match unmarshal_tree source with
  | Err _ => None
  | Ok tree =>
      if is_empty (TreeValueType tree) then None
      else match validateTreeWith tree true with
           | Err _ => None
           | Ok _ =>
               match celEnv with
               | Err _ => None
               | Ok _ =>
                   match compilePredicates (rules_of tree) ∅ with
                   | Err _ => None
                   | Ok progs => Some (mkCompiled StrategyTypeScript tree progs)
                   end
               end
           end
  end.

Definition newEsbuildError (msgs : list (string * option (string * Z * Z))) : cfg_error :=
  EsbuildError (map (fun m =>
    match m.2 with
    | Some (f, l, c) => mkEsbuildMessage f l c m.1
    | None => mkEsbuildMessage "" 0 0 m.1
    end) msgs).

(** An interrupt wraps the sentinel whatever its cause. *)
Definition mapGojaError (e : goja_err) : cfg_error :=
  match e with
  | Interrupted true => Wraps ErrTypeScriptCompileFailure
  | Interrupted false => Wraps ErrTypeScriptCompileFailure
  | Exception msg => GojaError msg
  end.

Definition extractDefaultExport (vm : VM) : result cfg_error goval :=
  match vm_Get vm "module" with
  | None => ts_failure
  | Some moduleVal =>
      match obj_Get vm moduleVal "exports" with
      | None => ts_failure
      | Some exportsVal =>
          match obj_Get vm exportsVal "default" with
          | None => ts_failure
          | Some defVal => Ok (Export vm defVal)
          end
      end
  end.

(** The JavaScript of [source], by esbuild. *)
Definition esbuild_js (source : string) : result cfg_error string :=
  match Build source with
  | (_ :: _ as errs, _) => Err (newEsbuildError errs)
  | ([], [js]) => Ok js
  | ([], _) => ts_failure
  end.

(** Run it in a fresh goja runtime and take [module.exports.default]. *)
Definition goja_run (js : string) : result cfg_error goval :=
  match RunString goja_New dslShim with
  | Err _ => ts_failure
  | Ok vm =>
      match vm_Get vm "__falseflag_dsl" with
      | None => ts_failure
      | Some shim =>
          match vm_SetModule vm shim with
          | None => ts_failure
          | Some vm' =>
              match RunString vm' js with
              | Err e => Err (mapGojaError e)
              | Ok vm'' => extractDefaultExport vm''
              end
          end
      end
  end.

(** The IR of the exported value: its JSON text, the tree of it and the tree's
    programs. *)
Definition compile_export (def : goval) : result cfg_error Compiled :=
  let? irJSON := of_option (Wraps ErrTypeScriptCompileFailure) (marshal def) in
  when (maxIRBytes <? String.length irJSON)%nat fail Wraps ErrTypeScriptCompileFailure ;;
  let? tree := unmarshal_tree irJSON in
  let? _ := validateTreeWith tree true in
  let? _ := celEnv in
  let? progs := compilePredicates (rules_of tree) ∅ in
  Ok (mkCompiled StrategyTypeScript tree progs).

Definition compileTypescript (source : string) : result cfg_error Compiled :=
  when is_empty source fail Wraps ErrTypeScriptCompileFailure ;;
  match tryRehydrateIR source with
  | Some c => Ok c
  | None =>
      when (maxSourceTextBytes <? String.length source)%nat fail Wraps ErrTypeScriptCompileFailure ;;
      let? js := esbuild_js source in
      let? def := goja_run js in compile_export def
  end.

Definition CompilerFor (s : Strategy) : result cfg_error (string -> result cfg_error Compiled) :=
  if String.eqb s StrategyJSON then Ok json_Compile
  else if String.eqb s StrategyCEL then Ok cel_Compile
  else if String.eqb s StrategyTypeScript then Ok compileTypescript
  else Err (Wraps ErrUnknownStrategy).

Definition Compile (s : Strategy) (source : string) : result cfg_error Compiled :=
  let? c := CompilerFor s in c source.

(** ** Validation *)

Lemma invalid_not_ok {A} (x : A) (P : Prop) : invalid_predicate = Ok x -> P.
Proof. discriminate. Qed.

Lemma guard_ok (b : bool) (m : result cfg_error unit) :
  (if b then invalid_predicate else m) = Ok tt -> b = false /\ m = Ok tt.
Proof. by destruct b. Qed.

Lemma validateTree_with tree : validateTree tree = validateTreeWith tree false.
Proof. done. Qed.

Lemma rall_map {E A B} (f : B -> result E unit) (g : A -> B) l : rall f (map g l) = rall (fun x => f (g x)) l.
Proof. induction l as [|x l IH]; [done|]. cbn [map]. by rewrite !rall_cons, IH. Qed.

Lemma rall_ext {E A} (f g : A -> result E unit) l : Forall (fun x => f x = g x) l -> rall f l = rall g l.
Proof. induction 1 as [|x l Hx Hl IH]; [done|]. by rewrite !rall_cons, Hx, IH. Qed.

(** Compilation does not depend on how a raw message is spelled: [f] respells
    messages so that the program cannot tell. *)
Section respell.
Variable f : RawMessage -> RawMessage.
Hypothesis f_equiv : forall r, raw_equiv (f r) r.

Lemma respell_empty r : is_empty (f r) = is_empty r.
Proof. apply f_equiv. Qed.

(** Validation does not depend on how a raw message is spelled. *)
Lemma validate_respell p allow : validatePredicate (respell_pred f p) allow = validatePredicate p allow.
Proof.
  induction p as [[k a v vs pat s pc o o1 src key] IHo IHo1] using Predicate_ind.
  cbn [Of OfOne] in *. cbn [respell_pred validatePredicate Kind Attr Value Values Pattern Salt Percent Of OfOne Source SegmentKey].
  rewrite respell_empty, !length_map, rall_map.
  assert (rall (fun x => match respell_pred f <$> x with None => invalid_predicate | Some q => validatePredicate q allow end) o =
          rall (fun x => match x with None => invalid_predicate | Some q => validatePredicate q allow end) o) as ->.
  { apply rall_ext. eapply List.Forall_impl; [|exact IHo]. by intros [q|]. }
  destruct o1 as [q|]; [|done]. cbn [fmap option_fmap option_map]. cbn in IHo1. by rewrite IHo1.
Qed.

Lemma validate_rule_respell allow r : validate_rule allow (respell_rule f r) = validate_rule allow r.
Proof.
  unfold validate_rule, respell_rule. cbn [ID When RuleValue]. rewrite respell_empty.
  destruct (When r) as [p|]; [|done]. cbn. by rewrite validate_respell.
Qed.

Lemma rules_of_respell t : rules_of (respell_tree f t) = map (respell_rule f) (rules_of t).
Proof. unfold rules_of, respell_tree. by destruct (Rules t). Qed.

Lemma validateTreeWith_respell t allow : validateTreeWith (respell_tree f t) allow = validateTreeWith t allow.
Proof.
  unfold validateTreeWith. rewrite rules_of_respell, rall_map.
  change (TreeValueType (respell_tree f t)) with (TreeValueType t).
  change (Default (respell_tree f t)) with (f (Default t)). rewrite respell_empty.
  destruct (negb _); [done|]. destruct (is_empty _); [done|]. apply rall_ext.
  apply List.Forall_forall. intros r _. apply validate_rule_respell.
Qed.

End respell.

(** What [validateTreeWith] guarantees. *)
Lemma validateTreeWith_ok t allow :
  validateTreeWith t allow = Ok tt <->
  valid_value_type (TreeValueType t) = true /\ is_empty (Default t) = false /\
  Forall (fun r => is_empty (ID r) = false /\ is_empty (RuleValue r) = false /\
                   exists p, When r = Some p /\ validatePredicate p allow = Ok tt) (rules_of t).
Proof.
  unfold validateTreeWith. destruct (valid_value_type _); cbn; [|intuition congruence].
  destruct (is_empty (Default t)); [intuition congruence|]. rewrite rall_ok.
  assert (forall r, validate_rule allow r = Ok tt <-> is_empty (ID r) = false /\ is_empty (RuleValue r) = false /\
    exists p, When r = Some p /\ validatePredicate p allow = Ok tt) as Hr.
  { intros r. unfold validate_rule. destruct (is_empty (ID r)); [intuition congruence|].
    destruct (is_empty (RuleValue r)); [intuition congruence|].
    destruct (When r) as [p|]; cbn; [|split; [done | by intros (_ & _ & ? & ? & _)]].
    split; [eauto|]. by intros (_ & _ & ? & [= <-] & ?). }
  rewrite !List.Forall_forall. setoid_rewrite Hr. tauto.
Qed.

Lemma valid_value_type_nonempty vt : valid_value_type vt = true -> is_empty vt = false.
Proof. unfold is_empty. destruct (String.eqb_spec vt "") as [->|]; done. Qed.

(** A decoded tree that validates can be marshalled. *)
Lemma valid_full t allow : wf_tree t = true -> validateTreeWith t allow = Ok tt -> full_tree t = true.
Proof.
  rewrite validateTreeWith_ok. intros Hw (Hv & Hd & Hr). unfold full_tree. rewrite Hw. cbn [andb].
  unfold wf_tree, wf_raw in Hw. bsplit. unfold is_empty in *. rewrite Hd in *. cbn in *.
  apply andb_true_iff. split; [done|]. rewrite forallb_forall in *. rewrite List.Forall_forall in Hr.
  intros r Hin. unfold full_rule. rewrite (H0 r Hin). cbn. specialize (H0 r Hin).
  destruct (Hr r Hin) as (_ & Hv' & _). unfold wf_rule, wf_raw in H0. rewrite Hv' in H0. by bsplit.
Qed.

(** ** Programs *)

Lemma rfold_map {E A B S} (f : S -> B -> result E S) (g : A -> B) s l :
  rfold f s (map g l) = rfold (fun s x => f s (g x)) s l.
Proof. revert s. induction l as [|x l IH]; intros s; [done|]. cbn. by destruct (f s (g x)). Qed.

Lemma rfold_ext {E A S} (f g : S -> A -> result E S) s l :
  Forall (fun x => forall s, f s x = g s x) l -> rfold f s l = rfold g s l.
Proof. intros H. revert s. induction H as [|x l Hx Hl IH]; intros s; [done|]. cbn. rewrite Hx. by destruct (g s x). Qed.

Lemma walk_respell f p out : walkAndCompile (respell_pred f p) out = walkAndCompile p out.
Proof.
  revert out. induction p as [[k a v vs pat s pc o o1 src key] IHo IHo1] using Predicate_ind. intros out.
  cbn [Of OfOne] in *. cbn [respell_pred walkAndCompile Kind Attr Value Values Pattern Salt Percent Of OfOne Source SegmentKey].
  rewrite rfold_map.
  assert (rfold (fun out x => match respell_pred f <$> x with None => Ok out | Some q => walkAndCompile q out end) out o =
          rfold walk_ptr out o) as ->.
  { apply rfold_ext. eapply List.Forall_impl; [|exact IHo]. intros [q|]; cbn; auto. }
  destruct o1 as [q|]; [|done]. cbn [fmap option_fmap option_map]. cbn in IHo1. by rewrite IHo1.
Qed.

Lemma compilePredicates_respell f rs out : compilePredicates (map (respell_rule f) rs) out = compilePredicates rs out.
Proof.
  unfold compilePredicates. rewrite rfold_map. apply rfold_ext, List.Forall_forall. intros r _ o.
  cbn [When respell_rule]. destruct (When r) as [p|]; [|done]. apply walk_respell.
Qed.

(** The CEL sources the evaluator can reach in a predicate. *)
Fixpoint cel_sources (p : Predicate) : list string :=
  let ptr (o : option Predicate) := match o with None => [] | Some q => cel_sources q end in
  match kind_of (Kind p) with
  | PredCEL => [Source p]
  | PredAll | PredAny => flat_map ptr (Of p)
  | PredNot => ptr (OfOne p)
  | _ => []
  end.
Definition ptr_sources (o : option Predicate) : list string :=
  match o with None => [] | Some q => cel_sources q end.
Definition tree_sources (t : RulesTree) : list string :=
  flat_map (fun r => ptr_sources (When r)) (rules_of t).

(** [prog] is what cel-go builds from [src]. *)
Definition compiled_from (src : string) (prog : Program) : Prop :=
  exists ast, env_Compile src = Some ast /\ OutputType_is_bool ast = true /\ env_Program ast = Some prog.

Definition programs_ok (out : programs) : Prop := map_Forall compiled_from out.

(** [out'] extends [out] with exactly the programs of [srcs]. *)
Definition extends_by (srcs : list string) (out out' : programs) : Prop :=
  (programs_ok out -> programs_ok out') /\ out ⊆ out' /\
  forall k, is_Some (out' !! k) <-> is_Some (out !! k) \/ In k srcs.

Lemma extends_by_nil out : extends_by [] out out.
Proof. split_and!; [done..|]. intros k. split; [auto|]. by intros [?|[]]. Qed.

Lemma extends_by_app l1 l2 a b c : extends_by l1 a b -> extends_by l2 b c -> extends_by (l1 ++ l2) a c.
Proof.
  intros (P1 & S1 & D1) (P2 & S2 & D2). split_and!; [auto | by etrans |].
  intros k. rewrite D2, D1, in_app_iff. tauto.
Qed.

Lemma compile_source_extends src out out' :
  compile_source src out = Ok out' -> extends_by [src] out out'.
Proof.
  unfold compile_source. destruct (out !! src) as [p0|] eqn:E.
  - intros [= <-]. split_and!; [done..|]. intros k. split; [auto|]. intros [?|[<-|[]]]; eauto.
  - destruct (env_Compile src) as [ast|] eqn:Ea; [|done]. destruct (OutputType_is_bool ast) eqn:Eb; [|done].
    destruct (env_Program ast) as [prog|] eqn:Ep; [|done]. intros [= <-]. split_and!.
    + intros Ho. apply map_Forall_insert_2; [|done]. by exists ast.
    + by apply insert_subseteq.
    + intros k. rewrite lookup_insert_is_Some'. split; [intros [<-|]; [right; by left | by left]|].
      intros [?|[<-|[]]]; auto.
Qed.

Lemma rfold_extends {A} (f : programs -> A -> result cfg_error programs) (src : A -> list string) l out out' :
  Forall (fun x => forall o o', f o x = Ok o' -> extends_by (src x) o o') l ->
  rfold f out l = Ok out' -> extends_by (flat_map src l) out out'.
Proof.
  intros H. revert out. induction H as [|x l Hx Hl IH]; intros out; cbn; [intros [= <-]; apply extends_by_nil|].
  destruct (f out x) as [o1|] eqn:E; [|done]. intros Hr. eapply extends_by_app; eauto.
Qed.

Lemma walk_extends p out out' : walkAndCompile p out = Ok out' -> extends_by (cel_sources p) out out'.
Proof.
  revert out out'. induction p as [[k a v vs pat s pc o o1 src key] IHo IHo1] using Predicate_ind.
  intros out out'. cbn [Of OfOne] in *.
  cbn [walkAndCompile cel_sources Kind Of OfOne Source].
  assert (rfold walk_ptr out o = Ok out' -> extends_by (flat_map ptr_sources o) out out') as Hof.
  { apply rfold_extends. eapply List.Forall_impl; [|exact IHo]. intros [q|]; [auto|].
    intros _ ? ? [= <-]. apply extends_by_nil. }
  destruct (kind_of k); try (intros [= <-]; apply extends_by_nil); try exact Hof.
  - destruct o1 as [q|]; [auto|]. intros [= <-]. apply extends_by_nil.
  - apply compile_source_extends.
Qed.

Lemma compilePredicates_extends rs out out' :
  compilePredicates rs out = Ok out' -> extends_by (flat_map (fun r => ptr_sources (When r)) rs) out out'.
Proof.
  apply rfold_extends, List.Forall_forall. intros r _ o o'. destruct (When r) as [p|]; [apply walk_extends|].
  intros [= <-]. apply extends_by_nil.
Qed.

(** A predicate validated without CEL has no CEL source in reach. *)
Lemma no_cel_sources p : validatePredicate p false = Ok tt -> cel_sources p = [].
Proof.
  induction p as [[k a v vs pat s pc o o1 src key] IHo IHo1] using Predicate_ind. cbn [Of OfOne] in *.
  cbn [validatePredicate cel_sources Kind Of OfOne Source Attr Value Values Pattern Salt Percent SegmentKey].
  assert (rall (fun x => validate_ptr x false) o = Ok tt -> flat_map ptr_sources o = []) as Hof.
  { rewrite rall_ok. intros H. induction IHo as [|x l Hx Hl IH]; [done|]. inversion H; subst. cbn.
    destruct x as [q|]; [|done]. cbn. rewrite Hx by done. by apply IH. }
  destruct (kind_of k); try done.
  - destruct (_ =? _)%nat; [done | exact Hof].
  - destruct (_ =? _)%nat; [done | exact Hof].
  - by destruct o1.
Qed.

Lemma no_tree_sources t : validateTree t = Ok tt -> tree_sources t = [].
Proof.
  rewrite validateTree_with, validateTreeWith_ok. intros (_ & _ & H). unfold tree_sources.
  induction H as [|r l (_ & _ & p & E & Hp) Hl IH]; [done|]. cbn. rewrite E, IH. cbn.
  by rewrite no_cel_sources.
Qed.

(** ** What a successful compilation guarantees *)

Definition strategy_cel (s : Strategy) : bool := negb (String.eqb s StrategyJSON).

Record compiled_ok (c : Compiled) : Prop := {
  co_strategy : Strategy_Valid (CStrategy c) = true;
  co_wf : wf_tree (IR c) = true;
  co_valid : validateTreeWith (IR c) (strategy_cel (CStrategy c)) = Ok tt;
  co_env : strategy_cel (CStrategy c) = true -> NewEnv_ok = true;
  co_programs : strategy_cel (CStrategy c) = true ->
                compilePredicates (rules_of (IR c)) ∅ = Ok (CELPrograms c);
  co_no_programs : strategy_cel (CStrategy c) = false -> CELPrograms c = ∅
}.

Lemma unmarshal_tree_wf s t : unmarshal_tree s = Ok t -> wf_tree t = true.
Proof. unfold unmarshal_tree. destruct (dec_tree s) eqn:E; [|done]. intros [= <-]. by eapply dec_tree_wf. Qed.

Lemma celEnv_ok u : celEnv = Ok u -> NewEnv_ok = true.
Proof. unfold celEnv. by destruct NewEnv_ok. Qed.

Lemma compiled_ok_cel s t progs :
  s = StrategyCEL \/ s = StrategyTypeScript ->
  wf_tree t = true -> validateTreeWith t true = Ok tt -> NewEnv_ok = true ->
  compilePredicates (rules_of t) ∅ = Ok progs -> compiled_ok (mkCompiled s t progs).
Proof. intros [-> | ->] ????; by split. Qed.

Lemma tryRehydrate_ok src c : tryRehydrateIR src = Some c -> CStrategy c = StrategyTypeScript /\ compiled_ok c.
Proof.
  unfold tryRehydrateIR. destruct (unmarshal_tree src) as [t|] eqn:Et; [|done].
  destruct (is_empty _); [done|]. destruct (validateTreeWith t true) as [[]|] eqn:Ev; [|done].
  destruct celEnv eqn:Ee; [|done]. destruct (compilePredicates _ _) as [ps|] eqn:Ec; [|done]. intros [= <-].
  split; [done|]. eapply compiled_ok_cel; eauto using unmarshal_tree_wf, celEnv_ok.
Qed.

Lemma unit_ok {E} (m : result E unit) u : m = Ok u -> m = Ok tt.
Proof. by destruct u. Qed.

Lemma compileTypescript_ok src c : compileTypescript src = Ok c -> CStrategy c = StrategyTypeScript /\ compiled_ok c.
Proof.
  unfold compileTypescript, compile_export. destruct (is_empty src); [done|].
  destruct (tryRehydrateIR src) as [c'|] eqn:Er; [intros [= <-]; by eapply tryRehydrate_ok|].
  destruct (_ <? _)%nat; [done|]. intros H. apply rbind_ok in H as (js & _ & H).
  apply rbind_ok in H as (def & _ & H). apply rbind_ok in H as (ir & _ & H).
  destruct (_ <? _)%nat; [done|]. inv_ok.
  split; [done|]. eapply compiled_ok_cel; eauto using unmarshal_tree_wf, celEnv_ok, unit_ok.
Qed.

Lemma Compile_strategies s src c :
  Compile s src = Ok c ->
  (s = StrategyJSON /\ json_Compile src = Ok c) \/ (s = StrategyCEL /\ cel_Compile src = Ok c) \/
  (s = StrategyTypeScript /\ compileTypescript src = Ok c).
Proof.
  unfold Compile, CompilerFor.
  destruct (String.eqb_spec s StrategyJSON); [by left|]. destruct (String.eqb_spec s StrategyCEL); [by right; left|].
  destruct (String.eqb_spec s StrategyTypeScript); [by right; right | done].
Qed.

Lemma Compile_ok s src c : Compile s src = Ok c -> CStrategy c = s /\ compiled_ok c.
Proof.
  intros [(-> & H)|[(-> & H)|(-> & H)]]%Compile_strategies.
  - unfold json_Compile in H. inv_ok. split; [done|]. split; try done; [by eapply unmarshal_tree_wf|].
    destruct a0. by rewrite <- validateTree_with.
  - unfold cel_Compile in H. inv_ok. split; [done|].
    eapply compiled_ok_cel; eauto using unmarshal_tree_wf, celEnv_ok, unit_ok.
  - by apply compileTypescript_ok in H.
Qed.

(** Re-running the compiler of a strategy on the text of a validated tree. *)
Lemma compile_doc f s c j :
  (forall r, raw_equiv (f r) r) -> CStrategy c = s -> compiled_ok c -> dec_tree j = Some (respell_tree f (IR c)) ->
  Compile s j = Ok (mkCompiled s (respell_tree f (IR c)) (CELPrograms c)).
Proof.
  intros Hf <- [Hs Hw Hv He Hp Hn] Hj. destruct c as [s t ps]. cbn [CStrategy IR CELPrograms] in *.
  assert (unmarshal_tree j = Ok (respell_tree f t)) as Hu by (unfold unmarshal_tree; by rewrite Hj).
  assert (validateTreeWith (respell_tree f t) (strategy_cel s) = Ok tt) as Hv' by (by rewrite validateTreeWith_respell).
  unfold Compile, CompilerFor. unfold Strategy_Valid in Hs.
  destruct (String.eqb_spec s StrategyJSON) as [->|H1].
  - cbn. unfold json_Compile. rewrite Hu. cbn [rbind]. rewrite validateTree_with.
    change false with (strategy_cel StrategyJSON) at 1. rewrite Hv'. cbn. by rewrite Hn.
  - assert (strategy_cel s = true) as Hc by (unfold strategy_cel; by destruct (String.eqb_spec s StrategyJSON)).
    rewrite Hc in *. specialize (Hp eq_refl). specialize (He eq_refl).
    assert (celEnv = Ok tt) as Henv by (unfold celEnv; by rewrite He).
    assert (compilePredicates (rules_of (respell_tree f t)) ∅ = Ok ps) as Hp'
      by (by rewrite rules_of_respell, compilePredicates_respell).
    destruct (String.eqb_spec s StrategyCEL) as [->|H2].
    + cbn [rbind]. unfold cel_Compile. rewrite Hu. cbn [rbind]. rewrite Hv'. cbn [rbind].
      rewrite Henv. cbn [rbind]. by rewrite Hp'.
    + destruct (String.eqb_spec s StrategyTypeScript) as [->|H3]; [|done]. cbn [rbind]. unfold compileTypescript, compile_export.
      assert (is_empty j = false) as -> by (by destruct j).
      assert (tryRehydrateIR j = Some (mkCompiled StrategyTypeScript (respell_tree f t) ps)) as ->; [|done].
      unfold tryRehydrateIR. rewrite Hu. apply validateTreeWith_ok in Hv as (Hvt & _ & _).
      change (TreeValueType (respell_tree f t)) with (TreeValueType t).
      by rewrite valid_value_type_nonempty, Hv', Henv, Hp'.
Qed.

Lemma rehydrate s src c :
  Compile s src = Ok c ->
  exists j, enc_tree (IR c) = Some j /\
    Compile s j = Ok (mkCompiled s (norm_tree (IR c)) (CELPrograms c)).
Proof.
  intros [Hs Hc]%Compile_ok. destruct (tree_trip (IR c)) as (j & Ej & Dj).
  { eapply valid_full; apply Hc. }
  exists j. split; [done|]. by apply compile_doc; [apply norm_raw_equiv|..].
Qed.

(** The program table of a compilation. *)
Lemma program_table s src c :
  Compile s src = Ok c ->
  (forall k, is_Some (CELPrograms c !! k) <-> In k (tree_sources (IR c))) /\
  (forall k prog, CELPrograms c !! k = Some prog -> compiled_from k prog) /\
  (s = StrategyJSON -> tree_sources (IR c) = []).
Proof.
  intros [<- [_ _ Hv _ Hp Hn]]%Compile_ok. destruct (strategy_cel (CStrategy c)) eqn:Ec.
  - specialize (Hp eq_refl). apply compilePredicates_extends in Hp as (Hok & _ & Hd). split_and!.
    + intros k. rewrite Hd, lookup_empty. split; [by intros [[? ?]|] | by right].
    + apply Hok. by apply map_Forall_empty.
    + intros E. by rewrite E in Ec.
  - pose proof (no_tree_sources (IR c)) as Hnone. rewrite validateTree_with in Hnone. specialize (Hnone Hv).
    rewrite (Hn eq_refl), Hnone. split_and!; [|intros k prog; by rewrite lookup_empty | done].
    intros k. rewrite lookup_empty. split; [by intros [? ?] | by intros []].
Qed.

(** After a successful compilation the program table holds exactly the CEL
    sources the evaluator can reach, each with the program cel-go builds from
    that source; in the JSON strategy there is none to reach. *)
Theorem compiled_programs s src c :
  Compile s src = Ok c ->
  (forall k, is_Some (CELPrograms c !! k) <-> In k (tree_sources (IR c))) /\
  (forall k prog, CELPrograms c !! k = Some prog -> compiled_from k prog) /\
  (s = StrategyJSON -> tree_sources (IR c) = []).
Proof. apply program_table. Qed.
End config.

(** ** Concrete libraries *)

(** Small instances of the outside code, used to evaluate the definitions on
    concrete inputs: a regular expression matches its own prefixes, a CEL source
    is a constant or the presence of a key, and TypeScript is not available. *)
Module Demo.
#[export] Instance rx : RegexpLib := {|
  Regexp := string;
  regexp_Compile s := if hasPrefix s "(" then None else Some s;
  MatchString re s := hasPrefix s re
|}.
#[export] Instance cel : CelLib := {|
  Ast := string;
  Program := string;
  NewEnv_ok := true;
  env_Compile s := if hasPrefix s "!" then None else Some s;
  OutputType_is_bool s := negb (hasPrefix s "1");
  env_Program s := Some s;
  Eval p ctx := if String.eqb p "true" then Ok (Some true)
                else match map_get p ctx with
                     | Some (VBool b) => Ok (Some b)
                     | Some _ => Ok None
                     | None => Err tt
                     end
|}.
#[export] Instance ts : TsLib := {|
  Build _ := ([("Unexpected end of file", None)], []);
  VM := unit;
  JsValue := unit;
  goja_New := tt;
  RunString _ _ := Err (Exception "");
  vm_Get _ _ := None;
  vm_SetModule _ _ := None;
  obj_Get _ _ _ := None;
  Export _ _ := VNil;
  dslShim := ""
|}.

(** Source texts, written as documents. *)
Definition jstr (s : string) : jdoc := JStr (quote s).
Definition obj (m : list (string * jdoc)) : jdoc := JObj (map (fun kv => (quote kv.1, kv.2)) m).
Definition rule_doc (id : string) (when_ value : jdoc) : jdoc :=
  obj [("id", jstr id); ("when", when_); ("value", value)].
Definition tree_doc (vt : string) (def : jdoc) (rules : list jdoc) : jdoc :=
  obj [("value_type", jstr vt); ("default", def); ("rules", JArr rules)].
Definition eq_doc (attr : string) (v : jdoc) : jdoc :=
  obj [("kind", jstr "eq"); ("attr", jstr attr); ("value", v)].
Definition cel_doc (src : string) : jdoc := obj [("kind", jstr "cel"); ("source", jstr src)].

(** A boolean flag: on for US users, else by the CEL source [beta]. *)
Definition us_source : string := print (tree_doc "boolean" (JBool false)
  [rule_doc "us" (eq_doc "user.country" (jstr "US")) (JBool true);
   rule_doc "beta" (cel_doc "beta") (JBool true)]).
Definition json_source : string := print (tree_doc "string" (jstr "a<b")
  [rule_doc "us" (eq_doc "user.country" (jstr "US")) (jstr "x&y")]).

Definition compiled_us : Compiled :=
  match Compile StrategyCEL us_source with Ok c => c | Err _ => mkCompiled "" zero_tree ∅ end.

Lemma compiled_programs_witness :
  (forall k, is_Some (CELPrograms compiled_us !! k) <-> In k (tree_sources (IR compiled_us))) /\
  (forall k prog, CELPrograms compiled_us !! k = Some prog -> compiled_from k prog) /\
  (StrategyCEL = StrategyJSON -> tree_sources (IR compiled_us) = []).
Proof. apply (compiled_programs StrategyCEL us_source). vm_compute. reflexivity. Defined.
End Demo.
