(* ===== verification/Rollout.v ===== *)
(** Percentage rollouts ([internal/eval/rollout.go]): FNV-1a over 64 bits and
    the percent gate. *)
From stdpp Require Import base list strings numbers.
From Stdlib Require Import Ascii String ZArith Lia.
From S2P Require Import Prelude Text.

(** [hash/fnv]'s 64-bit FNV-1a state and its [Write]. *)
Definition fnv_offset64 : Z := 14695981039346656037.
Definition fnv_prime64 : Z := 1099511628211.

Definition fnv_step (h : Z) (c : ascii) : Z := wrap_u64 (Z.lxor h (code c) * fnv_prime64).
Fixpoint fnv_Write (h : Z) (s : string) : Z :=
  match s with
  | EmptyString => h
  | String c s' => fnv_Write (fnv_step h c) s'
  end.

Definition rolloutBucket (salt attrValue : string) : Z :=
  let h := fnv_offset64 in
  let h := fnv_Write h salt in
  let h := fnv_Write h ":" in
  let h := fnv_Write h attrValue in
  h mod 10000.

Definition inBucket (salt attrValue : string) (percent : Z) : bool :=
  if percent <=? 0 then false
  else if 100 <=? percent then true
  else rolloutBucket salt attrValue <? percent * 100.

Lemma fnv_Write_app h a b : fnv_Write h (a +:+ b) = fnv_Write (fnv_Write h a) b.
Proof. revert h. induction a as [|c a IH]; intros h; [done|]. cbn. apply IH. Qed.

(** The hash state stays a [uint64]. *)
Lemma fnv_Write_range h s : 0 <= h < 2 ^ 64 -> 0 <= fnv_Write h s < 2 ^ 64.
Proof.
  revert h. induction s as [|c s IH]; intros h Hh; [done|]. cbn [fnv_Write]. apply IH.
  unfold fnv_step, wrap_u64. apply Z.mod_pos_bound. lia.
Qed.

(** The three writes hash the concatenation [salt ":" value]. *)
Lemma rolloutBucket_concat salt v :
  rolloutBucket salt v = fnv_Write fnv_offset64 (salt +:+ ":" +:+ v) mod 10000.
Proof. unfold rolloutBucket. by rewrite !fnv_Write_app. Qed.

Lemma rolloutBucket_range salt v : 0 <= rolloutBucket salt v < 10000.
Proof. unfold rolloutBucket. by apply Z.mod_pos_bound. Qed.

Lemma inBucket_gate salt v percent :
  inBucket salt v percent = (rolloutBucket salt v <? percent * 100).
Proof.
  unfold inBucket. pose proof (rolloutBucket_range salt v).
  destruct (Z.leb_spec percent 0); [symmetry; apply Z.ltb_ge; lia|].
  destruct (Z.leb_spec 100 percent); [symmetry; apply Z.ltb_lt; lia | done].
Qed.

Lemma inBucket_mono salt v p q :
  p <= q -> inBucket salt v p = true -> inBucket salt v q = true.
Proof. rewrite !inBucket_gate, !Z.ltb_lt. lia. Qed.

(** C33. A rollout puts a value in the bucket FNV-1a gives the text
    [salt ":" value], a number below 10000, and lets it through exactly when the
    bucket is below a hundred times the percent. *)
Theorem rollout_bucket salt v percent :
  rolloutBucket salt v = fnv_Write fnv_offset64 (salt +:+ ":" +:+ v) mod 10000 /\
  0 <= rolloutBucket salt v < 10000 /\
  (inBucket salt v percent = true <-> rolloutBucket salt v < percent * 100).
Proof.
  split; [apply rolloutBucket_concat|]. split; [apply rolloutBucket_range|].
  by rewrite inBucket_gate, Z.ltb_lt.
Qed.
