(* ===== verification/Eval.v ===== *)
(** The evaluator ([internal/eval/eval.go], [predicates.go]). *)
From stdpp Require Import base list strings numbers gmap.
From Stdlib Require Import Ascii String ZArith Lia Floats.SpecFloat.
From S2P Require Import Prelude Text Literal Json Float64 GoValue Ir Compile Rollout.

(** ** Context look-ups *)

(** An evaluation context: [map[string]any]. *)
Definition context : Type := list (string * goval).

Fixpoint walk_path (parts : list string) (cur : goval) : option goval :=
  match parts with
  | [] => Some cur
  | part :: rest =>
      match cur with
      | VMap m => match map_get part m with
                  | Some next => walk_path rest next
                  | None => None
                  end
      | _ => None
      end
  end.

(** [lookup]: [None] is a miss. *)
Definition lookup (ctx : context) (path : string) : option goval :=
  if is_empty path then None else walk_path (split_on "."%char path) (VMap ctx).

Definition lookupString (ctx : context) (path : string) : option string :=
  match lookup ctx path with
  | Some (VStr s) => Some s
  | _ => None
  end.

(** [json.Number.Float64]. *)
Definition number_Float64 (lit : string) : option float64 :=
  match scan_num lit with Some (_, "") => parse64 lit | _ => None end.

Definition toFloat (v : goval) : option float64 :=
  match v with
  | VFloat64 f => Some f
  | VFloat32 f => Some f
  | VInt z => Some (of_int64 z)
  | VInt64 z => Some (of_int64 z)
  | VNumber l => number_Float64 l
  | _ => None
  end.

(** A failed [json.Marshal] leaves an empty text. *)
Definition jsonEqual (a b : goval) : bool :=
  match a with
  | VStr av => match b with VStr bv => String.eqb av bv | _ => false end
  | VBool av => match b with VBool bv => Bool.eqb av bv | _ => false end
  | VNil => match b with VNil => true | _ => false end
  | _ => String.eqb (default "" (marshal a)) (default "" (marshal b))
  end.

(** ** Predicates *)

Inductive eval_err : Type :=
| DecodeValue       (* eq, in, ord or starts_with value *)
| BadPattern
| CelMissing
| CelEval
| UnknownKind.

(** Go's pair [(matched, error)]; the flag is returned next to an error too. *)
Definition matched : Type := bool * option eval_err.
Definition hit (b : bool) : matched := (b, None).
Definition fails (e : eval_err) : matched := (false, Some e).

Definition cmpEq (p : Predicate) (ctx : context) : matched :=
  match lookup ctx (Attr p) with
  | None => hit false
  | Some actual =>
      let '(expected, bad) := unmarshal_any (Value p) in
      if (bad : bool) then fails DecodeValue else hit (jsonEqual actual expected)
  end.

Fixpoint in_values (actual : goval) (l : list RawMessage) : matched :=
  match l with
  | [] => hit false
  | raw :: l' =>
      let '(v, bad) := unmarshal_any raw in
      if (bad : bool) then fails DecodeValue
      else if jsonEqual actual v then hit true
      else in_values actual l'
  end.

Definition cmpIn (p : Predicate) (ctx : context) : matched :=
  match lookup ctx (Attr p) with
  | None => hit false
  | Some actual => in_values actual (Values p)
  end.

Definition cmpOrd (p : Predicate) (ctx : context) : matched :=
  match lookup ctx (Attr p) with
  | None => hit false
  | Some actualRaw =>
      match toFloat actualRaw with
      | None => hit false
      | Some a =>
          let '(expRaw, bad) := unmarshal_any (Value p) in
          if (bad : bool) then fails DecodeValue
          else match toFloat expRaw with
               | None => hit false
               | Some b =>
                   match kind_of (Kind p) with
                   | PredGt => hit (SFltb b a)
                   | PredGte => hit (SFleb b a)
                   | PredLt => hit (SFltb a b)
                   | PredLte => hit (SFleb a b)
                   | _ => hit false
                   end
               end
      end
  end.

Definition cmpStartsWith (p : Predicate) (ctx : context) : matched :=
  match lookupString ctx (Attr p) with
  | None => hit false
  | Some actual =>
      match unmarshal_string (Value p) with
      | None => fails DecodeValue
      | Some prefix => hit (hasPrefix actual prefix)
      end
  end.

(** [ok, err := m; return !ok, err]. *)
Definition negate (m : matched) : matched := (negb m.1, m.2).

Section loops.
Context {A : Type} (f : A -> matched).
Fixpoint match_all (l : list A) : matched :=
  match l with
  | [] => hit true
  | c :: l' =>
      match f c with
      | (_, Some e) => fails e
      | (false, None) => hit false
      | (true, None) => match_all l'
      end
  end.
Fixpoint match_any (l : list A) : matched :=
  match l with
  | [] => hit false
  | c :: l' =>
      match f c with
      | (_, Some e) => fails e
      | (true, None) => hit true
      | (false, None) => match_any l'
      end
  end.
End loops.

Section eval.
Context {RX : RegexpLib} {CEL : CelLib}.

Definition cmpMatches (p : Predicate) (ctx : context) : matched :=
  match lookupString ctx (Attr p) with
  | None => hit false
  | Some actual =>
      match regexp_Compile (Pattern p) with
      | None => fails BadPattern
      | Some re => hit (MatchString re actual)
      end
  end.

Definition cmpCEL (src : string) (ctx : context) (progs : programs) : matched :=
  match progs !! src with
  | None => fails CelMissing
  | Some prog => match EvalCEL prog ctx with
                 | Ok b => hit b
                 | Err _ => fails CelEval
                 end
  end.

(** [match] of [predicates.go]; the pointer version is [match_ptr]. *)
Fixpoint match_pred (p : Predicate) (ctx : context) (progs : programs) {struct p} : matched :=
  let match_ptr (o : option Predicate) :=
    match o with None => hit false | Some q => match_pred q ctx progs end in
  match kind_of (Kind p) with
  | PredAlways => hit true
  | PredEq => cmpEq p ctx
  | PredNeq => negate (cmpEq p ctx)
  | PredIn => cmpIn p ctx
  | PredGt | PredGte | PredLt | PredLte => cmpOrd p ctx
  | PredMatches => cmpMatches p ctx
  | PredStartsWith => cmpStartsWith p ctx
  | PredRollout =>
      match lookupString ctx (Attr p) with
      | None => hit false
      | Some v => hit (inBucket (Salt p) v (Percent p))
      end
  | PredAll => match_all match_ptr (Of p)
  | PredAny => match_any match_ptr (Of p)
  | PredNot => negate (match_ptr (OfOne p))
  | PredCEL => cmpCEL (Source p) ctx progs
  | PredSegment | PredOther => fails UnknownKind
  end.

Definition match_ptr (ctx : context) (progs : programs) (o : option Predicate) : matched :=
  match o with None => hit false | Some q => match_pred q ctx progs end.

(** ** Decisions *)

Definition ReasonDefault : string := "default".
Definition ReasonRuleMatched : string := "rule_matched".
Definition ReasonRolloutInBucket : string := "rollout_in_bucket".
Definition ReasonRolloutOutOfBucket : string := "rollout_out_of_bucket".
Definition ReasonTypeMismatch : string := "type_mismatch".
Definition ReasonError : string := "error".

Record Decision : Type := mkDecision {
  DValue : goval;
  Reason : string;
  RuleID : string;
  Version : Z
}.

Inductive eval_failure : Type := NilCompiled | DefaultUndecodable.

(** [None] is an error. *)
Definition decodeValue (raw : RawMessage) : option goval :=
  if is_empty raw then Some VNil
  else match unmarshal_any raw with
       | (v, false) => Some v
       | (_, true) => None
       end.

Definition valueMatchesType (v : goval) (t : ValueType) : bool :=
  if String.eqb t ValueTypeBoolean then match v with VBool _ => true | _ => false end
  else if String.eqb t ValueTypeString then match v with VStr _ => true | _ => false end
  else if String.eqb t ValueTypeNumber then match toFloat v with Some _ => true | None => false end
  else if String.eqb t ValueTypeObject then match v with VMap _ => true | _ => false end
  else false.

Definition reasonForRule (r : Rule) : string :=
  match When r with
  | Some p => match kind_of (Kind p) with PredRollout => ReasonRolloutInBucket | _ => ReasonRuleMatched end
  | None => ReasonRuleMatched
  end.

(** The decision a matching rule gives. *)
Definition serve (vt : ValueType) (defValue : goval) (r : Rule) (version : Z) : Decision :=
  match decodeValue (RuleValue r) with
  | None => mkDecision defValue ReasonTypeMismatch (ID r) version
  | Some v =>
      if valueMatchesType v vt then mkDecision v (reasonForRule r) (ID r) version
      else mkDecision defValue ReasonTypeMismatch (ID r) version
  end.

(** The loop of [Evaluate] over the rules. *)
Fixpoint eval_rules (c : Compiled) (ctx : context) (version : Z) (defValue : goval) (rules : list Rule) : Decision :=
  match rules with
  | [] => mkDecision defValue ReasonDefault "" version
  | r :: rest =>
      match match_ptr ctx (CELPrograms c) (When r) with
      | (_, Some _) => mkDecision defValue ReasonError (ID r) version
      | (false, None) => eval_rules c ctx version defValue rest
      | (true, None) => serve (TreeValueType (IR c)) defValue r version
      end
  end.

Definition Evaluate (c : option Compiled) (ctx : context) (version : Z) : result eval_failure Decision :=
  match c with
  | None => Err NilCompiled
  | Some c =>
      match decodeValue (Default (IR c)) with
      | None => Err DefaultUndecodable
      | Some defValue => Ok (eval_rules c ctx version defValue (rules_of (IR c)))
      end
  end.

(** ** Evaluation does not depend on the spelling of raw messages *)

Lemma match_all_map {A B} (f : B -> matched) (g : A -> B) l :
  match_all f (map g l) = match_all (fun x => f (g x)) l.
Proof. induction l as [|x l IH]; [done|]. cbn. by rewrite IH. Qed.
Lemma match_any_map {A B} (f : B -> matched) (g : A -> B) l :
  match_any f (map g l) = match_any (fun x => f (g x)) l.
Proof. induction l as [|x l IH]; [done|]. cbn. by rewrite IH. Qed.
Lemma match_all_ext {A} (f g : A -> matched) l : Forall (fun x => f x = g x) l -> match_all f l = match_all g l.
Proof. induction 1 as [|x l Hx Hl IH]; [done|]. cbn. by rewrite Hx, IH. Qed.
Lemma match_any_ext {A} (f g : A -> matched) l : Forall (fun x => f x = g x) l -> match_any f l = match_any g l.
Proof. induction 1 as [|x l Hx Hl IH]; [done|]. cbn. by rewrite Hx, IH. Qed.

Section respell.
Variable f : RawMessage -> RawMessage.
Hypothesis f_equiv : forall r, raw_equiv (f r) r.

Lemma unmarshal_any_respell r : unmarshal_any (f r) = unmarshal_any r.
Proof. apply f_equiv. Qed.
Lemma unmarshal_string_respell r : unmarshal_string (f r) = unmarshal_string r.
Proof. apply f_equiv. Qed.

Lemma in_values_respell a l : in_values a (map f l) = in_values a l.
Proof. induction l as [|r l IH]; [done|]. cbn [map in_values]. by rewrite unmarshal_any_respell, IH. Qed.

Lemma match_pred_respell ctx progs p : match_pred (respell_pred f p) ctx progs = match_pred p ctx progs.
Proof.
  induction p as [[k a v vs pat s pc o o1 src key] IHo IHo1] using Predicate_ind. cbn [Of OfOne] in *.
  cbn [respell_pred match_pred Kind Attr Value Values Pattern Salt Percent Of OfOne Source SegmentKey].
  unfold cmpEq, cmpIn, cmpOrd, cmpStartsWith, cmpMatches.
  cbn [Kind Attr Value Values Pattern].
  rewrite unmarshal_any_respell, unmarshal_string_respell, match_all_map, match_any_map.
  assert (Forall (fun x => match_ptr ctx progs (respell_pred f <$> x) = match_ptr ctx progs x) o) as Ho.
  { eapply List.Forall_impl; [|exact IHo]. by intros [q|]. }
  destruct (kind_of k); try done.
  - destruct (lookup ctx a); [|done]. apply in_values_respell.
  - by apply match_all_ext.
  - by apply match_any_ext.
  - destruct o1 as [q|]; [|done]. cbn. cbn in IHo1. by rewrite IHo1.
Qed.

Lemma match_ptr_respell ctx progs o : match_ptr ctx progs (respell_pred f <$> o) = match_ptr ctx progs o.
Proof. destruct o; [apply match_pred_respell | done]. Qed.

Lemma decodeValue_respell r : decodeValue (f r) = decodeValue r.
Proof. unfold decodeValue. by rewrite (respell_empty f f_equiv), unmarshal_any_respell. Qed.

Lemma reasonForRule_respell r : reasonForRule (respell_rule f r) = reasonForRule r.
Proof. unfold reasonForRule, respell_rule. cbn. destruct (When r) as [[]|]; done. Qed.

Lemma serve_respell vt d r v : serve vt d (respell_rule f r) v = serve vt d r v.
Proof.
  unfold serve. rewrite reasonForRule_respell. unfold respell_rule. cbn [RuleValue ID]. by rewrite decodeValue_respell.
Qed.

Lemma eval_rules_respell s t progs ctx v d rs :
  eval_rules (mkCompiled s (respell_tree f t) progs) ctx v d (map (respell_rule f) rs) =
  eval_rules (mkCompiled s t progs) ctx v d rs.
Proof.
  induction rs as [|r rs IH]; [done|]. cbn [map eval_rules CELPrograms IR].
  rewrite serve_respell, IH. change (When (respell_rule f r)) with (respell_pred f <$> When r). by rewrite match_ptr_respell.
Qed.

Lemma Evaluate_respell s t progs ctx v :
  Evaluate (Some (mkCompiled s (respell_tree f t) progs)) ctx v = Evaluate (Some (mkCompiled s t progs)) ctx v.
Proof.
  unfold Evaluate. cbn [IR]. change (Default (respell_tree f t)) with (f (Default t)).
  rewrite decodeValue_respell, rules_of_respell. destruct (decodeValue (Default t)); [|done].
  by rewrite eval_rules_respell.
Qed.
End respell.

(** Nor on the strategy a flag was compiled under. *)
Lemma Evaluate_strategy s s' t progs ctx v :
  Evaluate (Some (mkCompiled s t progs)) ctx v = Evaluate (Some (mkCompiled s' t progs)) ctx v.
Proof.
  unfold Evaluate. cbn [IR]. destruct (decodeValue (Default t)) as [def|]; [|done]. f_equal.
  induction (rules_of t) as [|r rs IH]; [done|]. cbn [eval_rules CELPrograms IR]. by rewrite IH.
Qed.

(** ** First match wins *)

Definition misses (c : Compiled) (ctx : context) (r : Rule) : Prop :=
  match_ptr ctx (CELPrograms c) (When r) = hit false.

Lemma eval_rules_miss c ctx v d pre rest :
  Forall (misses c ctx) pre -> eval_rules c ctx v d (pre ++ rest) = eval_rules c ctx v d rest.
Proof. induction 1 as [|r l Hr Hl IH]; [done|]. cbn. unfold misses in Hr. by rewrite Hr. Qed.

(** The rules up to the first that does not miss. *)
Lemma first_hit c ctx rules :
  Forall (misses c ctx) rules \/
  exists pre r post, rules = pre ++ r :: post /\ Forall (misses c ctx) pre /\ ~ misses c ctx r.
Proof.
  induction rules as [|r rules IH]; [by left|].
  destruct (match_ptr ctx (CELPrograms c) (When r)) as [b e] eqn:E.
  assert (misses c ctx r \/ ~ misses c ctx r) as [Hr|Hr].
  { unfold misses, hit. rewrite E. destruct b, e; [right..|left]; congruence. }
  - destruct IH as [IH|(pre & r' & post & -> & Hpre & Hr')]; [left; by constructor|].
    right. exists (r :: pre), r', post. split_and!; [done | by constructor | done].
  - right. by exists [], r, rules.
Qed.

(** ** Types of served values *)

Lemma serve_cases vt d r v :
  (valueMatchesType (DValue (serve vt d r v)) vt = true /\ Reason (serve vt d r v) = reasonForRule r /\
   decodeValue (RuleValue r) = Some (DValue (serve vt d r v))) \/
  serve vt d r v = mkDecision d ReasonTypeMismatch (ID r) v.
Proof.
  unfold serve. destruct (decodeValue (RuleValue r)) as [x|]; [|by right].
  destruct (valueMatchesType x vt) eqn:E; [by left | by right].
Qed.

Lemma reasonForRule_cases r :
  reasonForRule r = ReasonRuleMatched \/ reasonForRule r = ReasonRolloutInBucket.
Proof. unfold reasonForRule. destruct (When r) as [p|]; [|by left]. destruct (kind_of (Kind p)); auto. Qed.

Lemma serve_version vt d r v : Version (serve vt d r v) = v.
Proof. unfold serve. destruct (decodeValue _) as [x|]; [|done]. by destruct (valueMatchesType x vt). Qed.

Lemma eval_rules_typed c ctx v def rules :
  let d := eval_rules c ctx v def rules in
  Version d = v /\
  ((valueMatchesType (DValue d) (TreeValueType (IR c)) = true /\
    (Reason d = ReasonRuleMatched \/ Reason d = ReasonRolloutInBucket)) \/
   (DValue d = def /\ (Reason d = ReasonDefault \/ Reason d = ReasonTypeMismatch \/ Reason d = ReasonError))).
Proof.
  induction rules as [|r rs IH]; [by auto 6|]. cbn [eval_rules].
  destruct (match_ptr ctx (CELPrograms c) (When r)) as [[] [e|]]; [by auto 6 | | by auto 6 | exact IH].
  split; [apply serve_version|].
  destruct (serve_cases (TreeValueType (IR c)) def r v) as [(Ht & Hr & _)| ->]; [|by auto 6].
  left. split; [done|]. rewrite Hr. apply reasonForRule_cases.
Qed.

(** The default of a compiled tree decodes, unless a number overflows. *)
Lemma default_decodes c :
  compiled_ok c ->
  (exists doc, scan (Default (IR c)) = Some doc /\ (any_of doc).2 = true /\ decodeValue (Default (IR c)) = None) \/
  exists def, decodeValue (Default (IR c)) = Some def.
Proof.
  intros [_ Hw Hv _ _ _]. pose proof (valid_full _ _ Hw Hv) as Hf. unfold full_tree in Hf. bsplit.
  destruct (raw_ok_scan (Default (IR c))) as (doc & E & _); [done|].
  unfold decodeValue, unmarshal_any. rewrite E. destruct (is_empty _); [by eauto|].
  destruct (any_of doc) as [x []] eqn:Ea; [left | by eauto]. exists doc. by rewrite Ea.
Qed.

(** ** Errors a validated predicate can raise *)

(** No [segment] node in reach of the evaluator. *)
Fixpoint segment_free (p : Predicate) : bool :=
  let ptr (o : option Predicate) := match o with None => true | Some q => segment_free q end in
  match kind_of (Kind p) with
  | PredSegment => false
  | PredAll | PredAny => forallb ptr (Of p)
  | PredNot => ptr (OfOne p)
  | _ => true
  end.

Definition soft (e : eval_err) : Prop := e = DecodeValue \/ e = CelEval.

Definition soft_result (m : matched) : Prop := match m.2 with Some e => soft e | None => True end.

Lemma soft_hit b : soft_result (hit b). Proof. done. Qed.
Lemma soft_decode : soft_result (fails DecodeValue). Proof. by left. Qed.
Lemma soft_negate m : soft_result m -> soft_result (negate m). Proof. done. Qed.
#[local] Hint Resolve soft_hit soft_decode soft_negate : ff.

Lemma soft_match_all {A} (f : A -> matched) l : Forall (fun x => soft_result (f x)) l -> soft_result (match_all f l).
Proof. induction 1 as [|x l Hx Hl IH]; [done|]. cbn. destruct (f x) as [[] [e|]]; done. Qed.
Lemma soft_match_any {A} (f : A -> matched) l : Forall (fun x => soft_result (f x)) l -> soft_result (match_any f l).
Proof. induction 1 as [|x l Hx Hl IH]; [done|]. cbn. destruct (f x) as [[] [e|]]; done. Qed.

Lemma soft_in_values a l : soft_result (in_values a l).
Proof.
  induction l as [|r l IH]; [done|]. cbn. destruct (unmarshal_any r) as [x []]; [auto with ff|].
  destruct (jsonEqual a x); [done | exact IH].
Qed.

Lemma soft_cmp p ctx :
  soft_result (cmpEq p ctx) /\ soft_result (cmpIn p ctx) /\ soft_result (cmpOrd p ctx) /\
  soft_result (cmpStartsWith p ctx).
Proof.
  unfold cmpEq, cmpIn, cmpOrd, cmpStartsWith. split_and!.
  - destruct (lookup ctx (Attr p)); [|done]. destruct (unmarshal_any _) as [? []]; auto with ff.
  - destruct (lookup ctx (Attr p)); [apply soft_in_values | done].
  - destruct (lookup ctx (Attr p)); [|done]. destruct (toFloat g); [|done].
    destruct (unmarshal_any _) as [x []]; [auto with ff|]. destruct (toFloat x); [|done].
    destruct (kind_of (Kind p)); done.
  - destruct (lookupString ctx (Attr p)); [|done]. destruct (unmarshal_string _); auto with ff.
Qed.

Lemma soft_matches p allow ctx :
  kind_of (Kind p) = PredMatches -> validatePredicate p allow = Ok tt -> soft_result (cmpMatches p ctx).
Proof.
  destruct p as [k a v vs pat s pc o o1 src key]. cbn. intros ->. unfold cmpMatches. cbn.
  intros [_ H]%guard_ok. destruct (regexp_Compile pat); [|discriminate H].
  by destruct (lookupString ctx a).
Qed.

Lemma validated_errors p allow ctx progs :
  validatePredicate p allow = Ok tt -> segment_free p = true ->
  (forall src, In src (cel_sources p) -> is_Some (progs !! src)) ->
  soft_result (match_pred p ctx progs).
Proof.
  induction p as [p IHo IHo1] using Predicate_ind. intros Hv Hs Hc.
  assert (forall (V : rall (fun o => validate_ptr o allow) (Of p) = Ok tt)
                 (S : forallb (fun o => match o with None => true | Some q => segment_free q end) (Of p) = true)
                 (C : forall src, In src (flat_map ptr_sources (Of p)) -> is_Some (progs !! src)),
    Forall (fun o => soft_result (match_ptr ctx progs o)) (Of p)) as Hof.
  { intros V S C. rewrite rall_ok in V. rewrite forallb_forall in S. rewrite List.Forall_forall in *.
    intros [q|] Hin; [|done]. apply (IHo _ Hin); [by apply (V _ Hin) | by apply (S _ Hin)|].
    intros src Hsrc. apply C, in_flat_map. by exists (Some q). }
  pose proof (soft_cmp p ctx) as (H1 & H2 & H3 & H4). pose proof (soft_matches p allow ctx) as H5.
  destruct p as [k a v vs pat s pc o o1 src key].
  cbn [match_pred validatePredicate segment_free cel_sources Kind Attr Value Values Pattern Salt Percent Of OfOne Source SegmentKey] in *.
  destruct (kind_of k); auto with ff; try done; try discriminate Hv.
  - by destruct (lookupString ctx a).
  - apply soft_match_all, Hof; [by apply guard_ok in Hv as [_ ?] | done | done].
  - apply soft_match_any, Hof; [by apply guard_ok in Hv as [_ ?] | done | done].
  - apply soft_negate. destruct o1 as [q|]; [|done]. by apply IHo1.
  - unfold cmpCEL. destruct (Hc src) as [prog ->]; [by left|]. destruct (EvalCEL prog ctx); [done | by right].
Qed.
End eval.

(** ** Equality of values *)

Lemma marshal_plain v : plain v = true -> exists t, marshal v = Some t.
Proof. intros (t & ? & _)%unmarshal_marshal. eauto. Qed.

Lemma jsonEqual_marshal a b :
  plain a = true -> plain b = true -> jsonEqual a b = true <-> a = b.
Proof.
  intros Ha Hb. split.
  - destruct (marshal_plain a Ha) as [ta Ea], (marshal_plain b Hb) as [tb Eb].
    unfold jsonEqual. rewrite Ea, Eb. cbn [default from_option id].
    destruct a; try discriminate Ha; try (intros ->%String.eqb_eq; apply marshal_inj; congruence).
    + by destruct b.
    + destruct b; try done. by intros ->%Bool.eqb_true_iff.
    + destruct b; try done. by intros ->%String.eqb_eq.
  - intros <-. destruct a; cbn; rewrite ?String.eqb_refl, ?Bool.eqb_reflx; done.
Qed.

(** ** Attributes a predicate reads *)

Section frame.
Context {RX : RegexpLib} {CEL : CelLib}.

Fixpoint attrs (p : Predicate) : list string :=
  let ptr (o : option Predicate) := match o with None => [] | Some q => attrs q end in
  match kind_of (Kind p) with
  | PredAll | PredAny => flat_map ptr (Of p)
  | PredNot => ptr (OfOne p)
  | PredAlways | PredCEL | PredSegment | PredOther => []
  | _ => [Attr p]
  end.

Definition agree (l : list string) (ctx ctx' : context) : Prop :=
  forall a, In a l -> lookup ctx a = lookup ctx' a.

Lemma cmp_agree p ctx ctx' :
  lookup ctx (Attr p) = lookup ctx' (Attr p) ->
  cmpEq p ctx = cmpEq p ctx' /\ cmpIn p ctx = cmpIn p ctx' /\ cmpOrd p ctx = cmpOrd p ctx' /\
  cmpMatches p ctx = cmpMatches p ctx' /\ cmpStartsWith p ctx = cmpStartsWith p ctx' /\
  lookupString ctx (Attr p) = lookupString ctx' (Attr p).
Proof.
  intros E. unfold cmpEq, cmpIn, cmpOrd, cmpMatches, cmpStartsWith, lookupString. by rewrite E.
Qed.

Lemma match_agree p ctx ctx' progs :
  cel_sources p = [] -> agree (attrs p) ctx ctx' -> match_pred p ctx progs = match_pred p ctx' progs.
Proof.
  induction p as [p IHo IHo1] using Predicate_ind. intros Hc Ha.
  assert (forall (C : flat_map ptr_sources (Of p) = [])
                 (A : agree (flat_map (fun o => match o with None => [] | Some q => attrs q end) (Of p)) ctx ctx'),
    Forall (fun o => match_ptr ctx progs o = match_ptr ctx' progs o) (Of p)) as Hof.
  { intros C A. rewrite List.Forall_forall in *. intros [q|] Hin; [|done]. apply (IHo _ Hin).
    - destruct (cel_sources q) as [|x l] eqn:E; [done|]. exfalso.
      assert (In x (flat_map ptr_sources (Of p))) as Hx; [|by rewrite C in Hx].
      apply in_flat_map. exists (Some q). split; [done|]. cbn. rewrite E. by left.
    - intros a Hin'. apply A, in_flat_map. by exists (Some q). }
  destruct p as [k a v vs pat s pc o o1 src key].
  cbn [match_pred attrs cel_sources Kind Attr Value Values Pattern Salt Percent Of OfOne Source SegmentKey] in *.
  destruct (kind_of k); try done;
    try (match goal with |- context [match_all] => by apply match_all_ext, Hof | |- context [match_any] => by apply match_any_ext, Hof end);
    try (destruct (cmp_agree (mkPredicate k a v vs pat s pc o o1 src key) ctx ctx') as (E1 & E2 & E3 & E4 & E5 & E6);
         [apply Ha; by left|]; cbn [Attr] in *; by rewrite ?E1, ?E2, ?E3, ?E4, ?E5, ?E6).
  destruct o1 as [q|]; [|done]. f_equal. by apply IHo1.
Qed.
End frame.

(** ** Theorems *)

Section theorems.
Context {RX : RegexpLib} {CEL : CelLib} {TS : TsLib}.

(** C9. The server stores the compiled IR as JSON and every reader compiles that
    text again under the flag's strategy.  For each of the three strategies,
    the IR of a successful compilation marshals, its text compiles, and the
    result evaluates to the same decision (or failure) in every context. *)
Theorem rehydrated_evaluation s src c :
  Compile s src = Ok c ->
  exists j c', enc_tree (IR c) = Some j /\ Compile s j = Ok c' /\ CStrategy c' = s /\
    forall ctx version, Evaluate (Some c') ctx version = Evaluate (Some c) ctx version.
Proof.
  intros H. destruct (rehydrate s src c H) as (j & Ej & Cj). eexists j, _. split_and!; [done..|].
  intros ctx version. destruct c as [s' t ps]. cbn [IR CELPrograms].
  rewrite (Evaluate_respell _ norm_raw_equiv). apply Compile_ok in H as [<- _]. done.
Qed.

(** C10. [Evaluate] serves the first rule that does not miss: an error in its
    predicate gives the default with reason "error", a match gives its value (or
    the default with reason "type_mismatch"); rules after it do not matter, and
    the default is served with reason "default" only when every rule misses. *)
Theorem evaluate_first_match c ctx version d :
  Evaluate (Some c) ctx version = Ok d <->
  exists defValue, decodeValue (Default (IR c)) = Some defValue /\
    ((Forall (misses c ctx) (rules_of (IR c)) /\ d = mkDecision defValue ReasonDefault "" version) \/
     exists pre r post, rules_of (IR c) = pre ++ r :: post /\ Forall (misses c ctx) pre /\
       ((exists b e, match_ptr ctx (CELPrograms c) (When r) = (b, Some e) /\
                     d = mkDecision defValue ReasonError (ID r) version) \/
        (match_ptr ctx (CELPrograms c) (When r) = (true, None) /\
         d = serve (TreeValueType (IR c)) defValue r version))).
Proof.
  unfold Evaluate. destruct (decodeValue (Default (IR c))) as [def|]; [|split; [done | by intros (? & ? & _)]].
  split.
  - intros [= <-]. exists def. split; [done|].
    destruct (first_hit c ctx (rules_of (IR c))) as [Hall|(pre & r & post & E & Hpre & Hr)].
    + left. split; [done|]. rewrite <- (app_nil_r (rules_of (IR c))). by rewrite eval_rules_miss.
    + right. exists pre, r, post. split; [done|]. split; [done|]. rewrite E, eval_rules_miss by done. cbn [eval_rules app].
      unfold misses, hit in Hr. destruct (match_ptr ctx (CELPrograms c) (When r)) as [[] [e|]]; eauto. done.
  - intros (? & [= <-] & [[Hall ->]|(pre & r & post & E & Hpre & [(b & e & Hm & ->)|[Hm ->]])]); f_equal.
    + rewrite <- (app_nil_r (rules_of (IR c))). by rewrite eval_rules_miss.
    + rewrite E, eval_rules_miss by done. cbn [eval_rules app]. rewrite Hm. by destruct b.
    + rewrite E, eval_rules_miss by done. cbn [eval_rules app]. by rewrite Hm.
Qed.

(** C11. Evaluation of a compiled flag fails only when a number in its default is
    out of the float64 range ([any_of] reports it on a syntactically valid
    text).  Otherwise it returns a decision whose value either has the declared
    type (reasons "rule_matched" and "rollout_in_bucket") or is the default
    (reasons "default", "type_mismatch" and "error"). *)
Theorem evaluate_typed s src c ctx version :
  Compile s src = Ok c ->
  (exists doc, scan (Default (IR c)) = Some doc /\ (any_of doc).2 = true /\
               Evaluate (Some c) ctx version = Err DefaultUndecodable) \/
  exists d, Evaluate (Some c) ctx version = Ok d /\ Version d = version /\
    ((valueMatchesType (DValue d) (TreeValueType (IR c)) = true /\
      (Reason d = ReasonRuleMatched \/ Reason d = ReasonRolloutInBucket)) \/
     (decodeValue (Default (IR c)) = Some (DValue d) /\
      (Reason d = ReasonDefault \/ Reason d = ReasonTypeMismatch \/ Reason d = ReasonError))).
Proof.
  intros [_ Hc]%Compile_ok.
  destruct (default_decodes c Hc) as [(doc & Es & Eb & E)|[def E]]; unfold Evaluate; rewrite E; [by eauto|].
  right. eexists. split; [done|].
  destruct (eval_rules_typed c ctx version def (rules_of (IR c))) as [Hv [H|[H1 H2]]]; split; try done; [by left|].
  right. split; [by rewrite H1 | done].
Qed.

(** After a successful compilation, the predicate of a rule without segment
    references never fails for a missing CEL program, a bad pattern or an
    unknown kind: the only errors left are a value the predicate cannot decode
    and, outside the JSON strategy, an error while a CEL program runs. *)
Theorem compiled_rule_errors s src c r p ctx b e :
  Compile s src = Ok c -> In r (rules_of (IR c)) -> When r = Some p -> segment_free p = true ->
  match_pred p ctx (CELPrograms c) = (b, Some e) -> e = DecodeValue \/ e = CelEval.
Proof.
  intros [_ [_ _ Hv _ Hp Hn]]%Compile_ok Hin Hw Hs Hm.
  pose proof Hv as (_ & _ & Hr)%validateTreeWith_ok. rewrite List.Forall_forall in Hr.
  destruct (Hr r Hin) as (_ & _ & p' & E & Hvp). rewrite Hw in E. injection E as <-.
  pose proof (validated_errors p (strategy_cel (CStrategy c)) ctx (CELPrograms c) Hvp Hs) as Hsoft.
  rewrite Hm in Hsoft. apply Hsoft. intros x Hx.
  destruct (strategy_cel (CStrategy c)) eqn:Ec.
  - specialize (Hp eq_refl). apply compilePredicates_extends in Hp as (_ & _ & Hd). apply Hd. right.
    apply in_flat_map. exists r. split; [done|]. by rewrite Hw.
  - by rewrite (no_cel_sources p Hvp) in Hx.
Qed.

(** C32. The deep comparison of [eq], which compares marshalled texts: for an
    attribute that is present and a value spelled as Go marshals it, both plain
    (finite numbers whose shortest form reads back, valid UTF-8, sorted keys), the
    predicate holds exactly when the attribute is the value, and fails to hold
    exactly when it is another.  Values are told apart as floats are: 0 and -0
    are marshalled differently, so they are different values. *)
Theorem jsonEqual_iff p ctx a b :
  plain a = true -> plain b = true -> lookup ctx (Attr p) = Some a -> Some (Value p) = marshal b ->
  (cmpEq p ctx = hit true <-> a = b) /\ (cmpEq p ctx = hit false <-> a <> b).
Proof.
  intros Ha Hb Hl Hv. destruct (unmarshal_marshal b Hb) as (t & E & Hu). rewrite E in Hv. injection Hv as Hv.
  unfold cmpEq. rewrite Hl, Hv, Hu. pose proof (jsonEqual_marshal a b Ha Hb) as Hj. unfold hit.
  destruct (jsonEqual a b); intuition congruence.
Qed.

(** A flag without CEL predicates reads only the attributes its predicates
    name: two contexts that agree on them get the same decision. *)
Theorem evaluate_frame c ctx ctx' version :
  tree_sources (IR c) = [] ->
  agree (flat_map (fun r => match When r with Some p => attrs p | None => [] end) (rules_of (IR c))) ctx ctx' ->
  Evaluate (Some c) ctx version = Evaluate (Some c) ctx' version.
Proof.
  unfold Evaluate, tree_sources. intros Hs Ha. destruct (decodeValue _) as [def|]; [|done]. f_equal.
  induction (rules_of (IR c)) as [|r rs IH]; [done|]. cbn [flat_map] in *.
  apply app_eq_nil in Hs as [Hs1 Hs2]. cbn [eval_rules].
  rewrite IH by (try done; intros a Hin; apply Ha, in_app_iff; by right).
  destruct (When r) as [p|]; [|done]. cbn [match_ptr].
  rewrite (match_agree p ctx ctx') by (try done; intros a Hin; apply Ha, in_app_iff; by left). done.
Qed.

(** Raising the percentage of a rollout keeps everybody who was in: a rollout
    predicate that matches a context still matches it with a larger percent,
    matches nobody at 0 and every context with a string attribute at 100. *)
Theorem rollout_monotone salt attr v p q ctx progs :
  let rollout pc := mkPredicate (kind_name PredRollout) attr "" [] "" salt pc [] None "" "" in
  p <= q -> lookupString ctx attr = Some v ->
  (match_pred (rollout p) ctx progs = hit true -> match_pred (rollout q) ctx progs = hit true) /\
  match_pred (rollout 0) ctx progs = hit false /\ match_pred (rollout 100) ctx progs = hit true.
Proof.
  cbn. intros Hpq ->. split_and!; [|done..]. unfold hit. intros [= H]. by rewrite (inBucket_mono salt v p q).
Qed.

End theorems.

(** ** Witnesses *)

Module EvalDemo.
Import Demo.
Definition us_ctx : context := [("beta", VBool true); ("user", VMap [("country", VStr "US")])].

(** The flag is on for US users and for [beta] users, by the first rule that
    matches; a context without [beta] makes the CEL rule fail. *)
Example us_decisions :
  map (fun ctx => Evaluate (Some compiled_us) ctx 3)
    [us_ctx; [("beta", VBool true)]; [("beta", VBool false)]; []] =
  [Ok (mkDecision (VBool true) "rule_matched" "us" 3); Ok (mkDecision (VBool true) "rule_matched" "beta" 3);
   Ok (mkDecision (VBool false) "default" "" 3); Ok (mkDecision (VBool false) "error" "beta" 3)].
Proof. vm_compute. reflexivity. Qed.

Lemma rehydrated_evaluation_witness :
  exists j c', enc_tree (IR compiled_us) = Some j /\ Compile StrategyCEL j = Ok c' /\ CStrategy c' = StrategyCEL /\
    forall ctx version, Evaluate (Some c') ctx version = Evaluate (Some compiled_us) ctx version.
Proof. apply (rehydrated_evaluation StrategyCEL us_source). vm_compute. reflexivity. Defined.

Lemma evaluate_typed_witness :
  (exists doc, scan (Default (IR compiled_us)) = Some doc /\ (any_of doc).2 = true /\
               Evaluate (Some compiled_us) us_ctx 3 = Err DefaultUndecodable) \/
  exists d, Evaluate (Some compiled_us) us_ctx 3 = Ok d /\ Version d = 3 /\
    ((valueMatchesType (DValue d) (TreeValueType (IR compiled_us)) = true /\
      (Reason d = ReasonRuleMatched \/ Reason d = ReasonRolloutInBucket)) \/
     (decodeValue (Default (IR compiled_us)) = Some (DValue d) /\
      (Reason d = ReasonDefault \/ Reason d = ReasonTypeMismatch \/ Reason d = ReasonError))).
Proof. apply (evaluate_typed StrategyCEL us_source). vm_compute. reflexivity. Defined.

(** The CEL rule of the flag, in a context without the key it reads. *)
Definition beta_pred : Predicate := mkPredicate "cel" "" "" [] "" "" 0 [] None "beta" "".
Lemma compiled_rule_errors_witness :
  match_pred beta_pred [] (CELPrograms compiled_us) = (false, Some CelEval) /\
  (CelEval = DecodeValue \/ CelEval = CelEval).
Proof.
  split; [vm_compute; reflexivity|].
  apply (compiled_rule_errors StrategyCEL us_source compiled_us
           (mkRule "beta" (Some beta_pred) "true") beta_pred [] false CelEval).
  - vm_compute. reflexivity.
  - vm_compute. right. left. reflexivity.
  - reflexivity.
  - reflexivity.
  - vm_compute. reflexivity.
Defined.

Definition age_pred : Predicate :=
  mkPredicate "eq" "age" "[20.5]" [] "" "" 0 [] None "" "".
Definition age_val : goval := VSlice [VFloat64 (default (of_int64 0) (parse64 "20.5"))].
Lemma jsonEqual_iff_witness :
  (cmpEq age_pred [("age", age_val)] = hit true <-> age_val = age_val) /\
  (cmpEq age_pred [("age", age_val)] = hit false <-> age_val <> age_val).
Proof. apply (jsonEqual_iff age_pred [("age", age_val)] age_val age_val); vm_compute; reflexivity. Defined.

(** A flag with one [eq] rule: only [user.country] matters. *)
Definition compiled_json : Compiled :=
  match Compile StrategyJSON json_source with Ok c => c | Err _ => mkCompiled "" zero_tree ∅ end.
Lemma evaluate_frame_witness :
  Evaluate (Some compiled_json) us_ctx 1 =
  Evaluate (Some compiled_json) [("user", VMap [("country", VStr "US"); ("id", VInt 7)])] 1.
Proof.
  apply (evaluate_frame compiled_json); [vm_compute; reflexivity|].
  intros a. vm_compute. intros [<-|[]]. reflexivity.
Defined.

Definition rollout_at (pc : Z) : Predicate :=
  mkPredicate (kind_name PredRollout) "id" "" [] "" "s1" pc [] None "" "".
Lemma rollout_monotone_witness :
  (match_pred (rollout_at 30) [("id", VStr "u1")] ∅ = hit true ->
   match_pred (rollout_at 60) [("id", VStr "u1")] ∅ = hit true) /\
  match_pred (rollout_at 0) [("id", VStr "u1")] ∅ = hit false /\
  match_pred (rollout_at 100) [("id", VStr "u1")] ∅ = hit true.
Proof. apply (rollout_monotone "s1" "id" "u1" 30 60); [lia | reflexivity]. Defined.
End EvalDemo.
