(* ===== verification/AnyTrip.v ===== *)
(** Documents that travel as [any]: a request's source, the compiled trees in a
    response, the operator's [PublishSource].  The document is decoded into an
    [any], whose objects are Go maps, and written again: keys come out sorted,
    numbers in the shortest form of their float64, strings escaped afresh.

    The theorems show that an IR that went through an [any] compiles and decides
    like the original.  Numbers are asked to be in range, with a shortest form
    that reads back ([plain]), and percentages to be small integers. *)
From stdpp Require Import base list strings numbers gmap.
From Stdlib Require Import Ascii String ZArith Lia.
From S2P Require Import Prelude Text Literal Json Float64 GoValue Ir Compile Rollout Eval.

(** ** Documents *)

(** [d] decodes into a plain [any] that is written as [d']. *)
Definition thru (d d' : jdoc) : Prop := wf_doc d /\ exists v, any_of d = (v, false) /\ plain v = true /\ doc_of v = Some d'.

Lemma thru_null : thru JNull JNull.
Proof. split; [done|]. by exists VNil. Qed.
Lemma thru_str s : utf8_valid s = true -> thru (enc_str s) (enc_str s).
Proof. intros H. split; [apply lit_quote|]. exists (VStr s). cbn. by rewrite unquote_quote. Qed.
Lemma thru_wf d d' : thru d d' -> wf_doc d'.
Proof. intros (_ & v & _ & (d1 & E & Hw & _)%plain_decodes & E'). congruence. Qed.

Lemma thru_elems ds ds' :
  Forall2 thru ds ds' -> exists vs, map_bad any_of ds = (vs, false) /\ forallb plain vs = true /\ mapM doc_of vs = Some ds'.
Proof.
  induction 1 as [|d d' ds ds' (_ & v & Ea & Hp & Ed) _ (vs & Eas & Hps & Eds)]; [by exists []|].
  exists (v :: vs). rewrite map_bad_cons, Ea, Eas. cbn [fst snd]. split; [done|]. split; [cbn; by rewrite Hp|]. by apply mapM_cons_some.
Qed.

Lemma thru_arr ds ds' : Forall2 thru ds ds' -> thru (JArr ds) (JArr ds').
Proof.
  intros H. split; [apply wf_arr; induction H as [|d d' ds ds' [? _]]; by constructor|].
  apply thru_elems in H as (vs & Ea & Hp & Ed). exists (VSlice vs). cbn [any_of doc_of plain]. rewrite Ea, Ed. done.
Qed.

(** The small integers: percentages. *)
Lemma thru_percent z : 0 <= z <= 100 -> thru (JNum (itoa z)) (JNum (itoa z)).
Proof.
  intros Hz. assert (forall n, (n <= 100)%nat -> match parse64 (itoa (Z.of_nat n)) with
    | Some f => fmt_okb f = true /\ fmt64 f = Some (itoa (Z.of_nat n)) | None => False end) as H.
  { intros n Hn. assert (forallb (fun n => match parse64 (itoa (Z.of_nat n)) with
      | Some f => fmt_okb f && bool_decide (fmt64 f = Some (itoa (Z.of_nat n))) | None => false end) (seq 0 101) = true) as Hall
      by (vm_compute; reflexivity).
    rewrite forallb_forall in Hall. specialize (Hall n). rewrite in_seq in Hall. specialize (Hall ltac:(lia)).
    destruct (parse64 _); [|done]. apply andb_true_iff in Hall as [? ?%bool_decide_eq_true]. done. }
  specialize (H (Z.to_nat z) ltac:(lia)). rewrite Z2Nat.id in H by lia.
  destruct (parse64 (itoa z)) as [f|] eqn:E; [|done]. split; [apply num_lit_itoa|]. exists (VFloat64 f). cbn. rewrite E. destruct H as [Hf Hd]. by rewrite Hd.
Qed.

(** ** Objects: the members come out sorted by key *)

Lemma map_set_perm {A} k (v : A) m : ~ In k (map fst m) -> map_set k v m ≡ₚ (k, v) :: m.
Proof.
  induction m as [|[k1 v1] m IH]; cbn; intros H; [done|].
  destruct (String.eqb_spec k k1) as [->|]; [by destruct H; left|]. destruct (sltb k k1); [done|].
  rewrite IH by (intros ?; apply H; by right). apply Permutation_swap.
Qed.

Lemma load_perm m acc :
  NoDup (map fst (m ++ acc)) -> load m acc ≡ₚ m ++ acc.
Proof.
  revert acc. induction m as [|[k v] m IH]; intros acc; cbn; [done|]. intros [Hk Hnd]%NoDup_cons.
  assert (map_set k v acc ≡ₚ (k, v) :: acc) as Hp.
  { apply map_set_perm. intros Hin. apply Hk. apply list_elem_of_In. rewrite map_app. apply in_app_iff. by right. }
  unfold load in *. cbn. rewrite IH.
  - rewrite Hp. apply Permutation_sym, Permutation_middle.
  - rewrite map_app, Hp. cbn. rewrite <- Permutation_middle. apply NoDup_cons. by rewrite <- map_app.
Qed.

Lemma mapM_perm {A B} (f : A -> option B) l l' r' :
  l ≡ₚ l' -> mapM f l' = Some r' -> exists r, mapM f l = Some r /\ r ≡ₚ r'.
Proof.
  intros Hp. revert r'. induction Hp as [|x l l' Hp IH|x y l|l l1 l' Hp1 IH1 Hp2 IH2]; intros r' H.
  - by exists r'.
  - cbn in H. destruct (f x) as [y|] eqn:E; [|done]. cbn in H. destruct (mapM f l') as [ys|] eqn:Es; [|done]. injection H as <-.
    destruct (IH ys eq_refl) as (r & Er & Hr). exists (y :: r). split; [by apply mapM_cons_some|]. by constructor.
  - cbn in H. destruct (f x) as [a|] eqn:Ea; [|done]. cbn in H. destruct (f y) as [b|] eqn:Eb; [|done]. cbn in H.
    destruct (mapM f l) as [ys|] eqn:Es; [|done]. injection H as <-. exists (b :: a :: ys). split; [|apply Permutation_swap].
    apply mapM_cons_some; [done|]. by apply mapM_cons_some.
  - destruct (IH2 r' H) as (r1 & E1 & H1). destruct (IH1 r1 E1) as (r & E & Hr). exists r. split; [done|]. by rewrite Hr.
Qed.

(** A member: a key literal in the form the encoder writes, and a value that
    goes through. *)
Definition thru_member (kv kv' : string * jdoc) : Prop :=
  kv'.1 = kv.1 /\ quote (unquote kv.1) = kv.1 /\ utf8_valid (unquote kv.1) = true /\ thru kv.2 kv'.2.
Definition member_key (kv : string * jdoc) : string := unquote kv.1.

Lemma thru_members m m' :
  Forall2 thru_member m m' ->
  exists vm, map_bad any_member m = (vm, false) /\ map fst vm = map member_key m /\
    forallb (fun kv => utf8_valid kv.1 && plain kv.2) vm = true /\ mapM doc_member vm = Some m'.
Proof.
  induction 1 as [|[k d] [k' d'] m m' (Ek & Hq & Hu & _ & v & Ea & Hp & Ed) _ (vm & Eas & Hk & Hps & Eds)]; [by exists []|].
  cbn [fst snd] in *. subst k'.
  exists ((unquote k, v) :: vm). split_and!.
  - rewrite map_bad_cons, Eas. unfold any_member. cbn [fst snd]. by rewrite Ea.
  - cbn. by rewrite Hk.
  - cbn. by rewrite Hu, Hp.
  - apply mapM_cons_some; [|done]. unfold doc_member. cbn [fst snd]. by rewrite Ed, Hq.
Qed.

Lemma load_keys_sorted m acc : keys_sorted acc = true -> keys_sorted (load m acc) = true.
Proof. revert acc. induction m as [|[k v] m IH]; intros acc H; [done|]. apply IH. by apply map_set_sorted. Qed.

Lemma forallb_perm {A} (p : A -> bool) l l' : l ≡ₚ l' -> forallb p l = true -> forallb p l' = true.
Proof. rewrite !forallb_forall. intros Hp H x Hx. apply H. by rewrite Hp. Qed.

Lemma thru_obj m m' :
  Forall2 thru_member m m' -> NoDup (map member_key m) -> exists m'', m'' ≡ₚ m' /\ thru (JObj m) (JObj m'').
Proof.
  intros Hm' Hnd. destruct (thru_members m m' Hm') as (vm & Ea & Hk & Hp & Ed).
  assert (load vm [] ≡ₚ vm) as Hl.
  { rewrite (load_perm vm []); [by rewrite app_nil_r|]. by rewrite app_nil_r, Hk. }
  destruct (mapM_perm doc_member _ _ _ Hl Ed) as (m'' & E & Hm). exists m''. split; [done|].
  split; [apply wf_obj; clear -Hm'; induction Hm' as [|? ? ? ? (_ & Hq & _ & ? & _)]; constructor; [split; [rewrite <- Hq; apply lit_quote|]|]; done|].
  exists (VMap (load vm [])). cbn [any_of]. fold any_member. rewrite Ea. split_and!; [done| |].
  - cbn [plain]. rewrite load_keys_sorted by done. cbn [andb]. eapply forallb_perm; [by symmetry | done].
  - cbn [doc_of]. fold doc_member. by rewrite E.
Qed.

(** ** Decoding does not depend on the order of the members *)

Section order.
Context {A F : Type} (names : list (string * F)) (set : F -> jdoc -> A -> option A).
Hypothesis commute : forall f g d e a, f <> g -> (set f d a ≫= set g e) = (set g e a ≫= set f d).

Definition fields (m : list (string * jdoc)) : list F := omap (fun kv => field_of names (unquote kv.1)) m.

Lemma fields_perm m m' : m ≡ₚ m' -> fields m ≡ₚ fields m'.
Proof. intros H. unfold fields. by rewrite H. Qed.

Lemma dec_members_perm m m' a : m ≡ₚ m' -> NoDup (fields m) -> dec_members names set m a = dec_members names set m' a.
Proof.
  intros Hp. revert a. induction Hp as [|[k d] l l' Hp IH|[k d] [k' d'] l|l l1 l' Hp1 IH1 Hp2 IH2]; intros a Hnd; [done| | |].
  - cbn [dec_members]. unfold fields in Hnd. cbn in Hnd. destruct (field_of names (unquote k)) as [f|]; cbn in *.
    + apply NoDup_cons in Hnd as [_ Hnd]. destruct (set f d a); cbn; auto.
    + auto.
  - cbn [dec_members]. unfold fields in Hnd. cbn in Hnd.
    destruct (field_of names (unquote k)) as [f|], (field_of names (unquote k')) as [g|]; cbn in *; try done.
    assert (g <> f) as Hne by (apply NoDup_cons in Hnd as [Hx _]; set_solver).
    pose proof (commute g f d' d a Hne) as Hc. destruct (set g d' a) as [x|], (set f d a) as [y|]; cbn in *;
      first [done | by rewrite Hc | by rewrite <- Hc].
  - rewrite IH1 by done. apply IH2. by rewrite <- (fields_perm _ _ Hp1).
Qed.
End order.

(** Case on the field decoders of a goal. *)
#[local] Ltac on_fields :=
  repeat (cbn [rule_set tree_set pred_set mbind option_bind];
          match goal with
          | H : ?x = _ |- context [?x] => rewrite H
          | |- context [dec_str ?d ?x] => destruct (dec_str d x) eqn:?
          | |- context [dec_int ?d ?x] => destruct (dec_int d x) eqn:?
          | |- context [dec_elems ?z ?f ?d ?x] => destruct (dec_elems z f d x) eqn:?
          | |- context [dec_pred ?d ?x] => destruct (dec_pred d x) eqn:?
          | |- context [match ?d with JNull => _ | _ => _ end] => destruct d
          end); try done.

Lemma rule_set_commute f g d e r : f <> g -> (rule_set f d r ≫= rule_set g e) = (rule_set g e r ≫= rule_set f d).
Proof. destruct r as [i w v]. destruct f, g; try done; intros _; cbn [rule_set mbind option_bind]; on_fields. Qed.
Lemma tree_set_commute f g d e t : f <> g -> (tree_set f d t ≫= tree_set g e) = (tree_set g e t ≫= tree_set f d).
Proof. destruct t as [vt df rs]. destruct f, g; try done; intros _; cbn [tree_set mbind option_bind]; on_fields. Qed.
Lemma pred_set_commute f g d e p :
  f <> g -> (pred_set dec_pred f d p ≫= pred_set dec_pred g e) = (pred_set dec_pred g e p ≫= pred_set dec_pred f d).
Proof.
  destruct p as [k a v vs pat s pc o o1 src key].
  destruct f, g; try done; intros _; cbn [pred_set mbind option_bind]; on_fields.
Qed.

(** ** Raw messages *)

Definition plain_raw (r : RawMessage) : bool :=
  match unmarshal_any r with (v, false) => plain v | _ => false end.

(** The spelling a raw message has after it went through an [any]. *)
Definition canon (r : RawMessage) : RawMessage :=
  match unmarshal_any r with
  | (v, false) => if plain v then default r (marshal v) else r
  | _ => r
  end.

Lemma unmarshal_any_scan r v : unmarshal_any r = (v, false) -> exists d, scan r = Some d /\ any_of d = (v, false).
Proof. unfold unmarshal_any. destruct (scan r) as [d|]; [eauto | done]. Qed.

Lemma thru_scan r v : unmarshal_any r = (v, false) -> plain v = true ->
  exists d d', scan r = Some d /\ wf_doc d /\ thru d d' /\ canon r = print d' /\ wf_doc d'.
Proof.
  intros E Hp. destruct (unmarshal_any_scan r v E) as (d & Es & Ea). destruct (plain_decodes v Hp) as (d' & Ed & Hw & _).
  exists d, d'. split_and!; try done.
  - by apply scan_sound in Es.
  - split; [by apply scan_sound in Es | by exists v].
  - unfold canon. rewrite E, Hp. unfold marshal. by rewrite Ed.
Qed.

Lemma canon_equiv r : raw_equiv (canon r) r.
Proof.
  destruct (unmarshal_any r) as [v [|]] eqn:E; [unfold canon; by rewrite E|].
  destruct (plain v) eqn:Hp; [|unfold canon; by rewrite E, Hp].
  destruct (thru_scan r v E Hp) as (d & d' & Es & Hw & Ht & -> & Hw').
  unfold raw_equiv. rewrite E. unfold unmarshal_any, unmarshal_string. rewrite scan_print, Es by done.
  assert (String.eqb r "" = false) as -> by (by destruct r). rewrite print_nonempty by done.
  destruct Ht as (_ & v' & Ea & Hp' & Ed). assert (v' = v) as -> by (unfold unmarshal_any in E; rewrite Es in E; congruence).
  split_and!; [|clear E Es|done].
  - destruct (plain_decodes v Hp) as (d1 & Ed1 & _ & Ha1). congruence.
  - destruct d; cbn in Ea.
    + injection Ea as <-. by injection Ed as <-.
    + injection Ea as <-. by injection Ed as <-.
    + destruct (parse64 _); [|done]. injection Ea as <-. cbn in Ed. destruct (fmt64 _); [|done]. by injection Ed as <-.
    + injection Ea as <-. injection Ed as <-. cbn in Hp. by rewrite unquote_quote.
    + injection Ea as <- _. cbn in Ed. destruct (mapM _ _); [|done]. by injection Ed as <-.
    + injection Ea as <- _. cbn [doc_of] in Ed. destruct (mapM _ _); [|done]. by injection Ed as <-.
Qed.

Lemma thru_raw r :
  plain_raw r = true -> String.eqb r "" = false /\ exists d d', enc_raw r = Some d /\ thru d d' /\ dec_raw d' = canon r.
Proof.
  unfold plain_raw. destruct (unmarshal_any r) as [v [|]] eqn:E; [done|]. intros Hp.
  destruct (thru_scan r v E Hp) as (d & d' & Es & Hw & Ht & -> & _).
  assert (String.eqb r "" = false) as Hne by (by destruct r). split; [done|].
  exists (esc_doc d), d'. unfold enc_raw. rewrite Hne, Es. split_and!; try done.
  destruct Ht as (_ & v' & Ea & Hv). split; [by apply wf_esc|]. exists v'. by rewrite any_esc.
Qed.

Lemma thru_raws rs :
  forallb plain_raw rs = true ->
  exists ds ds', mapM enc_raw rs = Some ds /\ Forall2 thru ds ds' /\ map dec_raw ds' = map canon rs.
Proof.
  induction rs as [|r rs IH]; cbn; [by exists [], []|]. intros [Hr Hrs]%andb_true_iff.
  destruct (thru_raw r Hr) as (_ & d & d' & E & Ht & Hd). destruct (IH Hrs) as (ds & ds' & Es & Hts & Hds).
  exists (d :: ds), (d' :: ds'). split; [by apply (mapM_cons_some enc_raw)|]. split; [by constructor|]. cbn. by rewrite Hd, Hds.
Qed.

(** ** Members *)

Definition name_ok (n : string) : Prop := quote n = n /\ utf8_valid n = true.

Lemma name_unquote n : name_ok n -> unquote n = n.
Proof. intros [Hq Hu]. rewrite <- Hq at 1. by apply unquote_quote. Qed.

Lemma member_one n d d' : name_ok n -> thru d d' -> Forall2 thru_member [(n, d)] [(n, d')].
Proof. intros Hn ?. constructor; [|constructor]. destruct Hn. unfold thru_member. cbn. by rewrite (name_unquote n). Qed.
Lemma member_cons n d d' m m' :
  name_ok n -> thru d d' -> Forall2 thru_member m m' -> Forall2 thru_member ((n, d) :: m) ((n, d') :: m').
Proof. intros Hn ? ?. constructor; [|done]. destruct Hn. unfold thru_member. cbn. by rewrite (name_unquote n). Qed.
Lemma member_str n s : name_ok n -> utf8_valid s = true -> Forall2 thru_member (omit_str n s) (omit_str n s).
Proof. intros. unfold omit_str. destruct (String.eqb s ""); [constructor|]. apply member_one; [done | by apply thru_str]. Qed.
Lemma member_arr n ds ds' : name_ok n -> Forall2 thru ds ds' -> Forall2 thru_member (omit_arr n ds) (omit_arr n ds').
Proof. intros Hn H. destruct H; [constructor|]. apply member_one; [done|]. apply thru_arr. by constructor. Qed.

Lemma members_keys m m' : Forall2 thru_member m m' -> map fst m' = map fst m.
Proof. induction 1 as [|[k d] [k' d'] m m' (Ek & _) _ IH]; [done|]. cbn in *. by rewrite IH, Ek. Qed.

(** The names a struct's document uses, in the order of its fields. *)
Lemma keys_str n s : sublist (map fst (omit_str n s)) [n].
Proof. unfold omit_str. destruct (String.eqb s ""); cbn; [apply sublist_nil_l | done]. Qed.
Lemma keys_arr n l : sublist (map fst (omit_arr n l)) [n].
Proof. destruct l; cbn; [apply sublist_nil_l | done]. Qed.

Lemma keys_nodup m keys : sublist (map fst m) keys -> NoDup (map unquote keys) -> NoDup (map member_key m).
Proof.
  intros Hs Hn. assert (map member_key m = map unquote (map fst m)) as -> by (by rewrite map_map).
  eapply sublist_NoDup; [exact Hn|]. clear Hn. induction Hs; cbn; by constructor.
Qed.

Lemma fields_sublist {F} (names : list (string * F)) m keys :
  sublist (map fst m) keys -> NoDup (omap (fun k => field_of names (unquote k)) keys) -> NoDup (fields names m).
Proof.
  intros Hs Hn. assert (fields names m = omap (fun k => field_of names (unquote k)) (map fst m)) as ->.
  { unfold fields. clear. induction m as [|[k d] m IH]; [done|]. cbn. by rewrite IH. }
  eapply sublist_NoDup; [exact Hn|]. clear Hn. induction Hs as [|k l1 l2 Hs IH|k l1 l2 Hs IH]; cbn.
  - constructor.
  - destruct (field_of names (unquote k)); [by constructor | done].
  - destruct (field_of names (unquote k)); [by constructor | done].
Qed.

#[export] Instance pfield_eq_dec : EqDecision pfield.
Proof. solve_decision. Defined.
#[export] Instance rfield_eq_dec : EqDecision rfield.
Proof. solve_decision. Defined.
#[export] Instance tfield_eq_dec : EqDecision tfield.
Proof. solve_decision. Defined.

(** ** Predicates *)

Fixpoint plain_pred (p : Predicate) : bool :=
  (String.eqb (Value p) "" || plain_raw (Value p)) && forallb plain_raw (Values p) &&
  (0 <=? Percent p) && (Percent p <=? 100) &&
  forallb (fun o => match o with Some q => plain_pred q | None => true end) (Of p) &&
  (match OfOne p with Some q => plain_pred q | None => true end).
Definition plain_ptr (o : option Predicate) : bool := match o with Some q => plain_pred q | None => true end.

Definition pred_thru (p : Predicate) : Prop :=
  wf_pred p = true -> plain_pred p = true ->
  exists d d', enc_pred p = Some d /\ thru d d' /\ dec_pred d' None = Some (Some (respell_pred canon p)).

Lemma ptr_thru o :
  opt_all pred_thru o -> wf_ptr o = true -> plain_ptr o = true ->
  exists d d', enc_ptr o = Some d /\ thru d d' /\ dec_pred d' None = Some (fmap (respell_pred canon) o).
Proof. destruct o as [q|]; [auto|]. intros _ _ _. exists JNull, JNull. auto using thru_null. Qed.

Lemma ptrs_thru os :
  Forall (opt_all pred_thru) os -> forallb wf_ptr os = true -> forallb plain_ptr os = true ->
  exists ds ds', mapM enc_ptr os = Some ds /\ Forall2 thru ds ds' /\
    dec_elems None dec_pred ds' [] = Some (map (fmap (respell_pred canon)) os).
Proof.
  induction 1 as [|o os Ho Hos IH]; intros H P; [by exists [], []|]. cbn in H, P. apply andb_true_iff in H as [H1 H2], P as [P1 P2].
  destruct (ptr_thru o Ho H1 P1) as (d & d' & E & Ht & Hd). destruct (IH H2 P2) as (ds & ds' & Es & Hts & Hds).
  exists (d :: ds), (d' :: ds'). split; [by apply mapM_cons_some|]. split; [by constructor|].
  cbn [dec_elems]. rewrite Hd. cbn [mbind option_bind]. by rewrite Hds.
Qed.

(** The value member, dropped when empty. *)
Lemma value_thru r :
  (String.eqb r "" || plain_raw r) = true ->
  exists m m', omit_raw "value" r = Some m /\ Forall2 thru_member m m' /\ sublist (map fst m) ["value"] /\
    forall dec k a vs pat s pc o o1 src key,
      dec_members pfields (pred_set dec) m' (mkPredicate k a "" vs pat s pc o o1 src key) =
      Some (mkPredicate k a (canon r) vs pat s pc o o1 src key).
Proof.
  unfold omit_raw. destruct (String.eqb_spec r "") as [->|]; intros H.
  - exists [], []. split_and!; auto using sublist_nil_l.
  - destruct (thru_raw r H) as (_ & d & d' & E & Ht & Hd). exists [("value", d)], [("value", d')]. rewrite E.
    split_and!; [done | by apply member_one | done |]. intros. cbn [dec_members].
    change (field_of pfields (unquote "value")) with (Some FValue). cbn [pred_set mbind option_bind dec_members]. by rewrite Hd.
Qed.

Lemma percent_thru z :
  0 <= z <= 100 ->
  let m := if z =? 0 then [] else [("percent", JNum (itoa z))] in
  Forall2 thru_member m m /\ sublist (map fst m) ["percent"].
Proof.
  intros Hz. cbn. destruct (z =? 0); [split; [constructor | apply sublist_nil_l]|].
  split; [apply member_one; [done | by apply thru_percent] | done].
Qed.

Definition pred_keys : list string :=
  ["kind"] ++ ["attr"] ++ ["value"] ++ ["values"] ++ ["pattern"] ++ ["salt"] ++ ["percent"] ++ ["of"] ++ ["of_one"] ++ ["source"] ++ ["key"].

Lemma NoDup_keys (l : list string) : bool_decide (NoDup l) = true -> NoDup l.
Proof. apply bool_decide_eq_true_1. Qed.

Lemma pred_thru_all p : pred_thru p.
Proof.
  induction p as [[k a v vs pat s pc o o1 src key] IHo IHo1] using Predicate_ind. intros Hw Hp. cbn [Of OfOne] in *.
  cbn [wf_pred plain_pred Kind Attr Value Values Pattern Salt Percent Of OfOne Source SegmentKey] in Hw, Hp. bsplit.
  destruct (value_thru v) as (mv & mv' & Ev & Tv & Kv & Dv); [done|].
  destruct (thru_raws vs) as (dvs & dvs' & Evs & Tvs & Dvs); [done|].
  destruct (ptrs_thru o) as (ds & ds' & Eo & To & Do); [done..|].
  destruct (percent_thru pc) as [Tp Kp]; [lia|].
  assert (exists m1 m1', (match o1 with Some q => do? d := enc_pred q in Some [("of_one", d)] | None => Some [] end) = Some m1 /\
    Forall2 thru_member m1 m1' /\ sublist (map fst m1) ["of_one"] /\
    forall k a v vs pat s pc o src key,
      dec_members pfields (pred_set dec_pred) m1' (mkPredicate k a v vs pat s pc o None src key) =
      Some (mkPredicate k a v vs pat s pc o (fmap (respell_pred canon) o1) src key)) as (m1 & m1' & E1 & T1 & K1 & D1).
  { destruct o1 as [q|]; [|exists [], []; split_and!; auto using sublist_nil_l].
    destruct IHo1 as (d & d' & E & Ht & Hd); [done..|]. exists [("of_one", d)], [("of_one", d')]. rewrite E.
    split_and!; [done | by apply member_one | done | intros; by apply seg_of_one]. }
  set (M := [("kind", enc_str k)] ++ omit_str "attr" a ++ mv ++ omit_arr "values" dvs ++ omit_str "pattern" pat ++
    omit_str "salt" s ++ (if pc =? 0 then [] else [("percent", JNum (itoa pc))]) ++ omit_arr "of" ds ++ m1 ++
    omit_str "source" src ++ omit_str "key" key).
  set (M' := [("kind", enc_str k)] ++ omit_str "attr" a ++ mv' ++ omit_arr "values" dvs' ++ omit_str "pattern" pat ++
    omit_str "salt" s ++ (if pc =? 0 then [] else [("percent", JNum (itoa pc))]) ++ omit_arr "of" ds' ++ m1' ++
    omit_str "source" src ++ omit_str "key" key).
  assert (Forall2 thru_member M M') as HM.
  { unfold M, M'. repeat apply Forall2_app;
      [apply member_one; [done | by apply thru_str] | by apply member_str | exact Tv | by apply member_arr | by apply member_str
      | by apply member_str | exact Tp | by apply member_arr | exact T1 | by apply member_str | by apply member_str]. }
  assert (sublist (map fst M) pred_keys) as HK.
  { unfold M, pred_keys. rewrite !map_app. repeat apply sublist_app;
      first [done | apply keys_str | apply keys_arr]. }
  destruct (thru_obj M M' HM) as (m'' & Hperm & Ht).
  { eapply keys_nodup; [exact HK|]. apply NoDup_keys. vm_compute. reflexivity. }
  exists (JObj M), (JObj m''). split; [|split; [done|]].
  - cbn [enc_pred Kind Attr Value Values Pattern Salt Percent Of OfOne Source SegmentKey].
    fold enc_ptr. by rewrite Ev, Evs, Eo, E1.
  - cbn [dec_pred]. rewrite <- (dec_members_perm pfields _ pred_set_commute M' m'').
    2: by symmetry.
    2: { apply (fields_sublist pfields M' pred_keys); [by rewrite (members_keys _ _ HM)|].
         apply (bool_decide_eq_true_1 (NoDup _)). vm_compute. reflexivity. }
    unfold M'. rewrite dec_members_app. unfold zero_pred. cbn [default from_option id].
    rewrite seg_kind by done. cbn [mbind option_bind].
    repeat (rewrite ?dec_members_app; first [rewrite seg_attr by done | rewrite Dv | rewrite seg_values | rewrite seg_pattern by done
      | rewrite seg_salt by done | rewrite seg_percent by done | rewrite (seg_of _ _ _ _ _ _ _ _ _ _ _ _ _ Do)
      | rewrite D1 | rewrite seg_source by done | rewrite seg_key by done]; cbn [mbind option_bind]).
    by rewrite Dvs.
Qed.

(** ** Rules and trees *)

Definition plain_rule (r : Rule) : bool := plain_ptr (When r) && plain_raw (RuleValue r).
Definition plain_tree (t : RulesTree) : bool := plain_raw (Default t) && forallb plain_rule (rules_of t).

Lemma rule_thru r :
  wf_rule r = true -> plain_rule r = true ->
  exists d d', enc_rule r = Some d /\ thru d d' /\ dec_rule d' zero_rule = Some (respell_rule canon r).
Proof.
  destruct r as [i w v]. unfold wf_rule, plain_rule. cbn [ID When RuleValue]. intros Hw Hp. bsplit.
  destruct (ptr_thru w) as (dw & dw' & Ew & Tw & Dw); [destruct w; [apply pred_thru_all | done] | done | done|].
  destruct (thru_raw v) as (_ & dv & dv' & Ev & Tv & Dv); [done|].
  destruct (thru_obj [("id", enc_str i); ("when", dw); ("value", dv)] [("id", enc_str i); ("when", dw'); ("value", dv')])
    as (m'' & Hperm & Ht).
  { repeat (apply member_cons; [done | first [done | by apply thru_str] |]). constructor. }
  { apply NoDup_keys. vm_compute. reflexivity. }
  eexists _, _. split; [unfold enc_rule; cbn [ID When RuleValue]; rewrite Ew, Ev; reflexivity|]. split; [exact Ht|]. cbn [dec_rule].
  rewrite <- (dec_members_perm rfields _ rule_set_commute [("id", enc_str i); ("when", dw'); ("value", dv')] m'').
  2: by symmetry.
  2: { apply (bool_decide_eq_true_1 (NoDup [FID; FWhen; FRuleValue])). vm_compute. reflexivity. }
  cbn [dec_members]. change (field_of rfields (unquote "id")) with (Some FID).
  change (field_of rfields (unquote "when")) with (Some FWhen). change (field_of rfields (unquote "value")) with (Some FRuleValue).
  cbn [rule_set zero_rule dec_str enc_str mbind option_bind]. rewrite unquote_quote by done.
  cbn [rule_set mbind option_bind]. rewrite Dw. cbn [rule_set mbind option_bind]. by rewrite Dv.
Qed.

Lemma rules_thru rs :
  forallb wf_rule rs = true -> forallb plain_rule rs = true ->
  exists ds ds', mapM enc_rule rs = Some ds /\ Forall2 thru ds ds' /\
    dec_elems zero_rule dec_rule ds' [] = Some (map (respell_rule canon) rs).
Proof.
  induction rs as [|r rs IH]; cbn [forallb]; [by exists [], []|]. intros [H1 H2]%andb_true_iff [P1 P2]%andb_true_iff.
  destruct (rule_thru r H1 P1) as (d & d' & E & Ht & Hd). destruct (IH H2 P2) as (ds & ds' & Es & Hts & Hds).
  exists (d :: ds), (d' :: ds'). split; [by apply mapM_cons_some|]. split; [by constructor|].
  cbn [dec_elems]. rewrite Hd. cbn [mbind option_bind]. by rewrite Hds.
Qed.

Lemma tree_thru t :
  wf_tree t = true -> plain_tree t = true ->
  exists d d', enc_tree_doc t = Some d /\ thru d d' /\ dec_tree_doc d' zero_tree = Some (respell_tree canon t).
Proof.
  destruct t as [vt df rs]. unfold wf_tree, plain_tree, rules_of. cbn [TreeValueType Default Rules]. intros Hw Hp. bsplit.
  destruct (thru_raw df) as (_ & dd & dd' & Ed & Td & Dd); [done|].
  assert (exists dr dr', (match rs with None => Some JNull | Some l => do? ds := mapM enc_rule l in Some (JArr ds) end) = Some dr /\
    thru dr dr' /\ forall vt df, tree_set FRules dr' (mkRulesTree vt df None) =
      Some (mkRulesTree vt df (fmap (map (respell_rule canon)) rs))) as (dr & dr' & Er & Tr & Dr).
  { destruct rs as [rs|]; [|exists JNull, JNull; auto using thru_null].
    destruct (rules_thru rs) as (ds & ds' & Es & Ts & Ds); [done..|]. exists (JArr ds), (JArr ds'). rewrite Es.
    split; [done|]. split; [by apply thru_arr|]. intros. cbn [tree_set default from_option]. by rewrite Ds. }
  destruct (thru_obj [("value_type", enc_str vt); ("default", dd); ("rules", dr)] [("value_type", enc_str vt); ("default", dd'); ("rules", dr')])
    as (m'' & Hperm & Ht).
  { repeat (apply member_cons; [done | first [done | by apply thru_str] |]). constructor. }
  { apply NoDup_keys. vm_compute. reflexivity. }
  eexists _, _. split; [unfold enc_tree_doc; cbn [TreeValueType Default Rules]; rewrite Ed, Er; reflexivity|]. split; [exact Ht|]. cbn [dec_tree_doc].
  rewrite <- (dec_members_perm tfields _ tree_set_commute [("value_type", enc_str vt); ("default", dd'); ("rules", dr')] m'').
  2: by symmetry.
  2: { apply (bool_decide_eq_true_1 (NoDup [FValueType; FDefault; FRules])). vm_compute. reflexivity. }
  cbn [dec_members]. change (field_of tfields (unquote "value_type")) with (Some FValueType).
  change (field_of tfields (unquote "default")) with (Some FDefault). change (field_of tfields (unquote "rules")) with (Some FRules).
  unfold zero_tree. cbn [tree_set dec_str enc_str mbind option_bind]. rewrite unquote_quote by done. cbn [mbind option_bind].
  change (match dr' with
          | JNull => Some (mkRulesTree vt (dec_raw dd') None)
          | JArr ds => do? rs := dec_elems zero_rule dec_rule ds (default [] None) in Some (mkRulesTree vt (dec_raw dd') (Some rs))
          | _ => None end) with (tree_set FRules dr' (mkRulesTree vt (dec_raw dd') None)).
  rewrite Dr. cbn. by rewrite Dd.
Qed.

(** The text of a tree, decoded into an [any] and written again. *)
Lemma tree_text_thru t j :
  wf_tree t = true -> plain_tree t = true -> enc_tree t = Some j ->
  exists v j', unmarshal_any j = (v, false) /\ plain v = true /\ marshal v = Some j' /\
    dec_tree j' = Some (respell_tree canon t).
Proof.
  intros Hw Hp Ej. destruct (tree_thru t Hw Hp) as (d & d' & Ed & Ht & Dd). unfold enc_tree in Ej. rewrite Ed in Ej. injection Ej as <-.
  pose proof (thru_wf _ _ Ht) as Hw'. destruct Ht as (Hd & v & Ea & Hv & Edoc). exists v, (print d').
  unfold unmarshal_any, marshal, dec_tree. rewrite (scan_print d Hd), Edoc, (scan_print d' Hw'). done.
Qed.

(** ** Theorem *)

Section theorem.
Context {RX : RegexpLib} {CEL : CelLib} {TS : TsLib}.

(** The IR of a compilation, after it went through an [any], compiles under its
    strategy to a flag that decides alike. *)
Lemma compile_thru s c j :
  CStrategy c = s -> compiled_ok c -> plain_tree (IR c) = true -> enc_tree (IR c) = Some j ->
  exists v j', unmarshal_any j = (v, false) /\ plain v = true /\ marshal v = Some j' /\
    Compile s j' = Ok (mkCompiled s (respell_tree canon (IR c)) (CELPrograms c)).
Proof.
  intros Hs Hc Hp Ej. destruct (tree_text_thru (IR c) j) as (v & j' & Ev & Hv & Em & Dj); [apply Hc | done | done |].
  exists v, j'. split_and!; try done. apply compile_doc; auto using canon_equiv.
Qed.

(** A published IR may travel as [any]: decoded into Go values and marshalled
    again (keys sorted, numbers in shortest form), it still compiles under its
    strategy and decides alike in every context. *)
Theorem any_trip_evaluation s src c j :
  Compile s src = Ok c -> plain_tree (IR c) = true -> enc_tree (IR c) = Some j ->
  exists v j' c', unmarshal_any j = (v, false) /\ marshal v = Some j' /\ Compile s j' = Ok c' /\
    forall ctx n, Evaluate (Some c') ctx n = Evaluate (Some c) ctx n.
Proof.
  intros [Hs Hc]%Compile_ok Hp Ej. destruct (compile_thru s c j Hs Hc Hp Ej) as (v & j' & Ev & _ & Em & Hj).
  eexists v, j', _. split_and!; [done | done | exact Hj |]. intros ctx n. destruct c as [s' t ps]. cbn [IR CELPrograms CStrategy] in *.
  subst s'. apply (Evaluate_respell _ canon_equiv).
Qed.
End theorem.

Module AnyDemo.
Import Demo EvalDemo.
(** A flag whose spelling changes: key order and the number [1.0e1]. *)
Definition odd_source : string := print (tree_doc "number" (JNum "1.0e1")
  [rule_doc "us" (obj [("value", jstr "U<S"); ("kind", jstr "eq"); ("attr", jstr "user.country")]) (JNum "2.50")]).
Definition odd : Compiled := match Compile StrategyJSON odd_source with Ok c => c | Err _ => mkCompiled "" zero_tree ∅ end.
Definition odd_text : string := default "" (enc_tree (IR odd)).

Lemma any_trip_evaluation_witness :
  exists v j' c', unmarshal_any odd_text = (v, false) /\ marshal v = Some j' /\ Compile StrategyJSON j' = Ok c' /\
    forall ctx n, Evaluate (Some c') ctx n = Evaluate (Some odd) ctx n.
Proof. apply (any_trip_evaluation StrategyJSON odd_source odd odd_text); vm_compute; reflexivity. Defined.
End AnyDemo.
