(* ===== verification/Trace.v ===== *)
(** Explained evaluation ([internal/eval/trace.go]): every rule is evaluated and
    recorded.  The theorems compare it with [Evaluate]. *)
From stdpp Require Import base list strings numbers gmap.
From Stdlib Require Import Ascii String ZArith Lia.
From S2P Require Import Prelude Text Literal Json Float64 GoValue Ir Compile Rollout Eval.

Unset Elimination Schemes.
Inductive TraceNode : Type := mkTraceNode {
  TKind : string;
  TAttr : string;
  AttrValue : goval;
  Expected : goval;
  ExpectedValues : list goval;
  TPattern : string;
  TSalt : string;
  TPercent : Z;
  Bucket : Z;
  TSource : string;
  Result : bool;
  Children : list TraceNode
}.
Set Elimination Schemes.

Record TraceRule : Type := mkTraceRule {
  TRuleID : string;
  Matched : bool;
  TPredicate : TraceNode;
  TError : option eval_err
}.

Record Trace : Type := mkTrace {
  EvaluatedRules : list TraceRule;
  DefaultUsed : bool;
  MatchedRuleID : string
}.

(** A node with only its kind set. *)
Definition node_of (kind : string) : TraceNode :=
  mkTraceNode kind "" VNil VNil [] "" "" 0 0 "" false [].

Definition traced : Type := TraceNode * bool * option eval_err.

Section children.
Context {A : Type} (f : A -> traced).
(** The loop over [p.Of]: children, whether all matched, whether one did, and
    the first error. *)
Fixpoint trace_children (l : list A) (acc : list TraceNode) (all any : bool) (firstErr : option eval_err) :
    list TraceNode * bool * bool * option eval_err :=
  match l with
  | [] => (acc, all, any, firstErr)
  | c :: l' =>
      let '(child, ok, err) := f c in
      trace_children l' (acc ++ [child]) (if ok then all else false) (if ok then true else any)
        (match err, firstErr with Some e, None => Some e | _, _ => firstErr end)
  end.
End children.

Definition no_err (e : option eval_err) : bool := match e with None => true | Some _ => false end.

Section trace.
Context {RX : RegexpLib} {CEL : CelLib}.

Fixpoint traceMatch (p : Predicate) (ctx : context) (progs : programs) {struct p} : traced :=
  let trace_ptr (o : option Predicate) :=
    match o with None => (node_of "nil", false, None) | Some q => traceMatch q ctx progs end in
  let k := Kind p in
  let actual := default VNil (lookup ctx (Attr p)) in
  let '(ok, err) := match_pred p ctx progs in
  match kind_of k with
  | PredAlways => (mkTraceNode k "" VNil VNil [] "" "" 0 0 "" true [], true, None)
  | PredEq | PredNeq | PredStartsWith | PredGt | PredGte | PredLt | PredLte =>
      (mkTraceNode k (Attr p) actual (unmarshal_any (Value p)).1 [] "" "" 0 0 "" ok [], ok, err)
  | PredIn =>
      let expected := map (fun raw => (unmarshal_any raw).1) (Values p) in
      (mkTraceNode k (Attr p) actual VNil expected "" "" 0 0 "" ok [], ok, err)
  | PredMatches =>
      let actual := default "" (lookupString ctx (Attr p)) in
      (mkTraceNode k (Attr p) (VStr actual) VNil [] (Pattern p) "" 0 0 "" ok [], ok, err)
  | PredRollout =>
      let found := lookupString ctx (Attr p) in
      let bucket := match found with Some v => rolloutBucket (Salt p) v | None => 0 end in
      (mkTraceNode k (Attr p) (VStr (default "" found)) VNil [] "" (Salt p) (Percent p) bucket "" ok [], ok, err)
  | PredAll =>
      let '(cs, all, _, firstErr) := trace_children trace_ptr (Of p) [] true false None in
      let res := all && no_err firstErr in
      (mkTraceNode k "" VNil VNil [] "" "" 0 0 "" res cs, res, firstErr)
  | PredAny =>
      let '(cs, _, any, firstErr) := trace_children trace_ptr (Of p) [] true false None in
      let res := any && no_err firstErr in
      (mkTraceNode k "" VNil VNil [] "" "" 0 0 "" res cs, res, firstErr)
  | PredNot =>
      let '(child, ok', err') := trace_ptr (OfOne p) in
      let res := negb ok' && no_err err' in
      (mkTraceNode k "" VNil VNil [] "" "" 0 0 "" res [child], res, err')
  | PredCEL => (mkTraceNode k "" VNil VNil [] "" "" 0 0 (Source p) ok [], ok, err)
  | PredSegment | PredOther => (node_of k, false, Some UnknownKind)
  end.

Definition trace_ptr (ctx : context) (progs : programs) (o : option Predicate) : traced :=
  match o with None => (node_of "nil", false, None) | Some q => traceMatch q ctx progs end.

(** One step of the rule loop. *)
Definition trace_rule (c : Compiled) (ctx : context) (r : Rule) : TraceRule :=
  let '(node, ok, err) := trace_ptr ctx (CELPrograms c) (When r) in
  mkTraceRule (ID r) (ok && no_err err) node err.

(** The loop: the recorded rules, and the first rule recorded as matched. *)
Fixpoint trace_rules (c : Compiled) (ctx : context) (rules : list Rule) (acc : list TraceRule) (winner : option Rule) :
    list TraceRule * option Rule :=
  match rules with
  | [] => (acc, winner)
  | r :: rest =>
      let tr := trace_rule c ctx r in
      trace_rules c ctx rest (acc ++ [tr])
        (match winner with None => if Matched tr then Some r else None | Some _ => winner end)
  end.

Definition EvaluateWithTrace (c : option Compiled) (ctx : context) (version : Z) : result eval_failure (Decision * Trace) :=
  match c with
  | None => Err NilCompiled
  | Some c =>
      match decodeValue (Default (IR c)) with
      | None => Err DefaultUndecodable
      | Some defValue =>
          let '(trs, winner) := trace_rules c ctx (rules_of (IR c)) [] None in
          match winner with
          | None => Ok (mkDecision defValue ReasonDefault "" version, mkTrace trs true "")
          | Some w =>
              let trace := mkTrace trs false (ID w) in
              match decodeValue (RuleValue w) with
              | None => Ok (mkDecision defValue ReasonTypeMismatch (ID w) version, trace)
              | Some v =>
                  if negb (valueMatchesType v (TreeValueType (IR c)))
                  then Ok (mkDecision defValue ReasonTypeMismatch (ID w) version, trace)
                  else Ok (mkDecision v (reasonForRule w) (ID w) version, trace)
              end
          end
      end
  end.

(** ** The traced outcome of a predicate *)

Lemma trace_children_spec {A} (f : A -> traced) l acc all any e :
  trace_children f l acc all any e =
  (acc ++ map (fun x => (f x).1.1) l, all && forallb (fun x => (f x).1.2) l,
   existsb (fun x => (f x).1.2) l || any,
   match e with Some _ => e | None => head (omap (fun x => (f x).2) l) end).
Proof.
  revert acc all any e. induction l as [|x l IH]; intros acc all any e; cbn [trace_children].
  - cbn. rewrite app_nil_r, andb_true_r. by destruct e.
  - destruct (f x) as [[n ok] err] eqn:Ef. rewrite IH. cbn [map forallb existsb]. rewrite Ef. cbn [fst snd].
    rewrite <- app_assoc. cbn [app omap list_omap]. rewrite Ef. cbn [snd].
    destruct ok, all, any, e, err; cbn; rewrite ?orb_true_r, ?orb_false_r; done.
Qed.

Lemma omap_none {A} (g : A -> traced) l :
  head (omap (fun x => (g x).2) l) = None -> Forall (fun x => (g x).2 = None) l.
Proof.
  induction l as [|x l IH]; [done|]. cbn [omap list_omap]. destruct ((g x).2) eqn:E; [done|].
  intros H. constructor; auto.
Qed.

Lemma match_all_traced {A} (f : A -> matched) (g : A -> traced) l :
  Forall (fun x => f x = ((g x).1.2, None)) l -> match_all f l = hit (forallb (fun x => (g x).1.2) l).
Proof. induction 1 as [|x l Hx Hl IH]; [done|]. cbn. rewrite Hx. by destruct ((g x).1.2). Qed.

Lemma match_any_traced {A} (f : A -> matched) (g : A -> traced) l :
  Forall (fun x => f x = ((g x).1.2, None)) l -> match_any f l = hit (existsb (fun x => (g x).1.2) l).
Proof. induction 1 as [|x l Hx Hl IH]; [done|]. cbn. rewrite Hx. by destruct ((g x).1.2). Qed.

(** Without a traced error the traced outcome is the evaluator's, and the node
    records it. *)
Lemma trace_sound p ctx progs n b :
  traceMatch p ctx progs = (n, b, None) -> match_pred p ctx progs = (b, None) /\ Result n = b.
Proof.
  revert n b. induction p as [p IHo IHo1] using Predicate_ind. intros n b.
  assert (forall (H : Forall (fun o => (trace_ptr ctx progs o).2 = None) (Of p)),
    Forall (fun o => match_ptr ctx progs o = ((trace_ptr ctx progs o).1.2, None)) (Of p)) as Hof.
  { intros H. rewrite List.Forall_forall in *. intros [q|] Hin; [|done]. specialize (H _ Hin). cbn in *.
    destruct (traceMatch q ctx progs) as [[n' b'] e'] eqn:E. cbn in H. subst e'.
    by apply (IHo _ Hin) in E as [-> _]. }
  destruct p as [k a v vs pat s pc o o1 src key]. cbn [Of OfOne] in *.
  cbn [traceMatch]. fold (trace_ptr ctx progs).
  destruct (match_pred _ ctx progs) as [ok err] eqn:E. cbn [match_pred] in E.
  cbn [Kind Attr Value Values Pattern Salt Percent Of OfOne Source SegmentKey] in *.
  destruct (kind_of k); try (by intros [= <- <- ->]); try (by intros [= <- <-]); try done.
  - (* all *) rewrite trace_children_spec. cbn [app andb]. intros [= <- <- H]. rewrite H.
    apply omap_none, Hof, (match_all_traced _ (trace_ptr ctx progs)) in H. cbn [no_err]. rewrite andb_true_r.
    fold (match_ptr ctx progs) in E. rewrite H in E. by injection E as <- <-.
  - (* any *) rewrite trace_children_spec. cbn [app]. intros [= <- <- H]. rewrite H.
    apply omap_none, Hof, (match_any_traced _ (trace_ptr ctx progs)) in H. cbn [no_err].
    rewrite andb_true_r, orb_false_r.
    fold (match_ptr ctx progs) in E. rewrite H in E. by injection E as <- <-.
  - (* not *) destruct o1 as [q|]; [|intros [= <- <-]; cbn in *; by injection E as <- <-].
    destruct (traceMatch q ctx progs) as [[n' b'] e'] eqn:Et. intros H. injection H as Hn Hb He. subst n b e'.
    cbn in *. apply IHo1 in Et as [Em _]. rewrite Em in E. rewrite andb_true_r. by injection E as <- <-.
Qed.

Lemma trace_rule_sound c ctx r :
  TError (trace_rule c ctx r) = None ->
  match_ptr ctx (CELPrograms c) (When r) = (Matched (trace_rule c ctx r), None).
Proof.
  unfold trace_rule. destruct (When r) as [p|]; cbn [trace_ptr match_ptr]; [|done].
  destruct (traceMatch p ctx (CELPrograms c)) as [[n b] e] eqn:E. cbn. intros ->. rewrite andb_true_r.
  by apply trace_sound in E as [-> _].
Qed.

(** ** The recorded rules *)

Lemma trace_rules_spec c ctx rules acc w :
  trace_rules c ctx rules acc w =
  (acc ++ map (trace_rule c ctx) rules,
   match w with Some _ => w | None => List.find (fun r => Matched (trace_rule c ctx r)) rules end).
Proof.
  revert acc w. induction rules as [|r rs IH]; intros acc w; cbn [trace_rules].
  - cbn. rewrite app_nil_r. by destruct w.
  - rewrite IH, <- app_assoc. cbn [map app List.find]. f_equal.
    destruct w; [done|]. by destruct (Matched (trace_rule c ctx r)).
Qed.

Lemma trace_winner c ctx version def rules :
  Forall (fun r => TError (trace_rule c ctx r) = None) rules ->
  eval_rules c ctx version def rules =
  match List.find (fun r => Matched (trace_rule c ctx r)) rules with
  | None => mkDecision def ReasonDefault "" version
  | Some w => serve (TreeValueType (IR c)) def w version
  end.
Proof.
  induction 1 as [|r rs Hr Hrs IH]; [done|]. cbn [eval_rules List.find].
  rewrite (trace_rule_sound c ctx r Hr). destruct (Matched (trace_rule c ctx r)); [done | exact IH].
Qed.

Lemma EvaluateWithTrace_spec c ctx version d tr :
  EvaluateWithTrace (Some c) ctx version = Ok (d, tr) ->
  exists def, decodeValue (Default (IR c)) = Some def /\
    EvaluatedRules tr = map (trace_rule c ctx) (rules_of (IR c)) /\
    match List.find (fun r => Matched (trace_rule c ctx r)) (rules_of (IR c)) with
    | None => d = mkDecision def ReasonDefault "" version /\ DefaultUsed tr = true /\ MatchedRuleID tr = ""
    | Some w => d = serve (TreeValueType (IR c)) def w version /\ DefaultUsed tr = false /\ MatchedRuleID tr = ID w
    end.
Proof.
  unfold EvaluateWithTrace, serve. destruct (decodeValue (Default (IR c))) as [def|]; [|done].
  rewrite trace_rules_spec. cbn [app]. intros H. exists def. split; [done|].
  destruct (List.find _ _) as [w|]; [|by injection H as <- <-].
  destruct (decodeValue (RuleValue w)) as [v|]; [|by injection H as <- <-].
  destruct (valueMatchesType v _); by injection H as <- <-.
Qed.

(** The trace records every rule, in order, and names the first recorded
    match; the decision is the one that rule serves, the default when none
    matched. *)
Theorem trace_records_rules c ctx version d tr :
  EvaluateWithTrace (Some c) ctx version = Ok (d, tr) ->
  map TRuleID (EvaluatedRules tr) = map ID (rules_of (IR c)) /\
  (DefaultUsed tr = true <-> Forall (fun t => Matched t = false) (EvaluatedRules tr)) /\
  (DefaultUsed tr = true -> Reason d = ReasonDefault) /\
  (DefaultUsed tr = false -> RuleID d = MatchedRuleID tr /\
     exists t, List.find Matched (EvaluatedRules tr) = Some t /\ TRuleID t = MatchedRuleID tr).
Proof.
  intros (def & _ & Er & H)%EvaluateWithTrace_spec. rewrite Er.
  assert (forall r, TRuleID (trace_rule c ctx r) = ID r) as Hid
    by (intros r; unfold trace_rule; by destruct (trace_ptr _ _ _) as [[? ?] ?]).
  assert (forall l, List.find Matched (map (trace_rule c ctx) l) =
                    option_map (trace_rule c ctx) (List.find (fun r => Matched (trace_rule c ctx r)) l)) as Hf.
  { induction l as [|r l IH]; [done|]. cbn. by destruct (Matched (trace_rule c ctx r)). }
  split; [rewrite map_map; by apply map_ext|].
  specialize (Hf (rules_of (IR c))).
  destruct (List.find (fun r => _) (rules_of (IR c))) as [w|] eqn:Ew; destruct H as (-> & -> & ->).
  - apply List.find_some in Ew as [Hin Hm]. split_and!; [|done|].
    + split; [done|]. rewrite List.Forall_forall. intros Hall.
      rewrite Hall in Hm; [done|]. by apply in_map.
    + intros _. split; [|eexists; split; [exact Hf | apply Hid]].
      unfold serve. destruct (decodeValue _) as [v|]; [|done]. by destruct (valueMatchesType v _).
  - split_and!; [|done..]. split; [|done]. intros _. rewrite List.Forall_forall.
    intros t (r & <- & Hin)%in_map_iff. exact (List.find_none _ _ Ew r Hin).
Qed.

(** C34. When no rule of the trace carries an error, [EvaluateWithTrace] returns
    the decision of [Evaluate]. *)
Theorem trace_agrees c ctx version d tr :
  EvaluateWithTrace (Some c) ctx version = Ok (d, tr) ->
  Forall (fun t => TError t = None) (EvaluatedRules tr) ->
  Evaluate (Some c) ctx version = Ok d.
Proof.
  intros (def & Ed & Er & H)%EvaluateWithTrace_spec Hn. rewrite Er, Forall_map in Hn.
  unfold Evaluate. rewrite Ed, (trace_winner c ctx version def _ Hn). destruct (List.find _ _); by destruct H as [-> _].
Qed.
End trace.

Module TraceDemo.
Import Demo EvalDemo.

Definition us_traced : Decision * Trace :=
  match EvaluateWithTrace (Some compiled_us) us_ctx 3 with
  | Ok p => p
  | Err _ => (mkDecision VNil "" "" 0, mkTrace [] false "")
  end.

Lemma trace_records_rules_witness :
  map TRuleID (EvaluatedRules us_traced.2) = map ID (rules_of (IR compiled_us)) /\
  (DefaultUsed us_traced.2 = true <-> Forall (fun t => Matched t = false) (EvaluatedRules us_traced.2)) /\
  (DefaultUsed us_traced.2 = true -> Reason us_traced.1 = ReasonDefault) /\
  (DefaultUsed us_traced.2 = false -> RuleID us_traced.1 = MatchedRuleID us_traced.2 /\
     exists t, List.find Matched (EvaluatedRules us_traced.2) = Some t /\ TRuleID t = MatchedRuleID us_traced.2).
Proof. apply (trace_records_rules compiled_us us_ctx 3). vm_compute. reflexivity. Defined.

Lemma trace_agrees_witness : Evaluate (Some compiled_us) us_ctx 3 = Ok us_traced.1.
Proof.
  apply (trace_agrees compiled_us us_ctx 3 us_traced.1 us_traced.2); [vm_compute; reflexivity|].
  vm_compute. repeat constructor.
Defined.

(** With errors the two differ, although the comment on
    [EvaluateWithTrace] promises the same decision.  In a context without
    [beta], the first rule of this flag fails: [Evaluate] stops there with
    reason "error" while the trace skips it and serves the second rule.  An
    error behind a child that already decided an [any] also makes the traced
    rule fail, where [Evaluate] matches it. *)
Theorem trace_differs_on_errors :
  let source rs := print (tree_doc "boolean" (JBool false) rs) in
  let always := obj [("kind", jstr "always")] in
  let skipped := source [rule_doc "a" (cel_doc "beta") (JBool true); rule_doc "b" always (JBool true)] in
  let any_true := source [rule_doc "a" (obj [("kind", jstr "any"); ("of", JArr [always; cel_doc "beta"])]) (JBool true)] in
  let run f src := match Compile StrategyCEL src with Ok c => f (Some c) | Err _ => Err NilCompiled end in
  let plain_run := run (fun c => Evaluate c [] 1) in
  let traced_run := run (fun c => let? p := EvaluateWithTrace c [] 1 in Ok p.1) in
  plain_run skipped = Ok (mkDecision (VBool false) ReasonError "a" 1) /\
  traced_run skipped = Ok (mkDecision (VBool true) ReasonRuleMatched "b" 1) /\
  plain_run any_true = Ok (mkDecision (VBool true) ReasonRuleMatched "a" 1) /\
  traced_run any_true = Ok (mkDecision (VBool false) ReasonDefault "" 1).
Proof. vm_compute. split_and!; reflexivity. Qed.
End TraceDemo.
