(* ===== verification/Segments.v ===== *)
(** Segment references ([internal/config/predicate.go], and the handlers'
    [normalizePredicate] and [resolveSegmentRefs]).

    A reference is replaced by the stored predicate, which is walked again, so
    the recursion follows the stored segments and not the predicate's size: the
    fuel of [resolveOne] bounds how deep references nest, and [Diverges] is the
    outcome of a run that needs more. *)
From stdpp Require Import base list strings numbers gmap.
From Stdlib Require Import Ascii String ZArith Lia.
From S2P Require Import Prelude Text Literal Json Float64 GoValue Ir Compile Eval.

Inductive resolve_err : Type := Diverges | Failed (e : cfg_error).

(** [ResolveSegment]: an error, a nil predicate or a predicate; every call
    decodes the stored text afresh, so predicates are never shared. *)
Definition SegmentResolver : Type := string -> result unit (option Predicate).

Section loop.
Context {A E : Type} (f : A -> result E A).
(** [for i, x := range l { y, err := f(x); ...; l[i] = y }]. *)
Fixpoint rmap (l : list A) : result E (list A) :=
  match l with
  | [] => Ok []
  | x :: l' => let? y := f x in let? ys := rmap l' in Ok (y :: ys)
  end.
End loop.

Definition set_children (p : Predicate) (o : list (option Predicate)) (o1 : option Predicate) : Predicate :=
  mkPredicate (Kind p) (Attr p) (Value p) (Values p) (Pattern p) (Salt p) (Percent p) o o1 (Source p) (SegmentKey p).

Section resolve.
Variable resolver : SegmentResolver.

(** The predicate a reference resolves to, before it is walked. *)
Definition fetch (key : string) : result resolve_err Predicate :=
  match resolver key with
  | Err _ => Err (Failed (Wraps ErrInvalidPredicate))
  | Ok None => Err (Failed (Wraps ErrInvalidPredicate))
  | Ok (Some seg) => Ok seg
  end.

(** The walk over one predicate, with [jump] for the references it meets. *)
Fixpoint resolve_walk (jump : Predicate -> result resolve_err Predicate) (p : Predicate) {struct p} :
    result resolve_err Predicate :=
  let ptr (o : option Predicate) :=
    match o with None => Ok None | Some q => let? q' := resolve_walk jump q in Ok (Some q') end in
  match kind_of (Kind p) with
  | PredSegment => let? seg := fetch (SegmentKey p) in jump seg
  | _ =>
      let? o := rmap ptr (Of p) in
      let? o1 := ptr (OfOne p) in
      Ok (set_children p o o1)
  end.

Fixpoint resolveOne (fuel : nat) (p : Predicate) : result resolve_err Predicate :=
  match fuel with
  | O => Err Diverges
  | S f => resolve_walk (resolveOne f) p
  end.

Definition resolve_ptr (jump : Predicate -> result resolve_err Predicate) (o : option Predicate) :
    result resolve_err (option Predicate) :=
  match o with None => Ok None | Some q => let? q' := resolve_walk jump q in Ok (Some q') end.

Definition resolve_rule (fuel : nat) (r : Rule) : result resolve_err Rule :=
  match When r with
  | None => Ok r
  | Some p => let? p' := resolveOne fuel p in Ok (mkRule (ID r) (Some p') (RuleValue r))
  end.

Definition ResolveSegments (fuel : nat) (tree : RulesTree) : result resolve_err RulesTree :=
  match Rules tree with
  | None => Ok tree
  | Some rs => let? rs' := rmap (resolve_rule fuel) rs in
               Ok (mkRulesTree (TreeValueType tree) (Default tree) (Some rs'))
  end.

(** [resolveSegmentRefs]: a source that is not a tree is passed on unchanged. *)
Definition resolveSegmentRefs (fuel : nat) (sourceRaw : RawMessage) : result resolve_err RawMessage :=
  match dec_tree sourceRaw with
  | None => Ok sourceRaw
  | Some tree =>
      let? tree' := ResolveSegments fuel tree in
      of_option (Failed (Wraps ErrInvalidIR)) (enc_tree tree')
  end.

(** ** No reference is left *)

(** No node of kind [segment] anywhere below, whatever the kinds above it. *)
Fixpoint no_refs (p : Predicate) : bool :=
  let ptr (o : option Predicate) := match o with None => true | Some q => no_refs q end in
  negb (bool_decide (kind_of (Kind p) = PredSegment)) && forallb ptr (Of p) && ptr (OfOne p).

Definition no_refs_ptr (o : option Predicate) : bool := match o with None => true | Some q => no_refs q end.

Lemma rmap_ok {A E} (f : A -> result E A) (P : A -> Prop) l l' :
  Forall (fun x => forall y, f x = Ok y -> P y) l -> rmap f l = Ok l' -> Forall P l'.
Proof.
  intros H. revert l'. induction H as [|x l Hx Hl IH]; intros l'; cbn; [by intros [= <-]|].
  intros E1. inv_ok. constructor; auto.
Qed.

(** The walk of a predicate that is not itself a reference. *)
Lemma walk_node jump p :
  kind_of (Kind p) <> PredSegment ->
  resolve_walk jump p =
  let? o := rmap (resolve_ptr jump) (Of p) in
  let? o1 := resolve_ptr jump (OfOne p) in
  Ok (set_children p o o1).
Proof. destruct p. cbn. by destruct (kind_of Kind). Qed.

Lemma walk_ref jump p :
  kind_of (Kind p) = PredSegment -> resolve_walk jump p = let? seg := fetch (SegmentKey p) in jump seg.
Proof. destruct p. cbn. by intros ->. Qed.

Lemma resolve_walk_no_refs jump p p' :
  (forall q q', jump q = Ok q' -> no_refs q' = true) ->
  resolve_walk jump p = Ok p' -> no_refs p' = true.
Proof.
  intros Hj. revert p'. induction p as [p IHo IHo1] using Predicate_ind. intros p'.
  destruct (decide (kind_of (Kind p) = PredSegment)) as [Hk|Hk].
  { rewrite walk_ref by done. intros H. inv_ok. eauto. }
  rewrite walk_node by done. intros H. inv_ok.
  assert (forall o o', opt_all (fun p => forall p', resolve_walk jump p = Ok p' -> no_refs p' = true) o ->
    resolve_ptr jump o = Ok o' -> no_refs_ptr o' = true) as Hptr.
  { intros [q|] o' Hq Ho; cbn in Ho; [|by injection Ho as <-]. inv_ok. cbn. auto. }
  cbn [no_refs set_children Kind Of OfOne]. rewrite bool_decide_false by done. cbn.
  apply andb_true_iff. split; [|by eapply Hptr].
  apply forallb_forall, List.Forall_forall. eapply rmap_ok; [|exact Hok].
  eapply List.Forall_impl; [|exact IHo]. intros o Ho o' E. by eapply (Hptr o o').
Qed.

Lemma resolveOne_no_refs fuel p p' : resolveOne fuel p = Ok p' -> no_refs p' = true.
Proof.
  revert p p'. induction fuel as [|f IH]; intros p p'; cbn; [done|].
  apply resolve_walk_no_refs. exact IH.
Qed.

(** ** Nothing to do without references *)

Lemma rmap_id {A E} (f : A -> result E A) l : Forall (fun x => f x = Ok x) l -> rmap f l = Ok l.
Proof. induction 1 as [|x l Hx Hl IH]; [done|]. cbn. rewrite Hx. cbn. by rewrite IH. Qed.

Lemma no_refs_inv p :
  no_refs p = true ->
  kind_of (Kind p) <> PredSegment /\ forallb no_refs_ptr (Of p) = true /\ no_refs_ptr (OfOne p) = true.
Proof. destruct p. cbn. intros. bsplit. by case_bool_decide. Qed.

Lemma resolve_walk_id jump p : no_refs p = true -> resolve_walk jump p = Ok p.
Proof.
  induction p as [p IHo IHo1] using Predicate_ind. intros (Hk & Ho & Ho1)%no_refs_inv.
  assert (forall o, opt_all (fun p => no_refs p = true -> resolve_walk jump p = Ok p) o ->
    no_refs_ptr o = true -> resolve_ptr jump o = Ok o) as Hptr.
  { intros [q|] Hq Hr; [|done]. cbn in *. by rewrite Hq. }
  rewrite walk_node, rmap_id; [|..|done].
  - cbn. rewrite (Hptr _ IHo1 Ho1). cbn. by destruct p.
  - rewrite forallb_forall in Ho. rewrite List.Forall_forall in *. intros o Hin. auto.
Qed.

(** ** More fuel does not change a result *)

Lemma rmap_mono {A E} (f g : A -> result E A) bad l :
  Forall (fun x => f x = Err bad \/ f x = g x) l -> rmap f l = Err bad \/ rmap f l = rmap g l.
Proof.
  induction 1 as [|x l [Hx|Hx] Hl IH]; cbn; [by right | rewrite Hx; by left |].
  rewrite Hx. destruct (g x); cbn; [|by right]. destruct IH as [-> | ->]; [by left | by right].
Qed.

Lemma resolve_walk_mono (j1 j2 : Predicate -> result resolve_err Predicate) p :
  (forall q, j1 q = Err Diverges \/ j1 q = j2 q) ->
  resolve_walk j1 p = Err Diverges \/ resolve_walk j1 p = resolve_walk j2 p.
Proof.
  intros Hj. induction p as [p IHo IHo1] using Predicate_ind.
  assert (forall o, opt_all (fun p => resolve_walk j1 p = Err Diverges \/ resolve_walk j1 p = resolve_walk j2 p) o ->
    resolve_ptr j1 o = Err Diverges \/ resolve_ptr j1 o = resolve_ptr j2 o) as Hptr.
  { intros [q|] Hq; cbn in *; [|by right]. destruct Hq as [-> | ->]; [by left | by right]. }
  destruct (decide (kind_of (Kind p) = PredSegment)) as [Hk|Hk].
  { rewrite !walk_ref by done. destruct (fetch (SegmentKey p)); cbn; [apply Hj | by right]. }
  rewrite !walk_node by done.
  destruct (rmap_mono (resolve_ptr j1) (resolve_ptr j2) Diverges (Of p)) as [-> | ->]; [| by left |].
  - eapply List.Forall_impl; [|exact IHo]. auto.
  - destruct (rmap (resolve_ptr j2) (Of p)); cbn; [|by right]. destruct (Hptr _ IHo1) as [-> | ->]; [by left | by right].
Qed.

Lemma resolveOne_mono f p : resolveOne f p = Err Diverges \/ resolveOne f p = resolveOne (S f) p.
Proof.
  revert p. induction f as [|f IH]; intros p; [by left|].
  cbn [resolveOne]. apply resolve_walk_mono. exact IH.
Qed.

Lemma resolveOne_more f n p r :
  resolveOne f p = r -> r <> Err Diverges -> resolveOne (f + n) p = r.
Proof.
  intros <- H. induction n as [|n IH]; [by rewrite Nat.add_0_r|].
  rewrite Nat.add_succ_r. rewrite <- IH. symmetry.
  destruct (resolveOne_mono (f + n) p) as [E|E]; [congruence | done].
Qed.
End resolve.

(** ** Termination *)

(** The references a walk follows. *)
Fixpoint refs (p : Predicate) : list string :=
  let ptr (o : option Predicate) := match o with None => [] | Some q => refs q end in
  match kind_of (Kind p) with
  | PredSegment => [SegmentKey p]
  | _ => flat_map ptr (Of p) ++ ptr (OfOne p)
  end.
Definition refs_ptr (o : option Predicate) : list string := match o with None => [] | Some q => refs q end.

Lemma refs_node p : kind_of (Kind p) <> PredSegment -> refs p = flat_map refs_ptr (Of p) ++ refs_ptr (OfOne p).
Proof. destruct p. cbn. by destruct (kind_of Kind). Qed.
Lemma refs_ref p : kind_of (Kind p) = PredSegment -> refs p = [SegmentKey p].
Proof. destruct p. cbn. by intros ->. Qed.

Lemma rmap_not {A E} (f : A -> result E A) bad l :
  Forall (fun x => f x <> Err bad) l -> rmap f l <> Err bad.
Proof.
  induction 1 as [|x l Hx Hl IH]; cbn; [done|]. destruct (f x) as [y|e]; cbn; [|congruence].
  destruct (rmap f l); cbn; congruence.
Qed.

Section terminates.
Variable resolver : SegmentResolver.

Lemma resolve_walk_stops jump p :
  (forall k seg, In k (refs p) -> resolver k = Ok (Some seg) -> jump seg <> Err Diverges) ->
  resolve_walk resolver jump p <> Err Diverges.
Proof.
  induction p as [p IHo IHo1] using Predicate_ind. intros Hj.
  destruct (decide (kind_of (Kind p) = PredSegment)) as [Hk|Hk].
  - rewrite walk_ref, refs_ref in * by done. unfold fetch. specialize (Hj (SegmentKey p)).
    destruct (resolver (SegmentKey p)) as [[seg|]|]; cbn; [|done..]. apply Hj; [by left | done].
  - rewrite walk_node by done. rewrite refs_node in Hj by done.
    assert (forall o, opt_all (fun p => (forall k seg, In k (refs p) -> resolver k = Ok (Some seg) -> jump seg <> Err Diverges) ->
      resolve_walk resolver jump p <> Err Diverges) o -> (forall k, In k (refs_ptr o) -> In k (flat_map refs_ptr (Of p) ++ refs_ptr (OfOne p))) ->
      resolve_ptr resolver jump o <> Err Diverges) as Hptr.
    { intros [q|] Hq Hin; [|done]. cbn in *. assert (resolve_walk resolver jump q <> Err Diverges) as H by (apply Hq; eauto).
      destruct (resolve_walk resolver jump q); cbn; congruence. }
    assert (rmap (resolve_ptr resolver jump) (Of p) <> Err Diverges) as H1.
    { apply rmap_not. rewrite List.Forall_forall in *. intros o Hin. apply Hptr; [by apply IHo|].
      intros k Hk'. apply in_app_iff. left. apply in_flat_map. by exists o. }
    destruct (rmap _ _); cbn; [|congruence].
    assert (resolve_ptr resolver jump (OfOne p) <> Err Diverges) as H2.
    { apply Hptr; [done|]. intros k Hk'. apply in_app_iff. by right. }
    destruct (resolve_ptr _ _ _); cbn; congruence.
Qed.

Variable rank : string -> nat.
Hypothesis acyclic : forall k seg, resolver k = Ok (Some seg) -> forall k', In k' (refs seg) -> (rank k' < rank k)%nat.

Lemma resolveOne_stops n p :
  (forall k, In k (refs p) -> (rank k < n)%nat) -> resolveOne resolver (S n) p <> Err Diverges.
Proof.
  revert p. induction n as [|n IH]; intros p Hr; cbn [resolveOne]; apply resolve_walk_stops.
  - intros k seg Hk. specialize (Hr k Hk). lia.
  - intros k seg Hk E. apply IH. intros k' Hk'. specialize (Hr k Hk). specialize (acyclic k seg E k' Hk'). lia.
Qed.

Lemma ResolveSegments_stops n t :
  (forall r p k, In r (rules_of t) -> When r = Some p -> In k (refs p) -> (rank k < n)%nat) ->
  ResolveSegments resolver (S n) t <> Err Diverges.
Proof.
  unfold ResolveSegments, rules_of. intros Hr. destruct (Rules t) as [rs|]; [|done].
  assert (rmap (resolve_rule resolver (S n)) rs <> Err Diverges) as H.
  { apply rmap_not, List.Forall_forall. intros r Hin. unfold resolve_rule.
    destruct (When r) as [p|] eqn:Ew; [|done].
    assert (resolveOne resolver (S n) p <> Err Diverges) as Hp by (apply resolveOne_stops; eauto).
    destruct (resolveOne resolver (S n) p); cbn; congruence. }
  destruct (rmap _ rs); cbn; congruence.
Qed.
End terminates.

(** ** Stored segments *)

(** [storeSegmentResolver.ResolveSegment] over the stored texts: [None] is a
    failed look-up. *)
Definition storeSegmentResolver (get : string -> option RawMessage) : SegmentResolver :=
  fun key =>
    match get key with
    | None => Err tt
    | Some raw => match dec_predicate raw with
                  | None => Err tt
                  | Some pred => Ok (Some pred)
                  end
    end.

Lemma store_wf get k p : storeSegmentResolver get k = Ok (Some p) -> wf_pred p = true.
Proof.
  unfold storeSegmentResolver. destruct (get k); [|done]. destruct (dec_predicate _) eqn:E; [|done].
  intros [= <-]. by eapply dec_predicate_wf.
Qed.

Section normalize.
Context {RX : RegexpLib}.

Inductive normalize_err : Type := PredicateRequired | EncodeError | DecodeError | SegmentInSegment | Invalid (e : cfg_error).

(** [normalizePredicate] of the segment handlers. *)
Definition normalizePredicate (raw : goval) : result normalize_err RawMessage :=
  match raw with
  | VNil => Err PredicateRequired
  | _ =>
      let? bytes := of_option EncodeError (marshal raw) in
      let? p := of_option DecodeError (dec_predicate bytes) in
      when String.eqb (Kind p) (kind_name PredSegment) fail SegmentInSegment ;;
      let? _ := rmap_err Invalid (validatePredicate p true) in
      Ok bytes
  end.
End normalize.

(** ** Resolved trees are well formed *)

Lemma set_children_wf p o o1 :
  wf_pred p = true -> forallb wf_ptr o = true -> wf_ptr o1 = true -> wf_pred (set_children p o o1) = true.
Proof.
  destruct p. cbn. intros. bsplit. rewrite !andb_true_iff. done.
Qed.

Lemma wf_children p : wf_pred p = true -> forallb wf_ptr (Of p) = true /\ wf_ptr (OfOne p) = true.
Proof. destruct p. cbn. intros. by bsplit. Qed.

Section wf.
Variable resolver : SegmentResolver.
Hypothesis resolver_wf : forall k p, resolver k = Ok (Some p) -> wf_pred p = true.

Lemma resolve_walk_wf jump p p' :
  (forall q q', jump q = Ok q' -> wf_pred q = true -> wf_pred q' = true) ->
  resolve_walk resolver jump p = Ok p' -> wf_pred p = true -> wf_pred p' = true.
Proof.
  intros Hj. revert p'. induction p as [p IHo IHo1] using Predicate_ind. intros p'.
  destruct (decide (kind_of (Kind p) = PredSegment)) as [Hk|Hk].
  { rewrite walk_ref by done. unfold fetch. destruct (resolver (SegmentKey p)) as [[seg|]|] eqn:E; cbn; [|done..].
    intros H _. eapply Hj; [exact H|]. by eapply resolver_wf. }
  rewrite walk_node by done. intros H Hw. inv_ok. destruct (wf_children p Hw) as [Hwo Hwo1].
  assert (forall o o', opt_all (fun p => forall p', resolve_walk resolver jump p = Ok p' -> wf_pred p = true -> wf_pred p' = true) o ->
    resolve_ptr resolver jump o = Ok o' -> wf_ptr o = true -> wf_ptr o' = true) as Hptr.
  { intros [q|] o' Hq Ho; cbn in Ho; [|by injection Ho as <-]. inv_ok. cbn. eauto. }
  apply set_children_wf; [done| |by eapply Hptr].
  apply forallb_forall, List.Forall_forall. eapply rmap_ok; [|exact Hok].
  rewrite List.Forall_forall in *. rewrite forallb_forall in Hwo. intros o Hin o' E. eapply (Hptr o o'); eauto.
Qed.

Lemma resolveOne_wf fuel p p' : resolveOne resolver fuel p = Ok p' -> wf_pred p = true -> wf_pred p' = true.
Proof.
  revert p p'. induction fuel as [|f IH]; intros p p'; cbn; [done|]. by apply resolve_walk_wf.
Qed.

Lemma ResolveSegments_spec fuel t t' :
  wf_tree t = true -> ResolveSegments resolver fuel t = Ok t' ->
  wf_tree t' = true /\ Forall (fun r => match When r with Some p => no_refs p = true | None => True end) (rules_of t').
Proof.
  unfold ResolveSegments, wf_tree, rules_of. intros Hw. bsplit. destruct (Rules t) as [rs|] eqn:Er; cbn in *.
  - intros E. inv_ok. cbn [Rules default from_option TreeValueType Default id].
    assert (Forall (fun r => wf_rule r = true /\ match When r with Some p => no_refs p = true | None => True end) a) as Ha.
    { eapply rmap_ok; [|exact Hok]. rewrite forallb_forall in H0. apply List.Forall_forall. intros r Hin r' Hr.
      specialize (H0 r Hin). unfold resolve_rule, wf_rule in *. destruct (When r) as [p|] eqn:Ew.
      - inv_ok. bsplit. split; [|by eapply resolveOne_no_refs].
        rewrite !andb_true_iff. split_and!; try done. by eapply resolveOne_wf.
      - injection Hr as <-. rewrite Ew. done. }
    rewrite H, H1. cbn. split.
    + apply forallb_forall. rewrite List.Forall_forall in Ha. intros r Hin. by apply Ha.
    + eapply List.Forall_impl; [|exact Ha]. by intros r [_ ?].
  - intros [= <-]. rewrite Er, H, H1. done.
Qed.
End wf.

(** ** Compiling a resolved source *)

Lemma no_refs_segment_free p : no_refs p = true -> segment_free p = true.
Proof.
  induction p as [p IHo IHo1] using Predicate_ind. intros (Hk & Ho & Ho1)%no_refs_inv.
  assert (forallb (fun o => match o with None => true | Some q => segment_free q end) (Of p) = true) as Hof.
  { rewrite forallb_forall in *. rewrite List.Forall_forall in IHo. intros [q|] Hin; [|done].
    apply (IHo _ Hin), (Ho _ Hin). }
  assert (match OfOne p with None => true | Some q => segment_free q end = true) as Hof1.
  { destruct (OfOne p); [by apply IHo1 | done]. }
  destruct p as [k a v vs pat s pc o o1 src key]. cbn in *. by destruct (kind_of k).
Qed.

Lemma no_refs_respell f p : no_refs (respell_pred f p) = no_refs p.
Proof.
  induction p as [[k a v vs pat s pc o o1 src key] IHo IHo1] using Predicate_ind. cbn in *. f_equal; [f_equal|].
  - induction IHo as [|[q|] l Hx Hl IH]; cbn in *; [done | by rewrite Hx, IH | done].
  - by destruct o1.
Qed.

Lemma tree_compiles {RX : RegexpLib} {CEL : CelLib} {TS : TsLib} s src c :
  s = StrategyJSON \/ s = StrategyCEL -> Compile s src = Ok c -> dec_tree src = Some (IR c).
Proof.
  intros Hs [(-> & H)|[(-> & H)|(-> & H)]]%Compile_strategies; [..|by destruct Hs].
  - unfold json_Compile, unmarshal_tree in H. by inv_ok.
  - unfold cel_Compile, unmarshal_tree in H. by inv_ok.
Qed.

Section theorems.
Context {RX : RegexpLib} {CEL : CelLib} {TS : TsLib}.

(** C30. A JSON or CEL source whose segment references were resolved against the
    stored segments compiles, if it does, to rules without a segment node in
    reach: the evaluator's "unknown predicate kind" error cannot come from a
    published segment reference. *)
Theorem resolved_no_segments get fuel s src t out c r p :
  dec_tree src = Some t -> resolveSegmentRefs (storeSegmentResolver get) fuel src = Ok out ->
  s = StrategyJSON \/ s = StrategyCEL -> Compile s out = Ok c ->
  In r (rules_of (IR c)) -> When r = Some p -> segment_free p = true.
Proof.
  intros Ht Hr Hs Hc Hin Hw. unfold resolveSegmentRefs in Hr. rewrite Ht in Hr. apply rbind_ok in Hr as (t' & Et & Eo).
  apply (ResolveSegments_spec _ (store_wf get)) in Et as [Hwf Hno]; [|by eapply dec_tree_wf].
  destruct (tree_trip_fill t' Hwf) as (j & Ej & Dj). rewrite Ej in Eo. injection Eo as <-.
  apply (tree_compiles s) in Hc; [|done]. rewrite Dj in Hc. injection Hc as Hc. rewrite <- Hc in Hin.
  rewrite rules_of_respell in Hin. apply in_map_iff in Hin as (r1 & <- & Hin).
  assert (exists r2, In r2 (rules_of t') /\ When r2 = When r1) as (r2 & Hin2 & Ew).
  { unfold rules_of, fill_tree in *. destruct (Rules t') as [rs|]; [|done]. cbn in *.
    apply in_map_iff in Hin as (r2 & <- & Hin). by exists r2. }
  rewrite List.Forall_forall in Hno. specialize (Hno r2 Hin2). rewrite Ew in Hno. cbn in Hw.
  destruct (When r1) as [p1|]; [|done]. injection Hw as <-. apply no_refs_segment_free. by rewrite no_refs_respell.
Qed.

(** C31. When the stored segments do not refer to each other in a cycle (there is
    a rank that every reference of a segment decreases), resolving a predicate
    terminates: any fuel above the ranks it uses gives one and the same outcome,
    and a predicate it returns holds no reference. *)
Theorem resolve_terminates resolver rank n p :
  (forall k seg, resolver k = Ok (Some seg) -> forall k', In k' (refs seg) -> (rank k' < rank k)%nat) ->
  (forall k, In k (refs p) -> (rank k < n)%nat) ->
  exists out, out <> Err Diverges /\
    (forall fuel, (n < fuel)%nat -> resolveOne resolver fuel p = out) /\
    (forall p', out = Ok p' -> no_refs p' = true).
Proof.
  intros Hr Hp. exists (resolveOne resolver (S n) p).
  pose proof (resolveOne_stops resolver rank Hr n p Hp) as Hs. split_and!; [done| |].
  - intros fuel Hf. replace fuel with (S n + (fuel - S n))%nat by lia. by apply resolveOne_more.
  - intros p' E. by eapply resolveOne_no_refs.
Qed.
End theorems.

Module SegmentsDemo.
Import Demo.
Definition seg_doc (key : string) : jdoc := obj [("kind", jstr "segment"); ("key", jstr key)].

(** Stored segments: [us] compares a country; [vip] refers to [us] below a
    conjunction; [loop] refers to itself below a conjunction. *)
Definition stored (key : string) : option RawMessage :=
  if String.eqb key "us" then Some (print (eq_doc "country" (jstr "US")))
  else if String.eqb key "vip" then
    Some (print (obj [("kind", jstr "all"); ("of", JArr [seg_doc "us"; eq_doc "vip" (JBool true)])]))
  else if String.eqb key "loop" then
    Some (print (obj [("kind", jstr "all"); ("of", JArr [seg_doc "loop"])]))
  else None.

Definition vip_source : string :=
  print (tree_doc "boolean" (JBool false) [rule_doc "r" (seg_doc "vip") (JBool true)]).
Definition vip_ref : Predicate := mkPredicate "segment" "" "" [] "" "" 0 [] None "" "vip".

(** What the demo flag resolves and compiles to. *)
Definition vip_out : string :=
  match resolveSegmentRefs (storeSegmentResolver stored) 3 vip_source with Ok s => s | Err _ => "" end.
Definition vip_compiled : Compiled :=
  match Compile StrategyJSON vip_out with Ok c => c | Err _ => mkCompiled "" zero_tree ∅ end.
Definition vip_rule : Rule := hd zero_rule (rules_of (IR vip_compiled)).

Lemma resolved_no_segments_witness : segment_free (default vip_ref (When vip_rule)) = true.
Proof.
  apply (resolved_no_segments stored 3 StrategyJSON vip_source
           (default zero_tree (dec_tree vip_source)) vip_out vip_compiled vip_rule).
  - vm_compute. reflexivity.
  - vm_compute. reflexivity.
  - left. reflexivity.
  - vm_compute. reflexivity.
  - vm_compute. left. reflexivity.
  - vm_compute. reflexivity.
Defined.

Definition acyclic_store (key : string) : option RawMessage := if String.eqb key "loop" then None else stored key.

Lemma acyclic_ranked k seg :
  storeSegmentResolver acyclic_store k = Ok (Some seg) ->
  forall k', In k' (refs seg) ->
  ((if String.eqb k' "vip" then 1 else 0) < (if String.eqb k "vip" then 1 else 0))%nat.
Proof.
  unfold storeSegmentResolver, acyclic_store, stored.
  destruct (String.eqb_spec k "loop") as [->|]; [done|].
  destruct (String.eqb_spec k "us") as [->|].
  { vm_compute. intros [= <-] k' []. }
  destruct (String.eqb_spec k "vip") as [->|]; [|done].
  vm_compute. intros [= <-] k' [<-|[]]. vm_compute. lia.
Defined.

Lemma resolve_terminates_witness :
  exists out, out <> Err Diverges /\
    (forall fuel, (2 < fuel)%nat -> resolveOne (storeSegmentResolver acyclic_store) fuel vip_ref = out) /\
    (forall p', out = Ok p' -> no_refs p' = true).
Proof.
  apply (resolve_terminates (storeSegmentResolver acyclic_store) (fun k => if String.eqb k "vip" then 1%nat else 0%nat)).
  - exact acyclic_ranked.
  - vm_compute. intros k [<-|[]]. vm_compute. lia.
Defined.

(** C35. The write handler rejects only a segment whose top node is a reference:
    it accepts one that refers to itself below a conjunction, and resolving a
    reference to it never ends, whatever the fuel. *)
Theorem cyclic_segment_accepted :
  let self := (any_of (obj [("kind", jstr "all"); ("of", JArr [seg_doc "loop"])])).1 in
  let loop_ref := mkPredicate "segment" "" "" [] "" "" 0 [] None "" "loop" in
  normalizePredicate self = Ok (default "" (marshal self)) /\
  let store key := if String.eqb key "loop" then marshal self else None in
  forall fuel, resolveOne (storeSegmentResolver store) fuel loop_ref = Err Diverges.
Proof.
  cbv zeta. split; [vm_compute; reflexivity|].
  set (get := fun key => if String.eqb key "loop" then _ else None).
  set (loop_ref := mkPredicate "segment" "" "" [] "" "" 0 [] None "" "loop").
  set (self := mkPredicate "all" "" "" [] "" "" 0 [Some loop_ref] None "" "").
  assert (fetch (storeSegmentResolver get) "loop" = Ok self) as Hf by (vm_compute; reflexivity).
  assert (forall f p, kind_of (Kind p) = PredSegment -> SegmentKey p = "loop" ->
    resolve_walk (storeSegmentResolver get) (resolveOne (storeSegmentResolver get) f) p =
    resolveOne (storeSegmentResolver get) f self) as Hstep.
  { intros f p Hk Hs. rewrite walk_ref by done. by rewrite Hs, Hf. }
  assert (forall f, resolveOne (storeSegmentResolver get) f self = Err Diverges) as Hself.
  { intros f. induction f as [|f IH]; [done|]. cbn [resolveOne]. rewrite walk_node by done. cbn [self Of rmap].
    unfold resolve_ptr at 1. rewrite Hstep by done. by rewrite IH. }
  intros [|f]; [done|]. cbn [resolveOne]. rewrite Hstep by done. apply Hself.
Qed.
End SegmentsDemo.
