(* ===== verification/Sdk.v ===== *)
(** The Go SDK ([internal/sdkgo]): the snapshot cache, the polling state machine
    and the typed provider.

    The network is an input: a poll sees a transport failure or a response with
    a status and, for a 200, the decoded body ([None] when decoding failed).
    Times are opaque numbers. *)
From stdpp Require Import base list strings numbers gmap.
From Stdlib Require Import Ascii String ZArith Lia.
From S2P Require Import Prelude Text Literal Json Float64 GoValue Ir Compile Rollout Eval.

(** ** Polling *)

(** The decoded body of [GET /snapshots/latest]. *)
Record snapshot_body : Type := mkBody {
  sb_id : string;
  sb_version : Z;
  sb_created : Z;
  sb_flags : list (string * RawMessage)
}.

Inductive poll_response : Type :=
| RequestFailed
| Response (status : Z) (body : option snapshot_body).

Record Options : Type := mkOptions {
  BaseURL : string;
  ProjectSlug : string;
  PollInterval : Z   (* nanoseconds *)
}.

Inductive client_err : Type := BaseURLRequired | ProjectSlugRequired.
Inductive poll_err : Type := TransportError | StatusError (status : Z) | DecodeBody.

Section sdk.
Context {RX : RegexpLib} {CEL : CelLib} {TS : TsLib}.

Record Snapshot : Type := mkSnapshot {
  SnapID : string;
  SnapVersion : Z;
  SnapCreatedAt : Z;
  SnapFlags : gmap string Compiled
}.

(** The client: its options, the [atomic.Pointer], whether [stopCh] is closed
    and how many loop goroutines run. *)
Record Client : Type := mkClient {
  opts : Options;
  snap : option Snapshot;
  stopped : bool;
  loops : nat
}.

Definition NewClient (o : Options) : result client_err Client :=
  when is_empty (BaseURL o) fail BaseURLRequired ;;
  when is_empty (ProjectSlug o) fail ProjectSlugRequired ;;
  let o := if PollInterval o =? 0 then mkOptions (BaseURL o) (ProjectSlug o) (10 * 1000000000) else o in
  Ok (mkClient o None false 0).

(** The flags of a body: those that compile under the CEL strategy. *)
Definition compile_flag (flags : gmap string Compiled) (kv : string * RawMessage) : gmap string Compiled :=
  match Compile StrategyCEL kv.2 with
  | Ok compiled => <[kv.1 := compiled]> flags
  | Err _ => flags
  end.
Definition compile_flags (l : list (string * RawMessage)) : gmap string Compiled := fold_left compile_flag l ∅.

Definition set_snap (c : Client) (s : option Snapshot) : Client := mkClient (opts c) s (stopped c) (loops c).

Definition pollOnce (c : Client) (r : poll_response) : Client * option poll_err :=
  match r with
  | RequestFailed => (c, Some TransportError)
  | Response status body =>
      if status =? 200 then
        match body with
        | None => (c, Some DecodeBody)
        | Some b => (set_snap c (Some (mkSnapshot (sb_id b) (sb_version b) (sb_created b) (compile_flags (sb_flags b)))), None)
        end
      else if status =? 404 then (c, None)
      else (c, Some (StatusError status))
  end.

(** [Start]: the first poll, then a loop goroutine unless polling is disabled. *)
Definition Start (c : Client) (r : poll_response) : Client * option poll_err :=
  match pollOnce c r with
  | (c', Some e) => (c', Some e)
  | (c', None) =>
      (if 0 <? PollInterval (opts c') then mkClient (opts c') (snap c') (stopped c') (S (loops c')) else c', None)
  end.

Definition Stop (c : Client) : Client := mkClient (opts c) (snap c) true (loops c).

(** [Client.Evaluate]. *)
Definition sdk_Evaluate (c : Client) (key : string) (ctx : context) : Decision :=
  match snap c with
  | None => mkDecision VNil ReasonError "" 0
  | Some s =>
      match SnapFlags s !! key with
      | None => mkDecision VNil ReasonDefault "" (SnapVersion s)
      | Some compiled =>
          match Evaluate (Some compiled) ctx (SnapVersion s) with
          | Err _ => mkDecision VNil ReasonError "" (SnapVersion s)
          | Ok d => d
          end
      end
  end.

(** ** The state machine *)

(** The events of a client's life.  A loop goroutine polls on a tick, also after
    [Stop] while it has not yet chosen the closed channel, and leaves its loop
    when the channel is closed or the context is done. *)
Inductive event : Type :=
| EvStart (r : poll_response)
| EvTick (r : poll_response)
| EvStop
| EvLoopExit (ctx_done : bool).

Inductive step : Client -> event -> Client -> Prop :=
| step_start c r : step c (EvStart r) (Start c r).1
| step_tick c r : (0 < loops c)%nat -> step c (EvTick r) (pollOnce c r).1
| step_stop c : step c EvStop (Stop c)
| step_exit c ctx_done :
    (0 < loops c)%nat -> stopped c = true \/ ctx_done = true ->
    step c (EvLoopExit ctx_done) (mkClient (opts c) (snap c) (stopped c) (loops c - 1)).

Inductive steps : Client -> list event -> Client -> Prop :=
| steps_nil c : steps c [] c
| steps_cons c e c' l c'' : step c e c' -> steps c' l c'' -> steps c (e :: l) c''.

(** ** Invariants *)

(** Every flag of the cache is a validated flag, compiled under CEL. *)
Definition snap_ok (c : Client) : Prop :=
  forall s k f, snap c = Some s -> SnapFlags s !! k = Some f ->
  compiled_ok f /\ exists raw, Compile StrategyCEL raw = Ok f.

Lemma compile_flags_ok l acc k f :
  (forall k f, acc !! k = Some f -> exists raw, Compile StrategyCEL raw = Ok f) ->
  fold_left compile_flag l acc !! k = Some f -> exists raw, Compile StrategyCEL raw = Ok f.
Proof.
  revert acc. induction l as [|[k' raw] l IH]; intros acc Ha; cbn [fold_left]; [apply Ha|].
  apply IH. unfold compile_flag. cbn [fst snd]. destruct (Compile StrategyCEL raw) eqn:E; [|exact Ha].
  intros k0 f0. destruct (decide (k' = k0)) as [->|].
  - rewrite lookup_insert_eq. intros [= <-]. eauto.
  - rewrite lookup_insert_ne by done. apply Ha.
Qed.

Lemma pollOnce_cases c r :
  (exists e, pollOnce c r = (c, Some e)) \/ pollOnce c r = (c, None) \/
  exists b, r = Response 200 (Some b) /\
    pollOnce c r = (set_snap c (Some (mkSnapshot (sb_id b) (sb_version b) (sb_created b) (compile_flags (sb_flags b)))), None).
Proof.
  destruct r as [|status body]; cbn; [by eauto|].
  destruct (Z.eqb_spec status 200) as [->|]; [destruct body; by eauto|].
  destruct (status =? 404); by eauto.
Qed.

Lemma pollOnce_fields c r :
  opts (pollOnce c r).1 = opts c /\ stopped (pollOnce c r).1 = stopped c /\ loops (pollOnce c r).1 = loops c.
Proof. destruct (pollOnce_cases c r) as [[e ->]|[-> |(b & _ & ->)]]; done. Qed.

Lemma pollOnce_snap_ok c r : snap_ok c -> snap_ok (pollOnce c r).1.
Proof.
  intros H. destruct (pollOnce_cases c r) as [[e ->]|[-> |(b & _ & ->)]]; [done..|].
  intros s k f [= <-] Hf. cbn in Hf. apply compile_flags_ok in Hf as [raw E]; [|by intros ??; rewrite lookup_empty].
  apply Compile_ok in E as Hc. destruct Hc. eauto.
Qed.

Lemma Start_snap c r : snap (Start c r).1 = snap (pollOnce c r).1.
Proof. unfold Start. destruct (pollOnce c r) as [c' [e|]]; [done|]. cbn. by destruct (0 <? _). Qed.

Lemma step_snap_ok c e c' : step c e c' -> snap_ok c -> snap_ok c'.
Proof.
  intros Hs Hc. destruct Hs; try exact Hc; [|by apply pollOnce_snap_ok].
  intros s k f Hsn. rewrite Start_snap in Hsn. by apply (pollOnce_snap_ok c r Hc).
Qed.

Lemma steps_snap_ok c l c' : steps c l c' -> snap_ok c -> snap_ok c'.
Proof. induction 1; eauto using step_snap_ok. Qed.

(** A poll keeps the cache or replaces it with the body of a 200 response. *)
Definition last_good (s s' : option Snapshot) (e : event) : Prop :=
  s' = s \/
  exists b, (e = EvStart (Response 200 (Some b)) \/ e = EvTick (Response 200 (Some b))) /\
    s' = Some (mkSnapshot (sb_id b) (sb_version b) (sb_created b) (compile_flags (sb_flags b))).

Lemma step_last_good c e c' : step c e c' -> last_good (snap c) (snap c') e.
Proof.
  unfold last_good. destruct 1 as [c r|c r Hl|c|c d Hl Hd]; [rewrite Start_snap|..]; try by left.
  all: destruct (pollOnce_cases c r) as [[e ->]|[-> |(b & -> & ->)]]; [by left..|].
  all: right; exists b; split; [by auto | done].
Qed.

Lemma step_snap_kept c e c' : step c e c' -> is_Some (snap c) -> is_Some (snap c').
Proof. intros [-> |(b & _ & ->)]%step_last_good; eauto. Qed.

(** Whether an event delivers a good body. *)
Definition delivers (e : event) : bool :=
  match e with
  | EvStart (Response s (Some _)) | EvTick (Response s (Some _)) => s =? 200
  | _ => false
  end.

(** Whether an event is a successful first poll. *)
Definition starts (e : event) : bool :=
  match e with
  | EvStart RequestFailed => false
  | EvStart (Response s b) => ((s =? 200) && bool_decide (is_Some b)) || (s =? 404)
  | _ => false
  end.

Lemma step_no_start c e c' :
  step c e c' -> loops c = 0%nat -> starts e = false -> snap c' = snap c /\ loops c' = 0%nat.
Proof.
  destruct 1 as [c r|c r Hl|c|c d Hl Hd]; intros H0 Hs; try lia; [|done].
  destruct r as [|status body]; [done|]. unfold Start. cbn in *. apply orb_false_iff in Hs as [H1 H2].
  destruct (status =? 200); [|by rewrite H2].
  destruct body; [by rewrite bool_decide_true in H1 by eauto | done].
Qed.

(** The snapshot of the last good body a run delivered. *)
Definition snap_of_body (b : snapshot_body) : Snapshot :=
  mkSnapshot (sb_id b) (sb_version b) (sb_created b) (compile_flags (sb_flags b)).
Definition delivered (s : option Snapshot) (e : event) : option Snapshot :=
  match e with
  | EvStart (Response 200 (Some b)) | EvTick (Response 200 (Some b)) => Some (snap_of_body b)
  | _ => s
  end.

Lemma pollOnce_delivered c r : snap (pollOnce c r).1 = delivered (snap c) (EvTick r).
Proof.
  destruct r as [|status body]; [done|]. cbn. destruct (Z.eqb_spec status 200) as [->|Hs]; [by destruct body|].
  assert (delivered (snap c) (EvTick (Response status body)) = snap c) as E.
  { cbn. destruct body; [|by repeat case_match]. repeat case_match; try done; congruence. }
  cbn in E. rewrite E. by destruct (status =? 404).
Qed.

Lemma step_delivered c e c' : step c e c' -> snap c' = delivered (snap c) e.
Proof.
  destruct 1 as [c r|c r Hl|c|c d Hl Hd]; [|apply pollOnce_delivered | done | done].
  rewrite Start_snap. apply pollOnce_delivered.
Qed.

Lemma steps_delivered c l c' : steps c l c' -> snap c' = fold_left delivered l (snap c).
Proof. induction 1 as [|c e c1 l c' Hstep _ IH]; [done|]. cbn. by rewrite IH, (step_delivered _ _ _ Hstep). Qed.

(** ** The typed provider ([provider.go]) *)

Definition typed (d : Decision) (def : goval) (ok : bool) : Decision :=
  if ok then d
  else mkDecision def (if String.eqb (Reason d) ReasonError then Reason d else ReasonTypeMismatch) (RuleID d) (Version d).

Definition BooleanEvaluation (c : Client) (key : string) (def : bool) (ctx : context) : Decision :=
  let d := sdk_Evaluate c key ctx in
  typed d (VBool def) (match DValue d with VBool _ => true | _ => false end).

Definition StringEvaluation (c : Client) (key : string) (def : string) (ctx : context) : Decision :=
  let d := sdk_Evaluate c key ctx in
  typed d (VStr def) (match DValue d with VStr _ => true | _ => false end).

Definition with_value (d : Decision) (v : goval) : Decision := mkDecision v (Reason d) (RuleID d) (Version d).

Definition NumberEvaluation (c : Client) (key : string) (def : float64) (ctx : context) : Decision :=
  let d := sdk_Evaluate c key ctx in
  match DValue d with
  | VFloat64 _ => typed d (VFloat64 def) true
  | VInt v => typed (with_value d (VFloat64 (of_int64 v))) (VFloat64 def) true
  | VInt64 v => typed (with_value d (VFloat64 (of_int64 v))) (VFloat64 def) true
  | _ => typed d (VFloat64 def) false
  end.

Definition ObjectEvaluation (c : Client) (key : string) (def : goval) (ctx : context) : Decision :=
  let d := sdk_Evaluate c key ctx in
  typed d def (match DValue d with VMap _ => true | _ => false end).

(** ** Compiling under CEL what another strategy compiled *)

Lemma validate_allow p : validatePredicate p false = Ok tt -> validatePredicate p true = Ok tt.
Proof.
  induction p as [[k a v vs pat s pc o o1 src key] IHo IHo1] using Predicate_ind. cbn [Of OfOne] in *.
  cbn [validatePredicate Kind Of OfOne Source Attr Value Values Pattern Salt Percent SegmentKey].
  assert (rall (fun x => validate_ptr x false) o = Ok tt -> rall (fun x => validate_ptr x true) o = Ok tt) as Hof.
  { rewrite !rall_ok. intros H. rewrite List.Forall_forall in *. intros [q|] Hin; [|by apply H in Hin].
    apply (IHo _ Hin), (H _ Hin). }
  destruct (kind_of k); try done.
  - intros [-> H]%guard_ok. by apply Hof.
  - intros [-> H]%guard_ok. by apply Hof.
  - by destruct o1.
Qed.

Lemma validateTreeWith_allow t : validateTreeWith t false = Ok tt -> validateTreeWith t true = Ok tt.
Proof.
  rewrite !validateTreeWith_ok. intros (H1 & H2 & H3). split_and!; [done..|].
  eapply List.Forall_impl; [|exact H3]. intros r (? & ? & p & ? & Hp). split_and!; try done.
  exists p. split; [done|]. by apply validate_allow.
Qed.

(** Compiling nothing gives no program. *)
Lemma compile_none t :
  tree_sources t = [] -> compilePredicates (rules_of t) ∅ = Ok ∅.
Proof.
  unfold tree_sources, compilePredicates. induction (rules_of t) as [|r rs IH]; [done|].
  cbn. intros [H1 H2]%app_eq_nil.
  assert (walk_ptr ∅ (When r) = Ok ∅) as ->; [|by apply IH].
  destruct (When r) as [p|]; [|done]. cbn in *. clear -H1.
  induction p as [[k a v vs pat s pc o o1 src key] IHo IHo1] using Predicate_ind.
  cbn [walkAndCompile cel_sources Kind Of OfOne Source] in *.
  assert (flat_map ptr_sources o = [] -> rfold walk_ptr ∅ o = Ok ∅) as Hof.
  { clear H1. induction IHo as [|x l Hx Hl IH]; [done|]. cbn. intros [Ha Hb]%app_eq_nil.
    destruct x as [q|]; cbn in *; [rewrite (Hx Ha)|]; by apply IH. }
  destruct (kind_of k); try done; [by apply Hof.. | destruct o1; [by apply IHo1 | done]].
Qed.

(** A flag compiled under any strategy is one CEL compiles. *)
Lemma cel_compiled s src c :
  NewEnv_ok = true -> Compile s src = Ok c -> compiled_ok (mkCompiled StrategyCEL (IR c) (CELPrograms c)).
Proof.
  intros He [_ [Hs Hw Hv _ Hp Hn]]%Compile_ok.
  assert (validateTreeWith (IR c) true = Ok tt) as Hv'.
  { destruct (strategy_cel (CStrategy c)); [done | by apply validateTreeWith_allow]. }
  assert (compilePredicates (rules_of (IR c)) ∅ = Ok (CELPrograms c)) as Hp'.
  { destruct (strategy_cel (CStrategy c)); [by apply Hp|]. rewrite (Hn eq_refl). apply compile_none, no_tree_sources.
    by rewrite validateTree_with. }
  apply compiled_ok_cel; auto.
Qed.

Lemma compile_under_cel s src c j :
  NewEnv_ok = true -> Compile s src = Ok c -> enc_tree (IR c) = Some j ->
  Compile StrategyCEL j = Ok (mkCompiled StrategyCEL (norm_tree (IR c)) (CELPrograms c)).
Proof.
  intros He Hc Ej. pose proof (cel_compiled s src c He Hc) as Hok. apply Compile_ok in Hc as [_ [_ Hw Hv _ _ _]].
  destruct (tree_trip (IR c) (valid_full _ _ Hw Hv)) as (j' & Ej' & Dj).
  rewrite Ej in Ej'. injection Ej' as <-.
  by apply (compile_doc _ StrategyCEL (mkCompiled StrategyCEL (IR c) (CELPrograms c)) j norm_raw_equiv).
Qed.

(** The flag a key compiles to, when the keys of the body are distinct. *)
Lemma compile_flags_in l acc key raw c :
  NoDup (map fst l) -> In (key, raw) l -> Compile StrategyCEL raw = Ok c -> fold_left compile_flag l acc !! key = Some c.
Proof.
  revert acc. induction l as [|[k r] l IH]; intros acc; cbn [map fold_left fst In]; [done|]. intros [Hk Hnd]%NoDup_cons [[= -> ->]|Hin] Hc.
  - clear IH Hnd. unfold compile_flag at 2. cbn [fst snd]. rewrite Hc.
    assert (forall acc : gmap string Compiled, acc !! key = Some c -> fold_left compile_flag l acc !! key = Some c) as H.
    { induction l as [|[k' r'] l IH]; intros acc' H; [done|]. cbn [map fold_left fst In] in *. apply not_elem_of_cons in Hk as [Hne Hk]. apply IH; [done|].
      unfold compile_flag. cbn [fst snd]. destruct (Compile StrategyCEL r'); [|done]. by rewrite lookup_insert_ne. }
    apply H. by rewrite lookup_insert_eq.
  - by apply IH.
Qed.

Lemma compile_flags_out l acc key :
  ~ In key (map fst l) -> fold_left compile_flag l acc !! key = acc !! key.
Proof.
  revert acc. induction l as [|[k r] l IH]; intros acc H; cbn [fold_left]; [done|]. cbn in H. rewrite IH by tauto.
  unfold compile_flag. cbn [fst snd]. destruct (Compile StrategyCEL r); [|done]. rewrite lookup_insert_ne; [done | tauto].
Qed.

Lemma NewClient_fresh o c0 : NewClient o = Ok c0 -> snap c0 = None /\ loops c0 = 0%nat.
Proof.
  unfold NewClient. destruct (is_empty _); [done|]. destruct (is_empty _); [done|]. by intros [= <-].
Qed.

Lemma no_start_no_poll c0 l c :
  snap c0 = None -> loops c0 = 0%nat -> steps c0 l c -> Forall (fun e => starts e = false) l ->
  snap c = None /\ loops c = 0%nat /\ Forall (fun e => match e with EvTick _ => False | _ => True end) l.
Proof.
  intros H0 H1 Hs. revert H0 H1. induction Hs as [|c0 e c1 l c Hstep Hs IH]; intros H0 H1 Hf; [done|].
  inversion Hf as [|? ? Hse Hfl]; subst.
  destruct (step_no_start _ _ _ Hstep H1 Hse) as [Ea Eb].
  destruct IH as (? & ? & ?); [congruence|done|done|]. split_and!; try done. constructor; [|done].
  destruct Hstep; try done. lia.
Qed.

(** ** Theorems *)

(** After any sequence of starts, ticks, stops and loop exits, in any order
    the goroutine allows, the cache is the snapshot of the last well-formed 200
    response delivered (failed polls, 404s and other statuses keep the last good
    one), and each of its flags is a validated, fully compiled flag. *)
Theorem sdk_cache o c0 l c :
  NewClient o = Ok c0 -> steps c0 l c ->
  snap c = fold_left delivered l None /\
  forall s k f, snap c = Some s -> SnapFlags s !! k = Some f ->
    compiled_ok f /\ exists raw, Compile StrategyCEL raw = Ok f.
Proof.
  intros [H0 _]%NewClient_fresh Hs. split.
  - by rewrite (steps_delivered _ _ _ Hs), H0.
  - apply (steps_snap_ok _ _ _ Hs). intros s k f E. by rewrite H0 in E.
Qed.

(** A client whose first poll failed never polls again: without a successful
    [Start] no tick is ever taken, the cache stays empty and every evaluation
    answers with reason "error", however the service recovers. *)
Theorem failed_start_is_final o c0 l c key ctx :
  NewClient o = Ok c0 -> steps c0 l c -> Forall (fun e => starts e = false) l ->
  snap c = None /\ loops c = 0%nat /\ Forall (fun e => match e with EvTick _ => False | _ => True end) l /\
  sdk_Evaluate c key ctx = mkDecision VNil ReasonError "" 0.
Proof.
  intros [H0 H1]%NewClient_fresh Hs Hf. destruct (no_start_no_poll c0 l c H0 H1 Hs Hf) as (E1 & E2 & E3).
  split_and!; try done. unfold sdk_Evaluate. by rewrite E1.
Qed.

(** C23. The SDK and the server decide alike.  Take a flag compiled under any
    strategy, and a client after any sequence of starts, ticks, stops and loop
    exits in which the last well-formed 200 answer carried the flag's stored IR:
    the client's decision for the flag is the one the server reaches when it
    compiles the IR under the flag's own strategy, in every context (with the
    snapshot's version number). *)
Theorem sdk_agrees_with_server s src c j o c0 l client b key :
  NewEnv_ok = true -> Compile s src = Ok c -> enc_tree (IR c) = Some j ->
  NewClient o = Ok c0 -> steps c0 l client -> fold_left delivered l None = Some (snap_of_body b) ->
  NoDup (map fst (sb_flags b)) -> In (key, j) (sb_flags b) ->
  exists c_srv, Compile s j = Ok c_srv /\
    forall ctx, sdk_Evaluate client key ctx =
      match Evaluate (Some c_srv) ctx (sb_version b) with Ok d => d | Err _ => mkDecision VNil ReasonError "" (sb_version b) end.
Proof.
  intros He Hc Ej [H0 _]%NewClient_fresh Hs Hd Hnd Hin. pose proof (compile_under_cel s src c j He Hc Ej) as H1.
  destruct (rehydrate s src c Hc) as (j' & Ej' & H2). rewrite Ej in Ej'. injection Ej' as <-.
  eexists. split; [exact H2|]. intros ctx. unfold sdk_Evaluate. rewrite (steps_delivered _ _ _ Hs), H0, Hd.
  cbn [snap_of_body SnapFlags SnapVersion]. unfold compile_flags. rewrite (compile_flags_in _ _ _ _ _ Hnd Hin H1).
  rewrite !(Evaluate_respell _ norm_raw_equiv). by rewrite (Evaluate_strategy StrategyCEL s).
Qed.

(** A typed evaluation returns a value of the type asked for, whatever the
    cache holds: the flag's value when it has that type, else the caller's
    default, with reason "error" kept and any other rewritten to
    "type_mismatch". *)
Theorem provider_typed c key ctx bdef sdef ndef odef :
  let d := sdk_Evaluate c key ctx in
  let substituted def d' :=
    d' = mkDecision def (if String.eqb (Reason d) ReasonError then ReasonError else ReasonTypeMismatch) (RuleID d) (Version d) in
  (exists b, DValue (BooleanEvaluation c key bdef ctx) = VBool b) /\
  (exists s, DValue (StringEvaluation c key sdef ctx) = VStr s) /\
  (exists f, DValue (NumberEvaluation c key ndef ctx) = VFloat64 f) /\
  (ObjectEvaluation c key odef ctx = d \/ substituted odef (ObjectEvaluation c key odef ctx)) /\
  (BooleanEvaluation c key bdef ctx = d \/ substituted (VBool bdef) (BooleanEvaluation c key bdef ctx)) /\
  (StringEvaluation c key sdef ctx = d \/ substituted (VStr sdef) (StringEvaluation c key sdef ctx)).
Proof.
  cbv zeta. unfold BooleanEvaluation, StringEvaluation, NumberEvaluation, ObjectEvaluation, typed.
  destruct (String.eqb_spec (Reason (sdk_Evaluate c key ctx)) ReasonError) as [E|E]; rewrite ?E;
    destruct (DValue (sdk_Evaluate c key ctx)) eqn:Ev; cbn; rewrite ?Ev; split_and!; eauto.
Qed.

(** The typed methods answer for a flag missing from a loaded snapshot with
    reason "type_mismatch", where the SDK contract documents "default"; the
    untyped [Evaluate] says "default". *)
Theorem missing_flag_reason c s key def ctx :
  snap c = Some s -> SnapFlags s !! key = None ->
  Reason (sdk_Evaluate c key ctx) = ReasonDefault /\
  BooleanEvaluation c key def ctx = mkDecision (VBool def) ReasonTypeMismatch "" (SnapVersion s).
Proof. intros Hs Hk. unfold BooleanEvaluation, sdk_Evaluate. by rewrite Hs, Hk. Qed.
End sdk.

(** ** Witnesses *)

Module SdkDemo.
Import Demo.
Definition demo_opts : Options := mkOptions "http://api" "acme" 0.
Definition demo_client : Client := mkClient (mkOptions "http://api" "acme" 10000000000) None false 0.
Definition demo_body : snapshot_body := mkBody "s1" 4 0 [("us", us_source); ("broken", "{}")].
Definition good : poll_response := Response 200 (Some demo_body).

Definition after (l : list event) (c : Client) : Client :=
  fold_left (fun c e => match e with
    | EvStart r => (Start c r).1
    | EvTick r => (pollOnce c r).1
    | EvStop => Stop c
    | EvLoopExit _ => mkClient (opts c) (snap c) (stopped c) (loops c - 1)
    end) l c.

(** A start, a failed tick, a 404, a stop and the loop's exit. *)
Definition demo_run : list event :=
  [EvStart good; EvTick RequestFailed; EvTick (Response 404 None); EvStop; EvLoopExit false].

Lemma demo_steps : steps demo_client demo_run (after demo_run demo_client).
Proof.
  eapply steps_cons; [apply step_start|]. eapply steps_cons; [apply step_tick; vm_compute; lia|].
  eapply steps_cons; [apply step_tick; vm_compute; lia|]. eapply steps_cons; [apply step_stop|].
  eapply steps_cons; [apply step_exit; [vm_compute; lia | by left] | apply steps_nil].
Defined.

(** The snapshot survives the failed polls; the broken flag was skipped. *)
Example demo_cache :
  match snap (after demo_run demo_client) with
  | Some s => SnapVersion s = 4 /\ is_Some (SnapFlags s !! "us") /\ SnapFlags s !! "broken" = None
  | None => False
  end.
Proof. vm_compute. split_and!; eauto. Qed.

Lemma sdk_cache_witness :
  snap (after demo_run demo_client) = fold_left delivered demo_run None /\
  forall s k f, snap (after demo_run demo_client) = Some s -> SnapFlags s !! k = Some f ->
    compiled_ok f /\ exists raw, Compile StrategyCEL raw = Ok f.
Proof. apply (sdk_cache demo_opts demo_client demo_run); [reflexivity | exact demo_steps]. Defined.

Lemma failed_start_is_final_witness :
  let c := after [EvStart (Response 503 None); EvStop] demo_client in
  snap c = None /\ loops c = 0%nat /\
  Forall (fun e => match e with EvTick _ => False | _ => True end) [EvStart (Response 503 None); EvStop] /\
  sdk_Evaluate c "us" [] = mkDecision VNil ReasonError "" 0.
Proof.
  apply (failed_start_is_final demo_opts demo_client); [reflexivity| |repeat constructor].
  eapply steps_cons; [apply step_start|]. eapply steps_cons; [apply step_stop | apply steps_nil].
Defined.

(** The demo's run, with the compiled IR in the body. *)
Definition us_ir : RawMessage := default "" (enc_tree (IR compiled_us)).
Definition ir_body : snapshot_body := mkBody "s1" 4 0 [("us", us_ir); ("broken", "{}")].
Definition ir_run : list event := [EvStart (Response 200 (Some ir_body)); EvTick (Response 404 None); EvStop].
Lemma sdk_agrees_with_server_witness :
  exists c_srv, Compile StrategyCEL us_ir = Ok c_srv /\
    forall ctx, sdk_Evaluate (after ir_run demo_client) "us" ctx =
      match Evaluate (Some c_srv) ctx 4 with Ok d => d | Err _ => mkDecision VNil ReasonError "" 4 end.
Proof.
  apply (sdk_agrees_with_server StrategyCEL us_source compiled_us us_ir demo_opts demo_client ir_run (after ir_run demo_client) ir_body "us").
  - reflexivity.
  - vm_compute. reflexivity.
  - vm_compute. reflexivity.
  - reflexivity.
  - eapply steps_cons; [apply step_start|]. eapply steps_cons; [apply step_tick; vm_compute; lia|].
    eapply steps_cons; [apply step_stop | apply steps_nil].
  - reflexivity.
  - apply NoDup_cons_2; [|apply NoDup_cons_2; [|apply NoDup_nil_2]]; set_solver.
  - left. reflexivity.
Defined.

Lemma missing_flag_reason_witness :
  let c := after [EvStart good] demo_client in
  Reason (sdk_Evaluate c "nope" []) = ReasonDefault /\
  BooleanEvaluation c "nope" true [] = mkDecision (VBool true) ReasonTypeMismatch "" 4.
Proof.
  apply (missing_flag_reason (after [EvStart good] demo_client) (snap_of_body demo_body) "nope" true []);
    vm_compute; reflexivity.
Defined.
End SdkDemo.
