(* ===== verification/Proxy.v ===== *)
(** The evaluation proxy ([internal/proxy]): its construction, its four routes
    and its life cycle over the SDK client.

    The handlers depend on the SDK through the interface [Evaluator], as in the
    source; the SDK client is an instance. *)
From stdpp Require Import base list strings numbers gmap.
From Stdlib Require Import Ascii String ZArith Lia.
From S2P Require Import Prelude Text Literal Json Float64 GoValue Ir Compile Rollout Eval Sdk.

(** ** Decisions as JSON *)

(** [json.Marshal] of a [Decision]; [rule_id] is omitted when empty. *)
Definition enc_decision (d : Decision) : option jdoc :=
  do? v := doc_of (DValue d) in
  Some (JObj ([("value", v); ("reason", enc_str (Reason d))] ++ omit_str "rule_id" (RuleID d) ++
              [("version", JNum (itoa (Version d)))])).

(** [v == nil]. *)
Definition is_nil (v : goval) : bool := match v with VNil => true | _ => false end.

(** ** The interface *)

Section proxy.
Context {RX : RegexpLib} {CEL : CelLib} {TS : TsLib}.

(** What the proxy needs of an SDK client, with the promise it relies on: without
    a snapshot every evaluation is an error decision without a value. *)
Class Evaluator (E : Type) : Type := {
  ev_Evaluate : E -> string -> context -> Decision;
  ev_Snapshot : E -> option Snapshot;
  ev_no_snapshot : forall e key ctx, ev_Snapshot e = None ->
    ev_Evaluate e key ctx = mkDecision VNil ReasonError "" 0
}.

Lemma client_no_snapshot c key ctx : snap c = None -> sdk_Evaluate c key ctx = mkDecision VNil ReasonError "" 0.
Proof. intros H. unfold sdk_Evaluate. by rewrite H. Qed.

#[export] Instance Client_Evaluator : Evaluator Client := {
  ev_Evaluate := sdk_Evaluate;
  ev_Snapshot := snap;
  ev_no_snapshot := client_no_snapshot
}.

Section handlers.
Context {E : Type} {EV : Evaluator E}.

(** The proxy's configuration and evaluator; [None] when no project is set. *)
Record Proxy : Type := mkProxy { cfg_slug : string; cfg_api : string; evaluator : option E }.

Record EvaluateRequest : Type := mkEvaluateRequest {
  req_Key : string;
  req_DefaultValue : goval;    (* nil when absent *)
  req_Context : context
}.

Record SnapshotInfo : Type := mkSnapshotInfo {
  info_ID : string; info_Version : Z; info_CreatedAt : Z; info_FlagCount : nat; info_ProjectSlug : string
}.

(** The body of a response. *)
Inductive body : Type :=
| BHealth (status service version : string)
| BReady (status project : string) (snapshot_loaded : bool)
| BError (code message : string)
| BDecision (d : Decision)
| BSnapshot (info : SnapshotInfo).

Record response : Type := mkResponse { status : Z; payload : body }.

Definition writeJSONError (st : Z) (code msg : string) : response := mkResponse st (BError code msg).

(** [version] is the build's. *)
Definition handleHealth (version : string) : response := mkResponse 200 (BHealth "ok" "falseflag-proxy" version).

Definition handleReady (p : Proxy) : response :=
  let snapshotLoaded := match evaluator p with
                        | Some e => bool_decide (is_Some (ev_Snapshot e))
                        | None => false
                        end in
  mkResponse 200 (BReady "ok" (cfg_slug p) snapshotLoaded).

(** [req] is the decoded body, or the text of the decoder's error. *)
Definition handleEvaluate (p : Proxy) (req : result string EvaluateRequest) : response :=
  match evaluator p with
  | None => writeJSONError 503 "no_project_configured" "proxy was started without FALSEFLAG_PROXY_PROJECT_SLUG"
  | Some e =>
      match req with
      | Err err => writeJSONError 400 "invalid_body" err
      | Ok req =>
          if is_empty (req_Key req) then writeJSONError 400 "missing_key" "key is required"
          else
            let d := ev_Evaluate e (req_Key req) (req_Context req) in
            let d := if is_nil (DValue d) && negb (is_nil (req_DefaultValue req))
                     then with_value d (req_DefaultValue req) else d in
            mkResponse 200 (BDecision d)
      end
  end.

Definition handleSnapshotInfo (p : Proxy) : response :=
  match evaluator p with
  | None => writeJSONError 503 "no_project_configured" ""
  | Some e =>
      match ev_Snapshot e with
      | None => writeJSONError 503 "no_snapshot" "first poll has not completed"
      | Some s =>
          mkResponse 200 (BSnapshot (mkSnapshotInfo (SnapID s) (SnapVersion s) (SnapCreatedAt s)
                            (size (SnapFlags s)) (cfg_slug p)))
      end
  end.
End handlers.
Arguments Proxy : clear implicits.

(** ** Construction and life cycle *)

(** [New]: the client exists only when both the project and the API are set. *)
Definition New (slug api : string) (interval : Z) : result client_err (Proxy Client) :=
  if negb (is_empty slug) && negb (is_empty api) then
    let? client := NewClient (mkOptions api slug interval) in
    Ok (mkProxy slug api (Some client))
  else Ok (mkProxy slug api None).

(** A run of the proxy: [Run] starts the client once, then ticks and requests
    interleave, and [Stop] and the loop's exit end it.  [p'] is the proxy at a
    point of the run. *)
Inductive runs (p : Proxy Client) (first : poll_response) (later : list event) : Proxy Client -> Prop :=
| runs_client c c' :
    evaluator p = Some c -> Forall (fun e => match e with EvStart _ => False | _ => True end) later ->
    steps c (EvStart first :: later) c' -> runs p first later (mkProxy (cfg_slug p) (cfg_api p) (Some c'))
| runs_none : evaluator p = None -> later = [] -> runs p first later p.

Lemma New_client slug api interval p c :
  New slug api interval = Ok p -> evaluator p = Some c -> NewClient (mkOptions api slug interval) = Ok c.
Proof.
  unfold New. destruct (_ && _); [|by intros [= <-]]. intros H. inv_ok. cbn. by intros [= <-].
Qed.

(** ** Theorems *)

(** The proxy's contract over any evaluator: it answers 503 exactly when no
    project is configured, 400 for an undecodable body or an empty key, and
    otherwise 200 with the evaluator's decision, the caller's default in place
    of a missing value. *)
Theorem handleEvaluate_contract {E} {EV : Evaluator E} (p : Proxy E) req :
  (evaluator p = None -> status (handleEvaluate p req) = 503) /\
  (forall e, evaluator p = Some e ->
    match req with
    | Err err => handleEvaluate p req = mkResponse 400 (BError "invalid_body" err)
    | Ok r =>
        (req_Key r = "" -> handleEvaluate p req = mkResponse 400 (BError "missing_key" "key is required")) /\
        (req_Key r <> "" -> exists d, handleEvaluate p req = mkResponse 200 (BDecision d) /\
           Reason d = Reason (ev_Evaluate e (req_Key r) (req_Context r)) /\
           DValue d = (if is_nil (DValue (ev_Evaluate e (req_Key r) (req_Context r)))
                       then req_DefaultValue r else DValue (ev_Evaluate e (req_Key r) (req_Context r))) /\
           (ev_Snapshot e = None -> Reason d = ReasonError /\ DValue d = req_DefaultValue r))
    end).
Proof.
  unfold handleEvaluate. split; [by intros ->|]. intros e ->. destruct req as [r|]; [|done].
  unfold is_empty. destruct (String.eqb_spec (req_Key r) "") as [Hk|Hk]; [by split|]. split; [done|]. intros _.
  eexists. split; [done|]. pose proof (ev_no_snapshot e (req_Key r) (req_Context r)) as Hns.
  destruct (ev_Evaluate e (req_Key r) (req_Context r)) as [v rs id ver]. cbn in *.
  destruct (is_nil v) eqn:Ev; cbn.
  - destruct v; try done. destruct (is_nil (req_DefaultValue r)) eqn:Ed; cbn.
    + destruct (req_DefaultValue r); try done. split_and!; [done..|]. intros H. by injection (Hns H) as -> _ _.
    + split_and!; [done..|]. intros H. by injection (Hns H) as -> _ _.
  - split_and!; [done..|]. intros H. by injection (Hns H) as -> _ _ _.
Qed.

(** When the initial poll of a run fails, the proxy never loads a snapshot
    and never takes another poll, although it logs that it waits for the next
    one: readiness stays 200 without a snapshot, the snapshot route stays 503,
    and every evaluation is answered 200 with reason "error" and the caller's
    default (not 503). *)
Theorem failed_first_poll_is_final slug api interval p first later p' r :
  New slug api interval = Ok p -> is_Some (evaluator p) -> starts (EvStart first) = false ->
  runs p first later p' -> req_Key r <> "" ->
  handleReady p' = mkResponse 200 (BReady "ok" slug false) /\
  handleSnapshotInfo p' = mkResponse 503 (BError "no_snapshot" "first poll has not completed") /\
  handleEvaluate p' (Ok r) = mkResponse 200 (BDecision (mkDecision (req_DefaultValue r) ReasonError "" 0)) /\
  Forall (fun e => match e with EvTick _ => False | _ => True end) later.
Proof.
  intros Hn [c Hc] Hf Hr Hk. destruct Hr as [c1 c' Hc1 Hl Hs|Hnone _]; [|congruence].
  rewrite Hc in Hc1. injection Hc1 as <-. assert (cfg_slug p = slug) as Hslug.
  { unfold New in Hn. destruct (_ && _); [inv_ok|injection Hn as <-]; done. }
  apply (New_client _ _ _ _ _ Hn), NewClient_fresh in Hc as [H0 H1].
  destruct (no_start_no_poll c _ c' H0 H1 Hs) as (Es & _ & Ht).
  { constructor; [done|]. eapply List.Forall_impl; [|exact Hl]. by intros []. }
  inversion Ht as [|? ? _ Ht']; subst. unfold handleReady, handleSnapshotInfo, handleEvaluate, is_empty.
  cbn. unfold sdk_Evaluate. rewrite Es. destruct (String.eqb_spec (req_Key r) ""); [done|]. cbn.
  split_and!; try done. by destruct (req_DefaultValue r).
Qed.

(** The body of a decision with a JSON value decodes to that value, reason,
    rule and version: what the proxy writes is what a reader gets. *)
Theorem decision_roundtrip d :
  plain (DValue d) = true -> utf8_valid (Reason d) = true -> utf8_valid (RuleID d) = true ->
  exists doc, enc_decision d = Some doc /\ scan (print doc) = Some doc /\
    exists m, (any_of doc).1 = VMap m /\ map_get "value" m = Some (DValue d) /\
      map_get "reason" m = Some (VStr (Reason d)) /\
      map_get "rule_id" m = (if is_empty (RuleID d) then None else Some (VStr (RuleID d))).
Proof.
  intros Hp Hr Hi. destruct (plain_decodes (DValue d) Hp) as (v & Ev & Hw & Ha).
  unfold enc_decision. rewrite Ev. cbn [mbind option_bind]. eexists. split; [reflexivity|]. split.
  - apply scan_print, wf_obj. cbn [app]. constructor; [split; [by apply lit_name | done]|].
    constructor; [split; [by apply lit_name | apply lit_quote]|]. rewrite List.Forall_app. split; [by apply wf_omit_str|].
    apply Forall_singleton. split; [by apply lit_name | apply num_lit_itoa].
  - cbn [any_of fst]. fold any_member. eexists. split; [reflexivity|].
    fold (load (map_bad any_member ([("value", v); ("reason", enc_str (Reason d))] ++ omit_str "rule_id" (RuleID d) ++
      [("version", JNum (itoa (Version d)))])).1 []).
    unfold omit_str, is_empty. destruct (String.eqb (RuleID d) ""); cbn [app map_bad map fst any_member snd load fold_left].
    all: unfold any_member; cbn [fst snd any_of enc_str]; rewrite Ha.
    all: destruct (parse64 (itoa (Version d))); cbn [fst snd].
    all: change (unquote "value") with "value"; change (unquote "reason") with "reason";
         change (unquote "version") with "version"; try change (unquote "rule_id") with "rule_id".
    all: rewrite !map_get_set, ?unquote_quote by done; cbn [String.eqb Ascii.eqb Bool.eqb map_get]; done.
Qed.
End proxy.

Arguments Proxy E : clear implicits.

(** ** Witnesses *)

Module ProxyDemo.
Import Demo SdkDemo.
Definition demo_proxy : Proxy Client := mkProxy "acme" "http://api" (Some demo_client).
Definition demo_req : EvaluateRequest := mkEvaluateRequest "us" (VBool true) [].

(** A transport failure at start: evaluation is answered 200 with the default. *)
Lemma failed_first_poll_is_final_witness :
  let c' := after [EvStart RequestFailed] demo_client in
  let p' := mkProxy "acme" "http://api" (Some c') in
  handleReady p' = mkResponse 200 (BReady "ok" "acme" false) /\
  handleSnapshotInfo p' = mkResponse 503 (BError "no_snapshot" "first poll has not completed") /\
  handleEvaluate p' (Ok demo_req) = mkResponse 200 (BDecision (mkDecision (VBool true) ReasonError "" 0)) /\
  Forall (fun e => match e with EvTick _ => False | _ => True end) [].
Proof.
  apply (failed_first_poll_is_final "acme" "http://api" 0 demo_proxy RequestFailed []).
  - reflexivity.
  - eexists. reflexivity.
  - reflexivity.
  - apply (runs_client demo_proxy RequestFailed [] demo_client); [reflexivity | constructor |].
    eapply steps_cons; [apply step_start | apply steps_nil].
  - discriminate.
Defined.

Lemma decision_roundtrip_witness :
  let d := mkDecision (VStr "x&y") "rule_matched" "us" 3 in
  exists doc, enc_decision d = Some doc /\ scan (print doc) = Some doc /\
    exists m, (any_of doc).1 = VMap m /\ map_get "value" m = Some (DValue d) /\
      map_get "reason" m = Some (VStr (Reason d)) /\
      map_get "rule_id" m = (if is_empty (RuleID d) then None else Some (VStr (RuleID d))).
Proof. apply (decision_roundtrip (mkDecision (VStr "x&y") "rule_matched" "us" 3)); reflexivity. Defined.
End ProxyDemo.
