(* ===== verification/Jsonb.v ===== *)
(** PostgreSQL's [jsonb] columns.  The PostgreSQL schema ([db/migrations])
    declares every document column [jsonb]: the server parses the text it is
    given and, when the column is read, writes the value again.  Spaces and the
    order of members are not kept, numbers are written the way [numeric] is, and
    strings are escaped afresh.

    The server is not part of this repository, so how it writes numbers and
    strings and how it orders members are parameters ([Jsonb]), with what its
    documentation says of them ([JsonbLaws]).  The theorem shows that the IR of a
    published version that went through such a column compiles and decides like
    the one that was published. *)
From stdpp Require Import base list strings numbers gmap sorting.
From Stdlib Require Import Ascii String ZArith Lia Floats.SpecFloat.
From S2P Require Import Prelude Text Literal Json Float64 GoValue Ir Compile Eval AnyTrip.

Class Jsonb : Type := {
  jb_num : string -> option string;      (* the text of a number, when [numeric] holds it *)
  jb_str : string -> option string;      (* the literal of a string, when [text] holds it *)
  jb_members : list (string * jdoc) -> list (string * jdoc)
}.

Section jsonb.
Context {J : Jsonb}.

(** The document a [jsonb] column gives back; [None] when it refuses it. *)
Fixpoint jb (d : jdoc) : option jdoc :=
  match d with
  | JNull | JBool _ => Some d
  | JNum l => do? l' := jb_num l in Some (JNum l')
  | JStr l => do? l' := jb_str l in Some (JStr l')
  | JArr l => do? l' := mapM jb l in Some (JArr l')
  | JObj m =>
      do? m' := mapM (fun kv => do? k := jb_str kv.1 in do? d := jb kv.2 in Some (k, d)) m in
      Some (JObj (jb_members m'))
  end.
Definition jb_member (kv : string * jdoc) : option (string * jdoc) :=
  do? k := jb_str kv.1 in do? d := jb kv.2 in Some (k, d).

(** The text a [jsonb] column gives back. *)
Definition jsonb (s : string) : option string :=
  do? d := scan s in do? d' := jb d in Some (print d').
End jsonb.

(** What the documentation says: a number keeps its value ([numeric] has no
    negative zero) and an integer is written as one, a string keeps its
    characters, and members with distinct keys are kept, in some order. *)
Class JsonbLaws {J : Jsonb} : Prop := {
  jb_num_lit l l' : num_lit l -> jb_num l = Some l' -> num_lit l';
  jb_num_value l l' : num_lit l -> jb_num l = Some l' ->
    parse64 l' = match parse64 l with Some (S754_zero _) => Some (S754_zero false) | r => r end;
  jb_num_int l l' z : parse_int l = Some z -> jb_num l = Some l' -> parse_int l' = Some z;
  jb_str_value l l' : str_lit l -> jb_str l = Some l' -> str_lit l' /\ unquote l' = unquote l;
  jb_members_distinct m : NoDup (map member_key m) -> jb_members m ≡ₚ m
}.

(** Documents that keep their meaning: no negative zero, and no object with two
    keys that differ in case only. *)
Definition folded (kv : string * jdoc) : string := fold_key (unquote kv.1).
Fixpoint stable_doc (d : jdoc) : bool :=
  match d with
  | JNum l => match parse64 l with Some (S754_zero true) => false | _ => true end
  | JArr l => forallb stable_doc l
  | JObj m => bool_decide (NoDup (map folded m)) && forallb (fun kv => stable_doc kv.2) m
  | _ => true
  end.
Definition stable (s : string) : bool := match scan s with Some d => stable_doc d | None => false end.

(** ** Sorted maps *)

Definition key_lt {A} (a b : string * A) : Prop := sltb a.1 b.1 = true.

#[export] Instance key_lt_antisymm {A} : AntiSymm eq (@key_lt A).
Proof. intros a b H H'. pose proof (sltb_trans _ _ _ H H') as E. by rewrite sltb_irrefl in E. Qed.

Lemma map_get_in {A} k (v : A) m : In (k, v) m -> map_get k m <> None.
Proof.
  induction m as [|[k' v'] m IH]; [done|]. cbn. intros [[= -> ->]|H]; [by rewrite String.eqb_refl|].
  destruct (String.eqb k k'); auto.
Qed.

Lemma keys_sorted_strong {A} (m : list (string * A)) : keys_sorted m = true -> StronglySorted key_lt m.
Proof.
  induction m as [|[k v] m IH]; [constructor|]. intros [Hk Hs]%keys_sorted_cons. constructor; [auto|].
  apply List.Forall_forall. intros [k' v'] Hin. apply Hk. by eapply map_get_in.
Qed.

(** Loading the members of an object does not depend on their order. *)
Lemma load_perm_eq m m' : NoDup (map fst m) -> m ≡ₚ m' -> load m [] = load m' [].
Proof.
  intros Hn Hp. apply (StronglySorted_unique key_lt).
  - apply keys_sorted_strong. by apply load_keys_sorted.
  - apply keys_sorted_strong. by apply load_keys_sorted.
  - rewrite !load_perm; rewrite ?app_nil_r; [done | | done]. by rewrite <- Hp.
Qed.

Lemma existsb_perm {A} (p : A -> bool) l l' : l ≡ₚ l' -> existsb p l = existsb p l'.
Proof. induction 1; cbn; [done | by f_equal | rewrite !orb_assoc; f_equal; apply orb_comm | congruence]. Qed.

Lemma any_obj_perm m m' : NoDup (map member_key m) -> m ≡ₚ m' -> any_of (JObj m) = any_of (JObj m').
Proof.
  intros Hn Hp. cbn [any_of]. fold any_member. unfold map_bad. cbn [fst snd]. f_equal; [|by apply existsb_perm].
  f_equal. apply load_perm_eq; [|by apply Permutation_map]. rewrite map_map. erewrite map_ext; [exact Hn|].
  intros [k d]. unfold any_member, member_key. cbn. by destruct (any_of d).
Qed.

Section laws.
Context {J : Jsonb} {JL : JsonbLaws}.

(** ** Values are kept *)

Lemma folded_keys m : NoDup (map folded m) -> NoDup (map member_key m).
Proof.
  induction m as [|kv m IH]; [constructor|]. cbn. intros [Hk Hn]%NoDup_cons. apply NoDup_cons. split; [|auto].
  intros Hin. apply Hk. apply list_elem_of_In. apply list_elem_of_In in Hin. apply in_map_iff in Hin as (kv' & E & Hin').
  apply in_map_iff. exists kv'. split; [|done]. unfold folded. unfold member_key in E. by rewrite E.
Qed.

(** The members after conversion, before they are put in order. *)
Definition same_member (kv kv' : string * jdoc) : Prop := unquote kv'.1 = unquote kv.1 /\ jb kv.2 = Some kv'.2.

Lemma mapM_Forall2 {A B} (f : A -> option B) l l' : mapM f l = Some l' -> Forall2 (fun x y => f x = Some y) l l'.
Proof. apply mapM_Some. Qed.

Lemma jb_obj m d' :
  Forall (fun kv => str_lit kv.1) m -> NoDup (map folded m) -> jb (JObj m) = Some d' ->
  exists m1 m2, d' = JObj m2 /\ m1 ≡ₚ m2 /\ Forall2 same_member m m1 /\ Forall (fun kv => str_lit kv.1) m1 /\
    NoDup (map folded m1) /\ NoDup (map folded m2).
Proof.
  intros Hl Hn H. cbn [jb] in H. fold jb_member in H. destruct (mapM jb_member m) as [m1|] eqn:E; [|done].
  injection H as <-.
  assert (Forall2 same_member m m1 /\ Forall (fun kv => str_lit kv.1) m1) as [Hs Hl1].
  { apply mapM_Forall2 in E. clear Hn. induction E as [|[k d] [k' d'] m m1 E _ IH]; [by split; constructor|].
    apply Forall_cons in Hl as [Hk Hl]. destruct (IH Hl) as [? ?]. unfold jb_member in E. cbn [fst snd] in *.
    destruct (jb_str k) as [x|] eqn:Ek; [|done]. cbn in E. destruct (jb d) as [y|] eqn:Ey; [|done]. injection E as -> ->.
    destruct (jb_str_value k k' Hk Ek) as [Hk' Hu]. by split; constructor. }
  assert (map folded m1 = map folded m) as Hf.
  { clear -Hs. unfold folded. induction Hs as [|kv kv' m m1 [Hu _] _ IH]; [done|]. cbn. by rewrite IH, Hu. }
  assert (jb_members m1 ≡ₚ m1) as Hp by (apply jb_members_distinct, folded_keys; by rewrite Hf).
  exists m1, (jb_members m1). split_and!; try done; [by rewrite Hf | by rewrite Hp, Hf].
Qed.

(** A converted document is well formed, is stable again, and decodes into the
    same [any]. *)
Lemma jb_any d d' :
  wf_doc d -> stable_doc d = true -> jb d = Some d' -> wf_doc d' /\ stable_doc d' = true /\ any_of d' = any_of d.
Proof.
  revert d'. induction d as [|b|l|l|l IH|m IH] using jdoc_ind; intros d' Hw Hs H.
  - by injection H as <-.
  - by injection H as <-.
  - cbn in H. destruct (jb_num l) as [l'|] eqn:E; [|done]. injection H as <-. cbn in *.
    rewrite (jb_num_value l l' Hw E). split; [by eapply jb_num_lit|]. destruct (parse64 l) as [f|]; [|done].
    destruct f as [[]| | |]; done.
  - cbn in H. destruct (jb_str l) as [l'|] eqn:E; [|done]. injection H as <-. cbn in *.
    destruct (jb_str_value l l' Hw E) as [? ->]. done.
  - cbn [jb] in H. destruct (mapM jb l) as [l'|] eqn:E; [|done]. injection H as <-. apply mapM_Forall2 in E.
    apply wf_arr in Hw. cbn [stable_doc] in Hs.
    assert (Forall wf_doc l' /\ forallb stable_doc l' = true /\ map_bad any_of l' = map_bad any_of l) as (H1 & H2 & H3).
    { induction E as [|d d' l l' E _ IHl]; [done|]. apply Forall_cons in IH as [IHd IH], Hw as [Hw Hws].
      cbn [forallb] in Hs. bsplit. destruct (IHl IH Hws) as (? & ? & E'); [done|]. destruct (IHd d') as (? & Hs' & Ha); [done..|].
      split_and!; [by constructor | cbn; by rewrite Hs' | by rewrite !map_bad_cons, Ha, E']. }
    split; [by apply wf_arr|]. split; [done|]. cbn [any_of]. by rewrite H3.
  - apply wf_obj in Hw. cbn [stable_doc] in Hs. bsplit. apply bool_decide_eq_true in H0.
    destruct (jb_obj m d') as (m1 & m2 & -> & Hp & Hm & Hl & Hn1 & Hn2); [|done|done|].
    { eapply List.Forall_impl; [|exact Hw]. by intros kv []. }
    assert (Forall (fun kv => str_lit kv.1 /\ wf_doc kv.2) m1 /\ forallb (fun kv => stable_doc kv.2) m1 = true /\
            map_bad any_member m1 = map_bad any_member m) as (Hw1 & Hs1 & Ha1).
    { clear -Hw IH H1 Hm Hl. induction Hm as [|[k d] [k' d'] m m1 [Hu Hd] _ IHm]; [done|].
      apply Forall_cons in IH as [IHd IH], Hw as [[_ Hw] Hws], Hl as [Hk Hl]. cbn [forallb] in H1. bsplit.
      destruct IHm as (? & ? & E'); [done..|]. cbn [fst snd] in *. destruct (IHd d') as (? & Hs' & Ha); [done..|].
      split_and!; [by repeat constructor | cbn; by rewrite Hs' |].
      rewrite !map_bad_cons, E'. unfold any_member. cbn [fst snd]. by rewrite Hu, Ha. }
    split_and!.
    + apply wf_obj. by rewrite <- Hp.
    + cbn [stable_doc]. rewrite bool_decide_eq_true_2 by done. by eapply forallb_perm.
    + rewrite <- (any_obj_perm m1 m2); [|by apply folded_keys | done]. cbn [any_of]. fold any_member. by rewrite Ha1.
Qed.

(** The spelling a raw message has after it went through a column. *)
Definition jb_raw (r : RawMessage) : RawMessage :=
  match scan r with
  | Some d => if stable_doc d then match jb d with Some d' => print d' | None => r end else r
  | None => r
  end.

Lemma jb_raw_print d d' : wf_doc d -> stable_doc d = true -> jb d = Some d' -> jb_raw (dec_raw d) = dec_raw d'.
Proof. intros Hw Hs H. unfold jb_raw, dec_raw. by rewrite scan_print, Hs, H. Qed.

Lemma jb_raw_equiv r : raw_equiv (jb_raw r) r.
Proof.
  unfold jb_raw. destruct (scan r) as [d|] eqn:Es; [|done]. destruct (stable_doc d) eqn:Hs; [|done].
  destruct (jb d) as [d'|] eqn:E; [|done]. pose proof (scan_sound r d Es) as Hw.
  destruct (jb_any d d' Hw Hs E) as (Hw' & _ & Ha). unfold raw_equiv, unmarshal_any, unmarshal_string.
  rewrite (scan_print d' Hw'), Es, (print_nonempty d' Hw'). split_and!; [done| |by destruct r].
  destruct d as [| |l|l|l|m]; cbn [jb] in E.
  - by injection E as <-.
  - by injection E as <-.
  - destruct (jb_num l); [|done]. by injection E as <-.
  - destruct (jb_str l); [|done]. injection E as <-. by injection Ha as ->.
  - destruct (mapM jb l); [|done]. by injection E as <-.
  - destruct (mapM _ m); [|done]. by injection E as <-.
Qed.

(** ** Decoding a converted document *)

Lemma field_of_fold {F} (names : list (string * F)) k f :
  field_of names k = Some f -> exists n, In (n, f) names /\ fold_key n = fold_key k.
Proof.
  unfold field_of. destruct (List.find _ names) as [[n g]|] eqn:E.
  - intros [= <-]. apply List.find_some in E as [Hin He%String.eqb_eq]. cbn in He. subst. eauto.
  - clear E. destruct (List.find _ names) as [[n g]|] eqn:E; [|done]. intros [= <-].
    apply List.find_some in E as [Hin He%String.eqb_eq]. eauto.
Qed.

Lemma names_inj {F} (names : list (string * F)) n n' f :
  NoDup (map snd names) -> In (n, f) names -> In (n', f) names -> n = n'.
Proof.
  induction names as [|[x g] names IH]; [done|]. cbn. intros [Hg Hn]%NoDup_cons [[= -> ->]|H] [[= <-]|H']; auto;
    [|subst g]; (exfalso; apply Hg, list_elem_of_In, in_map_iff; eexists (_, _); split; [|done]; done).
Qed.

(** Keys that differ in more than case name different fields. *)
Lemma fields_distinct {F} (names : list (string * F)) m :
  NoDup (map snd names) -> NoDup (map folded m) -> NoDup (fields names m).
Proof.
  intros Hf. unfold fields. induction m as [|[k d] m IH]; [constructor|]. cbn. intros [Hk Hn]%NoDup_cons.
  destruct (field_of names (unquote k)) as [f|] eqn:E; cbn; [|auto]. apply NoDup_cons. split; [|auto].
  intros (kv & Hin & E')%list_elem_of_omap. apply Hk. apply list_elem_of_In, in_map_iff. exists kv.
  split; [|by apply list_elem_of_In]. destruct (field_of_fold _ _ _ E) as (n & Hi & <-).
  destruct (field_of_fold _ _ _ E') as (n' & Hi' & En'). unfold folded. rewrite <- En'. f_equal. by eapply names_inj.
Qed.

(** The members of an object, when every field decodes alike up to [R]. *)
Section object.
Context {A F : Type} (names : list (string * F)) (set : F -> jdoc -> A -> option A) (R : A -> A).
Hypothesis commute : forall f g d e a, f <> g -> (set f d a ≫= set g e) = (set g e a ≫= set f d).
Hypothesis one_name : NoDup (map snd names).
Definition alike (d d' : jdoc) : Prop := forall f a b, set f d a = Some b -> set f d' (R a) = Some (R b).

Lemma members_alike m m' a b :
  Forall2 (fun kv kv' => unquote kv'.1 = unquote kv.1 /\ alike kv.2 kv'.2) m m' ->
  dec_members names set m a = Some b -> dec_members names set m' (R a) = Some (R b).
Proof.
  intros H. revert a. induction H as [|[k d] [k' d'] m m' [Hu Hd] _ IH]; intros a; cbn [dec_members]; [by intros [= ->]|].
  cbn [fst snd] in *. rewrite Hu. destruct (field_of names (unquote k)) as [f|]; cbn; [|auto].
  destruct (set f d a) as [x|] eqn:E; [|done]. rewrite (Hd f a x E). cbn. auto.
Qed.

Lemma object_alike m d' a b :
  wf_doc (JObj m) -> stable_doc (JObj m) = true -> jb (JObj m) = Some d' ->
  Forall (fun kv => forall x, wf_doc kv.2 -> stable_doc kv.2 = true -> jb kv.2 = Some x -> alike kv.2 x) m ->
  dec_members names set m a = Some b -> exists m', d' = JObj m' /\ dec_members names set m' (R a) = Some (R b).
Proof.
  intros Hw Hs Hj Ha Hd. apply wf_obj in Hw. cbn [stable_doc] in Hs. bsplit. apply bool_decide_eq_true in H.
  destruct (jb_obj m d') as (m1 & m2 & -> & Hp & Hm & _ & Hn & _); [|done|done|].
  { eapply List.Forall_impl; [|exact Hw]. by intros kv []. }
  exists m2. split; [done|]. rewrite <- (dec_members_perm names set commute m1 m2); [|done|by apply fields_distinct].
  eapply members_alike; [|exact Hd]. clear -Hw Ha H0 Hm. induction Hm as [|[k d] [k' d'] m m1 [Hu Hd] _ IH]; [constructor|].
  apply Forall_cons in Ha as [Ha Has], Hw as [[_ Hw] Hws]. cbn [forallb] in H0. bsplit. constructor; [|auto]. split; [done|].
  cbn [fst snd] in *. auto.
Qed.
End object.

Lemma elems_alike {A} (zero : A) dec (R : A -> A) ds ds' old l :
  R zero = zero -> Forall2 (fun d d' => forall a b, dec d a = Some b -> dec d' (R a) = Some (R b)) ds ds' ->
  dec_elems zero dec ds old = Some l -> dec_elems zero dec ds' (map R old) = Some (map R l).
Proof.
  intros Hz H. revert old l. induction H as [|d d' ds ds' Hd _ IH]; intros old l; cbn [dec_elems]; [by intros [= <-]|].
  destruct (dec d _) as [x|] eqn:Ex; [|done]. cbn. destruct (dec_elems zero dec ds _) as [xs|] eqn:E; [|done].
  intros [= <-]. apply Hd in Ex. apply IH in E. destruct old; cbn in *; [rewrite Hz in Ex|]; by rewrite Ex, E.
Qed.

Lemma str_alike d d' a b :
  wf_doc d -> jb d = Some d' -> dec_str d a = Some b -> dec_str d' a = Some b.
Proof.
  destruct d; cbn; try done; intros Hw; [by intros [= <-]|]. destruct (jb_str lit) as [l'|] eqn:E; [|done].
  intros [= <-]. cbn. by destruct (jb_str_value lit l' Hw E) as [_ ->].
Qed.
Lemma int_alike d d' a b : jb d = Some d' -> dec_int d a = Some b -> dec_int d' a = Some b.
Proof.
  destruct d; cbn; try done; [by intros [= <-]|]. destruct (jb_num lit) as [l'|] eqn:E; [|done].
  intros [= <-] H. cbn. by eapply jb_num_int.
Qed.
Lemma jb_null : forall d', jb JNull = Some d' -> d' = JNull.
Proof. by intros d' [= <-]. Qed.
Lemma jb_arr ds d' :
  wf_doc (JArr ds) -> stable_doc (JArr ds) = true -> jb (JArr ds) = Some d' ->
  exists ds', d' = JArr ds' /\ Forall2 (fun x y => wf_doc x /\ stable_doc x = true /\ jb x = Some y) ds ds'.
Proof.
  intros Hw Hs H. cbn [jb] in H. destruct (mapM jb ds) as [ds'|] eqn:E; [|done]. injection H as <-.
  exists ds'. split; [done|]. apply mapM_Forall2 in E. apply wf_arr in Hw. cbn [stable_doc] in Hs.
  induction E as [|x y l l' Hx _ IH]; [constructor|]. apply Forall_cons in Hw as [? ?]. cbn [forallb] in Hs. bsplit.
  constructor; auto.
Qed.

(** ** Predicates, rules, trees *)

Abbreviation jb_pred := (respell_pred jb_raw).
Definition dec_alike (d d' : jdoc) : Prop :=
  forall o x, dec_pred d o = Some x -> dec_pred d' (fmap jb_pred o) = Some (fmap jb_pred x).
Definition converts (d : jdoc) : Prop :=
  forall d', wf_doc d -> stable_doc d = true -> jb d = Some d' -> dec_alike d d'.

Lemma raws_alike ds ds' :
  Forall2 (fun x y => wf_doc x /\ stable_doc x = true /\ jb x = Some y) ds ds' -> map dec_raw ds' = map jb_raw (map dec_raw ds).
Proof. induction 1 as [|x y l l' (Hw & Hs & Hj) _ IH]; [done|]. cbn [map]. by rewrite IH, (jb_raw_print x y). Qed.

Lemma pred_set_alike d d' :
  wf_doc d -> stable_doc d = true -> jb d = Some d' -> dec_alike d d' ->
  (forall ds, d = JArr ds -> Forall converts ds) -> alike (pred_set dec_pred) jb_pred d d'.
Proof.
  intros Hw Hs Hj Hd Hds f [k a v vs pat s pc o o1 src key] b.
  destruct f; cbn [pred_set respell_pred Kind Attr Value Values Pattern Salt Percent Of OfOne Source SegmentKey]; intros E;
    try (destruct (dec_str d _) as [x|] eqn:Ex; [|discriminate E]; rewrite (str_alike d d' _ x Hw Hj Ex); by injection E as <-).
  - injection E as <-. by rewrite <- (jb_raw_print d d' Hw Hs Hj).
  - destruct d as [| | | |ds|]; try discriminate E; injection E as <-; [by rewrite (jb_null d' Hj)|].
    destruct (jb_arr ds d' Hw Hs Hj) as (ds' & -> & H). by rewrite (raws_alike ds ds' H).
  - destruct (dec_int d pc) as [x|] eqn:Ex; [|discriminate E]. rewrite (int_alike d d' _ x Hj Ex). by injection E as <-.
  - destruct d as [| | | |ds|]; try discriminate E; [injection E as <-; by rewrite (jb_null d' Hj)|].
    destruct (dec_elems None dec_pred ds o) as [os|] eqn:Eo; [|discriminate E]. injection E as <-.
    destruct (jb_arr ds d' Hw Hs Hj) as (ds' & -> & H).
    rewrite (elems_alike None dec_pred (fmap jb_pred) ds ds' o os); [done | done | | exact Eo].
    specialize (Hds ds eq_refl). clear -H Hds. induction H as [|x y l l' (? & ? & ?) _ IH]; [constructor|].
    apply Forall_cons in Hds as [Hx Hds]. constructor; [by apply Hx | auto].
  - destruct (dec_pred d o1) as [x|] eqn:Ex; [|discriminate E]. apply Hd in Ex. rewrite Ex. by injection E as <-.
Qed.

Lemma one_pfield : NoDup (map snd pfields).
Proof. apply (bool_decide_eq_true_1 (NoDup _)). reflexivity. Qed.

Lemma converts_all d : converts d /\ (forall ds, d = JArr ds -> Forall converts ds).
Proof.
  induction d as [|b|l|l|l IH|m IH] using jdoc_ind; (split; [intros d' Hw Hs Hj o x; try done | try done]).
  - rewrite (jb_null d' Hj). by intros [= <-].
  - intros ds [= <-]. eapply List.Forall_impl; [|exact IH]. by intros d [? _].
  - cbn [dec_pred]. destruct (dec_members pfields _ m _) as [p|] eqn:E; [|done]. intros [= <-].
    destruct (object_alike pfields (pred_set dec_pred) jb_pred pred_set_commute one_pfield m d' (default zero_pred o) p Hw Hs Hj) as (m' & -> & E').
    2: exact E.
    + eapply List.Forall_impl; [|exact IH]. intros [k d] [Hd Hds] y Hwy Hsy Hy. cbn [fst snd] in *.
      apply pred_set_alike; auto.
    + cbn [dec_pred]. assert (default zero_pred (jb_pred <$> o) = jb_pred (default zero_pred o)) as -> by (by destruct o).
      by rewrite E'.
Qed.

Lemma rule_alike d d' :
  wf_doc d -> stable_doc d = true -> jb d = Some d' ->
  forall a b, dec_rule d a = Some b -> dec_rule d' (respell_rule jb_raw a) = Some (respell_rule jb_raw b).
Proof.
  intros Hw Hs Hj a b. destruct d as [| | | | |m]; cbn [dec_rule]; try done; [rewrite (jb_null d' Hj); by intros [= <-]|].
  intros E. destruct (object_alike rfields rule_set (respell_rule jb_raw) rule_set_commute) with (m := m) (d' := d') (a := a) (b := b)
    as (m' & -> & E'); try done.
  { apply (bool_decide_eq_true_1 (NoDup _)). reflexivity. }
  apply List.Forall_forall. intros [k d] _ y Hwy Hsy Hy f [i w v] r. cbn [fst snd] in *.
  destruct f; cbn [rule_set respell_rule ID When RuleValue]; intros Er.
  - destruct (dec_str d i) as [x|] eqn:Ex; [|done]. rewrite (str_alike d y _ x Hwy Hy Ex). by injection Er as <-.
  - destruct (dec_pred d w) as [x|] eqn:Ex; [|done]. rewrite (proj1 (converts_all d) y Hwy Hsy Hy _ _ Ex). by injection Er as <-.
  - injection Er as <-. unfold respell_rule. cbn. by rewrite (jb_raw_print d y).
Qed.

Lemma tree_alike d d' :
  wf_doc d -> stable_doc d = true -> jb d = Some d' ->
  forall a b, dec_tree_doc d a = Some b -> dec_tree_doc d' (respell_tree jb_raw a) = Some (respell_tree jb_raw b).
Proof.
  intros Hw Hs Hj a b. destruct d as [| | | | |m]; cbn [dec_tree_doc]; try done; [rewrite (jb_null d' Hj); by intros [= <-]|].
  intros E. destruct (object_alike tfields tree_set (respell_tree jb_raw) tree_set_commute) with (m := m) (d' := d') (a := a) (b := b)
    as (m' & -> & E'); try done.
  { apply (bool_decide_eq_true_1 (NoDup _)). reflexivity. }
  apply List.Forall_forall. intros [k d] _ y Hwy Hsy Hy f [vt df rs] r. cbn [fst snd] in *.
  destruct f; cbn [tree_set respell_tree TreeValueType Default Rules]; intros Er.
  - destruct (dec_str d vt) as [x|] eqn:Ex; [|done]. rewrite (str_alike d y _ x Hwy Hy Ex). by injection Er as <-.
  - injection Er as <-. unfold respell_tree. cbn. by rewrite (jb_raw_print d y).
  - destruct d as [| | | |ds|]; try discriminate Er; [injection Er as <-; by rewrite (jb_null y Hy)|].
    destruct (dec_elems zero_rule dec_rule ds _) as [l|] eqn:El; [|done]. injection Er as <-.
    destruct (jb_arr ds y Hwy Hsy Hy) as (ds' & -> & H).
    assert (default [] (map (respell_rule jb_raw) <$> rs) = map (respell_rule jb_raw) (default [] rs)) as -> by (by destruct rs).
    rewrite (elems_alike zero_rule dec_rule (respell_rule jb_raw) ds ds' _ l); [done | done | | exact El].
    clear -H JL. induction H as [|x z l l' (? & ? & ?) _ IH]; constructor; [by apply rule_alike | done].
Qed.

(** The tree a column gives back decodes to the tree it was given, its raw
    messages respelled. *)
Lemma dec_tree_jsonb j j' t :
  stable j = true -> jsonb j = Some j' -> dec_tree j = Some t -> dec_tree j' = Some (respell_tree jb_raw t).
Proof.
  unfold stable, jsonb, dec_tree. destruct (scan j) as [d|] eqn:Es; [|done]. cbn. intros Hs H Hd. apply scan_sound in Es as Hw.
  destruct (jb d) as [d'|] eqn:Ej; [|done]. injection H as <-. destruct (jb_any d d' Hw Hs Ej) as (Hw' & _).
  rewrite (scan_print d' Hw'). cbn. by apply (tree_alike d d' Hw Hs Ej zero_tree t).
Qed.
End laws.

(** ** Compiled flags *)

Lemma respell_pred_compose f g p : respell_pred g (respell_pred f p) = respell_pred (fun r => g (f r)) p.
Proof.
  induction p as [[k a v vs pat s pc o o1 src key] IHo IHo1] using Predicate_ind. cbn [Of OfOne] in *.
  cbn [respell_pred Kind Attr Value Values Pattern Salt Percent Of OfOne Source SegmentKey]. rewrite !map_map. f_equal.
  - apply map_ext_in. intros [q|] Hin; [|done]. rewrite List.Forall_forall in IHo. cbn. f_equal. by apply (IHo (Some q)).
  - destruct o1 as [q|]; [|done]. cbn. by f_equal.
Qed.

Lemma respell_tree_compose f g t : respell_tree g (respell_tree f t) = respell_tree (fun r => g (f r)) t.
Proof.
  destruct t as [vt df rs]. unfold respell_tree. cbn [TreeValueType Default Rules]. f_equal. destruct rs as [rs|]; [|done].
  cbn. f_equal. rewrite map_map. apply map_ext. intros [i w v]. unfold respell_rule. cbn. f_equal.
  destruct w as [p|]; [|done]. cbn. f_equal. apply respell_pred_compose.
Qed.

Section compiled.
Context {J : Jsonb} {JL : JsonbLaws} {RX : RegexpLib} {CEL : CelLib} {TS : TsLib}.

(** The IR of a compilation, after it went through a [jsonb] column, compiles
    under its strategy to a flag that decides alike. *)
Lemma jsonb_decides s src c j j' :
  Compile s src = Ok c -> enc_tree (IR c) = Some j -> stable j = true -> jsonb j = Some j' ->
  exists c', Compile s j' = Ok c' /\ forall ctx n, Evaluate (Some c') ctx n = Evaluate (Some c) ctx n.
Proof.
  intros [Hs Hc]%Compile_ok Ej Hst Hj.
  destruct (tree_trip (IR c)) as (j0 & Ej0 & Dj); [eapply valid_full; apply Hc|].
  assert (j0 = j) as -> by congruence. apply (dec_tree_jsonb j j' _ Hst Hj) in Dj. rewrite respell_tree_compose in Dj.
  assert (forall r, raw_equiv (jb_raw (norm_raw r)) r) as Hr by (intros r; etrans; [apply jb_raw_equiv | apply norm_raw_equiv]).
  eexists. split; [by apply (compile_doc _ s c j' Hr Hs Hc Dj)|].
  intros ctx n. destruct c as [s' t ps]. cbn [IR CELPrograms CStrategy] in *. subst s'. apply (Evaluate_respell _ Hr).
Qed.
End compiled.

(** A server that keeps the spelling of numbers and strings, holds no negative
    zero, and gives members back in the opposite order. *)
Module JsonbDemo.
#[export] Instance demo_jsonb : Jsonb := {|
  jb_num := fun l => match parse64 l with Some (S754_zero true) => None | _ => Some l end;
  jb_str := fun l => Some l;
  jb_members := fun m => rev m
|}.

#[export] Instance demo_jsonb_laws : JsonbLaws.
Proof.
  split; cbn.
  - intros l l' Hl. destruct (parse64 l) as [[[]| | |]|]; by intros [= <-].
  - intros l l' _. destruct (parse64 l) as [[[]| | |]|] eqn:E; intros [= <-]; by rewrite E.
  - intros l l' z Hz. destruct (parse64 l) as [[[]| | |]|] eqn:E; by intros [= <-].
  - by intros l l' Hl [= <-].
  - intros m _. symmetry. apply Permutation_rev.
Qed.

Example demo_reversed :
  jsonb (print (JObj [("a", JNum "1.50"); ("b", JArr [JNull; JStr "x"])])) =
  Some (print (JObj [("b", JArr [JNull; JStr "x"]); ("a", JNum "1.50")])).
Proof. vm_compute. reflexivity. Qed.
End JsonbDemo.
