(* ===== verification/Db.v ===== *)
(** The SQLite database: its schema ([db/migrations/sqlite]) and the queries sqlc
    generated from [db/queries/sqlite] into [internal/db/sqlite].

    A table is the list of its rows in insertion order.  An [INSERT] checks the
    [CHECK], primary-key, [UNIQUE] and foreign-key constraints of the schema, in
    the order SQLite does, and a failed statement changes nothing.  Identifiers
    are 128-bit numbers and times are milliseconds: SQLite holds texts of a fixed
    width, whose order is the numeric one ([SqliteText]).  Rows that tie in an [ORDER BY] come in table order here; SQL leaves
    that open.  [uuid.New] and the clock are inputs. *)
From stdpp Require Import base list strings numbers gmap.
From Stdlib Require Import Ascii String ZArith Lia Sorting.Permutation Sorting.Sorted.
From S2P Require Import Prelude Text Ir.

Definition uuid : Type := Z.
Definition time : Type := Z.

(** ** Rows ([models.go]) *)

Record ProjectRow : Type := mkProjectRow {
  pr_id : uuid; pr_slug : string; pr_name : string; pr_strategy : string;
  pr_created : time; pr_updated : time
}.
Record FlagRow : Type := mkFlagRow {
  fr_id : uuid; fr_project : uuid; fr_key : string; fr_name : string; fr_desc : string;
  fr_vtype : string; fr_default : string; fr_created : time; fr_updated : time
}.
Record FlagVersionRow : Type := mkFlagVersionRow {
  vr_id : uuid; vr_flag : uuid; vr_version : Z; vr_strategy : string; vr_source : string;
  vr_compiled : string; vr_published : time; vr_text : option string
}.
Record EnvironmentRow : Type := mkEnvironmentRow {
  er_id : uuid; er_project : uuid; er_slug : string; er_name : string; er_created : time
}.
Record SegmentRow : Type := mkSegmentRow {
  sr_id : uuid; sr_project : uuid; sr_key : string; sr_name : string; sr_desc : string;
  sr_predicate : string; sr_created : time; sr_updated : time
}.
Record SnapshotRow : Type := mkSnapshotRow {
  nr_id : uuid; nr_project : uuid; nr_env : option uuid; nr_version : Z; nr_compiled : string;
  nr_created : time
}.
Record AuditRow : Type := mkAuditRow {
  ar_id : uuid; ar_project : option uuid; ar_flag : option uuid; ar_action : string;
  ar_actor : option string; ar_payload : string; ar_created : time
}.

Record DB : Type := mkDB {
  projects : list ProjectRow;
  flags : list FlagRow;
  flag_versions : list FlagVersionRow;
  environments : list EnvironmentRow;
  segments : list SegmentRow;
  snapshots : list SnapshotRow;
  audit_events : list AuditRow
}.
Definition empty_db : DB := mkDB [] [] [] [] [] [] [].

Definition set_projects x db := mkDB x (flags db) (flag_versions db) (environments db) (segments db) (snapshots db) (audit_events db).
Definition set_flags x db := mkDB (projects db) x (flag_versions db) (environments db) (segments db) (snapshots db) (audit_events db).
Definition set_versions x db := mkDB (projects db) (flags db) x (environments db) (segments db) (snapshots db) (audit_events db).
Definition set_environments x db := mkDB (projects db) (flags db) (flag_versions db) x (segments db) (snapshots db) (audit_events db).
Definition set_segments x db := mkDB (projects db) (flags db) (flag_versions db) (environments db) x (snapshots db) (audit_events db).
Definition set_snapshots x db := mkDB (projects db) (flags db) (flag_versions db) (environments db) (segments db) x (audit_events db).
Definition set_audit x db := mkDB (projects db) (flags db) (flag_versions db) (environments db) (segments db) (snapshots db) x.

(** ** Errors of the driver *)

Inductive db_err : Type :=
| NoRows
| ConstraintCheck | ConstraintUnique | ConstraintPrimaryKey | ConstraintForeignKey
| Busy | BusySnapshot
| OtherDriver
| Sqlstate (code : string).     (* reported by a PostgreSQL server *)

(** ** Statements *)

Definition has {A} (p : A -> bool) (l : list A) : bool := existsb p l.

(** [SELECT ... :one]. *)
Definition query_one {A} (p : A -> bool) (l : list A) : result db_err A :=
  of_option NoRows (List.find p l).

(** [ORDER BY]: a stable insertion sort. *)
Section order.
Context {A : Type} (before : A -> A -> bool).
Fixpoint insert_by (x : A) (l : list A) : list A :=
  match l with
  | [] => [x]
  | y :: l' => if before y x then y :: insert_by x l' else x :: l
  end.
Definition order_by (l : list A) : list A := fold_left (fun acc x => insert_by x acc) l [].
End order.

(** [COALESCE(MAX(version), 0)]. *)
Definition max_version (l : list Z) : Z := fold_left Z.max l 0.

Definition strategies : list string := ["json"; "cel"; "typescript"].
Definition value_types : list string := ["boolean"; "string"; "number"; "object"].
Definition one_of (l : list string) (s : string) : bool := existsb (String.eqb s) l.

Definition project_exists (db : DB) (id : uuid) : bool := has (fun r => pr_id r =? id) (projects db).
Definition flag_exists (db : DB) (id : uuid) : bool := has (fun r => fr_id r =? id) (flags db).
Definition env_exists (db : DB) (id : uuid) : bool := has (fun r => er_id r =? id) (environments db).
Definition opt_exists (f : uuid -> bool) (o : option uuid) : bool := match o with Some id => f id | None => true end.

(** ** Projects *)

Definition q_CreateProject (id : uuid) (now : time) (slug name strategy : string) (db : DB) : result db_err (ProjectRow * DB) :=
  when negb (one_of strategies strategy) fail ConstraintCheck ;;
  when has (fun r => pr_id r =? id) (projects db) fail ConstraintPrimaryKey ;;
  when has (fun r => String.eqb (pr_slug r) slug) (projects db) fail ConstraintUnique ;;
  let r := mkProjectRow id slug name strategy now now in
  Ok (r, set_projects (projects db ++ [r]) db).

Definition q_GetProjectBySlug (slug : string) (db : DB) : result db_err ProjectRow :=
  query_one (fun r => String.eqb (pr_slug r) slug) (projects db).

Definition q_ListProjects (db : DB) : list ProjectRow :=
  order_by (fun a b => pr_created b <=? pr_created a) (projects db).

(** ** Flags *)

Definition q_CreateFlag (id : uuid) (now : time) (project : uuid) (key name desc vtype default : string) (db : DB) :
    result db_err (FlagRow * DB) :=
  when negb (one_of value_types vtype) fail ConstraintCheck ;;
  when has (fun r => fr_id r =? id) (flags db) fail ConstraintPrimaryKey ;;
  when has (fun r => (fr_project r =? project) && String.eqb (fr_key r) key) (flags db) fail ConstraintUnique ;;
  when negb (project_exists db project) fail ConstraintForeignKey ;;
  let r := mkFlagRow id project key name desc vtype default now now in
  Ok (r, set_flags (flags db ++ [r]) db).

Definition q_GetFlagByKey (project : uuid) (key : string) (db : DB) : result db_err FlagRow :=
  query_one (fun r => (fr_project r =? project) && String.eqb (fr_key r) key) (flags db).

Definition q_ListFlagsByProject (project : uuid) (db : DB) : list FlagRow :=
  order_by (fun a b => fr_created b <=? fr_created a) (List.filter (fun r => fr_project r =? project) (flags db)).

(** ** Flag versions *)

Definition versions_of (flag : uuid) (db : DB) : list FlagVersionRow :=
  List.filter (fun r => vr_flag r =? flag) (flag_versions db).

Definition q_NextFlagVersion (flag : uuid) (db : DB) : Z := max_version (map vr_version (versions_of flag db)) + 1.

Definition q_CreateFlagVersion (id : uuid) (now : time) (flag : uuid) (version : Z) (strategy source compiled : string)
    (text : option string) (db : DB) : result db_err (FlagVersionRow * DB) :=
  when negb (one_of strategies strategy) fail ConstraintCheck ;;
  when has (fun r => vr_id r =? id) (flag_versions db) fail ConstraintPrimaryKey ;;
  when has (fun r => (vr_flag r =? flag) && (vr_version r =? version)) (flag_versions db) fail ConstraintUnique ;;
  when negb (flag_exists db flag) fail ConstraintForeignKey ;;
  let r := mkFlagVersionRow id flag version strategy source compiled now text in
  Ok (r, set_versions (flag_versions db ++ [r]) db).

Definition q_ListFlagVersions (flag : uuid) (db : DB) : list FlagVersionRow :=
  order_by (fun a b => vr_version b <=? vr_version a) (versions_of flag db).

(** [ORDER BY version DESC LIMIT 1]. *)
Definition q_GetLatestFlagVersion (flag : uuid) (db : DB) : result db_err FlagVersionRow :=
  of_option NoRows (head (q_ListFlagVersions flag db)).

(** One row per flag of the project that has versions: the first of its versions
    in descending order, with the flag's key. *)
Definition q_ListLatestFlagVersions (project : uuid) (db : DB) : list (string * FlagVersionRow) :=
  flat_map (fun f => match head (q_ListFlagVersions (fr_id f) db) with
                     | Some v => [(fr_key f, v)]
                     | None => []
                     end)
    (List.filter (fun r => fr_project r =? project) (flags db)).

(** ** Environments *)

Definition q_CreateEnvironment (id : uuid) (now : time) (project : uuid) (slug name : string) (db : DB) :
    result db_err (EnvironmentRow * DB) :=
  when has (fun r => er_id r =? id) (environments db) fail ConstraintPrimaryKey ;;
  when has (fun r => (er_project r =? project) && String.eqb (er_slug r) slug) (environments db) fail ConstraintUnique ;;
  when negb (project_exists db project) fail ConstraintForeignKey ;;
  let r := mkEnvironmentRow id project slug name now in
  Ok (r, set_environments (environments db ++ [r]) db).

Definition q_GetEnvironmentBySlug (project : uuid) (slug : string) (db : DB) : result db_err EnvironmentRow :=
  query_one (fun r => (er_project r =? project) && String.eqb (er_slug r) slug) (environments db).

Definition q_ListEnvironmentsByProject (project : uuid) (db : DB) : list EnvironmentRow :=
  order_by (fun a b => er_created a <=? er_created b) (List.filter (fun r => er_project r =? project) (environments db)).

(** ** Segments *)

Definition q_CreateSegment (id : uuid) (now : time) (project : uuid) (key name desc predicate : string) (db : DB) :
    result db_err (SegmentRow * DB) :=
  when has (fun r => sr_id r =? id) (segments db) fail ConstraintPrimaryKey ;;
  when has (fun r => (sr_project r =? project) && String.eqb (sr_key r) key) (segments db) fail ConstraintUnique ;;
  when negb (project_exists db project) fail ConstraintForeignKey ;;
  let r := mkSegmentRow id project key name desc predicate now now in
  Ok (r, set_segments (segments db ++ [r]) db).

Definition is_segment (project : uuid) (key : string) (r : SegmentRow) : bool :=
  (sr_project r =? project) && String.eqb (sr_key r) key.

Definition q_GetSegmentByKey (project : uuid) (key : string) (db : DB) : result db_err SegmentRow :=
  query_one (is_segment project key) (segments db).

Definition q_ListSegmentsByProject (project : uuid) (db : DB) : list SegmentRow :=
  order_by (fun a b => sr_created a <=? sr_created b) (List.filter (fun r => sr_project r =? project) (segments db)).

Definition updated_segment (now : time) (name desc predicate : string) (r : SegmentRow) : SegmentRow :=
  mkSegmentRow (sr_id r) (sr_project r) (sr_key r) name desc predicate (sr_created r) now.

(** [UPDATE ... RETURNING :one]: no row when nothing matched. *)
Definition q_UpdateSegment (now : time) (project : uuid) (key name desc predicate : string) (db : DB) :
    result db_err (SegmentRow * DB) :=
  let upd r := if is_segment project key r then updated_segment now name desc predicate r else r in
  match List.find (is_segment project key) (segments db) with
  | None => Err NoRows
  | Some r => Ok (updated_segment now name desc predicate r, set_segments (map upd (segments db)) db)
  end.

(** ** Snapshots *)

Definition snapshots_of (project : uuid) (db : DB) : list SnapshotRow :=
  List.filter (fun r => nr_project r =? project) (snapshots db).

Definition q_NextSnapshotVersion (project : uuid) (db : DB) : Z :=
  max_version (map nr_version (snapshots_of project db)) + 1.

Definition q_CreateSnapshot (id : uuid) (now : time) (project : uuid) (env : option uuid) (version : Z) (compiled : string)
    (db : DB) : result db_err (SnapshotRow * DB) :=
  when has (fun r => nr_id r =? id) (snapshots db) fail ConstraintPrimaryKey ;;
  when has (fun r => (nr_project r =? project) && (nr_version r =? version)) (snapshots db) fail ConstraintUnique ;;
  when negb (project_exists db project && opt_exists (env_exists db) env) fail ConstraintForeignKey ;;
  let r := mkSnapshotRow id project env version compiled now in
  Ok (r, set_snapshots (snapshots db ++ [r]) db).

Definition q_GetSnapshotByID (project id : uuid) (db : DB) : result db_err SnapshotRow :=
  query_one (fun r => (nr_project r =? project) && (nr_id r =? id)) (snapshots db).

Definition snapshots_desc (project : uuid) (db : DB) : list SnapshotRow :=
  order_by (fun a b => nr_version b <=? nr_version a) (snapshots_of project db).

Definition q_GetLatestSnapshot (project : uuid) (db : DB) : result db_err SnapshotRow :=
  of_option NoRows (head (snapshots_desc project db)).

(** [LIMIT n]; a negative limit is no limit. *)
Definition limit_rows {A} (n : Z) (l : list A) : list A := if n <? 0 then l else take (Z.to_nat n) l.

Definition q_ListSnapshotsByProject (project : uuid) (limit : Z) (db : DB) : list SnapshotRow :=
  limit_rows limit (snapshots_desc project db).

(** ** Audit events *)

Definition q_AppendAuditEvent (id : uuid) (now : time) (project flag : option uuid) (action : string)
    (actor : option string) (payload : string) (db : DB) : result db_err (AuditRow * DB) :=
  when has (fun r => ar_id r =? id) (audit_events db) fail ConstraintPrimaryKey ;;
  when negb (opt_exists (project_exists db) project && opt_exists (flag_exists db) flag) fail ConstraintForeignKey ;;
  let r := mkAuditRow id project flag action actor payload now in
  Ok (r, set_audit (audit_events db ++ [r]) db).

(** [(? IS NULL OR p)]. *)
Definition unless_null {A} (o : option A) (p : A -> bool) : bool := match o with None => true | Some x => p x end.

Definition audit_after (a b : AuditRow) : bool :=
  (ar_created b <? ar_created a) || ((ar_created a =? ar_created b) && (ar_id b <=? ar_id a)).

Record audit_filter : Type := mkAuditFilter {
  af_project : uuid; af_action : option string; af_actor : option string;
  af_from : option time; af_to : option time; af_cursor : option (time * uuid)
}.

Definition audit_matches (f : audit_filter) (r : AuditRow) : bool :=
  (match ar_project r with Some p => p =? af_project f | None => false end) &&
  unless_null (af_action f) (String.eqb (ar_action r)) &&
  unless_null (af_actor f) (fun a => match ar_actor r with Some x => String.eqb x a | None => false end) &&
  unless_null (af_from f) (fun t => t <=? ar_created r) &&
  unless_null (af_to f) (fun t => ar_created r <? t) &&
  unless_null (af_cursor f) (fun c => (ar_created r <? c.1) || ((ar_created r =? c.1) && (ar_id r <? c.2))).

Definition q_ListAuditEventsByProject (f : audit_filter) (limit : Z) (db : DB) : list AuditRow :=
  limit_rows limit (order_by audit_after (List.filter (audit_matches f) (audit_events db))).

(** ** Table lemmas *)

Lemma has_false {A} (p : A -> bool) l : has p l = false <-> forall x, In x l -> p x = false.
Proof.
  unfold has. induction l as [|y l IH]; cbn; [split; [done | done]|].
  rewrite orb_false_iff, IH. split; [intros [? ?] x [<-|?]; auto | auto].
Qed.

Lemma has_true {A} (p : A -> bool) l : has p l = true <-> exists x, In x l /\ p x = true.
Proof. apply existsb_exists. Qed.

(** Appending a row whose key is not in the table keeps the keys distinct. *)
Lemma keys_append {A K} (k : A -> K) (same : A -> bool) l x :
  (forall y, k y = k x -> same y = true) -> has same l = false ->
  NoDup (map k l) -> NoDup (map k (l ++ [x])).
Proof.
  intros Hk Hh Hn. rewrite map_app. cbn. apply NoDup_app. split_and!; [done| |apply NoDup_singleton].
  intros y Hy Hx. apply list_elem_of_singleton in Hx as ->. apply list_elem_of_In, in_map_iff in Hy as (z & E & Hz).
  rewrite has_false in Hh. specialize (Hh z Hz). by rewrite (Hk z E) in Hh.
Qed.

Lemma filter_append {A} (p : A -> bool) l x :
  List.filter p (l ++ [x]) = List.filter p l ++ (if p x then [x] else []).
Proof. rewrite List.filter_app. cbn. by destruct (p x). Qed.

(** ** Versions 1, 2, ... *)

Definition upto (n : nat) : list Z := map Z.of_nat (seq 1 n).

Lemma upto_S n : upto (S n) = upto n ++ [Z.of_nat n + 1].
Proof. unfold upto. rewrite seq_S, map_app. cbn. f_equal. f_equal. lia. Qed.

Lemma max_append l z : max_version (l ++ [z]) = Z.max (max_version l) z.
Proof. unfold max_version. by rewrite fold_left_app. Qed.

Lemma max_upto n : max_version (upto n) = Z.of_nat n.
Proof. induction n as [|n IH]; [done|]. rewrite upto_S, max_append, IH. lia. Qed.

Lemma in_upto n z : In z (upto n) -> 1 <= z <= Z.of_nat n.
Proof. unfold upto. intros (k & <- & Hk%in_seq)%in_map_iff. lia. Qed.

(** ** The invariant *)

(** Every constraint of the schema: primary keys, [UNIQUE]s, [CHECK]s and references;
    and the versions of a flag and the snapshots of a project are numbered 1, 2, ...
    in the order of the table, which implies the [UNIQUE]s on versions. *)
Record db_ok (db : DB) : Prop := {
  ok_project_ids : NoDup (map pr_id (projects db));
  ok_project_slugs : NoDup (map pr_slug (projects db));
  ok_project_strategy : forall r, In r (projects db) -> one_of strategies (pr_strategy r) = true;
  ok_flag_ids : NoDup (map fr_id (flags db));
  ok_flag_keys : NoDup (map (fun r => (fr_project r, fr_key r)) (flags db));
  ok_flag_project : forall r, In r (flags db) -> project_exists db (fr_project r) = true;
  ok_flag_type : forall r, In r (flags db) -> one_of value_types (fr_vtype r) = true;
  ok_version_ids : NoDup (map vr_id (flag_versions db));
  ok_version_flag : forall r, In r (flag_versions db) -> flag_exists db (vr_flag r) = true;
  ok_version_strategy : forall r, In r (flag_versions db) -> one_of strategies (vr_strategy r) = true;
  ok_versions : forall f, exists n, map vr_version (versions_of f db) = upto n;
  ok_env_ids : NoDup (map er_id (environments db));
  ok_env_keys : NoDup (map (fun r => (er_project r, er_slug r)) (environments db));
  ok_env_project : forall r, In r (environments db) -> project_exists db (er_project r) = true;
  ok_segment_ids : NoDup (map sr_id (segments db));
  ok_segment_keys : NoDup (map (fun r => (sr_project r, sr_key r)) (segments db));
  ok_segment_project : forall r, In r (segments db) -> project_exists db (sr_project r) = true;
  ok_snapshot_ids : NoDup (map nr_id (snapshots db));
  ok_snapshot_refs : forall r, In r (snapshots db) ->
    project_exists db (nr_project r) = true /\ opt_exists (env_exists db) (nr_env r) = true;
  ok_snapshots : forall p, exists n, map nr_version (snapshots_of p db) = upto n;
  ok_audit_ids : NoDup (map ar_id (audit_events db));
  ok_audit_refs : forall r, In r (audit_events db) ->
    opt_exists (project_exists db) (ar_project r) = true /\ opt_exists (flag_exists db) (ar_flag r) = true
}.

Lemma empty_ok : db_ok empty_db.
Proof. split; cbn; try done; try constructor; intros; exists 0%nat; done. Qed.

(** A statement that changed the database; the insert of a version or snapshot
    is the one its caller makes, at the next version. *)
Inductive stmt : DB -> DB -> Prop :=
| st_project id now slug name s db r db' : q_CreateProject id now slug name s db = Ok (r, db') -> stmt db db'
| st_flag id now p k n d vt df db r db' : q_CreateFlag id now p k n d vt df db = Ok (r, db') -> stmt db db'
| st_version id now f s src c t db r db' :
    q_CreateFlagVersion id now f (q_NextFlagVersion f db) s src c t db = Ok (r, db') -> stmt db db'
| st_env id now p s n db r db' : q_CreateEnvironment id now p s n db = Ok (r, db') -> stmt db db'
| st_segment id now p k n d pr db r db' : q_CreateSegment id now p k n d pr db = Ok (r, db') -> stmt db db'
| st_update now p k n d pr db r db' : q_UpdateSegment now p k n d pr db = Ok (r, db') -> stmt db db'
| st_snapshot id now p e c db r db' :
    q_CreateSnapshot id now p e (q_NextSnapshotVersion p db) c db = Ok (r, db') -> stmt db db'
| st_audit id now p f a ac pl db r db' : q_AppendAuditEvent id now p f a ac pl db = Ok (r, db') -> stmt db db'.

(** Open the guards of a successful statement. *)
Ltac inv_stmt H :=
  repeat match type of H with
  | (if ?b then Err _ else _) = Ok _ => let E := fresh "G" in destruct b eqn:E; [discriminate H|]
  end;
  injection H as <- <-; bsplit.

Lemma exists_append {A} (p : A -> bool) l x : has p l = true -> has p (l ++ [x]) = true.
Proof. unfold has. rewrite existsb_app. by intros ->. Qed.

Lemma opt_exists_mono (f g : uuid -> bool) o :
  (forall i, f i = true -> g i = true) -> opt_exists f o = true -> opt_exists g o = true.
Proof. destruct o; cbn; auto. Qed.

Lemma in_append {A} (P : A -> Prop) l x : (forall r, In r l -> P r) -> P x -> forall r, In r (l ++ [x]) -> P r.
Proof. intros Hl Hx r [?|[<-|[]]]%in_app_iff; auto. Qed.

(** The rows of one owner, after a row at the next version is appended. *)
Lemma next_append {A} (own : A -> uuid) (ver : A -> Z) l x :
  (forall o, exists n, map ver (List.filter (fun r => own r =? o) l) = upto n) ->
  ver x = max_version (map ver (List.filter (fun r => own r =? own x) l)) + 1 ->
  forall o, exists n, map ver (List.filter (fun r => own r =? o) (l ++ [x])) = upto n.
Proof.
  intros Hl Hx o. destruct (Hl o) as [n Hn]. rewrite filter_append, map_app.
  destruct (Z.eqb_spec (own x) o) as [<-|]; [|exists n; by rewrite Hn, app_nil_r].
  exists (S n). rewrite Hn, upto_S. cbn. by rewrite Hx, Hn, max_upto.
Qed.

Lemma find_in {A} (p : A -> bool) l x : List.find p l = Some x -> In x l /\ p x = true.
Proof. apply List.find_some. Qed.

(** Inserts of the tables that others refer to keep the references. *)
Lemma project_exists_append db r i : project_exists db i = true -> project_exists (set_projects (projects db ++ [r]) db) i = true.
Proof. apply exists_append. Qed.
Lemma flag_exists_append db r i : flag_exists db i = true -> flag_exists (set_flags (flags db ++ [r]) db) i = true.
Proof. apply exists_append. Qed.
Lemma env_exists_append db r i : env_exists db i = true -> env_exists (set_environments (environments db ++ [r]) db) i = true.
Proof. apply exists_append. Qed.
Lemma ids_append {A} (k : A -> uuid) l x : has (fun y => k y =? k x) l = false -> NoDup (map k l) -> NoDup (map k (l ++ [x])).
Proof. intros H. eapply keys_append; [|exact H]. intros y E. by apply Z.eqb_eq. Qed.

Lemma create_project_ok id now slug name s db r db' :
  q_CreateProject id now slug name s db = Ok (r, db') -> db_ok db -> db_ok db'.
Proof.
  unfold q_CreateProject. intros H Hok. inv_stmt H.
  pose proof (project_exists_append db (mkProjectRow id slug name s now now)) as Hex.
  destruct Hok. split; cbn; try done; eauto.
  - by apply ids_append.
  - eapply keys_append; [|exact G1|done]. cbn. intros y ->. apply String.eqb_refl.
  - by apply in_append.
  - intros n Hn. destruct (ok_snapshot_refs0 n Hn). eauto.
  - intros a Ha. destruct (ok_audit_refs0 a Ha) as [Hp Hf]. split; [|done]. eapply opt_exists_mono; [|exact Hp]. auto.
Qed.

Lemma create_flag_ok id now p k n d vt df db r db' :
  q_CreateFlag id now p k n d vt df db = Ok (r, db') -> db_ok db -> db_ok db'.
Proof.
  unfold q_CreateFlag. intros H Hok. inv_stmt H. destruct Hok. split; cbn; try done.
  - by apply ids_append.
  - eapply keys_append; [|exact G1|done]. cbn. intros y [= -> ->]. by rewrite Z.eqb_refl, String.eqb_refl.
  - by apply in_append.
  - by apply in_append.
  - intros v Hv. by apply flag_exists_append, ok_version_flag0.
  - intros a Ha. destruct (ok_audit_refs0 a Ha) as [Hp Hf]. split; [done|].
    eapply opt_exists_mono; [|exact Hf]. intros i. apply flag_exists_append.
Qed.

Lemma create_version_ok id now f s src c t db r db' :
  q_CreateFlagVersion id now f (q_NextFlagVersion f db) s src c t db = Ok (r, db') -> db_ok db -> db_ok db'.
Proof.
  unfold q_CreateFlagVersion. intros H Hok. inv_stmt H. destruct Hok. split; cbn; try done.
  - by apply ids_append.
  - by apply in_append.
  - by apply in_append.
  - by apply next_append.
Qed.

Lemma create_snapshot_ok id now p e c db r db' :
  q_CreateSnapshot id now p e (q_NextSnapshotVersion p db) c db = Ok (r, db') -> db_ok db -> db_ok db'.
Proof.
  unfold q_CreateSnapshot. intros H Hok. inv_stmt H. destruct Hok. split; cbn; try done.
  - by apply ids_append.
  - by apply in_append.
  - by apply next_append.
Qed.

Lemma create_env_ok id now p s n db r db' :
  q_CreateEnvironment id now p s n db = Ok (r, db') -> db_ok db -> db_ok db'.
Proof.
  unfold q_CreateEnvironment. intros H Hok. inv_stmt H. destruct Hok. split; cbn; try done.
  - by apply ids_append.
  - eapply keys_append; [|exact G0|done]. cbn. intros y [= -> ->]. by rewrite Z.eqb_refl, String.eqb_refl.
  - by apply in_append.
  - intros x Hx. destruct (ok_snapshot_refs0 x Hx) as [Hp He]. split; [done|].
    eapply opt_exists_mono; [|exact He]. intros i. apply env_exists_append.
Qed.

Lemma create_segment_ok id now p k n d pr db r db' :
  q_CreateSegment id now p k n d pr db = Ok (r, db') -> db_ok db -> db_ok db'.
Proof.
  unfold q_CreateSegment. intros H Hok. inv_stmt H. destruct Hok. split; cbn; try done.
  - by apply ids_append.
  - eapply keys_append; [|exact G0|done]. cbn. intros y [= -> ->]. by rewrite Z.eqb_refl, String.eqb_refl.
  - by apply in_append.
Qed.

(** An update changes no key. *)
Lemma update_segment_ok now p k n d pr db r db' :
  q_UpdateSegment now p k n d pr db = Ok (r, db') -> db_ok db -> db_ok db'.
Proof.
  unfold q_UpdateSegment. destruct (List.find _ _); [|done]. intros [= <- <-] []. split; cbn; try done.
  - rewrite map_map. erewrite map_ext; [exact ok_segment_ids0|]. intros x. by destruct (is_segment p k x).
  - rewrite map_map. erewrite map_ext; [exact ok_segment_keys0|]. intros x. by destruct (is_segment p k x).
  - intros x (y & <- & Hy)%in_map_iff. specialize (ok_segment_project0 y Hy). by destruct (is_segment p k y).
Qed.

Lemma append_audit_ok id now p f a ac pl db r db' :
  q_AppendAuditEvent id now p f a ac pl db = Ok (r, db') -> db_ok db -> db_ok db'.
Proof.
  unfold q_AppendAuditEvent. intros H Hok. inv_stmt H. destruct Hok. split; cbn; try done.
  - eapply keys_append; [|exact G|done]. cbn. intros y ->. apply Z.eqb_refl.
  - by apply in_append.
Qed.

(** Every statement keeps the invariant. *)
Lemma stmt_ok db db' : stmt db db' -> db_ok db -> db_ok db'.
Proof.
  destruct 1; eauto using create_project_ok, create_flag_ok, create_version_ok, create_env_ok, create_segment_ok,
    update_segment_ok, create_snapshot_ok, append_audit_ok.
Qed.

(** ** Ordered reads *)

Lemma insert_by_perm {A} (before : A -> A -> bool) x l : Permutation (insert_by before x l) (x :: l).
Proof.
  induction l as [|y l IH]; cbn; [done|]. destruct (before y x); [|done].
  rewrite IH. apply perm_swap.
Qed.

Lemma order_by_app {A} (before : A -> A -> bool) l x : order_by before (l ++ [x]) = insert_by before x (order_by before l).
Proof. unfold order_by. by rewrite fold_left_app. Qed.

Lemma order_by_perm {A} (before : A -> A -> bool) l : Permutation (order_by before l) l.
Proof.
  induction l as [|x l IH] using rev_ind; [done|]. rewrite order_by_app, insert_by_perm, IH.
  apply Permutation_cons_append.
Qed.

Lemma insert_by_head {A} (before : A -> A -> bool) x l :
  (forall y, In y l -> before y x = false) -> insert_by before x l = x :: l.
Proof. destruct l as [|y l]; [done|]. cbn. intros H. by rewrite H by (by left). Qed.

Section sorted.
Context {A : Type} (before : A -> A -> bool).
Hypothesis before_trans : forall x y z, before x y = true -> before y z = true -> before x z = true.
Hypothesis before_total : forall x y, before x y = true \/ before y x = true.

Definition ordered (l : list A) : Prop := StronglySorted (fun x y => before x y = true) l.

Lemma insert_ordered x l : ordered l -> ordered (insert_by before x l).
Proof.
  induction 1 as [|y l Hl IH Hy]; cbn; [repeat constructor|]. destruct (before y x) eqn:E.
  - constructor; [done|]. eapply Permutation_Forall; [symmetry; apply insert_by_perm|]. by constructor.
  - assert (before x y = true) as Hxy by (by destruct (before_total x y) as [?|?]; [|congruence]).
    constructor; [by constructor|]. constructor; [done|]. eapply Forall_impl; [exact Hy|]. intros z Hz. by eapply before_trans.
Qed.

Lemma order_ordered l : ordered (order_by before l).
Proof.
  induction l as [|x l IH] using rev_ind; [constructor|]. rewrite order_by_app. by apply insert_ordered.
Qed.

Lemma insert_filter (p : A -> bool) x l :
  ordered l -> List.filter p (insert_by before x l) =
    if p x then insert_by before x (List.filter p l) else List.filter p l.
Proof.
  induction 1 as [|y l Hl IH Hy]; cbn; [by destruct (p x)|]. destruct (before y x) eqn:E; cbn.
  - rewrite IH. destruct (p y) eqn:Ep, (p x); cbn; try done. by rewrite E.
  - destruct (p x) eqn:Ex; [|done]. destruct (p y) eqn:Ep; cbn; [by rewrite E|]. symmetry. apply insert_by_head.
    intros z [Hz _]%filter_In. rewrite List.Forall_forall in Hy. specialize (Hy z Hz).
    destruct (before z x) eqn:Ez; [|done]. rewrite (before_trans y z x) in E; done.
Qed.

Lemma order_filter (p : A -> bool) l : order_by before (List.filter p l) = List.filter p (order_by before l).
Proof.
  induction l as [|x l IH] using rev_ind; [done|]. rewrite order_by_app, insert_filter by apply order_ordered.
  rewrite List.filter_app. cbn. destruct (p x); [by rewrite order_by_app, IH | by rewrite app_nil_r].
Qed.
End sorted.

(** A sort key that a conversion keeps. *)
Lemma order_by_conv {A B} (f : A -> B) (before : A -> A -> bool) (before' : B -> B -> bool) (P : A -> Prop) l :
  (forall x y, P x -> P y -> before' (f x) (f y) = before x y) -> Forall P l ->
  order_by before' (map f l) = map f (order_by before l).
Proof.
  intros Hb. assert (forall x l, P x -> Forall P l -> insert_by before' (f x) (map f l) = map f (insert_by before x l)) as Hi.
  { intros x l' Hx. induction 1 as [|y l' Hy Hl IH]; [done|]. cbn. rewrite Hb by done. destruct (before y x); cbn; [by rewrite IH | done]. }
  induction l as [|x l IH] using rev_ind; [done|]. intros [Hl [Hx _]%list.Forall_cons]%Forall_app.
  rewrite map_app. cbn [map]. rewrite !order_by_app, IH by done. apply Hi; [done|].
  eapply Permutation_Forall; [symmetry; apply order_by_perm | done].
Qed.

(** A sort key that a conversion keeps for rows with different keys. *)
Lemma order_by_keys {A B K} (k : A -> K) (f : A -> B) (before : A -> A -> bool) (before' : B -> B -> bool) l :
  NoDup (map k l) -> (forall x y, k x <> k y -> before' (f x) (f y) = before x y) ->
  order_by before' (map f l) = map f (order_by before l).
Proof.
  intros Hnd Hb. assert (forall x l, ~ In (k x) (map k l) -> insert_by before' (f x) (map f l) = map f (insert_by before x l)) as Hi.
  { intros x l'. induction l' as [|y l' IH]; [done|]. cbn. intros Hx. rewrite Hb by (intros E; apply Hx; by left).
    destruct (before y x); cbn; [rewrite IH; [done | intros H; apply Hx; by right] | done]. }
  induction l as [|x l IH] using rev_ind; [done|]. rewrite map_app in Hnd. apply NoDup_app in Hnd as (Hl & Hx & _).
  rewrite map_app. cbn [map]. rewrite !order_by_app, IH by done. apply Hi. intros Hin.
  apply (Permutation_in _ (Permutation_map k (order_by_perm before l))) in Hin. apply (Hx (k x)); [by apply list_elem_of_In | by left].
Qed.

(** A row appended at the next version comes first in descending order. *)
Lemma order_next {A} (ver : A -> Z) l x n :
  map ver l = upto n -> ver x = Z.of_nat n + 1 ->
  order_by (fun a b => ver b <=? ver a) (l ++ [x]) = x :: order_by (fun a b => ver b <=? ver a) l.
Proof.
  intros Hl Hx. rewrite order_by_app. apply insert_by_head. intros y Hy.
  assert (In y l) as Hin by (eapply Permutation_in; [apply order_by_perm | exact Hy]).
  assert (In (ver y) (upto n)) as Hv by (rewrite <- Hl; by apply in_map). apply in_upto in Hv.
  apply Z.leb_gt. lia.
Qed.

(** The row of a unique key is the one a query finds. *)
Lemma find_unique {A K} (k : A -> K) (p : A -> bool) l x :
  NoDup (map k l) -> In x l -> (forall y, p y = true <-> k y = k x) -> List.find p l = Some x.
Proof.
  intros Hnd Hx Hp. induction l as [|y l IH]; [done|]. cbn in *. apply NoDup_cons in Hnd as [Hy Hnd].
  destruct Hx as [->|Hx]; [by rewrite (proj2 (Hp x) eq_refl)|].
  destruct (p y) eqn:E; [|auto]. apply Hp in E. exfalso. apply Hy. rewrite E. apply list_elem_of_In. by apply in_map.
Qed.

Lemma find_none {A} (p : A -> bool) l : List.find p l = None -> forall x, In x l -> p x = false.
Proof. intros H x Hx. by apply (List.find_none p l). Qed.

Lemma NoDup_sub {A K} (k : A -> K) (p : A -> bool) l : NoDup (map k l) -> NoDup (map k (List.filter p l)).
Proof.
  intros H. induction l as [|x l IH]; [done|]. cbn in *. apply NoDup_cons in H as [Hx H]. destruct (p x); [|auto].
  cbn. apply NoDup_cons. split; [|auto]. intros Hin. apply Hx. apply list_elem_of_In in Hin. apply list_elem_of_In.
  apply in_map_iff in Hin as (y & <- & [Hy _]%filter_In). by apply in_map.
Qed.

(** The latest versions of a project's flags, by key. *)
Lemma latest_of_flag project key db f v :
  db_ok db -> q_GetFlagByKey project key db = Ok f -> q_GetLatestFlagVersion (fr_id f) db = Ok v ->
  In (key, v) (q_ListLatestFlagVersions project db).
Proof.
  intros _ Hf Hv. unfold q_GetFlagByKey, query_one in Hf. destruct (List.find _ _) as [f'|] eqn:E; [|done].
  injection Hf as ->. apply find_in in E as [Hin Hp]. bsplit. apply String.eqb_eq in H0.
  unfold q_GetLatestFlagVersion in Hv. destruct (head _) as [v'|] eqn:Eh; [|done]. injection Hv as ->.
  apply in_flat_map. exists f. split; [by apply filter_In|]. rewrite Eh, H0. by left.
Qed.

Lemma latest_inv project key db v :
  db_ok db -> In (key, v) (q_ListLatestFlagVersions project db) ->
  exists f, q_GetFlagByKey project key db = Ok f /\ q_GetLatestFlagVersion (fr_id f) db = Ok v /\ In v (flag_versions db).
Proof.
  intros Hok (f & [Hin Hp]%filter_In & Hv)%in_flat_map. destruct (head _) as [v'|] eqn:Eh; [|done].
  destruct Hv as [[= <- ->]|[]]. exists f. split_and!.
  - unfold q_GetFlagByKey, query_one. rewrite (find_unique (fun r => (fr_project r, fr_key r)) _ _ f); [done | apply Hok | done |].
    intros y. rewrite andb_true_iff, Z.eqb_eq, String.eqb_eq. apply Z.eqb_eq in Hp. rewrite <- Hp.
    split; [by intros [-> ->] | by intros [= -> ->]].
  - unfold q_GetLatestFlagVersion. by rewrite Eh.
  - assert (In v (q_ListFlagVersions (fr_id f) db)) as Hl by (destruct (q_ListFlagVersions _ _); [done|]; injection Eh as ->; by left).
    eapply Permutation_in in Hl; [|apply order_by_perm]. by apply filter_In in Hl as [Hl _].
Qed.

Lemma NoDup_project_keys project l :
  NoDup (map (fun r => (fr_project r, fr_key r)) l) -> (forall r, In r l -> fr_project r = project) -> NoDup (map fr_key l).
Proof.
  induction l as [|x l IH]; [constructor|]. cbn. intros [Hx Hk]%NoDup_cons Hp. apply NoDup_cons. split; [|auto].
  intros Hin. apply Hx. apply list_elem_of_In in Hin. apply list_elem_of_In. apply in_map_iff in Hin as (y & Ey & Hy).
  apply in_map_iff. exists y. split; [|done]. by rewrite Ey, (Hp y (or_intror Hy)), (Hp x (or_introl eq_refl)).
Qed.

Lemma latest_keys project db : db_ok db -> NoDup (map fst (q_ListLatestFlagVersions project db)).
Proof.
  intros Hok.
  assert (NoDup (map fr_key (List.filter (fun r => fr_project r =? project) (flags db)))) as Hnd.
  { eapply NoDup_project_keys; [apply NoDup_sub, Hok|]. intros r [_ Hr]%filter_In. by apply Z.eqb_eq. }
  unfold q_ListLatestFlagVersions. revert Hnd. generalize (List.filter (fun r => fr_project r =? project) (flags db)).
  intros l. induction l as [|f l IH]; [done|]. cbn. intros [Hx Hnd]%NoDup_cons. destruct (head _) as [v|]; [|by apply IH].
  cbn. apply NoDup_cons. split; [|by apply IH]. intros Hin. apply Hx. apply list_elem_of_In in Hin. apply list_elem_of_In.
  apply in_map_iff in Hin as ([k w] & Ek & (g & Hg & Hw)%in_flat_map). cbn in Ek. subst.
  destruct (head _); [|done]. destruct Hw as [[= <- _]|[]]. by apply in_map.
Qed.
