(* ===== verification/PgDb.v ===== *)
(** The PostgreSQL database: its schema ([db/migrations]) and the queries sqlc
    generated from [db/queries] into [internal/db].

    The tables have the columns of the SQLite schema, so that the model has the same
    record [DB] of rows, but a time counts microseconds ([timestamptz]) and
    each statement is written out from its own SQL text and from PostgreSQL's rules:
    - a document column is [jsonb] and a [nil] document is [NULL], which the
      column refuses;
    - a [text] value is valid UTF-8 without the character zero;
    - [version] is a 32-bit [integer], and computing one past its end is an error;
    - a negative [LIMIT] is an error;
    - errors carry an SQLSTATE.
    The parameters of a statement are converted before it runs, in their order; an
    [INSERT] then checks [NOT NULL]s, [CHECK]s, unique indexes and at its end the
    references.  [DEFAULT now()] is an input, as [uuid.New] is.  Section
    [statements] proves what the statements have in common with those of SQLite. *)
From stdpp Require Import base list strings numbers gmap.
From Stdlib Require Import Ascii String ZArith Lia Sorting.Permutation.
From S2P Require Import Prelude Text Literal Json Ir AnyTrip Jsonb Db.

(** ** Errors *)

Definition unique_violation : string := "23505".
Definition foreign_key_violation : string := "23503".
Definition check_violation : string := "23514".
Definition not_null_violation : string := "23502".
Definition invalid_text_representation : string := "22P02".
Definition character_not_in_repertoire : string := "22021".
Definition numeric_value_out_of_range : string := "22003".
Definition invalid_row_count_in_limit_clause : string := "2201W".
Definition serialization_failure : string := "40001".

(** ** Parameters *)

Fixpoint no_nul (s : string) : bool :=
  match s with EmptyString => true | String c r => negb (code c =? 0) && no_nul r end.
Definition text_ok (s : string) : bool := utf8_valid s && no_nul s.
Definition pg_texts (l : list string) : result db_err unit :=
  rall (fun s => when negb (text_ok s) fail Sqlstate character_not_in_repertoire ;; Ok tt) l.
Definition opt_list {A} (o : option A) : list A := match o with Some x => [x] | None => [] end.

(** [int4]. *)
Definition pg_int4 (z : Z) : result db_err Z :=
  when negb ((int32_min <=? z) && (z <=? int32_max)) fail Sqlstate numeric_value_out_of_range ;; Ok z.
Definition pg_limit {A} (n : Z) (l : list A) : result db_err (list A) :=
  when n <? 0 fail Sqlstate invalid_row_count_in_limit_clause ;; Ok (take (Z.to_nat n) l).

(** [$n IS NULL OR e]. *)
Definition or_null {A} (o : option A) (e : A -> bool) : bool := match o with None => true | Some x => e x end.
(** [(a, b) < (c, d)], row-wise. *)
Definition row_lt (a b : time * uuid) : bool := (a.1 <? b.1) || ((a.1 =? b.1) && (a.2 <? b.2)).
(** [a = b] where [a] may be [NULL]. *)
Definition null_eq {A} (eqb : A -> A -> bool) (a : option A) (b : A) : bool := match a with Some x => eqb x b | None => false end.
(** [COALESCE(MAX(v), 0) + 1] of versions, in [int4]. *)
Definition next_int4 (l : list Z) : result db_err Z := pg_int4 (fold_right Z.max 0 l + 1).
(** [SELECT DISTINCT ON (k)] of ordered rows: the first row of each run. *)
Section distinct.
Context {A : Type} (k : A -> uuid).
Fixpoint distinct_on (l : list A) : list A :=
  match l with
  | [] => []
  | x :: l' =>
      match distinct_on l' with
      | y :: r => if k y =? k x then x :: r else x :: y :: r
      | [] => [x]
      end
  end.
End distinct.

Section queries.
Context {J : Jsonb}.

(** A [jsonb] parameter; [nil] is [NULL]. *)
Definition pg_json (raw : RawMessage) : result db_err (option string) :=
  if String.eqb raw "" then Ok None
  else match jsonb raw with Some s => Ok (Some s) | None => Err (Sqlstate invalid_text_representation) end.
Definition not_null {A} (o : option A) : result db_err A := of_option (Sqlstate not_null_violation) o.

(** ** Projects ([projects.sql.go]) *)

Definition pq_CreateProject (id : uuid) (now : time) (slug name strategy : string) (db : DB) : result db_err (ProjectRow * DB) :=
  let? _ := pg_texts [slug; name; strategy] in
  when negb (one_of ["json"; "cel"; "typescript"] strategy) fail Sqlstate check_violation ;;
  when has (fun r => pr_id r =? id) (projects db) || has (fun r => String.eqb (pr_slug r) slug) (projects db)
    fail Sqlstate unique_violation ;;
  let r := mkProjectRow id slug name strategy now now in
  Ok (r, set_projects (projects db ++ [r]) db).
Definition pq_GetProjectBySlug (slug : string) (db : DB) : result db_err ProjectRow :=
  let? _ := pg_texts [slug] in
  query_one (fun r => String.eqb (pr_slug r) slug) (projects db).
Definition pq_ListProjects (db : DB) : list ProjectRow :=
  order_by (fun a b => pr_created b <=? pr_created a) (projects db).

(** ** Flags and versions ([flags.sql.go]) *)

Definition pq_CreateFlag (id : uuid) (now : time) (project : uuid) (key name desc vtype : string) (default : RawMessage) (db : DB) :
    result db_err (FlagRow * DB) :=
  let? _ := pg_texts [key; name; desc; vtype] in
  let? default := pg_json default in
  let? default := not_null default in
  when negb (one_of ["boolean"; "string"; "number"; "object"] vtype) fail Sqlstate check_violation ;;
  when has (fun r => fr_id r =? id) (flags db) ||
       has (fun r => (fr_project r =? project) && String.eqb (fr_key r) key) (flags db) fail Sqlstate unique_violation ;;
  when negb (has (fun r => pr_id r =? project) (projects db)) fail Sqlstate foreign_key_violation ;;
  let r := mkFlagRow id project key name desc vtype default now now in
  Ok (r, set_flags (flags db ++ [r]) db).
Definition pq_GetFlagByKey (project : uuid) (key : string) (db : DB) : result db_err FlagRow :=
  let? _ := pg_texts [key] in
  query_one (fun r => (fr_project r =? project) && String.eqb (fr_key r) key) (flags db).
Definition pq_ListFlagsByProject (project : uuid) (db : DB) : list FlagRow :=
  order_by (fun a b => fr_created b <=? fr_created a) (List.filter (fun r => fr_project r =? project) (flags db)).

Definition pq_NextFlagVersion (flag : uuid) (db : DB) : result db_err Z :=
  next_int4 (map vr_version (List.filter (fun r => vr_flag r =? flag) (flag_versions db))).
Definition pq_CreateFlagVersion (id : uuid) (now : time) (flag : uuid) (version : Z) (strategy : string)
    (source compiled : RawMessage) (text : option string) (db : DB) : result db_err (FlagVersionRow * DB) :=
  let? _ := pg_texts [strategy] in
  let? source := pg_json source in
  let? compiled := pg_json compiled in
  let? _ := pg_texts (opt_list text) in
  let? source := not_null source in
  let? compiled := not_null compiled in
  when negb (one_of ["json"; "cel"; "typescript"] strategy) fail Sqlstate check_violation ;;
  when has (fun r => vr_id r =? id) (flag_versions db) ||
       has (fun r => (vr_flag r =? flag) && (vr_version r =? version)) (flag_versions db) fail Sqlstate unique_violation ;;
  when negb (has (fun r => fr_id r =? flag) (flags db)) fail Sqlstate foreign_key_violation ;;
  let r := mkFlagVersionRow id flag version strategy source compiled now text in
  Ok (r, set_versions (flag_versions db ++ [r]) db).
Definition pq_ListFlagVersions (flag : uuid) (db : DB) : list FlagVersionRow :=
  order_by (fun a b => vr_version b <=? vr_version a) (List.filter (fun r => vr_flag r =? flag) (flag_versions db)).
(** [... ORDER BY version DESC LIMIT 1]. *)
Definition pq_GetLatestFlagVersion (flag : uuid) (db : DB) : result db_err FlagVersionRow :=
  of_option NoRows (head (order_by (fun a b => vr_version b <=? vr_version a)
    (List.filter (fun r => vr_flag r =? flag) (flag_versions db)))).

(** ** Environments ([environments.sql.go]) *)

Definition pq_CreateEnvironment (id : uuid) (now : time) (project : uuid) (slug name : string) (db : DB) :
    result db_err (EnvironmentRow * DB) :=
  let? _ := pg_texts [slug; name] in
  when has (fun r => er_id r =? id) (environments db) ||
       has (fun r => (er_project r =? project) && String.eqb (er_slug r) slug) (environments db) fail Sqlstate unique_violation ;;
  when negb (has (fun r => pr_id r =? project) (projects db)) fail Sqlstate foreign_key_violation ;;
  let r := mkEnvironmentRow id project slug name now in
  Ok (r, set_environments (environments db ++ [r]) db).
Definition pq_GetEnvironmentBySlug (project : uuid) (slug : string) (db : DB) : result db_err EnvironmentRow :=
  let? _ := pg_texts [slug] in
  query_one (fun r => (er_project r =? project) && String.eqb (er_slug r) slug) (environments db).
Definition pq_ListEnvironmentsByProject (project : uuid) (db : DB) : list EnvironmentRow :=
  order_by (fun a b => er_created a <=? er_created b) (List.filter (fun r => er_project r =? project) (environments db)).

(** ** Segments ([segments.sql.go]) *)

Definition pq_CreateSegment (id : uuid) (now : time) (project : uuid) (key name desc : string) (predicate : RawMessage) (db : DB) :
    result db_err (SegmentRow * DB) :=
  let? _ := pg_texts [key; name; desc] in
  let? predicate := pg_json predicate in
  let? predicate := not_null predicate in
  when has (fun r => sr_id r =? id) (segments db) ||
       has (fun r => (sr_project r =? project) && String.eqb (sr_key r) key) (segments db) fail Sqlstate unique_violation ;;
  when negb (has (fun r => pr_id r =? project) (projects db)) fail Sqlstate foreign_key_violation ;;
  let r := mkSegmentRow id project key name desc predicate now now in
  Ok (r, set_segments (segments db ++ [r]) db).
Definition pq_GetSegmentByKey (project : uuid) (key : string) (db : DB) : result db_err SegmentRow :=
  let? _ := pg_texts [key] in
  query_one (fun r => (sr_project r =? project) && String.eqb (sr_key r) key) (segments db).
Definition pq_ListSegmentsByProject (project : uuid) (db : DB) : list SegmentRow :=
  order_by (fun a b => sr_created a <=? sr_created b) (List.filter (fun r => sr_project r =? project) (segments db)).
(** A [NULL] predicate is refused only when a row would get it. *)
Definition pq_UpdateSegment (now : time) (project : uuid) (key name desc : string) (predicate : RawMessage) (db : DB) :
    result db_err (SegmentRow * DB) :=
  let? _ := pg_texts [key; name; desc] in
  let? predicate := pg_json predicate in
  let here r := (sr_project r =? project) && String.eqb (sr_key r) key in
  match List.find here (segments db) with
  | None => Err NoRows
  | Some r =>
      let? predicate := not_null predicate in
      let set r := mkSegmentRow (sr_id r) (sr_project r) (sr_key r) name desc predicate (sr_created r) now in
      Ok (set r, set_segments (map (fun r => if here r then set r else r) (segments db)) db)
  end.

(** ** Snapshots ([snapshots.sql.go]) *)

Definition pq_NextSnapshotVersion (project : uuid) (db : DB) : result db_err Z :=
  next_int4 (map nr_version (List.filter (fun r => nr_project r =? project) (snapshots db))).
Definition pq_CreateSnapshot (id : uuid) (now : time) (project : uuid) (env : option uuid) (version : Z) (compiled : RawMessage)
    (db : DB) : result db_err (SnapshotRow * DB) :=
  let? compiled := pg_json compiled in
  let? compiled := not_null compiled in
  when has (fun r => nr_id r =? id) (snapshots db) ||
       has (fun r => (nr_project r =? project) && (nr_version r =? version)) (snapshots db) fail Sqlstate unique_violation ;;
  when negb (has (fun r => pr_id r =? project) (projects db)) fail Sqlstate foreign_key_violation ;;
  when negb (or_null env (fun e => has (fun r => er_id r =? e) (environments db))) fail Sqlstate foreign_key_violation ;;
  let r := mkSnapshotRow id project env version compiled now in
  Ok (r, set_snapshots (snapshots db ++ [r]) db).
Definition pq_GetSnapshotByID (project id : uuid) (db : DB) : result db_err SnapshotRow :=
  query_one (fun r => (nr_project r =? project) && (nr_id r =? id)) (snapshots db).
Definition pq_GetLatestSnapshot (project : uuid) (db : DB) : result db_err SnapshotRow :=
  of_option NoRows (head (order_by (fun a b => nr_version b <=? nr_version a)
    (List.filter (fun r => nr_project r =? project) (snapshots db)))).
Definition pq_ListSnapshotsByProject (project : uuid) (limit : Z) (db : DB) : result db_err (list SnapshotRow) :=
  pg_limit limit (order_by (fun a b => nr_version b <=? nr_version a)
    (List.filter (fun r => nr_project r =? project) (snapshots db))).
(** [flag_versions fv INNER JOIN flags f ON f.id = fv.flag_id WHERE f.project_id = $1]. *)
Definition pq_joined (project : uuid) (db : DB) : list (string * FlagVersionRow) :=
  flat_map (fun v => map (fun f => (fr_key f, v))
    (List.filter (fun f => (fr_id f =? vr_flag v) && (fr_project f =? project)) (flags db))) (flag_versions db).
(** [ORDER BY fv.flag_id, fv.version DESC]. *)
Definition by_flag_version (a b : string * FlagVersionRow) : bool :=
  (vr_flag a.2 <? vr_flag b.2) || ((vr_flag a.2 =? vr_flag b.2) && (vr_version b.2 <=? vr_version a.2)).
Definition pq_ListLatestFlagVersions (project : uuid) (db : DB) : list (string * FlagVersionRow) :=
  distinct_on (fun r => vr_flag r.2) (order_by by_flag_version (pq_joined project db)).

(** ** Audit events ([audit.sql.go]) *)

Definition pq_AppendAuditEvent (id : uuid) (now : time) (project flag : option uuid) (action : string)
    (actor : option string) (payload : RawMessage) (db : DB) : result db_err (AuditRow * DB) :=
  let? _ := pg_texts (action :: opt_list actor) in
  let? payload := pg_json payload in
  let? payload := not_null payload in
  when has (fun r => ar_id r =? id) (audit_events db) fail Sqlstate unique_violation ;;
  when negb (or_null project (fun p => has (fun r => pr_id r =? p) (projects db))) fail Sqlstate foreign_key_violation ;;
  when negb (or_null flag (fun f => has (fun r => fr_id r =? f) (flags db))) fail Sqlstate foreign_key_violation ;;
  let r := mkAuditRow id project flag action actor payload now in
  Ok (r, set_audit (audit_events db ++ [r]) db).
Definition pq_ListAuditEventsByProject (project : uuid) (limit : Z) (action actor : option string) (from to : option time)
    (cursorTs : option time) (cursorID : option uuid) (db : DB) : result db_err (list AuditRow) :=
  let? _ := pg_texts (opt_list action ++ opt_list actor) in
  pg_limit limit (order_by (fun a b => negb (row_lt (ar_created a, ar_id a) (ar_created b, ar_id b)))
    (List.filter (fun r =>
       null_eq Z.eqb (ar_project r) project &&
       or_null action (fun a => String.eqb (ar_action r) a) &&
       or_null actor (null_eq String.eqb (ar_actor r)) &&
       or_null from (fun t => t <=? ar_created r) &&
       or_null to (fun t => ar_created r <? t) &&
       or_null cursorTs (fun t => match cursorID with Some id => row_lt (ar_created r, ar_id r) (t, id) | None => ar_created r <? t end))
     (audit_events db))).
End queries.

(** ** What the statements have in common with those of SQLite *)

Section statements.
Context {J : Jsonb}.

(** The error PostgreSQL reports where SQLite reports [e]. *)
Definition pg_error (e : db_err) : db_err :=
  match e with
  | ConstraintCheck => Sqlstate check_violation
  | ConstraintUnique | ConstraintPrimaryKey => Sqlstate unique_violation
  | ConstraintForeignKey => Sqlstate foreign_key_violation
  | e => e
  end.

Lemma rbind_same {E A B} (m : result E A) (f g : A -> result E B) : (forall a, f a = g a) -> rbind m f = rbind m g.
Proof. intros H. destruct m; cbn; auto. Qed.

(** The guards of two inserts fail together. *)
#[local] Ltac same_insert :=
  unfold strategies, value_types; repeat (apply rbind_same; intros ?);
  repeat match goal with
  | |- context [?x && ?y] => destruct x eqn:?; cbn [andb negb]
  | |- context [?x || ?y] => destruct x eqn:?; cbn [orb negb]
  | |- context [if ?b then _ else _] => destruct b eqn:?; cbn [andb orb negb]
  end; done.

Lemma pq_CreateProject_same id now slug name s db :
  pq_CreateProject id now slug name s db =
  (let? _ := pg_texts [slug; name; s] in rmap_err pg_error (q_CreateProject id now slug name s db)).
Proof. unfold pq_CreateProject, q_CreateProject. same_insert. Qed.
Lemma pq_CreateFlag_same id now p k n d vt df db :
  pq_CreateFlag id now p k n d vt df db =
  (let? _ := pg_texts [k; n; d; vt] in let? o := pg_json df in let? df := not_null o in
   rmap_err pg_error (q_CreateFlag id now p k n d vt df db)).
Proof. unfold pq_CreateFlag, q_CreateFlag, project_exists. same_insert. Qed.
Lemma pq_CreateFlagVersion_same id now f v s src c t db :
  pq_CreateFlagVersion id now f v s src c t db =
  (let? _ := pg_texts [s] in let? os := pg_json src in let? oc := pg_json c in let? _ := pg_texts (opt_list t) in
   let? src := not_null os in let? c := not_null oc in
   rmap_err pg_error (q_CreateFlagVersion id now f v s src c t db)).
Proof. unfold pq_CreateFlagVersion, q_CreateFlagVersion, flag_exists. same_insert. Qed.
Lemma pq_CreateEnvironment_same id now p s n db :
  pq_CreateEnvironment id now p s n db =
  (let? _ := pg_texts [s; n] in rmap_err pg_error (q_CreateEnvironment id now p s n db)).
Proof. unfold pq_CreateEnvironment, q_CreateEnvironment, project_exists. same_insert. Qed.
Lemma pq_CreateSegment_same id now p k n d pr db :
  pq_CreateSegment id now p k n d pr db =
  (let? _ := pg_texts [k; n; d] in let? o := pg_json pr in let? pr := not_null o in
   rmap_err pg_error (q_CreateSegment id now p k n d pr db)).
Proof. unfold pq_CreateSegment, q_CreateSegment, project_exists. same_insert. Qed.
Lemma pq_UpdateSegment_same now p k n d pr db :
  pq_UpdateSegment now p k n d pr db =
  (let? _ := pg_texts [k; n; d] in let? o := pg_json pr in
   match o with
   | Some pr => rmap_err pg_error (q_UpdateSegment now p k n d pr db)
   | None => let? _ := q_GetSegmentByKey p k db in Err (Sqlstate not_null_violation)
   end).
Proof.
  unfold pq_UpdateSegment, q_UpdateSegment, q_GetSegmentByKey, query_one, is_segment. repeat (apply rbind_same; intros ?).
  match goal with o : option string |- _ => destruct o end; by destruct (List.find _ _).
Qed.
Lemma pq_CreateSnapshot_same id now p e v c db :
  pq_CreateSnapshot id now p e v c db =
  (let? o := pg_json c in let? c := not_null o in rmap_err pg_error (q_CreateSnapshot id now p e v c db)).
Proof. unfold pq_CreateSnapshot, q_CreateSnapshot, project_exists, env_exists. destruct e; cbn [or_null opt_exists]; same_insert. Qed.
Lemma pq_AppendAuditEvent_same id now p f a ac pl db :
  pq_AppendAuditEvent id now p f a ac pl db =
  (let? _ := pg_texts (a :: opt_list ac) in let? o := pg_json pl in let? pl := not_null o in
   rmap_err pg_error (q_AppendAuditEvent id now p f a ac pl db)).
Proof.
  unfold pq_AppendAuditEvent, q_AppendAuditEvent, project_exists, flag_exists.
  destruct p, f; cbn [or_null opt_exists]; same_insert.
Qed.

(** The audit query, in the terms of SQLite's. *)
Lemma order_by_ext {A} (b b' : A -> A -> bool) l : (forall x y, b x y = b' x y) -> order_by b l = order_by b' l.
Proof.
  intros H. assert (forall x k, insert_by b x k = insert_by b' x k) as Hi.
  { intros x k. induction k as [|y k IH]; [done|]. cbn. by rewrite H, IH. }
  induction l as [|x l IH] using rev_ind; [done|]. by rewrite !order_by_app, IH, Hi.
Qed.
Lemma pq_ListAudit_same project limit action actor from to cursor db :
  pq_ListAuditEventsByProject project limit action actor from to (option_map fst cursor) (option_map snd cursor) db =
  (let? _ := pg_texts (opt_list action ++ opt_list actor) in
   pg_limit limit (order_by audit_after
     (List.filter (audit_matches (mkAuditFilter project action actor from to cursor)) (audit_events db)))).
Proof.
  unfold pq_ListAuditEventsByProject. apply rbind_same. intros _. f_equal.
  rewrite (order_by_ext _ audit_after) by (intros x y; unfold row_lt, audit_after; cbn; lia). f_equal.
  apply List.filter_ext. intros r. unfold audit_matches, unless_null, or_null, null_eq, row_lt. cbn [af_project af_action af_actor af_from af_to af_cursor].
  by destruct cursor as [[t i]|], actor, action, from, to.
Qed.

Lemma fold_max_right l : fold_right Z.max 0 l = max_version l.
Proof.
  unfold max_version. symmetry. apply fold_symmetric; intros; lia.
Qed.
Lemma pq_NextFlagVersion_same f db : pq_NextFlagVersion f db = pg_int4 (q_NextFlagVersion f db).
Proof. unfold pq_NextFlagVersion, next_int4. by rewrite fold_max_right. Qed.
Lemma pq_NextSnapshotVersion_same p db : pq_NextSnapshotVersion p db = pg_int4 (q_NextSnapshotVersion p db).
Proof. unfold pq_NextSnapshotVersion, next_int4. by rewrite fold_max_right. Qed.
End statements.

(** ** [DISTINCT ON] *)

Section distinct_rows.
Context {A : Type} (k : A -> uuid) (before : A -> A -> bool).
Hypothesis before_refl : forall x, before x x = true.
Hypothesis before_runs : forall x y, before x y = true -> k x <= k y.

Lemma distinct_incl l x : In x (distinct_on k l) -> In x l.
Proof.
  induction l as [|y l IH]; [done|]. cbn. destruct (distinct_on k l) as [|z r]; [intros [->|[]]; by left|].
  destruct (k z =? k y); intros [->|H]; auto. right. apply IH. by right.
Qed.
Lemma distinct_covers l x : In x l -> exists y, In y (distinct_on k l) /\ k y = k x.
Proof.
  induction l as [|y l IH]; [done|]. cbn. intros [->|H].
  - destruct (distinct_on k l) as [|z r]; [|destruct (k z =? k x)]; exists x; (split; [by left | done]).
  - destruct (IH H) as (w & Hw & E). destruct (distinct_on k l) as [|z r]; [done|].
    destruct (Z.eqb_spec (k z) (k y)) as [Ez|]; [|exists w; split; [by right | done]].
    destruct Hw as [->|Hw]; [exists y; split; [by left | congruence] | exists w; split; [by right | done]].
Qed.
(** The first row of ordered rows heads the distinct ones. *)
Lemma distinct_head x l : exists r, distinct_on k (x :: l) = x :: r.
Proof. cbn. destruct (distinct_on k l) as [|z r]; [by eexists|]. destruct (k z =? k x); by eexists. Qed.
Lemma distinct_nodup l : ordered before l -> NoDup (map k (distinct_on k l)).
Proof.
  induction 1 as [|x l Hl IH Hx]; [constructor|]. rewrite List.Forall_forall in Hx.
  assert (forall w, In w (distinct_on k l) -> k x <= k w) as Hw by (intros w Hw%distinct_incl; auto).
  cbn. destruct (distinct_on k l) as [|z r] eqn:E; [apply NoDup_singleton|]. destruct (Z.eqb_spec (k z) (k x)) as [Ez|Ez].
  - cbn in IH |- *. by rewrite <- Ez.
  - cbn [map]. apply NoDup_cons. split; [|done]. intros Hin%list_elem_of_In. apply (in_map_iff k (z :: r)) in Hin as (w & Ew & Hin).
    assert (exists y l', l = y :: l') as (y & l' & ->) by (destruct l; [done | eauto]).
    assert (z = y) as -> by (destruct (distinct_head y l') as [r' Hr]; rewrite Hr in E; by injection E as ->).
    inversion Hl as [|? ? _ Hy]; subst. rewrite List.Forall_forall in Hy. pose proof (Hw y (or_introl eq_refl)).
    assert (k y <= k w); [|lia]. apply before_runs. assert (In w (y :: l')) as [<-|H'] by (apply distinct_incl; by rewrite E); auto.
Qed.
Lemma distinct_first l x : ordered before l -> In x (distinct_on k l) -> forall y, In y l -> k y = k x -> before x y = true.
Proof.
  intros Hl. induction Hl as [|z l Hl IH Hz]; [done|]. rewrite List.Forall_forall in Hz.
  pose proof (distinct_nodup (z :: l) ltac:(constructor; [exact Hl | by apply List.Forall_forall])) as Hnd.
  destruct (distinct_head z l) as [r Hr]. rewrite Hr in Hnd |- *. intros [<-|Hx] y [<-|Hy] E; auto.
  - exfalso. cbn in Hnd. apply NoDup_cons in Hnd as [Hn _]. apply Hn. rewrite E. apply list_elem_of_In. by apply in_map.
  - apply IH; [|done|done]. cbn in Hr. destruct (distinct_on k l) as [|w s]; [by injection Hr as <-|].
    destruct (k w =? k z); injection Hr as <-; [by right | done].
Qed.
End distinct_rows.

Lemma NoDup_key_eq {A K} (k : A -> K) l x y : NoDup (map k l) -> In x l -> In y l -> k x = k y -> x = y.
Proof.
  induction l as [|z l IH]; [done|]. cbn. intros [Hz Hnd]%NoDup_cons [->|Hx] [->|Hy] E; auto; exfalso; apply Hz;
    [rewrite E | rewrite <- E]; apply list_elem_of_In, in_map_iff; eauto.
Qed.

(** The first row in descending order has the greatest version. *)
Lemma head_latest flag db v :
  head (q_ListFlagVersions flag db) = Some v ->
  In v (versions_of flag db) /\ forall w, In w (versions_of flag db) -> vr_version w <= vr_version v.
Proof.
  unfold q_ListFlagVersions. intros H. set (before := fun a b => vr_version b <=? vr_version a) in *.
  assert (ordered before (order_by before (versions_of flag db))) as Ho by (apply order_ordered; unfold before; intros; lia).
  pose proof (order_by_perm before (versions_of flag db)) as Hp.
  destruct (order_by before _) as [|x l]; [done|]. injection H as ->. inversion Ho as [|? ? _ Hl]; subst. rewrite List.Forall_forall in Hl.
  split; [apply (Permutation_in _ Hp); by left|]. intros w Hw. apply (Permutation_in _ (Permutation_sym Hp)) in Hw as [->|Hw]; [lia|].
  specialize (Hl w Hw). unfold before in Hl. lia.
Qed.
Lemma one_version flag db v w :
  db_ok db -> In v (versions_of flag db) -> In w (versions_of flag db) -> vr_version v = vr_version w -> v = w.
Proof.
  intros Hok Hv Hw E. destruct (ok_versions _ Hok flag) as [n Hn].
  assert (NoDup (map vr_version (versions_of flag db))) as Hnd.
  { rewrite Hn. unfold upto. apply NoDup_fmap_2; [intros ? ?; lia | apply NoDup_seq]. }
  by eapply (NoDup_key_eq vr_version).
Qed.

(** [ListLatestFlagVersions] of the two servers: the same rows. *)
Lemma pq_ListLatest_same project db :
  db_ok db -> pq_ListLatestFlagVersions project db ≡ₚ q_ListLatestFlagVersions project db.
Proof.
  intros Hok. set (k := fun r : string * FlagVersionRow => vr_flag r.2).
  assert (ordered by_flag_version (order_by by_flag_version (pq_joined project db))) as Ho.
  { apply order_ordered; unfold by_flag_version; intros; lia. }
  pose proof (order_by_perm by_flag_version (pq_joined project db)) as Hperm.
  assert (forall x, by_flag_version x x = true) as Hrefl by (intros; unfold by_flag_version; lia).
  assert (forall x y, by_flag_version x y = true -> k x <= k y) as Hruns by (unfold by_flag_version, k; intros; lia).
  assert (forall key v, In (key, v) (pq_joined project db) <->
    exists f, In f (flags db) /\ fr_id f = vr_flag v /\ fr_project f = project /\ fr_key f = key /\ In v (flag_versions db)) as Hj.
  { intros key v. unfold pq_joined. rewrite in_flat_map. split.
    - intros (w & Hw & (f & [= <- <-] & Hf)%in_map_iff). apply filter_In in Hf as [Hf Hc]. exists f. split_and!; try done; lia.
    - intros (f & Hf & E1 & E2 & <- & Hv). exists v. split; [done|]. apply in_map_iff. exists f. split; [done|]. apply filter_In. split; [done | lia]. }
  assert (forall x, In x (pq_ListLatestFlagVersions project db) -> In x (q_ListLatestFlagVersions project db)) as Hsub.
  { intros [key v] Hx. pose proof (distinct_first k by_flag_version Hrefl Hruns _ _ Ho Hx) as Hfirst.
    apply distinct_incl, (Permutation_in _ Hperm), Hj in Hx as (f & Hf & E1 & E2 & E3 & Hv).
    assert (In v (versions_of (fr_id f) db)) as Hvf by (apply filter_In; split; [done | lia]).
    apply in_flat_map. exists f. split; [apply filter_In; split; [done | lia]|].
    destruct (head (q_ListFlagVersions (fr_id f) db)) as [w|] eqn:Eh.
    - apply head_latest in Eh as [Hw Hmax]. left. rewrite E3. f_equal. eapply one_version; [done | exact Hw | done|].
      pose proof (Hmax v Hvf). assert (In (key, w) (order_by by_flag_version (pq_joined project db))) as Hin.
      { apply (Permutation_in _ (Permutation_sym Hperm)), Hj. exists f. apply filter_In in Hw as [Hw Hwf]. split_and!; try done; lia. }
      apply filter_In in Hw as [_ Hwf]. specialize (Hfirst _ Hin). unfold k, by_flag_version in Hfirst. cbn in Hfirst. lia.
    - exfalso. unfold q_ListFlagVersions in Eh. apply (Permutation_in _ (Permutation_sym (order_by_perm (fun a b => vr_version b <=? vr_version a) _))) in Hvf.
      by destruct (order_by (fun a b => vr_version b <=? vr_version a) (versions_of (fr_id f) db)). }
  apply list.NoDup_Permutation.
  - eapply NoDup_fmap_1. exact (distinct_nodup k by_flag_version Hrefl Hruns _ Ho).
  - eapply NoDup_fmap_1. by apply latest_keys.
  - intros [key w]. rewrite !list_elem_of_In. split; [apply Hsub|]. intros Hq. pose proof Hq as (f & [Hf Hp]%filter_In & Hh)%in_flat_map.
    destruct (head _) as [w'|] eqn:Eh; [|done]. destruct Hh as [[= <- ->]|[]]. pose proof (head_latest _ _ _ Eh) as [[Hw Hwf]%filter_In _].
    destruct (distinct_covers k (order_by by_flag_version (pq_joined project db)) (fr_key f, w)) as ([key' v'] & Hd & Ed).
    { apply (Permutation_in _ (Permutation_sym Hperm)), Hj. exists f. split_and!; try done; lia. }
    pose proof (Hsub _ Hd) as (f' & [Hf' _]%filter_In & Hh')%in_flat_map.
    destruct (head (q_ListFlagVersions (fr_id f') db)) as [u|] eqn:Eh'; [|done]. destruct Hh' as [[= <- ->]|[]].
    pose proof (head_latest _ _ _ Eh') as [[_ Hvf]%filter_In _]. unfold k in Ed. cbn in Ed.
    assert (f' = f) as ->; [|rewrite Eh in Eh'; by injection Eh' as ->].
    eapply (NoDup_key_eq fr_id); [apply Hok | done | done | lia].
Qed.
