(* ===== verification/Store.v ===== *)
(** The persistence layer ([internal/store]) over the SQLite backend: domain
    types, row conversion, the [Store] and [Tx] operations, transactions with
    retries, and the audit wrapper.

    The connection pool has one connection and write transactions take the
    writer lock at [BEGIN IMMEDIATE], so operations run one after the other; an
    interleaving of callers is a sequence of operations.  The faults a
    transaction can meet (at [BEGIN], at [COMMIT], a cancelled wait) are inputs. *)
From stdpp Require Import base list strings numbers gmap.
From Stdlib Require Import Ascii String ZArith Lia.
From S2P Require Import Prelude Text Ir Db.

(** ** Domain types ([types.go]) *)

Record Project : Type := mkProject {
  P_ID : uuid; P_Slug : string; P_DisplayName : string; P_ConfigStrategy : string;
  P_CreatedAt : time; P_UpdatedAt : time
}.
Record Flag : Type := mkFlag {
  F_ID : uuid; F_ProjectID : uuid; F_Key : string; F_Name : string; F_Description : string;
  F_ValueType : string; F_DefaultValue : RawMessage; F_CreatedAt : time; F_UpdatedAt : time
}.
Record FlagVersion : Type := mkFlagVersion {
  V_ID : uuid; V_FlagID : uuid; V_Version : Z; V_Strategy : string; V_Source : RawMessage;
  V_Compiled : RawMessage; V_SourceText : string; V_PublishedAt : time
}.
Record Environment : Type := mkEnvironment {
  E_ID : uuid; E_ProjectID : uuid; E_Slug : string; E_Name : string; E_CreatedAt : time
}.
Record Segment : Type := mkSegment {
  S_ID : uuid; S_ProjectID : uuid; S_Key : string; S_Name : string; S_Description : string;
  S_Predicate : RawMessage; S_CreatedAt : time; S_UpdatedAt : time
}.
Record StoredSnapshot : Type := mkStoredSnapshot {
  N_ID : uuid; N_ProjectID : uuid; N_EnvironmentID : option uuid; N_Version : Z;
  N_Compiled : RawMessage; N_CreatedAt : time
}.
Record AuditEvent : Type := mkAuditEvent {
  A_ID : uuid; A_ProjectID : option uuid; A_FlagID : option uuid; A_Action : string; A_Actor : string;
  A_Payload : RawMessage; A_CreatedAt : time
}.
Record LatestFlagVersion : Type := mkLatestFlagVersion {
  L_FlagKey : string; L_FlagID : uuid; L_Version : Z; L_Strategy : string; L_Compiled : RawMessage;
  L_PublishedAt : time
}.

(** ** Parameters ([params.go]) *)

Record CreateFlagParams : Type := mkCreateFlagParams {
  cf_ProjectID : uuid; cf_Key : string; cf_Name : string; cf_Description : string;
  cf_ValueType : string; cf_DefaultValue : RawMessage
}.
Record PublishFlagVersionParams : Type := mkPublishParams {
  pv_FlagID : uuid; pv_Strategy : string; pv_Source : RawMessage; pv_Compiled : RawMessage; pv_SourceText : string
}.
(** [CreateSegmentParams] and [UpdateSegmentParams] have the same fields. *)
Record SegmentParams : Type := mkSegmentParams {
  sp_ProjectID : uuid; sp_Key : string; sp_Name : string; sp_Description : string; sp_Predicate : RawMessage
}.
Record CompileSnapshotParams : Type := mkSnapshotParams {
  cs_ProjectID : uuid; cs_EnvironmentID : option uuid; cs_Compiled : RawMessage
}.
Record AppendAuditParams : Type := mkAuditParams {
  aa_ProjectID : option uuid; aa_FlagID : option uuid; aa_Action : string; aa_Actor : string; aa_Payload : RawMessage
}.
(** A zero time is [None]. *)
Record ListAuditEventsParams : Type := mkListAudit {
  la_ProjectID : uuid; la_Action : string; la_Actor : string; la_From : option time; la_To : option time;
  la_CursorTs : option time; la_CursorID : uuid; la_Limit : Z
}.

(** ** Conversion ([sqlite_convert.go]) *)

Definition sqliteStringFromString (s : string) : option string := if String.eqb s "" then None else Some s.
Definition sqliteStringToString (p : option string) : string := default "" p.
Definition sqliteRawMessage (b : RawMessage) : string := if String.eqb b "" then "{}" else b.
Definition sqliteRawMessageFrom (s : string) : RawMessage := if String.eqb s "" then "{}" else s.

Definition sqliteProjectFromRow (r : ProjectRow) : Project :=
  mkProject (pr_id r) (pr_slug r) (pr_name r) (pr_strategy r) (pr_created r) (pr_updated r).
Definition sqliteFlagFromRow (r : FlagRow) : Flag :=
  mkFlag (fr_id r) (fr_project r) (fr_key r) (fr_name r) (fr_desc r) (fr_vtype r)
    (sqliteRawMessageFrom (fr_default r)) (fr_created r) (fr_updated r).
Definition sqliteFlagVersionFromRow (r : FlagVersionRow) : FlagVersion :=
  mkFlagVersion (vr_id r) (vr_flag r) (vr_version r) (vr_strategy r) (sqliteRawMessageFrom (vr_source r))
    (sqliteRawMessageFrom (vr_compiled r)) (sqliteStringToString (vr_text r)) (vr_published r).
Definition sqliteEnvironmentFromRow (r : EnvironmentRow) : Environment :=
  mkEnvironment (er_id r) (er_project r) (er_slug r) (er_name r) (er_created r).
Definition sqliteSegmentFromRow (r : SegmentRow) : Segment :=
  mkSegment (sr_id r) (sr_project r) (sr_key r) (sr_name r) (sr_desc r) (sqliteRawMessageFrom (sr_predicate r))
    (sr_created r) (sr_updated r).
Definition sqliteSnapshotFromRow (r : SnapshotRow) : StoredSnapshot :=
  mkStoredSnapshot (nr_id r) (nr_project r) (nr_env r) (nr_version r) (sqliteRawMessageFrom (nr_compiled r)) (nr_created r).
Definition sqliteAuditFromRow (r : AuditRow) : AuditEvent :=
  mkAuditEvent (ar_id r) (ar_project r) (ar_flag r) (ar_action r) (sqliteStringToString (ar_actor r))
    (sqliteRawMessageFrom (ar_payload r)) (ar_created r).
Definition sqliteLatestFlagVersionFromRow (r : string * FlagVersionRow) : LatestFlagVersion :=
  mkLatestFlagVersion r.1 (vr_flag r.2) (vr_version r.2) (vr_strategy r.2) (sqliteRawMessageFrom (vr_compiled r.2))
    (vr_published r.2).

(** ** Errors ([errors.go]) *)

Inductive store_err : Type :=
| ErrNotFound
| Driver (e : db_err)      (* a driver error, wrapped with context *)
| ContextDone.

Definition IsConflict (e : store_err) : bool :=
  match e with
  | Driver (Sqlstate c) => String.eqb c "23505" || String.eqb c "23503"
  | Driver ConstraintUnique | Driver ConstraintPrimaryKey | Driver ConstraintForeignKey => true
  | _ => false
  end.

(** ** Reads: [sql.ErrNoRows] becomes [ErrNotFound] *)

Definition found {R A} (conv : R -> A) (m : result db_err R) : result store_err A :=
  match m with
  | Ok r => Ok (conv r)
  | Err NoRows => Err ErrNotFound
  | Err e => Err (Driver e)
  end.

Definition GetProjectBySlug (slug : string) (db : DB) : result store_err Project :=
  found sqliteProjectFromRow (q_GetProjectBySlug slug db).
Definition ListProjects (db : DB) : list Project := map sqliteProjectFromRow (q_ListProjects db).
Definition GetFlagByKey (project : uuid) (key : string) (db : DB) : result store_err Flag :=
  found sqliteFlagFromRow (q_GetFlagByKey project key db).
Definition ListFlagsByProject (project : uuid) (db : DB) : list Flag := map sqliteFlagFromRow (q_ListFlagsByProject project db).
Definition GetLatestFlagVersion (flag : uuid) (db : DB) : result store_err FlagVersion :=
  found sqliteFlagVersionFromRow (q_GetLatestFlagVersion flag db).
Definition ListFlagVersions (flag : uuid) (db : DB) : list FlagVersion :=
  map sqliteFlagVersionFromRow (q_ListFlagVersions flag db).
Definition GetEnvironmentBySlug (project : uuid) (slug : string) (db : DB) : result store_err Environment :=
  found sqliteEnvironmentFromRow (q_GetEnvironmentBySlug project slug db).
Definition ListEnvironmentsByProject (project : uuid) (db : DB) : list Environment :=
  map sqliteEnvironmentFromRow (q_ListEnvironmentsByProject project db).
Definition GetSegmentByKey (project : uuid) (key : string) (db : DB) : result store_err Segment :=
  found sqliteSegmentFromRow (q_GetSegmentByKey project key db).
Definition ListSegmentsByProject (project : uuid) (db : DB) : list Segment :=
  map sqliteSegmentFromRow (q_ListSegmentsByProject project db).
Definition GetSnapshotByID (project id : uuid) (db : DB) : result store_err StoredSnapshot :=
  found sqliteSnapshotFromRow (q_GetSnapshotByID project id db).
Definition GetLatestSnapshot (project : uuid) (db : DB) : result store_err StoredSnapshot :=
  found sqliteSnapshotFromRow (q_GetLatestSnapshot project db).
Definition ListSnapshotsByProject (project : uuid) (limit : Z) (db : DB) : list StoredSnapshot :=
  map sqliteSnapshotFromRow (q_ListSnapshotsByProject project limit db).
Definition ListLatestFlagVersions (project : uuid) (db : DB) : list LatestFlagVersion :=
  map sqliteLatestFlagVersionFromRow (q_ListLatestFlagVersions project db).

Definition nullable (s : string) : option string := if String.eqb s "" then None else Some s.
Definition audit_params (p : ListAuditEventsParams) : audit_filter :=
  mkAuditFilter (la_ProjectID p) (nullable (la_Action p)) (nullable (la_Actor p)) (la_From p) (la_To p)
    (match la_CursorTs p with Some t => Some (t, la_CursorID p) | None => None end).
Definition ListAuditEvents (p : ListAuditEventsParams) (db : DB) : list AuditEvent :=
  map sqliteAuditFromRow (q_ListAuditEventsByProject (audit_params p) (la_Limit p) db).

(** ** Writes *)

(** What a call draws from outside: a fresh identifier and the clock. *)
Record draw : Type := mkDraw { new_id : uuid; now : time }.

Definition write (A : Type) : Type := DB -> result store_err (A * DB).

Definition wrap {R A} (conv : R -> A) (m : result db_err (R * DB)) : result store_err (A * DB) :=
  match m with Ok (r, db) => Ok (conv r, db) | Err e => Err (Driver e) end.

(** The methods of [sqliteTx]. *)
Definition tx_CreateProject (d : draw) (slug name strategy : string) : write Project := fun db =>
  wrap sqliteProjectFromRow (q_CreateProject (new_id d) (now d) slug name strategy db).
Definition tx_CreateFlag (d : draw) (p : CreateFlagParams) : write Flag := fun db =>
  wrap sqliteFlagFromRow (q_CreateFlag (new_id d) (now d) (cf_ProjectID p) (cf_Key p) (cf_Name p) (cf_Description p)
    (cf_ValueType p) (sqliteRawMessage (cf_DefaultValue p)) db).
Definition tx_CreateEnvironment (d : draw) (project : uuid) (slug name : string) : write Environment := fun db =>
  wrap sqliteEnvironmentFromRow (q_CreateEnvironment (new_id d) (now d) project slug name db).
Definition tx_CreateSegment (d : draw) (p : SegmentParams) : write Segment := fun db =>
  wrap sqliteSegmentFromRow (q_CreateSegment (new_id d) (now d) (sp_ProjectID p) (sp_Key p) (sp_Name p)
    (sp_Description p) (sqliteRawMessage (sp_Predicate p)) db).
(** The [Tx] version wraps [ErrNoRows] like any other error. *)
Definition tx_UpdateSegment (d : draw) (p : SegmentParams) : write Segment := fun db =>
  wrap sqliteSegmentFromRow (q_UpdateSegment (now d) (sp_ProjectID p) (sp_Key p) (sp_Name p) (sp_Description p)
    (sqliteRawMessage (sp_Predicate p)) db).
(** The [Store] version maps it to [ErrNotFound]. *)
Definition store_UpdateSegment (d : draw) (p : SegmentParams) : write Segment := fun db =>
  match q_UpdateSegment (now d) (sp_ProjectID p) (sp_Key p) (sp_Name p) (sp_Description p)
          (sqliteRawMessage (sp_Predicate p)) db with
  | Ok (r, db') => Ok (sqliteSegmentFromRow r, db')
  | Err NoRows => Err ErrNotFound
  | Err e => Err (Driver e)
  end.
(** [publishFlagVersionTx]: the next version, then the insert. *)
Definition publishFlagVersionTx (d : draw) (p : PublishFlagVersionParams) : write FlagVersion := fun db =>
  let next := q_NextFlagVersion (pv_FlagID p) db in
  wrap sqliteFlagVersionFromRow (q_CreateFlagVersion (new_id d) (now d) (pv_FlagID p) next (pv_Strategy p)
    (sqliteRawMessage (pv_Source p)) (sqliteRawMessage (pv_Compiled p)) (sqliteStringFromString (pv_SourceText p)) db).
Definition tx_CompileSnapshot (d : draw) (p : CompileSnapshotParams) : write StoredSnapshot := fun db =>
  let next := q_NextSnapshotVersion (cs_ProjectID p) db in
  wrap sqliteSnapshotFromRow (q_CreateSnapshot (new_id d) (now d) (cs_ProjectID p) (cs_EnvironmentID p) next
    (sqliteRawMessage (cs_Compiled p)) db).
Definition AppendAudit (d : draw) (p : AppendAuditParams) : write AuditEvent := fun db =>
  let payload := if String.eqb (aa_Payload p) "" then "{}" else aa_Payload p in
  wrap sqliteAuditFromRow (q_AppendAuditEvent (new_id d) (now d) (aa_ProjectID p) (aa_FlagID p) (aa_Action p)
    (sqliteStringFromString (aa_Actor p)) payload db).

(** The methods of [sqliteStore] outside a transaction run the same queries. *)
Definition store_CreateProject (d : draw) (slug name strategy : string) : write Project := fun db =>
  wrap sqliteProjectFromRow (q_CreateProject (new_id d) (now d) slug name strategy db).
Definition store_CreateFlag (d : draw) (p : CreateFlagParams) : write Flag := fun db =>
  wrap sqliteFlagFromRow (q_CreateFlag (new_id d) (now d) (cf_ProjectID p) (cf_Key p) (cf_Name p) (cf_Description p)
    (cf_ValueType p) (sqliteRawMessage (cf_DefaultValue p)) db).
Definition store_CreateEnvironment (d : draw) (project : uuid) (slug name : string) : write Environment := fun db =>
  wrap sqliteEnvironmentFromRow (q_CreateEnvironment (new_id d) (now d) project slug name db).
Definition store_CreateSegment (d : draw) (p : SegmentParams) : write Segment := fun db =>
  wrap sqliteSegmentFromRow (q_CreateSegment (new_id d) (now d) (sp_ProjectID p) (sp_Key p) (sp_Name p)
    (sp_Description p) (sqliteRawMessage (sp_Predicate p)) db).

(** ** Transactions ([sqlite_audit.go]) *)

Record tx_env : Type := mkTxEnv {
  begin_fault : option db_err;
  commit_fault : option db_err;
  wait_cancelled : bool          (* the context ends while waiting to retry *)
}.

(** [runOnceTx]: begin, run, commit; every failure rolls back. *)
Definition runOnceTx {A} (env : tx_env) (fn : write A) (db : DB) : result store_err A * DB :=
  match begin_fault env with
  | Some e => (Err (Driver e), db)
  | None =>
      match fn db with
      | Err e => (Err e, db)
      | Ok (a, db') =>
          match commit_fault env with
          | Some e => (Err (Driver e), db)
          | None => (Ok a, db')
          end
      end
  end.

Definition isSQLiteRetry (e : store_err) : bool :=
  match e with Driver Busy | Driver BusySnapshot => true | _ => false end.

Definition maxRetries : nat := 8.

(** The attempts of [withImmediateTx] from [attempt] on, with [left] retries to
    go; each attempt has its own faults and its own run of [fn]. *)
Fixpoint retry_tx {A} (envs : nat -> tx_env) (fn : nat -> write A) (left attempt : nat) (db : DB) : result store_err A * DB :=
  match runOnceTx (envs attempt) (fn attempt) db with
  | (Ok a, db') => (Ok a, db')
  | (Err e, db') =>
      match left with
      | S left' =>
          if isSQLiteRetry e then
            if wait_cancelled (envs attempt) then (Err ContextDone, db')
            else retry_tx envs fn left' (S attempt) db'
          else (Err e, db')
      | O => (Err e, db')
      end
  end.

Definition withImmediateTx {A} (envs : nat -> tx_env) (fn : nat -> write A) (db : DB) : result store_err A * DB :=
  retry_tx envs fn maxRetries 0 db.

(** [WithAudit]: the callback, then the audit row, in one transaction. *)
Definition audited {A} (d : draw) (ev : AppendAuditParams) (fn : write A) : write A := fun db =>
  match fn db with
  | Err e => Err e
  | Ok (a, db1) =>
      match AppendAudit d ev db1 with
      | Err e => Err e
      | Ok (_, db2) => Ok (a, db2)
      end
  end.
Definition WithAudit {A} (envs : nat -> tx_env) (draws : nat -> draw) (ev : AppendAuditParams) (fn : nat -> write A)
    (db : DB) : result store_err A * DB :=
  withImmediateTx envs (fun attempt => audited (draws attempt) ev (fn attempt)) db.

Definition PublishFlagVersionStandalone (envs : nat -> tx_env) (draws : nat -> draw) (p : PublishFlagVersionParams)
    (db : DB) : result store_err FlagVersion * DB :=
  withImmediateTx envs (fun attempt => publishFlagVersionTx (draws attempt) p) db.
Definition CompileSnapshot (envs : nat -> tx_env) (draws : nat -> draw) (p : CompileSnapshotParams) (db : DB) :
    result store_err StoredSnapshot * DB :=
  withImmediateTx envs (fun attempt => tx_CompileSnapshot (draws attempt) p) db.

(** [TruncateForTest]: deletes every row, in one transaction. *)
Definition TruncateForTest (env : tx_env) (db : DB) : result store_err unit * DB :=
  runOnceTx env (fun _ => Ok (tt, empty_db)) db.

(** ** Operations are statements *)

Definition reaches : DB -> DB -> Prop := rtc stmt.

Lemma reaches_ok db db' : reaches db db' -> db_ok db -> db_ok db'.
Proof. induction 1; eauto using stmt_ok. Qed.

(** A write whose successful runs are sequences of statements. *)
Definition lawful {A} (w : write A) : Prop := forall db a db', w db = Ok (a, db') -> reaches db db'.

Lemma wrap_ok {R A} (conv : R -> A) m a db' : wrap conv m = Ok (a, db') -> exists r, m = Ok (r, db') /\ a = conv r.
Proof. unfold wrap. destruct m as [[r db]|]; [|done]. intros [= <- <-]. eauto. Qed.

#[local] Ltac lawful_by st := intros db a db' H; apply wrap_ok in H as (r & H & _); apply rtc_once; by eapply st.

Lemma lawful_project d slug n s : lawful (tx_CreateProject d slug n s).
Proof. lawful_by st_project. Qed.
Lemma lawful_flag d p : lawful (tx_CreateFlag d p).
Proof. lawful_by st_flag. Qed.
Lemma lawful_env d p s n : lawful (tx_CreateEnvironment d p s n).
Proof. lawful_by st_env. Qed.
Lemma lawful_segment d p : lawful (tx_CreateSegment d p).
Proof. lawful_by st_segment. Qed.
Lemma lawful_update d p : lawful (tx_UpdateSegment d p).
Proof. lawful_by st_update. Qed.
Lemma lawful_publish d p : lawful (publishFlagVersionTx d p).
Proof. lawful_by st_version. Qed.
Lemma lawful_snapshot d p : lawful (tx_CompileSnapshot d p).
Proof. lawful_by st_snapshot. Qed.
Lemma lawful_audit d p : lawful (AppendAudit d p).
Proof. lawful_by st_audit. Qed.

Lemma lawful_audited {A} d ev (fn : write A) : lawful fn -> lawful (audited d ev fn).
Proof.
  intros Hf db a db' H. unfold audited in H. destruct (fn db) as [[a1 db1]|] eqn:E; [|done].
  destruct (AppendAudit d ev db1) as [[x db2]|] eqn:E2; [|done]. injection H as <- <-.
  etrans; [by eapply Hf | by eapply lawful_audit].
Qed.
#[local] Hint Resolve lawful_project lawful_flag lawful_env lawful_segment lawful_update lawful_publish
  lawful_snapshot lawful_audit lawful_audited : ff.

(** ** Transactions *)

Lemma runOnce_cases {A} env (fn : write A) db :
  (exists e, runOnceTx env fn db = (Err e, db)) \/
  (exists a db', runOnceTx env fn db = (Ok a, db') /\ fn db = Ok (a, db') /\
     begin_fault env = None /\ commit_fault env = None).
Proof.
  unfold runOnceTx. destruct (begin_fault env); [by eauto|]. destruct (fn db) as [[a db']|] eqn:E; [|by eauto].
  destruct (commit_fault env); [by eauto|]. right. eauto 6.
Qed.

(** A transaction commits the run of one attempt or changes nothing. *)
Lemma retry_cases {A} envs (fn : nat -> write A) left attempt db :
  (exists e, retry_tx envs fn left attempt db = (Err e, db)) \/
  (exists k a db', (attempt <= k <= attempt + left)%nat /\ retry_tx envs fn left attempt db = (Ok a, db') /\ fn k db = Ok (a, db')).
Proof.
  revert attempt. induction left as [|left IH]; intros attempt; cbn [retry_tx];
    destruct (runOnce_cases (envs attempt) (fn attempt) db) as [[e ->]|(a & db' & -> & E & _)].
  - by eauto.
  - right. exists attempt, a, db'. split; [lia | done].
  - destruct (isSQLiteRetry e); [|by eauto]. destruct (wait_cancelled (envs attempt)); [by eauto|].
    destruct (IH (S attempt)) as [[e' ->]|(k & a & db' & Hk & -> & E)]; [by eauto|].
    right. exists k, a, db'. split; [lia | done].
  - right. exists attempt, a, db'. split; [lia | done].
Qed.

(** What a successful [WithAudit] did: one run of the callback, one audit row. *)
Lemma WithAudit_cases {A} envs draws ev (fn : nat -> write A) db :
  (exists e, WithAudit envs draws ev fn db = (Err e, db)) \/
  (exists k a db1 row, (k <= maxRetries)%nat /\ fn k db = Ok (a, db1) /\
     WithAudit envs draws ev fn db = (Ok a, set_audit (audit_events db1 ++ [row]) db1) /\
     AppendAudit (draws k) ev db1 = Ok (sqliteAuditFromRow row, set_audit (audit_events db1 ++ [row]) db1)).
Proof.
  unfold WithAudit, withImmediateTx.
  destruct (retry_cases envs (fun k => audited (draws k) ev (fn k)) maxRetries 0 db) as [[e ->]|(k & a & db' & Hk & -> & E)]; [by eauto|].
  right. unfold audited in E. destruct (fn k db) as [[a1 db1]|] eqn:Ef; [|done].
  destruct (AppendAudit (draws k) ev db1) as [[x db2]|] eqn:Ea; [|done]. injection E as -> ->.
  pose proof Ea as Ea'. apply wrap_ok in Ea' as (row & Eq & Ex). unfold q_AppendAuditEvent in Eq. inv_stmt Eq.
  eexists k, a, db1, _. split_and!; [lia | done | done | by rewrite Ea, Ex].
Qed.

Lemma lawful_tx {A} envs (fn : nat -> write A) db :
  (forall k, lawful (fn k)) -> reaches db (withImmediateTx envs fn db).2.
Proof.
  intros Hf. unfold withImmediateTx. destruct (retry_cases envs fn maxRetries 0 db) as [[e ->]|(k & a & db' & _ & -> & E)]; cbn.
  - apply rtc_refl.
  - by eapply Hf.
Qed.

(** ** Histories *)

(** An operation a caller of the store can make, with what it draws and the
    faults it meets. *)
Inductive op : Type :=
| OpCreateProject (d : draw) (slug name strategy : string)
| OpCreateFlag (d : draw) (p : CreateFlagParams)
| OpCreateEnvironment (d : draw) (project : uuid) (slug name : string)
| OpCreateSegment (d : draw) (p : SegmentParams)
| OpUpdateSegment (d : draw) (p : SegmentParams)
| OpAppendAudit (d : draw) (p : AppendAuditParams)
| OpPublish (envs : nat -> tx_env) (draws : nat -> draw) (p : PublishFlagVersionParams)
| OpCompileSnapshot (envs : nat -> tx_env) (draws : nat -> draw) (p : CompileSnapshotParams)
| OpWithAudit (envs : nat -> tx_env) (draws : nat -> draw) (ev : AppendAuditParams) (fn : nat -> txop)
| OpTruncate (env : tx_env)
(** The calls a [WithAudit] callback can make through [Tx]. *)
with txop : Type :=
| TxCreateProject (d : draw) (slug name strategy : string)
| TxCreateFlag (d : draw) (p : CreateFlagParams)
| TxCreateEnvironment (d : draw) (project : uuid) (slug name : string)
| TxCreateSegment (d : draw) (p : SegmentParams)
| TxUpdateSegment (d : draw) (p : SegmentParams)
| TxPublish (d : draw) (p : PublishFlagVersionParams)
| TxCompileSnapshot (d : draw) (p : CompileSnapshotParams).

Definition forget {A} (w : write A) : write unit := fun db =>
  match w db with Ok (_, db') => Ok (tt, db') | Err e => Err e end.

Definition run_txop (t : txop) : write unit :=
  match t with
  | TxCreateProject d s n st => forget (tx_CreateProject d s n st)
  | TxCreateFlag d p => forget (tx_CreateFlag d p)
  | TxCreateEnvironment d p s n => forget (tx_CreateEnvironment d p s n)
  | TxCreateSegment d p => forget (tx_CreateSegment d p)
  | TxUpdateSegment d p => forget (tx_UpdateSegment d p)
  | TxPublish d p => forget (publishFlagVersionTx d p)
  | TxCompileSnapshot d p => forget (tx_CompileSnapshot d p)
  end.

Definition state_after {A} (w : write A) (db : DB) : DB := match w db with Ok (_, db') => db' | Err _ => db end.

Definition exec (o : op) (db : DB) : DB :=
  match o with
  | OpCreateProject d s n st => state_after (store_CreateProject d s n st) db
  | OpCreateFlag d p => state_after (store_CreateFlag d p) db
  | OpCreateEnvironment d p s n => state_after (store_CreateEnvironment d p s n) db
  | OpCreateSegment d p => state_after (store_CreateSegment d p) db
  | OpUpdateSegment d p => state_after (store_UpdateSegment d p) db
  | OpAppendAudit d p => state_after (AppendAudit d p) db
  | OpPublish envs draws p => (PublishFlagVersionStandalone envs draws p db).2
  | OpCompileSnapshot envs draws p => (CompileSnapshot envs draws p db).2
  | OpWithAudit envs draws ev fn => (WithAudit envs draws ev (fun k => run_txop (fn k)) db).2
  | OpTruncate env => (TruncateForTest env db).2
  end.

Lemma lawful_forget {A} (w : write A) : lawful w -> lawful (forget w).
Proof.
  intros Hw db a db' H. unfold forget in H. destruct (w db) as [[x db1]|] eqn:E; [|done]. injection H as _ <-. eauto.
Qed.

Lemma lawful_txop t : lawful (run_txop t).
Proof. destruct t; cbn; apply lawful_forget; auto with ff. Qed.

Lemma lawful_store_update d p : lawful (store_UpdateSegment d p).
Proof.
  intros db a db' H. unfold store_UpdateSegment in H.
  destruct (q_UpdateSegment _ _ _ _ _ _ _) as [[r db1]|e] eqn:E; [|by destruct e].
  injection H as _ <-. apply rtc_once. by eapply st_update.
Qed.

Lemma state_after_reaches {A} (w : write A) db : lawful w -> reaches db (state_after w db).
Proof. intros Hw. unfold state_after. destruct (w db) as [[a db']|] eqn:E; [eauto | apply rtc_refl]. Qed.

Lemma exec_ok o db : db_ok db -> db_ok (exec o db).
Proof.
  intros H. destruct o; cbn [exec];
    try (eapply reaches_ok; [|exact H]; apply state_after_reaches; auto with ff; apply lawful_store_update);
    try (eapply reaches_ok; [|exact H]; apply lawful_tx; intros k; auto using lawful_txop with ff).
  unfold TruncateForTest. destruct (runOnce_cases env (fun _ => Ok (tt, empty_db)) db) as [[e ->]|(a & db' & -> & E & _)]; [done|].
  injection E as _ <-. apply empty_ok.
Qed.

(** ** The abstract log of versions *)

(** What the store promises about flag versions: a log per flag, to which
    publishing appends; the version number is the position, from 1. *)
Record entry : Type := mkEntry { en_strategy : string; en_source : RawMessage; en_compiled : RawMessage; en_text : string }.

Definition entry_of (r : FlagVersionRow) : entry :=
  mkEntry (vr_strategy r) (sqliteRawMessageFrom (vr_source r)) (sqliteRawMessageFrom (vr_compiled r))
    (sqliteStringToString (vr_text r)).
Definition log (db : DB) (flag : uuid) : list entry := map entry_of (versions_of flag db).

(** What [PublishFlagVersionParams] is stored as: an empty document becomes [{}]. *)
Definition entry_params (p : PublishFlagVersionParams) : entry :=
  mkEntry (pv_Strategy p) (sqliteRawMessage (pv_Source p)) (sqliteRawMessage (pv_Compiled p)) (pv_SourceText p).

Lemma raw_from s : s <> "" -> sqliteRawMessageFrom s = s.
Proof. unfold sqliteRawMessageFrom. by destruct (String.eqb_spec s ""). Qed.
Lemma raw_nonempty r : sqliteRawMessage r <> "".
Proof. unfold sqliteRawMessage. by destruct (String.eqb_spec r ""). Qed.
Lemma text_trip s : sqliteStringToString (sqliteStringFromString s) = s.
Proof. unfold sqliteStringFromString. by destruct (String.eqb_spec s ""). Qed.

Lemma publish_ok d p db v db' :
  publishFlagVersionTx d p db = Ok (v, db') ->
  exists r, v = sqliteFlagVersionFromRow r /\ flag_versions db' = flag_versions db ++ [r] /\
    vr_flag r = pv_FlagID p /\ vr_version r = q_NextFlagVersion (pv_FlagID p) db /\ entry_of r = entry_params p.
Proof.
  intros H. apply wrap_ok in H as (r & H & ->). exists r. unfold q_CreateFlagVersion in H. inv_stmt H.
  split_and!; try done. unfold entry_of, entry_params. cbn [vr_strategy vr_source vr_compiled vr_text]. 
  by rewrite (raw_from _ (raw_nonempty (pv_Source p))), (raw_from _ (raw_nonempty (pv_Compiled p))), text_trip.
Qed.

Lemma versions_length f db n : map vr_version (versions_of f db) = upto n -> n = List.length (versions_of f db).
Proof. intros H. apply (f_equal (@List.length Z)) in H. unfold upto in H. rewrite !length_map, length_seq in H. done. Qed.

Lemma publish_db d p db v db' :
  publishFlagVersionTx d p db = Ok (v, db') ->
  exists r, db' = set_versions (flag_versions db ++ [r]) db /\ v = sqliteFlagVersionFromRow r.
Proof. intros H. apply wrap_ok in H as (r & H & ->). unfold q_CreateFlagVersion in H. inv_stmt H. eauto. Qed.

(** The version a publish makes, its place in the flag's log and in the list. *)
Lemma publish_log d p db v db' :
  db_ok db -> publishFlagVersionTx d p db = Ok (v, db') ->
  (forall f, log db' f = if f =? pv_FlagID p then log db f ++ [entry_params p] else log db f) /\
  V_Version v = Z.of_nat (List.length (log db' (pv_FlagID p))) /\
  GetLatestFlagVersion (pv_FlagID p) db' = Ok v /\
  ListFlagVersions (pv_FlagID p) db' = v :: ListFlagVersions (pv_FlagID p) db.
Proof.
  intros Hok H. destruct (publish_ok d p db v db' H) as (r & -> & Ev & Ef & En & Ee).
  assert (forall f, versions_of f db' = versions_of f db ++ (if f =? pv_FlagID p then [r] else [])) as Hv.
  { intros f. unfold versions_of. rewrite Ev, filter_append, Ef. by rewrite Z.eqb_sym. }
  assert (versions_of (pv_FlagID p) db' = versions_of (pv_FlagID p) db ++ [r]) as Hp by (by rewrite Hv, Z.eqb_refl).
  destruct (ok_versions _ Hok (pv_FlagID p)) as [n Hn]. pose proof (versions_length _ _ _ Hn) as Hl.
  assert (vr_version r = Z.of_nat n + 1) as Hr by (rewrite En; unfold q_NextFlagVersion; by rewrite Hn, max_upto).
  assert (q_ListFlagVersions (pv_FlagID p) db' = r :: q_ListFlagVersions (pv_FlagID p) db) as Hq.
  { unfold q_ListFlagVersions. rewrite Hp. by eapply order_next. }
  split_and!.
  - intros f. unfold log. rewrite Hv. destruct (f =? pv_FlagID p); [by rewrite map_app; cbn; rewrite Ee | by rewrite app_nil_r].
  - unfold log. rewrite length_map, Hp, length_app. cbn. rewrite Hr. lia.
  - unfold GetLatestFlagVersion, q_GetLatestFlagVersion. by rewrite Hq.
  - unfold ListFlagVersions. by rewrite Hq.
Qed.

(** A compiled snapshot is the project's latest from then on. *)
Lemma snapshot_latest d p db n db' :
  db_ok db -> tx_CompileSnapshot d p db = Ok (n, db') ->
  GetLatestSnapshot (cs_ProjectID p) db' = Ok n /\ N_Compiled n = sqliteRawMessage (cs_Compiled p) /\
  projects db' = projects db.
Proof.
  intros Hok H. apply wrap_ok in H as (r & H & ->). destruct (ok_snapshots _ Hok (cs_ProjectID p)) as [k Hk].
  unfold q_CreateSnapshot in H. inv_stmt H. split_and!; [|apply raw_from, raw_nonempty|done].
  unfold GetLatestSnapshot, q_GetLatestSnapshot, snapshots_desc, snapshots_of. cbn [snapshots set_snapshots].
  rewrite filter_append. cbn [nr_project]. rewrite Z.eqb_refl. erewrite order_next; [done | exact Hk |].
  cbn. unfold q_NextSnapshotVersion. by rewrite Hk, max_upto.
Qed.

Lemma found_missing {R A} (conv : R -> A) o e : found conv (of_option NoRows o) = Err e -> e = ErrNotFound.
Proof. destruct o; cbn; [done|]. by intros [= <-]. Qed.

Lemma update_missing now project key name desc pr db :
  GetSegmentByKey project key db = Err ErrNotFound -> q_UpdateSegment now project key name desc pr db = Err NoRows.
Proof.
  unfold GetSegmentByKey, q_GetSegmentByKey, query_one, q_UpdateSegment. by destruct (List.find _ _).
Qed.

(** ** Theorems *)

(** C13. After any history of store operations, in any order and with any faults,
    rolled-back transactions and retries, every constraint the schema declares
    holds: the ids of every table, the slugs of projects, the keys of a project's
    flags and segments and the slugs of its environments are unique; every
    reference of a flag, a version, an environment, a segment, a snapshot or an
    audit event points to a row; strategies and value types are known ones; and the
    versions of each flag and the snapshots of each project are numbered 1, 2,
    3, ... without gaps or repeats. *)
Theorem store_history_invariant (ops : list op) : db_ok (fold_left (fun db o => exec o db) ops empty_db).
Proof.
  induction ops as [|o ops IH] using rev_ind; [apply empty_ok|]. rewrite fold_left_app. cbn. by apply exec_ok.
Qed.

(** C12. Publishing refines the append-only log: in a database that satisfies the
    invariant, a successful publish adds one row to the table of versions and
    leaves every other row and table as it is; the row appends one entry to the
    flag's log and to no other, its version is the new length of the log, and in the
    new database it is the latest version and heads the list. *)
Theorem publish_appends d p db v db' :
  db_ok db -> publishFlagVersionTx d p db = Ok (v, db') ->
  (exists r, db' = set_versions (flag_versions db ++ [r]) db /\ v = sqliteFlagVersionFromRow r) /\
  (forall f, log db' f = if f =? pv_FlagID p then log db f ++ [entry_params p] else log db f) /\
  V_Version v = Z.of_nat (List.length (log db' (pv_FlagID p))) /\
  GetLatestFlagVersion (pv_FlagID p) db' = Ok v /\
  ListFlagVersions (pv_FlagID p) db' = v :: ListFlagVersions (pv_FlagID p) db.
Proof. intros Hok H. split; [by eapply publish_db | by eapply publish_log]. Qed.

(** C14. [WithAudit] is atomic: it fails and leaves the database as it was, or it
    commits the changes of one attempt of the callback together with exactly one
    audit row for the event. *)
Theorem with_audit_atomic {A} envs draws ev (fn : nat -> write A) db :
  (exists e, WithAudit envs draws ev fn db = (Err e, db)) \/
  (exists k a db1 row, (k <= maxRetries)%nat /\ fn k db = Ok (a, db1) /\
     WithAudit envs draws ev fn db = (Ok a, set_audit (audit_events db1 ++ [row]) db1) /\
     A_Action (sqliteAuditFromRow row) = aa_Action ev /\ A_Actor (sqliteAuditFromRow row) = aa_Actor ev /\
     A_ProjectID (sqliteAuditFromRow row) = aa_ProjectID ev /\ A_FlagID (sqliteAuditFromRow row) = aa_FlagID ev).
Proof.
  destruct (WithAudit_cases envs draws ev fn db) as [H|(k & a & db1 & row & Hk & Ef & E & Ea)]; [by left|].
  right. exists k, a, db1, row. apply wrap_ok in Ea as (row' & Eq & Hrow). unfold q_AppendAuditEvent in Eq.
  do 2 (case_match; [done|]).
  injection Eq as <- _. split_and!; try done; rewrite Hrow; [done | apply text_trip | done | done].
Qed.

(** A transaction that meets a busy database is retried: when up to eight
    attempts find the database busy and the next one runs without a fault, the
    operation succeeds with that attempt's result. *)
Theorem busy_is_retried {A} envs (fn : nat -> write A) k db a db' :
  (k <= maxRetries)%nat ->
  (forall i, (i < k)%nat -> (begin_fault (envs i) = Some Busy \/ begin_fault (envs i) = Some BusySnapshot) /\
                            wait_cancelled (envs i) = false) ->
  begin_fault (envs k) = None -> commit_fault (envs k) = None -> fn k db = Ok (a, db') ->
  withImmediateTx envs fn db = (Ok a, db').
Proof.
  intros Hk Hbusy Hb Hc Hf. unfold withImmediateTx.
  assert (forall j left, (j <= k)%nat -> (k - j <= left)%nat -> retry_tx envs fn left j db = (Ok a, db')) as Hgen.
  2: { apply Hgen; [lia | unfold maxRetries in *; lia]. }
  intros j left. revert j. induction left as [|left IH]; intros j Hj Hl.
  - assert (j = k) as -> by lia. cbn. unfold runOnceTx. by rewrite Hb, Hf, Hc.
  - destruct (Nat.eq_dec j k) as [->|Hne].
    + cbn. unfold runOnceTx. by rewrite Hb, Hf, Hc.
    + destruct (Hbusy j) as [Hbj Hw]; [lia|]. cbn [retry_tx]. unfold runOnceTx.
      destruct Hbj as [-> | ->]; cbn; rewrite Hw; apply IH; lia.
Qed.

(** ** Witnesses *)

Module StoreDemo.
Definition no_fault : tx_env := mkTxEnv None None false.
Definition busy : tx_env := mkTxEnv (Some Busy) None false.
Definition demo_flag : CreateFlagParams := mkCreateFlagParams 1 "dark" "Dark mode" "" "boolean" "false".
Definition demo_publish : PublishFlagVersionParams := mkPublishParams 2 "json" "{}" "{}" "".

(** A project, a flag and one published version. *)
Definition demo_ops : list op :=
  [OpCreateProject (mkDraw 1 100) "acme" "Acme" "json"; OpCreateFlag (mkDraw 2 101) demo_flag;
   OpPublish (fun _ => no_fault) (fun k => mkDraw (3 + Z.of_nat k) 102) demo_publish].
Definition demo_db : DB := fold_left (fun db o => exec o db) demo_ops empty_db.

Lemma demo_db_ok : db_ok demo_db.
Proof. do 3 apply exec_ok. apply empty_ok. Defined.

Definition second : FlagVersion * DB :=
  match publishFlagVersionTx (mkDraw 9 103) demo_publish demo_db with
  | Ok r => r
  | Err _ => (mkFlagVersion 0 0 0 "" "" "" "" 0, empty_db)
  end.

Lemma publish_appends_witness :
  (exists r, second.2 = set_versions (flag_versions demo_db ++ [r]) demo_db /\ second.1 = sqliteFlagVersionFromRow r) /\
  (forall f, log second.2 f = if f =? 2 then log demo_db f ++ [entry_params demo_publish] else log demo_db f) /\
  V_Version second.1 = Z.of_nat (List.length (log second.2 2)) /\
  GetLatestFlagVersion 2 second.2 = Ok second.1 /\
  ListFlagVersions 2 second.2 = second.1 :: ListFlagVersions 2 demo_db.
Proof.
  apply (publish_appends (mkDraw 9 103) demo_publish demo_db second.1 second.2); [exact demo_db_ok | vm_compute; reflexivity].
Defined.

Example second_version : V_Version second.1 = 2.
Proof. reflexivity. Qed.

Definition two_busy (k : nat) : tx_env := if (k <? 2)%nat then busy else no_fault.
Lemma busy_is_retried_witness :
  withImmediateTx two_busy (fun k => publishFlagVersionTx (mkDraw (9 + Z.of_nat k) 103) demo_publish) demo_db =
  (let r := publishFlagVersionTx (mkDraw 11 103) demo_publish demo_db in
   match r with Ok (v, db') => (Ok v, db') | Err e => (Err e, demo_db) end).
Proof.
  apply (busy_is_retried two_busy (fun k => publishFlagVersionTx (mkDraw (9 + Z.of_nat k) 103) demo_publish) 2 demo_db).
  - vm_compute. lia.
  - intros i Hi. unfold two_busy. assert ((i <? 2)%nat = true) as -> by (apply Nat.ltb_lt; lia). split; [by left | reflexivity].
  - reflexivity.
  - reflexivity.
  - vm_compute. reflexivity.
Defined.
End StoreDemo.
