(* ===== verification/SqliteText.v ===== *)
(** The texts SQLite holds ([internal/store/sqlite_convert.go]): identifiers and
    times are [TEXT] columns, compared byte by byte.

    [Db] has identifiers and milliseconds as numbers; here the audit query runs
    on the texts, and it selects, orders and converts the same rows.  The text
    form of a UUID is the google/uuid package's: [UuidText] is a class with what
    the code relies on. *)
From stdpp Require Import base list strings numbers.
From Stdlib Require Import Ascii String ZArith Lia.
From S2P Require Import Prelude Text Literal Json Float64 GoTime Ir Db Store.

(** ** Times *)

Definition zeroTime : Time := -62135596800 * 10 ^ 9.
Definition IsZero (t : Time) : bool := t =? zeroTime.

Definition sqliteTimeFormat : layout := timeLayout [StdFracSecond0 3; Lit "Z"].
Definition sqliteFormatTime (t : Time) : string := Format t sqliteTimeFormat.

Fixpoint first_layout (layouts : list layout) (s : string) : Time :=
  match layouts with
  | [] => zeroTime
  | l :: rest => match Parse l s with Some t => t | None => first_layout rest s end
  end.
Definition sqliteParseTime (s : string) : Time :=
  first_layout [sqliteTimeFormat; RFC3339Nano; RFC3339;
    dateLayout ++ [Lit " "] ++ clockLayout ++ [StdFracSecond9 9]; dateLayout ++ [Lit " "] ++ clockLayout] s.

Definition sqliteNullableTime (t : Time) : option string := if IsZero t then None else Some (sqliteFormatTime t).

(** The whole milliseconds of a time, the unit of [Db.time]. *)
Definition ms (t : Time) : time := t / 10 ^ 6.
Definition of_ms (t : time) : Time := t * 10 ^ 6.

Lemma ms_of_ms t : ms (of_ms t) = t.
Proof. unfold ms, of_ms. by rewrite Z.div_mul. Qed.

Lemma format_sqlite t : Format t [StdFracSecond0 3; Lit "Z"] = String "."%char (fixed 3 (nanos t / 10 ^ 6) +:+ "Z").
Proof. unfold Format, format_chunk. cbn [foldr]. by destruct (dateOf (day t)) as [[? ?] ?]. Qed.
Lemma nanos_ms t : 0 <= nanos t / 10 ^ 6 < 10 ^ Z.of_nat 3.
Proof. pose proof (nanos_range t) as H. change (10 ^ Z.of_nat 9) with (10 ^ 9) in H. change (10 ^ Z.of_nat 3) with 1000. Z.div_mod_to_equations. lia. Qed.

(** A stored time is read back to the millisecond. *)
Lemma sqlite_time_back t : in_years t -> sqliteParseTime (sqliteFormatTime t) = of_ms (ms t).
Proof.
  intros H. unfold sqliteParseTime, sqliteFormatTime. cbn [first_layout]. unfold Parse at 1, sqliteTimeFormat.
  rewrite parse_time, format_sqlite by done. destruct (time_fields_zero t) as [H0 Ho]. cbn [fraction_next parse_fields].
  assert (parse_chunk (StdFracSecond0 3) [Lit "Z"] (time_fields t) (String "."%char (fixed 3 (nanos t / 10 ^ 6) +:+ "Z")) =
    Some (let f := time_fields t in mkFields (p_year f) (p_month f) (p_day f) (p_hour f) (p_min f) (p_sec f)
            (nanos t / 10 ^ 6 * 10 ^ 6) (p_offset f), "Z")) as ->.
  { destruct (time_fields t) as [y m d h mi se ns off]. unfold parse_chunk.
    rewrite slength_app, slength_fixed. cbn [Nat.add Nat.ltb Nat.leb String.length].
    assert (substring 0 3 (fixed 3 (nanos t / 10 ^ 6) +:+ "Z") = fixed 3 (nanos t / 10 ^ 6)) as ->
      by (rewrite <- (slength_fixed 3 (nanos t / 10 ^ 6)) at 1; apply substring_prefix).
    rewrite nanoseconds_fixed by (lia || apply nanos_ms). reflexivity. }
  cbn [mbind option_bind]. rewrite (parse_lit "Z"%char) by done. cbn [mbind option_bind String.eqb]. rewrite Ho.
  destruct (instant_time t (nanos t / 10 ^ 6 * 10 ^ 6) H) as [E1 E2].
  cbn [p_year p_month p_day p_hour p_min p_sec p_nsec p_offset]. rewrite E2, E1.
  unfold of_ms, ms, nanos. Z.div_mod_to_equations. lia.
Qed.

(** The byte order of the texts is the order of the milliseconds. *)
Lemma two_digits n : 0 <= n < 100 -> 0 <= n < 10 ^ Z.of_nat 2.
Proof. done. Qed.
Lemma sqlite_time_before t u : in_years t -> in_years u ->
  sltb (sqliteFormatTime t) (sqliteFormatTime u) = (ms t <? ms u).
Proof.
  intros Ht Hu. unfold sqliteFormatTime, sqliteTimeFormat. rewrite !format_time, !format_sqlite by done. unfold time_fields.
  pose proof (dateOf_order (day t) (day u)) as Hd. pose proof (dateOf_order (day u) (day t)) as Hd'.
  pose proof (in_years_date t Ht) as Hv. pose proof (in_years_date u Hu) as Hv'.
  destruct (dateOf (day t)) as [[y m] d], (dateOf (day u)) as [[y' m'] d']. destruct Hv as (? & ? & ? & _), Hv' as (? & ? & ? & _).
  pose proof (clock_parts t) as (? & ? & ? & Hc). pose proof (clock_parts u) as (? & ? & ? & Hc').
  pose proof (nanos_ms t) as Hn. pose proof (nanos_ms u) as Hn'.
  assert (ms t = (day t * 86400 + clock t) * 1000 + nanos t / 10 ^ 6) as -> by (unfold ms, day, clock, secs, nanos; Z.div_mod_to_equations; lia).
  assert (ms u = (day u * 86400 + clock u) * 1000 + nanos u / 10 ^ 6) as -> by (unfold ms, day, clock, secs, nanos; Z.div_mod_to_equations; lia).
  clear Ht Hu.
  generalize dependent (nanos t / 10 ^ 6). generalize dependent (nanos u / 10 ^ 6).
  generalize dependent (clock t / 3600). generalize dependent (clock t / 60 mod 60). generalize dependent (clock t mod 60).
  generalize dependent (clock u / 3600). generalize dependent (clock u / 60 mod 60). generalize dependent (clock u mod 60).
  generalize dependent (clock t). generalize dependent (clock u).
  generalize dependent (day t). generalize dependent (day u). clear t u. intros.
  repeat (rewrite ?sltb_cons, sltb_fixed by (done || (apply two_digits; lia))).
  rewrite sltb_irrefl, andb_false_r, orb_false_r. unfold date_before in *. change (10 ^ Z.of_nat 3) with 1000 in *. subst. lia.
Qed.

(** ** Identifiers *)

Class UuidText : Type := {
  uuid_String : uuid -> string;
  uuid_Parse : string -> option uuid
}.
Definition uuid_ok (u : uuid) : Prop := 0 <= u < 2 ^ 128.
Definition uuid_Nil : uuid := 0.

(** The canonical text: lower-case hexadecimal digits and dashes at fixed places. *)
Definition uuid_char (c : ascii) : bool := is_digit c || byte_in 97 102 c || Ascii.eqb c "-"%char.
Fixpoint all_chars (p : ascii -> bool) (s : string) : bool :=
  match s with EmptyString => true | String c r => p c && all_chars p r end.
Class UuidLaws {UT : UuidText} : Prop := {
  parse_string : forall u, uuid_ok u -> uuid_Parse (uuid_String u) = Some u;
  string_order : forall u v, uuid_ok u -> uuid_ok v -> sltb (uuid_String u) (uuid_String v) = (u <? v);
  string_chars : forall u, uuid_ok u -> all_chars uuid_char (uuid_String u) = true;
  string_nonempty : forall u, uuid_ok u -> String.eqb (uuid_String u) "" = false
}.

Section text.
Context {UT : UuidText}.

Definition sqliteUUIDString (u : uuid) : string := uuid_String u.
Definition sqliteParseUUID (s : string) : uuid := default uuid_Nil (uuid_Parse s).
Definition sqliteParseNullUUID (s : option string) : option uuid :=
  match s with None => None | Some s => if String.eqb s "" then None else uuid_Parse s end.
Definition sqliteFromNullUUID (u : option uuid) : option string := uuid_String <$> u.

(** ** The audit table and its query on texts *)

Record AuditTextRow : Type := mkAuditTextRow {
  at_ID : string; at_ProjectID : option string; at_FlagID : option string; at_Action : string;
  at_Actor : option string; at_Payload : string; at_CreatedAt : string
}.
Definition text_row (r : AuditRow) : AuditTextRow :=
  mkAuditTextRow (sqliteUUIDString (ar_id r)) (sqliteFromNullUUID (ar_project r)) (sqliteFromNullUUID (ar_flag r))
    (ar_action r) (ar_actor r) (ar_payload r) (sqliteFormatTime (of_ms (ar_created r))).

Record ListAuditTextParams : Type := mkAuditTextParams {
  tp_ProjectID : string; tp_Action : option string; tp_Actor : option string; tp_From : option string;
  tp_To : option string; tp_CursorTs : option string; tp_CursorID : option string; tp_Limit : Z
}.
(** A comparison with NULL is not true. *)
Definition null_or {A} (o : option A) (p : A -> bool) : bool := match o with Some x => p x | None => false end.
Definition text_matches (f : ListAuditTextParams) (r : AuditTextRow) : bool :=
  null_or (at_ProjectID r) (fun p => String.eqb p (tp_ProjectID f)) &&
  unless_null (tp_Action f) (String.eqb (at_Action r)) &&
  unless_null (tp_Actor f) (fun a => null_or (at_Actor r) (fun x => String.eqb x a)) &&
  unless_null (tp_From f) (fun t => negb (sltb (at_CreatedAt r) t)) &&
  unless_null (tp_To f) (fun t => sltb (at_CreatedAt r) t) &&
  unless_null (tp_CursorTs f) (fun t => sltb (at_CreatedAt r) t ||
    (String.eqb (at_CreatedAt r) t && null_or (tp_CursorID f) (sltb (at_ID r)))).
Definition text_after (a b : AuditTextRow) : bool :=
  sltb (at_CreatedAt b) (at_CreatedAt a) ||
  (String.eqb (at_CreatedAt a) (at_CreatedAt b) && negb (sltb (at_ID a) (at_ID b))).
Definition tq_ListAuditEventsByProject (f : ListAuditTextParams) (rows : list AuditTextRow) : list AuditTextRow :=
  limit_rows (tp_Limit f) (order_by text_after (List.filter (text_matches f) rows)).

(** The parameters of the store's call, with Go times. *)
Record GoAuditParams : Type := mkGoAuditParams {
  ga_ProjectID : uuid; ga_Action : string; ga_Actor : string; ga_From : Time; ga_To : Time;
  ga_CursorTs : Time; ga_CursorID : uuid; ga_Limit : Z
}.
Definition sqliteNullableString (s : string) : option string := if String.eqb s "" then None else Some s.
Definition sqliteNullableCursorID (p : GoAuditParams) : option string :=
  if IsZero (ga_CursorTs p) then None else Some (uuid_String (ga_CursorID p)).
Definition textAuditFromRow (r : AuditTextRow) : AuditEvent :=
  mkAuditEvent (sqliteParseUUID (at_ID r)) (sqliteParseNullUUID (at_ProjectID r)) (sqliteParseNullUUID (at_FlagID r))
    (at_Action r) (sqliteStringToString (at_Actor r)) (sqliteRawMessageFrom (at_Payload r)) (ms (sqliteParseTime (at_CreatedAt r))).
Definition text_ListAuditEvents (p : GoAuditParams) (rows : list AuditTextRow) : list AuditEvent :=
  map textAuditFromRow (tq_ListAuditEventsByProject
    (mkAuditTextParams (sqliteUUIDString (ga_ProjectID p)) (sqliteNullableString (ga_Action p)) (sqliteNullableString (ga_Actor p))
       (sqliteNullableTime (ga_From p)) (sqliteNullableTime (ga_To p)) (sqliteNullableTime (ga_CursorTs p))
       (sqliteNullableCursorID p) (ga_Limit p)) rows).

(** The same call in milliseconds. *)
Definition time_ptr (t : Time) : option time := if IsZero t then None else Some (ms t).
Definition params_ms (p : GoAuditParams) : ListAuditEventsParams :=
  mkListAudit (ga_ProjectID p) (ga_Action p) (ga_Actor p) (time_ptr (ga_From p)) (time_ptr (ga_To p))
    (time_ptr (ga_CursorTs p)) (ga_CursorID p) (ga_Limit p).

Definition row_in_range (r : AuditRow) : Prop :=
  uuid_ok (ar_id r) /\ from_option uuid_ok True (ar_project r) /\ from_option uuid_ok True (ar_flag r) /\
  in_years (of_ms (ar_created r)).
Definition params_in_range (p : GoAuditParams) : Prop :=
  uuid_ok (ga_ProjectID p) /\ uuid_ok (ga_CursorID p) /\ in_years (ga_From p) /\ in_years (ga_To p) /\ in_years (ga_CursorTs p).

Context {UL : UuidLaws}.

Lemma string_uuid_eqb u v : uuid_ok u -> uuid_ok v -> String.eqb (uuid_String u) (uuid_String v) = (u =? v).
Proof.
  intros Hu Hv. destruct (Z.eqb_spec u v) as [->|Hne]; [apply String.eqb_refl|]. apply String.eqb_neq. intros E.
  apply (f_equal uuid_Parse) in E. rewrite !parse_string in E by done. congruence.
Qed.
Lemma time_text_eqb t u : in_years t -> in_years u -> String.eqb (sqliteFormatTime t) (sqliteFormatTime u) = (ms t =? ms u).
Proof.
  intros Ht Hu. destruct (Z.eqb_spec (ms t) (ms u)) as [E|Hne].
  - apply String.eqb_eq, sltb_total; rewrite sqlite_time_before by done; lia.
  - apply String.eqb_neq. intros E. pose proof (sqlite_time_before t u Ht Hu) as H1. pose proof (sqlite_time_before u t Hu Ht) as H2.
    rewrite E, sltb_irrefl in H1. rewrite E, sltb_irrefl in H2. lia.
Qed.

Ltac open_rows :=
  cbn [at_ID at_ProjectID at_FlagID at_Action at_Actor at_Payload at_CreatedAt ar_id ar_project ar_flag ar_action ar_actor ar_payload
    ar_created tp_ProjectID tp_Action tp_Actor tp_From tp_To tp_CursorTs tp_CursorID tp_Limit la_ProjectID la_Action la_Actor la_From
    la_To la_CursorTs la_CursorID la_Limit af_project af_action af_actor af_from af_to af_cursor unless_null null_or fst snd] in *.

(** Reading a row's texts gives the row's numbers. *)
Lemma text_row_back r : row_in_range r -> textAuditFromRow (text_row r) = sqliteAuditFromRow r.
Proof.
  intros (Hi & Hp & Hf & Ht). destruct r as [id pr fl act who pay cr].
  unfold textAuditFromRow, text_row, sqliteAuditFromRow. open_rows.
  rewrite sqlite_time_back, !ms_of_ms by done. unfold sqliteParseUUID, sqliteUUIDString. rewrite parse_string by done.
  assert (forall o, from_option uuid_ok True o -> sqliteParseNullUUID (sqliteFromNullUUID o) = o) as Ho.
  { intros [u|]; [|done]. cbn. intros Hu. by rewrite string_nonempty, parse_string. }
  by rewrite !Ho.
Qed.

Lemma text_after_same a b : row_in_range a -> row_in_range b -> text_after (text_row a) (text_row b) = audit_after a b.
Proof.
  intros (Ha & _ & _ & Hta) (Hb & _ & _ & Htb). unfold text_after, audit_after, text_row, sqliteUUIDString. open_rows.
  rewrite sqlite_time_before, time_text_eqb, string_order, !ms_of_ms by done. lia.
Qed.
Lemma text_matches_same p r : params_in_range p -> row_in_range r ->
  text_matches (mkAuditTextParams (sqliteUUIDString (ga_ProjectID p)) (sqliteNullableString (ga_Action p))
    (sqliteNullableString (ga_Actor p)) (sqliteNullableTime (ga_From p)) (sqliteNullableTime (ga_To p))
    (sqliteNullableTime (ga_CursorTs p)) (sqliteNullableCursorID p) (ga_Limit p)) (text_row r) =
  audit_matches (audit_params (params_ms p)) r.
Proof.
  intros (Hp & Hc & Hf & Ht & Hcur) (Hi & Hpr & _ & Hcr).
  unfold text_matches, audit_matches, audit_params, params_ms, text_row, sqliteNullableTime, sqliteNullableCursorID, time_ptr, sqliteUUIDString.
  open_rows. repeat match goal with |- _ && _ = _ && _ => apply f_equal2 end.
  - destruct (ar_project r) as [u|]; [|done]. cbn [sqliteFromNullUUID fmap option_fmap option_map null_or]. by apply string_uuid_eqb.
  - done.
  - done.
  - destruct (IsZero (ga_From p)); [done|]. open_rows. rewrite sqlite_time_before, ms_of_ms by done. lia.
  - destruct (IsZero (ga_To p)); [done|]. open_rows. by rewrite sqlite_time_before, ms_of_ms.
  - destruct (IsZero (ga_CursorTs p)); [done|]. open_rows. by rewrite sqlite_time_before, time_text_eqb, string_order, ms_of_ms by done.
Qed.

Lemma filter_map_same {A B} (f : A -> B) (p : A -> bool) (q : B -> bool) (P : A -> Prop) l :
  (forall x, P x -> q (f x) = p x) -> Forall P l -> List.filter q (map f l) = map f (List.filter p l).
Proof. intros H. induction 1 as [|x l Hx Hl IH]; [done|]. cbn. rewrite H by done. destruct (p x); cbn; by rewrite IH. Qed.

Lemma limit_rows_map {A B} (f : A -> B) n l : limit_rows n (map f l) = map f (limit_rows n l).
Proof. unfold limit_rows. destruct (n <? 0); [done | apply firstn_map]. Qed.
Lemma limit_rows_sub {A} (P : A -> Prop) n l : Forall P l -> Forall P (limit_rows n l).
Proof. unfold limit_rows. destruct (n <? 0); [done | apply Forall_take]. Qed.

(** C25. The audit query on SQLite's texts is the query on numbers: whatever the
    filters and the cursor, it selects the same rows, in the same order, and
    reads the same identifiers and times from them; the bounds of the request
    count to the millisecond. *)
Theorem sqlite_audit_text p db :
  Forall row_in_range (audit_events db) -> params_in_range p ->
  text_ListAuditEvents p (map text_row (audit_events db)) = ListAuditEvents (params_ms p) db.
Proof.
  intros Hr Hp. unfold text_ListAuditEvents, ListAuditEvents, tq_ListAuditEventsByProject, q_ListAuditEventsByProject. cbn [tp_Limit].
  rewrite (filter_map_same text_row (audit_matches (audit_params (params_ms p))) _ row_in_range) by eauto using text_matches_same.
  assert (Forall row_in_range (List.filter (audit_matches (audit_params (params_ms p))) (audit_events db))) as Hf.
  { apply List.Forall_forall. intros r [Hin _]%filter_In. by eapply List.Forall_forall in Hr. }
  rewrite (order_by_conv text_row audit_after _ row_in_range) by eauto using text_after_same. rewrite limit_rows_map, map_map.
  apply map_ext_Forall. eapply Forall_impl; [apply text_row_back|].
  apply limit_rows_sub. eapply Permutation.Permutation_Forall; [symmetry; apply order_by_perm | done].
Qed.
End text.

Module SqliteTextDemo.
(** Identifiers as decimal texts of a fixed width. *)
#[export] Instance demo_uuid : UuidText := {
  uuid_String u := fixed 39 u;
  uuid_Parse s := if all_digits s then Some (digits_val 0 s) else None
}.
Lemma uuid_fits u : uuid_ok u -> 0 <= u < 10 ^ Z.of_nat 39.
Proof. unfold uuid_ok. intros H. split; [lia|]. transitivity (2 ^ 128); [lia | reflexivity]. Qed.
#[export] Instance demo_uuid_laws : UuidLaws.
Proof.
  split.
  - intros u H%uuid_fits. cbn [uuid_Parse uuid_String demo_uuid]. by rewrite all_digits_fixed, fixed_value.
  - intros u v Hu%uuid_fits Hv%uuid_fits. cbn [uuid_String demo_uuid].
    rewrite <- (sapp_nil_r (fixed 39 u)), <- (sapp_nil_r (fixed 39 v)), sltb_fixed by done. cbn. rewrite andb_false_r. apply orb_false_r.
  - intros u _. cbn [uuid_String demo_uuid]. generalize 39%nat. intros w. induction w as [|w IH]; [done|].
    cbn [fixed all_chars]. rewrite IH. unfold uuid_char. by rewrite (proj2 (digit_of u w)).
  - done.
Qed.

(** Two events within a second of each other, one of them on the second. *)
Definition demo_log : list AuditRow :=
  [mkAuditRow 7 (Some 1) None "create_project" (Some "ops") "{}" 1700000000000;
   mkAuditRow 8 (Some 1) (Some 2) "create_flag" None "{}" 1700000000500].
Definition demo_params : GoAuditParams := mkGoAuditParams 1 "" "" (1700000000000 * 10 ^ 6) zeroTime zeroTime 0 10.

Lemma sqlite_audit_text_witness :
  map A_ID (text_ListAuditEvents demo_params (map text_row demo_log)) = [8; 7].
Proof.
  rewrite (sqlite_audit_text demo_params (set_audit demo_log empty_db)); [vm_compute; reflexivity | |].
  - repeat constructor; cbn; try lia; vm_compute; discriminate.
  - repeat constructor; cbn; try lia; vm_compute; discriminate.
Defined.
End SqliteTextDemo.
