(* ===== verification/PgStore.v ===== *)
(** The persistence layer over the PostgreSQL backend ([internal/store],
    [pg_*.go]): row conversion, the [Store] and [Tx] operations, serializable
    transactions with retries and the audit wrapper.

    PostgreSQL runs a serializable transaction as if it were alone or makes it
    fail (SQLSTATE 40001), so a transaction that commits takes effect in one step,
    at a point where other sessions have done what they have done by then.  What
    they do while a caller waits to retry is an input ([others]), and so are the
    faults of each attempt: at [BEGIN], in a statement, at [COMMIT].  A connection
    lost during [COMMIT] leaves open whether the server committed.  Times, in rows and
    in parameters, count microseconds.

    The theorems: a retried transaction takes effect at most once; what is published
    is what is read and evaluated. *)
From stdpp Require Import base list strings numbers gmap relations.
From Stdlib Require Import Ascii String ZArith Lia.
From S2P Require Import Prelude Text Literal Json Float64 GoValue Ir Compile Eval AnyTrip Jsonb Db PgDb Store.

(** ** Conversion ([pg_convert.go], [pg_audit.go]) *)

Definition textFromString (s : string) : option string := if String.eqb s "" then None else Some s.
Definition textToString (t : option string) : string := match t with Some s => s | None => "" end.

Definition projectFromRow (r : ProjectRow) : Project :=
  mkProject (pr_id r) (pr_slug r) (pr_name r) (pr_strategy r) (pr_created r) (pr_updated r).
Definition flagFromRow (r : FlagRow) : Flag :=
  mkFlag (fr_id r) (fr_project r) (fr_key r) (fr_name r) (fr_desc r) (fr_vtype r) (fr_default r) (fr_created r) (fr_updated r).
Definition flagVersionFromRow (r : FlagVersionRow) : FlagVersion :=
  mkFlagVersion (vr_id r) (vr_flag r) (vr_version r) (vr_strategy r) (vr_source r) (vr_compiled r)
    (textToString (vr_text r)) (vr_published r).
Definition auditFromRow (r : AuditRow) : AuditEvent :=
  mkAuditEvent (ar_id r) (ar_project r) (ar_flag r) (ar_action r) (textToString (ar_actor r)) (ar_payload r) (ar_created r).
Definition environmentFromRow (r : EnvironmentRow) : Environment :=
  mkEnvironment (er_id r) (er_project r) (er_slug r) (er_name r) (er_created r).
Definition segmentFromRow (r : SegmentRow) : Segment :=
  mkSegment (sr_id r) (sr_project r) (sr_key r) (sr_name r) (sr_desc r) (sr_predicate r) (sr_created r) (sr_updated r).
Definition snapshotFromRow (r : SnapshotRow) : StoredSnapshot :=
  mkStoredSnapshot (nr_id r) (nr_project r) (nr_env r) (nr_version r) (nr_compiled r) (nr_created r).
Definition latestFlagVersionFromRow (r : string * FlagVersionRow) : LatestFlagVersion :=
  mkLatestFlagVersion r.1 (vr_flag r.2) (vr_version r.2) (vr_strategy r.2) (vr_compiled r.2) (vr_published r.2).

Definition cursorIDParam (p : ListAuditEventsParams) : option uuid :=
  match la_CursorTs p with None => None | Some _ => Some (la_CursorID p) end.

(** [for _, r := range rows { out = append(out, conv(r)) }]. *)
Definition listed {R A} (conv : R -> A) (m : result db_err (list R)) : result store_err (list A) :=
  match m with Ok l => Ok (map conv l) | Err e => Err (Driver e) end.

Section store.
Context {J : Jsonb}.

(** ** Reads: [pgx.ErrNoRows] becomes [ErrNotFound] *)

Definition pg_GetProjectBySlug (slug : string) (db : DB) : result store_err Project :=
  found projectFromRow (pq_GetProjectBySlug slug db).
Definition pg_ListProjects (db : DB) : list Project := map projectFromRow (pq_ListProjects db).
Definition pg_GetFlagByKey (project : uuid) (key : string) (db : DB) : result store_err Flag :=
  found flagFromRow (pq_GetFlagByKey project key db).
Definition pg_ListFlagsByProject (project : uuid) (db : DB) : list Flag := map flagFromRow (pq_ListFlagsByProject project db).
Definition pg_GetLatestFlagVersion (flag : uuid) (db : DB) : result store_err FlagVersion :=
  found flagVersionFromRow (pq_GetLatestFlagVersion flag db).
Definition pg_ListFlagVersions (flag : uuid) (db : DB) : list FlagVersion :=
  map flagVersionFromRow (pq_ListFlagVersions flag db).
Definition pg_GetEnvironmentBySlug (project : uuid) (slug : string) (db : DB) : result store_err Environment :=
  found environmentFromRow (pq_GetEnvironmentBySlug project slug db).
Definition pg_ListEnvironmentsByProject (project : uuid) (db : DB) : list Environment :=
  map environmentFromRow (pq_ListEnvironmentsByProject project db).
Definition pg_GetSegmentByKey (project : uuid) (key : string) (db : DB) : result store_err Segment :=
  found segmentFromRow (pq_GetSegmentByKey project key db).
Definition pg_ListSegmentsByProject (project : uuid) (db : DB) : list Segment :=
  map segmentFromRow (pq_ListSegmentsByProject project db).
Definition pg_GetSnapshotByID (project id : uuid) (db : DB) : result store_err StoredSnapshot :=
  found snapshotFromRow (pq_GetSnapshotByID project id db).
Definition pg_GetLatestSnapshot (project : uuid) (db : DB) : result store_err StoredSnapshot :=
  found snapshotFromRow (pq_GetLatestSnapshot project db).
Definition pg_ListSnapshotsByProject (project : uuid) (limit : Z) (db : DB) : result store_err (list StoredSnapshot) :=
  listed snapshotFromRow (pq_ListSnapshotsByProject project limit db).
Definition pg_ListLatestFlagVersions (project : uuid) (db : DB) : list LatestFlagVersion :=
  map latestFlagVersionFromRow (pq_ListLatestFlagVersions project db).
Definition pg_ListAuditEvents (p : ListAuditEventsParams) (db : DB) : result store_err (list AuditEvent) :=
  listed auditFromRow (pq_ListAuditEventsByProject (la_ProjectID p) (la_Limit p) (textFromString (la_Action p))
    (textFromString (la_Actor p)) (la_From p) (la_To p) (la_CursorTs p) (cursorIDParam p) db).

(** ** Writes *)

(** The methods of [pgTx]. *)
Definition pgTx_CreateProject (d : draw) (slug name strategy : string) : write Project := fun db =>
  wrap projectFromRow (pq_CreateProject (new_id d) (now d) slug name strategy db).
Definition pgTx_CreateFlag (d : draw) (p : CreateFlagParams) : write Flag := fun db =>
  wrap flagFromRow (pq_CreateFlag (new_id d) (now d) (cf_ProjectID p) (cf_Key p) (cf_Name p) (cf_Description p)
    (cf_ValueType p) (cf_DefaultValue p) db).
Definition pgTx_CreateEnvironment (d : draw) (project : uuid) (slug name : string) : write Environment := fun db =>
  wrap environmentFromRow (pq_CreateEnvironment (new_id d) (now d) project slug name db).
Definition pgTx_CreateSegment (d : draw) (p : SegmentParams) : write Segment := fun db =>
  wrap segmentFromRow (pq_CreateSegment (new_id d) (now d) (sp_ProjectID p) (sp_Key p) (sp_Name p) (sp_Description p)
    (sp_Predicate p) db).
(** Like any other error, [ErrNoRows] is only wrapped. *)
Definition pgTx_UpdateSegment (d : draw) (p : SegmentParams) : write Segment := fun db =>
  wrap segmentFromRow (pq_UpdateSegment (now d) (sp_ProjectID p) (sp_Key p) (sp_Name p) (sp_Description p) (sp_Predicate p) db).
Definition pg_publishFlagVersionTx (d : draw) (p : PublishFlagVersionParams) : write FlagVersion := fun db =>
  match pq_NextFlagVersion (pv_FlagID p) db with
  | Err e => Err (Driver e)
  | Ok next => wrap flagVersionFromRow (pq_CreateFlagVersion (new_id d) (now d) (pv_FlagID p) next (pv_Strategy p)
      (pv_Source p) (pv_Compiled p) (textFromString (pv_SourceText p)) db)
  end.
Definition pgTx_CompileSnapshot (d : draw) (p : CompileSnapshotParams) : write StoredSnapshot := fun db =>
  match pq_NextSnapshotVersion (cs_ProjectID p) db with
  | Err e => Err (Driver e)
  | Ok next => wrap snapshotFromRow (pq_CreateSnapshot (new_id d) (now d) (cs_ProjectID p) (cs_EnvironmentID p) next (cs_Compiled p) db)
  end.

(** [pgAuditInsertParams] and the insert. *)
Definition pg_audit_insert (d : draw) (p : AppendAuditParams) (db : DB) : result db_err (AuditRow * DB) :=
  let payload := if String.eqb (aa_Payload p) "" then "{}" else aa_Payload p in
  pq_AppendAuditEvent (new_id d) (now d) (aa_ProjectID p) (aa_FlagID p) (aa_Action p) (textFromString (aa_Actor p)) payload db.

(** The methods of [pgStore] that run one statement. *)
Definition pg_CreateProject (d : draw) (slug name strategy : string) : write Project := fun db =>
  wrap projectFromRow (pq_CreateProject (new_id d) (now d) slug name strategy db).
Definition pg_CreateFlag (d : draw) (p : CreateFlagParams) : write Flag := fun db =>
  wrap flagFromRow (pq_CreateFlag (new_id d) (now d) (cf_ProjectID p) (cf_Key p) (cf_Name p) (cf_Description p)
    (cf_ValueType p) (cf_DefaultValue p) db).
Definition pg_CreateEnvironment (d : draw) (project : uuid) (slug name : string) : write Environment := fun db =>
  wrap environmentFromRow (pq_CreateEnvironment (new_id d) (now d) project slug name db).
Definition pg_CreateSegment (d : draw) (p : SegmentParams) : write Segment := fun db =>
  wrap segmentFromRow (pq_CreateSegment (new_id d) (now d) (sp_ProjectID p) (sp_Key p) (sp_Name p) (sp_Description p)
    (sp_Predicate p) db).
Definition pg_UpdateSegment (d : draw) (p : SegmentParams) : write Segment := fun db =>
  match pq_UpdateSegment (now d) (sp_ProjectID p) (sp_Key p) (sp_Name p) (sp_Description p) (sp_Predicate p) db with
  | Ok (r, db') => Ok (segmentFromRow r, db')
  | Err NoRows => Err ErrNotFound
  | Err e => Err (Driver e)
  end.
Definition pg_AppendAudit (d : draw) (p : AppendAuditParams) : write AuditEvent := fun db =>
  wrap auditFromRow (pg_audit_insert d p db).

(** ** Transactions *)

(** How a [COMMIT] ends: confirmed, refused by the server, or unknown to the
    client, the connection being lost. *)
Inductive commit : Type :=
| Committed
| Refused (e : db_err)
| Lost (committed : bool).

Record pg_env : Type := mkPgEnv {
  begin_err : option db_err;
  stmt_err : option db_err;      (* a statement of the transaction fails *)
  commit_end : commit;
  ctx_done : bool                (* the context ends while waiting to retry *)
}.

(** [BeginTx], the body, [Commit], with the deferred [Rollback]. *)
Definition pg_once {A} (env : pg_env) (fn : write A) (db : DB) : result store_err A * DB :=
  match begin_err env, stmt_err env with
  | Some e, _ => (Err (Driver e), db)
  | None, Some e => (Err (Driver e), db)
  | None, None =>
      match fn db with
      | Err e => (Err e, db)
      | Ok (a, db') =>
          match commit_end env with
          | Committed => (Ok a, db')
          | Refused e => (Err (Driver e), db)
          | Lost c => (Err (Driver OtherDriver), if c then db' else db)
          end
      end
  end.

Definition isSerializationFailure (e : store_err) : bool :=
  match e with Driver (Sqlstate c) => String.eqb c serialization_failure | _ => false end.
Definition withAuditMaxRetries : nat := 8.

(** [withAuditOnce]: the callback, then the audit row, in one transaction. *)
Definition pg_audited {A} (d : draw) (ev : AppendAuditParams) (fn : write A) : write A := fun db =>
  match fn db with
  | Err e => Err e
  | Ok (a, db1) =>
      match pg_audit_insert d ev db1 with
      | Err e => Err (Driver e)
      | Ok (_, db2) => Ok (a, db2)
      end
  end.
Definition withAuditOnce {A} (env : pg_env) (d : draw) (ev : AppendAuditParams) (fn : write A) (db : DB) : result store_err A * DB :=
  pg_once env (pg_audited d ev fn) db.

(** The loop of [WithAudit] from [attempt] on, with [left] retries to go. *)
Fixpoint pg_attempts {A} (envs : nat -> pg_env) (others : nat -> DB -> DB) (draws : nat -> draw) (ev : AppendAuditParams)
    (fn : nat -> write A) (left attempt : nat) (db : DB) : result store_err A * DB :=
  match withAuditOnce (envs attempt) (draws attempt) ev (fn attempt) db with
  | (Ok a, db') => (Ok a, db')
  | (Err e, db') =>
      match left with
      | S left' =>
          if isSerializationFailure e then
            if ctx_done (envs attempt) then (Err ContextDone, db')
            else pg_attempts envs others draws ev fn left' (S attempt) (others attempt db')
          else (Err e, db')
      | O => (Err e, db')
      end
  end.
Definition pg_WithAudit {A} (envs : nat -> pg_env) (others : nat -> DB -> DB) (draws : nat -> draw) (ev : AppendAuditParams)
    (fn : nat -> write A) (db : DB) : result store_err A * DB :=
  pg_attempts envs others draws ev fn withAuditMaxRetries 0 db.

(** These are not retried. *)
Definition pg_PublishFlagVersionStandalone (env : pg_env) (d : draw) (p : PublishFlagVersionParams) (db : DB) :
    result store_err FlagVersion * DB :=
  pg_once env (pg_publishFlagVersionTx d p) db.
Definition pg_CompileSnapshot (env : pg_env) (d : draw) (p : CompileSnapshotParams) (db : DB) : result store_err StoredSnapshot * DB :=
  pg_once env (pgTx_CompileSnapshot d p) db.

Definition pg_TruncateForTest (fault : option db_err) (db : DB) : result store_err unit * DB :=
  match fault with Some e => (Err (Driver e), db) | None => (Ok tt, empty_db) end.

(** The calls a [WithAudit] callback can make. *)
Definition pg_txop (t : txop) : write unit :=
  match t with
  | TxCreateProject d s n st => forget (pgTx_CreateProject d s n st)
  | TxCreateFlag d p => forget (pgTx_CreateFlag d p)
  | TxCreateEnvironment d p s n => forget (pgTx_CreateEnvironment d p s n)
  | TxCreateSegment d p => forget (pgTx_CreateSegment d p)
  | TxUpdateSegment d p => forget (pgTx_UpdateSegment d p)
  | TxPublish d p => forget (pg_publishFlagVersionTx d p)
  | TxCompileSnapshot d p => forget (pgTx_CompileSnapshot d p)
  end.
End store.

(** ** Operations are statements *)

Section laws.
Context {J : Jsonb}.

Lemma rmap_err_ok {E E' A} (f : E -> E') (m : result E A) a : rmap_err f m = Ok a -> m = Ok a.
Proof. by destruct m; [intros [= ->]|]. Qed.
Lemma pg_int4_ok z z' : pg_int4 z = Ok z' -> z' = z.
Proof. unfold pg_int4. case_match; [done|]. by intros [= <-]. Qed.

(** Open a successful statement down to the one of [Db]. *)
#[local] Ltac open_stmt H :=
  repeat match type of H with
  | rbind _ _ = Ok _ => apply rbind_ok in H as (? & ? & H)
  | rmap_err _ _ = Ok _ => apply rmap_err_ok in H
  | wrap _ _ = Ok _ => apply wrap_ok in H as (? & H & _)
  | (if ?b then _ else _) = Ok _ => destruct b; [inv_ok; done|]
  | match ?m with _ => _ end = Ok _ => let E := fresh "E" in destruct m eqn:E; [|done]
  end.
#[local] Ltac lawful_by same st := intros db a db' H; rewrite same in H; open_stmt H; apply rtc_once; by eapply st.

Lemma pg_lawful_project d slug n s : lawful (pgTx_CreateProject d slug n s).
Proof. unfold pgTx_CreateProject. lawful_by pq_CreateProject_same st_project. Qed.
Lemma pg_lawful_flag d p : lawful (pgTx_CreateFlag d p).
Proof. unfold pgTx_CreateFlag. lawful_by pq_CreateFlag_same st_flag. Qed.
Lemma pg_lawful_env d p s n : lawful (pgTx_CreateEnvironment d p s n).
Proof. unfold pgTx_CreateEnvironment. lawful_by pq_CreateEnvironment_same st_env. Qed.
Lemma pg_lawful_segment d p : lawful (pgTx_CreateSegment d p).
Proof. unfold pgTx_CreateSegment. lawful_by pq_CreateSegment_same st_segment. Qed.
Lemma pg_lawful_update d p : lawful (pgTx_UpdateSegment d p).
Proof.
  unfold pgTx_UpdateSegment. intros db a db' H. rewrite pq_UpdateSegment_same in H. apply wrap_ok in H as (r & H & _).
  apply rbind_ok in H as (? & _ & H). apply rbind_ok in H as ([pr|] & _ & H); [|by apply rbind_ok in H as (? & _ & H)].
  apply rmap_err_ok in H. apply rtc_once. by eapply st_update.
Qed.
Lemma pg_lawful_publish d p : lawful (pg_publishFlagVersionTx d p).
Proof.
  intros db a db' H. unfold pg_publishFlagVersionTx in H. rewrite pq_NextFlagVersion_same in H. open_stmt H.
  rewrite pq_CreateFlagVersion_same in H. open_stmt H.
  apply pg_int4_ok in E. subst. apply rtc_once. by eapply st_version.
Qed.
Lemma pg_lawful_snapshot d p : lawful (pgTx_CompileSnapshot d p).
Proof.
  intros db a db' H. unfold pgTx_CompileSnapshot in H. rewrite pq_NextSnapshotVersion_same in H. open_stmt H.
  rewrite pq_CreateSnapshot_same in H. open_stmt H.
  apply pg_int4_ok in E. subst. apply rtc_once. by eapply st_snapshot.
Qed.
Lemma pg_lawful_txop t : lawful (pg_txop t).
Proof.
  destruct t; cbn; apply lawful_forget;
    auto using pg_lawful_project, pg_lawful_flag, pg_lawful_env, pg_lawful_segment, pg_lawful_update, pg_lawful_publish, pg_lawful_snapshot.
Qed.

(** The audit row an insert appends. *)
Lemma audit_insert_ok d ev db row db' :
  pg_audit_insert d ev db = Ok (row, db') ->
  db' = set_audit (audit_events db ++ [row]) db /\ stmt db db' /\
  A_Action (auditFromRow row) = aa_Action ev /\ A_Actor (auditFromRow row) = aa_Actor ev /\
  A_ProjectID (auditFromRow row) = aa_ProjectID ev /\ A_FlagID (auditFromRow row) = aa_FlagID ev.
Proof.
  unfold pg_audit_insert. rewrite pq_AppendAuditEvent_same. intros H. open_stmt H. pose proof (st_audit _ _ _ _ _ _ _ _ _ _ H) as Hst.
  unfold q_AppendAuditEvent in H. inv_stmt H. split_and!; try done. apply text_trip.
Qed.

Lemma pg_lawful_audited {A} d ev (fn : write A) : lawful fn -> lawful (pg_audited d ev fn).
Proof.
  intros Hf db a db' H. unfold pg_audited in H. destruct (fn db) as [[x db1]|] eqn:E; [|done].
  destruct (pg_audit_insert d ev db1) as [[row db2]|] eqn:E2; [|done]. injection H as <- <-.
  etrans; [by eapply Hf|]. apply rtc_once. by apply audit_insert_ok in E2 as (_ & ? & _).
Qed.

(** ** One attempt *)

(** The effect an attempt had: none, or all of the body's. *)
Definition took_effect {A} (env : pg_env) (fn : write A) (db : DB) (r : result store_err A) (db' : DB) : Prop :=
  exists a, fn db = Ok (a, db') /\ (r = Ok a \/ (r = Err (Driver OtherDriver) /\ commit_end env = Lost true)).

Lemma pg_once_cases {A} env (fn : write A) db r db' :
  pg_once env fn db = (r, db') -> ((exists e, r = Err e) /\ db' = db) \/ took_effect env fn db r db'.
Proof.
  unfold pg_once, took_effect. intros H. destruct (begin_err env) as [e|]; [injection H as <- <-; eauto|].
  destruct (stmt_err env) as [e|]; [injection H as <- <-; eauto|].
  destruct (fn db) as [[a db1]|e] eqn:E; [|injection H as <- <-; eauto].
  destruct (commit_end env) as [|e|[]]; injection H as <- <-; eauto 6.
Qed.

(** A serialization failure means that the attempt had no effect. *)
Lemma retried_no_effect {A} env (fn : write A) db e db' :
  pg_once env fn db = (Err e, db') -> isSerializationFailure e = true -> db' = db.
Proof.
  intros [[_ ->]|(a & _ & [?|[[= ->] _]])]%pg_once_cases Hs; done.
Qed.

(** ** The loop *)

(** The database when attempt [k] starts, if the ones before it had no effect. *)
Fixpoint meanwhile (others : nat -> DB -> DB) (first k : nat) (db : DB) : DB :=
  match k with O => db | S k' => meanwhile others (S first) k' (others first db) end.

Lemma attempts_cases {A} envs others draws ev (fn : nat -> write A) left first db r db' :
  pg_attempts envs others draws ev fn left first db = (r, db') ->
  exists k, (k <= left)%nat /\
    (((exists e, r = Err e) /\ db' = meanwhile others first k db) \/
     took_effect (envs (first + k)%nat) (pg_audited (draws (first + k)%nat) ev (fn (first + k)%nat)) (meanwhile others first k db) r db').
Proof.
  revert first db. induction left as [|left IH]; intros first db; cbn [pg_attempts]; unfold withAuditOnce;
    destruct (pg_once (envs first) _ db) as [r1 db1] eqn:E; intros H.
  - assert ((r, db') = (r1, db1)) as [= -> ->] by (by destruct r1). exists 0%nat. rewrite Nat.add_0_r. split; [lia|].
    by apply pg_once_cases in E.
  - destruct r1 as [a|e].
    { injection H as <- <-. exists 0%nat. rewrite Nat.add_0_r. split; [lia|]. by apply pg_once_cases in E. }
    destruct (isSerializationFailure e) eqn:Es.
    + pose proof (retried_no_effect _ _ _ _ _ E Es) as ->. destruct (ctx_done (envs first)).
      * injection H as <- <-. exists 0%nat. split; [lia|]. left. eauto.
      * apply IH in H as (k & Hk & H). exists (S k). split; [lia|]. by rewrite <- Nat.add_succ_comm.
    + injection H as <- <-. exists 0%nat. rewrite Nat.add_0_r. split; [lia|]. by apply pg_once_cases in E.
Qed.
End laws.

(** ** Histories *)

Section histories.
Context {J : Jsonb}.

(** A call of the store.  Calls of other sessions stand before or after it in the
    history, in the order in which they took effect. *)
Inductive pg_op : Type :=
| PgCreateProject (d : draw) (slug name strategy : string)
| PgCreateFlag (d : draw) (p : CreateFlagParams)
| PgCreateEnvironment (d : draw) (project : uuid) (slug name : string)
| PgCreateSegment (d : draw) (p : SegmentParams)
| PgUpdateSegment (d : draw) (p : SegmentParams)
| PgAppendAudit (d : draw) (p : AppendAuditParams)
| PgPublish (env : pg_env) (d : draw) (p : PublishFlagVersionParams)
| PgCompileSnapshot (env : pg_env) (d : draw) (p : CompileSnapshotParams)
| PgWithAudit (envs : nat -> pg_env) (draws : nat -> draw) (ev : AppendAuditParams) (fn : nat -> txop)
| PgTruncate (fault : option db_err).

Definition pg_exec (o : pg_op) (db : DB) : DB :=
  match o with
  | PgCreateProject d s n st => state_after (pg_CreateProject d s n st) db
  | PgCreateFlag d p => state_after (pg_CreateFlag d p) db
  | PgCreateEnvironment d p s n => state_after (pg_CreateEnvironment d p s n) db
  | PgCreateSegment d p => state_after (pg_CreateSegment d p) db
  | PgUpdateSegment d p => state_after (pg_UpdateSegment d p) db
  | PgAppendAudit d p => state_after (pg_AppendAudit d p) db
  | PgPublish env d p => (pg_PublishFlagVersionStandalone env d p db).2
  | PgCompileSnapshot env d p => (pg_CompileSnapshot env d p db).2
  | PgWithAudit envs draws ev fn => (pg_WithAudit envs (fun _ db => db) draws ev (fun k => pg_txop (fn k)) db).2
  | PgTruncate fault => (pg_TruncateForTest fault db).2
  end.

Lemma pg_once_reaches {A} env (fn : write A) db : lawful fn -> reaches db (pg_once env fn db).2.
Proof.
  intros Hf. destruct (pg_once env fn db) as [r db'] eqn:E. cbn.
  apply pg_once_cases in E as [[_ ->]|(a & Ea & _)]; [apply rtc_refl | by eapply Hf].
Qed.

Lemma meanwhile_id first k db : meanwhile (fun _ db => db) first k db = db.
Proof. revert first. induction k as [|k IH]; intros first; [done|]. apply IH. Qed.

Lemma pg_lawful_store_update d p : lawful (pg_UpdateSegment d p).
Proof.
  intros db a db' H. apply (pg_lawful_update d p db a db'). unfold pg_UpdateSegment in H. unfold pgTx_UpdateSegment.
  destruct (pq_UpdateSegment _ _ _ _ _ _ _) as [[r db1]|e]; [done | by destruct e].
Qed.
Lemma pg_lawful_audit d p : lawful (pg_AppendAudit d p).
Proof.
  intros db a db' H. apply wrap_ok in H as (r & H & _). apply rtc_once. by apply audit_insert_ok in H as (_ & ? & _).
Qed.

Lemma pg_exec_ok o db : db_ok db -> db_ok (pg_exec o db).
Proof.
  intros H. destruct o as [| | | | | |env d p|env d p|envs draws ev fn|fault]; cbn [pg_exec];
    try (eapply reaches_ok; [apply state_after_reaches | exact H];
         first [apply pg_lawful_project | apply pg_lawful_flag | apply pg_lawful_env | apply pg_lawful_segment
               | apply pg_lawful_store_update | apply pg_lawful_audit]).
  - eapply reaches_ok; [apply pg_once_reaches, pg_lawful_publish | exact H].
  - eapply reaches_ok; [apply pg_once_reaches, pg_lawful_snapshot | exact H].
  - destruct (pg_WithAudit _ _ _ _ _ db) as [r db'] eqn:E. cbn.
    apply attempts_cases in E as (k & _ & [[_ ->]|(a & Ea & _)]); rewrite ?meanwhile_id in *; [done|].
    eapply reaches_ok; [|exact H]. eapply pg_lawful_audited; [|exact Ea]. apply pg_lawful_txop.
  - destruct fault; [done | apply empty_ok].
Qed.

(** ** Theorems *)

(** After any history of calls of the PostgreSQL store, with any faults, lost
    connections and retries, slugs and keys are unique, references point to rows,
    and the versions of each flag and the snapshots of each project are numbered
    1, 2, 3, ... without gaps or repeats. *)
Theorem pg_history_invariant (ops : list pg_op) : db_ok (fold_left (fun db o => pg_exec o db) ops empty_db).
Proof.
  induction ops as [|o ops IH] using rev_ind; [apply empty_ok|]. rewrite fold_left_app. cbn. by apply pg_exec_ok.
Qed.

(** C15. However often [WithAudit] is retried on PostgreSQL, and whatever other
    sessions do in between, it takes effect at most once: it fails and leaves the
    database as the other sessions made it, or one run of the callback and exactly
    one audit row for the event take effect together.  The caller is told so,
    unless the connection is lost while the server commits. *)
Theorem with_audit_at_most_once {A} envs others draws ev (fn : nat -> write A) db r db' :
  pg_WithAudit envs others draws ev fn db = (r, db') ->
  exists k, (k <= withAuditMaxRetries)%nat /\
    ((exists e, r = Err e /\ db' = meanwhile others 0 k db) \/
     exists a db1 row, fn k (meanwhile others 0 k db) = Ok (a, db1) /\
       db' = set_audit (audit_events db1 ++ [row]) db1 /\
       A_Action (auditFromRow row) = aa_Action ev /\ A_Actor (auditFromRow row) = aa_Actor ev /\
       A_ProjectID (auditFromRow row) = aa_ProjectID ev /\ A_FlagID (auditFromRow row) = aa_FlagID ev /\
       (r = Ok a \/ (r = Err (Driver OtherDriver) /\ commit_end (envs k) = Lost true))).
Proof.
  intros (k & Hk & H)%attempts_cases. exists k. split; [done|]. destruct H as [[[e ->] ->]|(a & Ha & Hr)]; [left; eauto|].
  right. cbn [Nat.add] in *. unfold pg_audited in Ha. destruct (fn k _) as [[x db1]|] eqn:Ef; [|done].
  destruct (pg_audit_insert (draws k) ev db1) as [[row db2]|] eqn:E; [|done]. injection Ha as -> ->.
  apply audit_insert_ok in E as (-> & _ & ? & ? & ? & ?). eexists a, db1, row. split_and!; done.
Qed.

(** A transaction that loses against concurrent ones is retried: when up to
    eight attempts end in a serialization failure and the next one meets no fault,
    [WithAudit] succeeds with that attempt's result. *)
Theorem serialization_is_retried {A} envs others draws ev (fn : nat -> write A) k db a db' :
  (k <= withAuditMaxRetries)%nat ->
  (forall i, (i < k)%nat -> ctx_done (envs i) = false /\
     exists e db_i, withAuditOnce (envs i) (draws i) ev (fn i) (meanwhile others 0 i db) = (Err e, db_i) /\
       isSerializationFailure e = true) ->
  begin_err (envs k) = None -> stmt_err (envs k) = None -> commit_end (envs k) = Committed ->
  pg_audited (draws k) ev (fn k) (meanwhile others 0 k db) = Ok (a, db') ->
  pg_WithAudit envs others draws ev fn db = (Ok a, db').
Proof.
  intros Hk Hr Hb Hs Hc Hf. unfold pg_WithAudit.
  assert (forall j first left x, (first + j = k)%nat -> (j <= left)%nat -> meanwhile others first j x = meanwhile others 0 k db ->
    (forall i, (i < j)%nat -> meanwhile others first i x = meanwhile others 0 (first + i) db) ->
    pg_attempts envs others draws ev fn left first x = (Ok a, db')) as Hgen.
  2: { apply (Hgen k 0%nat); [lia | done | done | intros; f_equal; lia]. }
  induction j as [|j IH]; intros first left x E Hl Hm Hi; cbn [meanwhile] in Hm.
  - assert (first = k) as -> by lia. subst x.
    assert (withAuditOnce (envs k) (draws k) ev (fn k) (meanwhile others 0 k db) = (Ok a, db')) as Hone.
    { unfold withAuditOnce, pg_once. by rewrite Hb, Hs, Hf, Hc. }
    destruct left; cbn [pg_attempts]; by rewrite Hone.
  - destruct left as [|left]; [lia|]. cbn [pg_attempts]. destruct (Hr first) as (Hd & e & db_i & E1 & He); [lia|].
    assert (x = meanwhile others 0 first db) as Ex by (specialize (Hi 0%nat ltac:(lia)); cbn in Hi; by rewrite Nat.add_0_r in Hi).
    rewrite <- Ex in E1. rewrite E1, He, Hd. rewrite (retried_no_effect _ _ _ _ _ E1 He). apply IH; [lia | lia | done |].
    intros i Hlt. specialize (Hi (S i) ltac:(lia)). cbn [meanwhile] in Hi. rewrite Hi. f_equal. lia.
Qed.
End histories.

(** ** Published versions *)

Section published.
Context {J : Jsonb} {JL : JsonbLaws} {RX : RegexpLib} {CEL : CelLib} {TS : TsLib}.

Lemma pg_json_ok raw o s : pg_json raw = Ok o -> not_null o = Ok s -> jsonb raw = Some s.
Proof.
  unfold pg_json, not_null. destruct (String.eqb raw ""); [by intros [= <-]|]. by destruct (jsonb raw); [intros [= <-] [= <-]|].
Qed.

Lemma pg_publish_row d p db v db' :
  pg_publishFlagVersionTx d p db = Ok (v, db') ->
  exists r, v = flagVersionFromRow r /\ flag_versions db' = flag_versions db ++ [r] /\ vr_flag r = pv_FlagID p /\
    vr_version r = q_NextFlagVersion (pv_FlagID p) db /\ vr_version r <= int32_max /\ vr_strategy r = pv_Strategy p /\
    jsonb (pv_Source p) = Some (vr_source r) /\ jsonb (pv_Compiled p) = Some (vr_compiled r) /\
    vr_text r = textFromString (pv_SourceText p).
Proof.
  unfold pg_publishFlagVersionTx. rewrite pq_NextFlagVersion_same. unfold pg_int4. intros H.
  destruct (negb _) eqn:Eb in H; [done|]. apply wrap_ok in H as (r & H & ->). rewrite pq_CreateFlagVersion_same in H.
  apply rbind_ok in H as (? & _ & H). apply rbind_ok in H as (os & Hs & H). apply rbind_ok in H as (oc & Hc & H).
  apply rbind_ok in H as (? & _ & H). apply rbind_ok in H as (s & Hs' & H). apply rbind_ok in H as (c & Hc' & H).
  apply rmap_err_ok in H. pose proof (pg_json_ok _ _ _ Hs Hs') as Es. pose proof (pg_json_ok _ _ _ Hc Hc') as Ec.
  unfold q_CreateFlagVersion in H. inv_stmt H. cbn. eexists. split_and!; try done. cbn. bsplit. lia.
Qed.

(** C16. On PostgreSQL too, the version just published is the flag's latest, it
    heads the list of versions at the next number.  Its IR, which the server gives
    back in a spelling of its own, compiles under the flag's strategy and decides as
    the published one did in every context, provided that the IR's text is stable
    under [jsonb]: it holds no negative zero, which becomes zero there, and no object
    with two keys that differ in case only, whose order is lost. *)
Theorem pg_published_decides d p db v db' src c :
  db_ok db -> Compile (pv_Strategy p) src = Ok c -> enc_tree (IR c) = Some (pv_Compiled p) ->
  stable (pv_Compiled p) = true -> pg_publishFlagVersionTx d p db = Ok (v, db') ->
  pg_GetLatestFlagVersion (pv_FlagID p) db' = Ok v /\
  pg_ListFlagVersions (pv_FlagID p) db' = v :: pg_ListFlagVersions (pv_FlagID p) db /\
  V_Version v = Z.of_nat (List.length (pg_ListFlagVersions (pv_FlagID p) db)) + 1 /\ V_Version v <= int32_max /\
  V_SourceText v = pv_SourceText p /\
  exists c', Compile (V_Strategy v) (V_Compiled v) = Ok c' /\
    forall ctx n, Evaluate (Some c') ctx n = Evaluate (Some c) ctx n.
Proof.
  intros Hok Hc Ej Hs H. apply pg_publish_row in H as (r & -> & Ev & Ef & En & Hmax & Es & _ & Ec & Et).
  destruct (ok_versions _ Hok (pv_FlagID p)) as [n Hn]. pose proof (versions_length _ _ _ Hn) as Hl.
  assert (vr_version r = Z.of_nat n + 1) as Hr by (rewrite En; unfold q_NextFlagVersion; by rewrite Hn, max_upto).
  assert (versions_of (pv_FlagID p) db' = versions_of (pv_FlagID p) db ++ [r]) as Hv.
  { unfold versions_of. by rewrite Ev, filter_append, Ef, Z.eqb_refl. }
  assert (q_ListFlagVersions (pv_FlagID p) db' = r :: q_ListFlagVersions (pv_FlagID p) db) as Hq.
  { unfold q_ListFlagVersions. rewrite Hv. by eapply order_next. }
  unfold pg_GetLatestFlagVersion, pg_ListFlagVersions.
  change (pq_ListFlagVersions (pv_FlagID p) db') with (q_ListFlagVersions (pv_FlagID p) db').
  change (pq_ListFlagVersions (pv_FlagID p) db) with (q_ListFlagVersions (pv_FlagID p) db).
  change (pq_GetLatestFlagVersion (pv_FlagID p) db') with (q_GetLatestFlagVersion (pv_FlagID p) db'). unfold q_GetLatestFlagVersion.
  rewrite Hq. split_and!; try done.
  - cbn. rewrite length_map. unfold q_ListFlagVersions. by rewrite (Permutation_length (order_by_perm _ _)), Hr, Hl.
  - cbn. rewrite Et. apply text_trip.
  - cbn. rewrite Es. by eapply jsonb_decides.
Qed.
End published.

(** ** Witnesses *)

Module PgDemo.
Import Demo EvalDemo JsonbDemo.

Definition quiet_env : pg_env := mkPgEnv None None Committed false.
Definition lost_race : pg_env := mkPgEnv None None (Refused (Sqlstate "40001")) false.
Definition flag_params : CreateFlagParams := mkCreateFlagParams 1 "dark" "Dark mode" "" "boolean" "false".
Definition us_text : string := default "" (enc_tree (IR compiled_us)).
Definition us_publish : PublishFlagVersionParams := mkPublishParams 2 StrategyCEL us_source us_text "".
Definition published_event : AppendAuditParams := mkAuditParams (Some 1) (Some 2) "flag.published" "" "".

(** A project, a flag and one published version. *)
Definition pg_demo_ops : list pg_op :=
  [PgCreateProject (mkDraw 1 100) "acme" "Acme" "cel"; PgCreateFlag (mkDraw 2 101) flag_params;
   PgPublish quiet_env (mkDraw 3 102) us_publish].
Definition pg_demo_db : DB := fold_left (fun db o => pg_exec o db) pg_demo_ops empty_db.
Lemma pg_demo_ok : db_ok pg_demo_db.
Proof. do 3 apply pg_exec_ok. apply empty_ok. Defined.

Definition again : FlagVersion * DB :=
  match pg_publishFlagVersionTx (mkDraw 9 103) us_publish pg_demo_db with
  | Ok r => r
  | Err _ => (mkFlagVersion 0 0 0 "" "" "" "" 0, empty_db)
  end.

Example again_respelled : V_Version again.1 = 2 /\ V_Compiled again.1 <> us_text.
Proof. vm_compute. split; [reflexivity | discriminate]. Qed.

Lemma pg_published_decides_witness :
  pg_GetLatestFlagVersion 2 again.2 = Ok again.1 /\
  pg_ListFlagVersions 2 again.2 = again.1 :: pg_ListFlagVersions 2 pg_demo_db /\
  V_Version again.1 = Z.of_nat (List.length (pg_ListFlagVersions 2 pg_demo_db)) + 1 /\ V_Version again.1 <= int32_max /\
  V_SourceText again.1 = "" /\
  exists c', Compile (V_Strategy again.1) (V_Compiled again.1) = Ok c' /\
    forall ctx n, Evaluate (Some c') ctx n = Evaluate (Some compiled_us) ctx n.
Proof.
  apply (pg_published_decides (mkDraw 9 103) us_publish pg_demo_db again.1 again.2 us_source compiled_us).
  - exact pg_demo_ok.
  - vm_compute. reflexivity.
  - vm_compute. reflexivity.
  - vm_compute. reflexivity.
  - vm_compute. reflexivity.
Defined.

(** Two lost races, and another session's project in between. *)
Definition racy (k : nat) : pg_env := if (k <? 2)%nat then lost_race else quiet_env.
Definition rival (k : nat) (db : DB) : DB := state_after (pg_CreateProject (mkDraw (50 + Z.of_nat k) 110) (if (k =? 0)%nat then "b" else "c") "B" "json") db.
Definition race_draws (k : nat) : draw := mkDraw (20 + Z.of_nat k) 120.
Definition race_fn (k : nat) : write FlagVersion := pg_publishFlagVersionTx (mkDraw (30 + Z.of_nat k) 120) us_publish.
Abbreviation raced := (pg_WithAudit racy rival race_draws published_event race_fn pg_demo_db).
Abbreviation third := (pg_audited (race_draws 2) published_event (race_fn 2) (meanwhile rival 0 2 pg_demo_db)).

Lemma race_lost i :
  (i < 2)%nat -> exists e db_i,
    withAuditOnce (racy i) (race_draws i) published_event (race_fn i) (meanwhile rival 0 i pg_demo_db) = (Err e, db_i) /\
    isSerializationFailure e = true.
Proof.
  intros Hi.
  assert (match withAuditOnce (racy i) (race_draws i) published_event (race_fn i) (meanwhile rival 0 i pg_demo_db) with
          | (Err e, _) => isSerializationFailure e | _ => false end = true) as Hb.
  { destruct i as [|[|]]; [vm_compute; reflexivity | vm_compute; reflexivity | lia]. }
  destruct (withAuditOnce _ _ _ _ _) as [[a|e] db_i]; [done|]. eauto.
Qed.
Lemma third_ok : is_ok third = true.
Proof. vm_compute. reflexivity. Qed.

Lemma serialization_is_retried_witness :
  exists a db', third = Ok (a, db') /\ raced = (Ok a, db').
Proof.
  pose proof third_ok as H. destruct third as [[a db']|e] eqn:E; [|discriminate H]. exists a, db'. split; [reflexivity|].
  apply (serialization_is_retried racy rival race_draws published_event race_fn 2 pg_demo_db a db').
  - unfold withAuditMaxRetries. lia.
  - intros i Hi. split; [|exact (race_lost i Hi)]. unfold racy. assert ((i <? 2)%nat = true) as -> by (by apply Nat.ltb_lt). reflexivity.
  - reflexivity.
  - reflexivity.
  - reflexivity.
  - exact E.
Defined.

Lemma with_audit_at_most_once_witness :
  exists k, (k <= withAuditMaxRetries)%nat /\
    ((exists e, raced.1 = Err e /\ raced.2 = meanwhile rival 0 k pg_demo_db) \/
     exists a db1 row, race_fn k (meanwhile rival 0 k pg_demo_db) = Ok (a, db1) /\
       raced.2 = set_audit (audit_events db1 ++ [row]) db1 /\
       A_Action (auditFromRow row) = aa_Action published_event /\ A_Actor (auditFromRow row) = aa_Actor published_event /\
       A_ProjectID (auditFromRow row) = aa_ProjectID published_event /\ A_FlagID (auditFromRow row) = aa_FlagID published_event /\
       (raced.1 = Ok a \/ (raced.1 = Err (Driver OtherDriver) /\ commit_end (racy k) = Lost true))).
Proof.
  exact (with_audit_at_most_once racy rival race_draws published_event race_fn pg_demo_db raced.1 raced.2
           (surjective_pairing raced)).
Defined.
End PgDemo.
