(* ===== verification/PgSim.v ===== *)
(** The two backends of [store.Store] side by side, at one resolution of the clock:
    the same calls, made to the SQLite and to the PostgreSQL store, leave the same
    rows and get the same answers, except that PostgreSQL gives documents back in
    its own spelling and reports errors in its own codes.  Backends adds what the
    two resolutions of the clock do.

    A call is portable when both servers can hold what it says: its texts are valid
    UTF-8 without the character zero, and its documents are JSON that [jsonb]
    holds. *)
From stdpp Require Import base list strings numbers gmap relations.
From Stdlib Require Import Ascii String ZArith Lia.
From S2P Require Import Prelude Text Literal Json Ir AnyTrip Jsonb Db PgDb Store PgStore.

Section sim.
Context {J : Jsonb}.

(** ** The rows of PostgreSQL, given those of SQLite *)

Definition col (s : string) : string := default s (jsonb s).
Definition pg_flag (r : FlagRow) : FlagRow :=
  mkFlagRow (fr_id r) (fr_project r) (fr_key r) (fr_name r) (fr_desc r) (fr_vtype r) (col (fr_default r)) (fr_created r) (fr_updated r).
Definition pg_version (r : FlagVersionRow) : FlagVersionRow :=
  mkFlagVersionRow (vr_id r) (vr_flag r) (vr_version r) (vr_strategy r) (col (vr_source r)) (col (vr_compiled r))
    (vr_published r) (vr_text r).
Definition pg_segment (r : SegmentRow) : SegmentRow :=
  mkSegmentRow (sr_id r) (sr_project r) (sr_key r) (sr_name r) (sr_desc r) (col (sr_predicate r)) (sr_created r) (sr_updated r).
Definition pg_snapshot (r : SnapshotRow) : SnapshotRow :=
  mkSnapshotRow (nr_id r) (nr_project r) (nr_env r) (nr_version r) (col (nr_compiled r)) (nr_created r).
Definition pg_audit (r : AuditRow) : AuditRow :=
  mkAuditRow (ar_id r) (ar_project r) (ar_flag r) (ar_action r) (ar_actor r) (col (ar_payload r)) (ar_created r).
Definition pg_db (db : DB) : DB :=
  mkDB (projects db) (map pg_flag (flags db)) (map pg_version (flag_versions db)) (environments db)
    (map pg_segment (segments db)) (map pg_snapshot (snapshots db)) (map pg_audit (audit_events db)).

(** A document both servers hold. *)
Definition storable (raw : RawMessage) : bool := negb (String.eqb raw "") && bool_decide (is_Some (jsonb raw)).
(** Every stored document is one. *)
Record stored (db : DB) : Prop := {
  st_flags : forall r, In r (flags db) -> storable (fr_default r) = true;
  st_versions : forall r, In r (flag_versions db) -> storable (vr_source r) = true /\ storable (vr_compiled r) = true;
  st_segments : forall r, In r (segments db) -> storable (sr_predicate r) = true;
  st_snapshots : forall r, In r (snapshots db) -> storable (nr_compiled r) = true;
  st_audits : forall r, In r (audit_events db) -> storable (ar_payload r) = true
}.

(** ** Tables *)

Lemma has_map {A B} (f : A -> B) p q l : (forall x, p (f x) = q x) -> has p (map f l) = has q l.
Proof. intros H. unfold has. induction l as [|x l IH]; [done|]. cbn. by rewrite H, IH. Qed.
Lemma filter_map_comm {A B} (f : A -> B) p q l :
  (forall x, p (f x) = q x) -> List.filter p (map f l) = map f (List.filter q l).
Proof. intros H. induction l as [|x l IH]; [done|]. cbn. rewrite H, IH. by destruct (q x). Qed.
Lemma find_map {A B} (f : A -> B) p q l :
  (forall x, p (f x) = q x) -> List.find p (map f l) = option_map f (List.find q l).
Proof. intros H. induction l as [|x l IH]; [done|]. cbn. rewrite H. by destruct (q x). Qed.
Lemma order_by_map {A B} (f : A -> B) before before' l :
  (forall x y, before' (f x) (f y) = before x y) -> order_by before' (map f l) = map f (order_by before l).
Proof.
  intros H. assert (forall x l, insert_by before' (f x) (map f l) = map f (insert_by before x l)) as Hi.
  { intros x l'. induction l' as [|y l' IH]; [done|]. cbn. rewrite H. destruct (before y x); cbn; [by rewrite IH | done]. }
  induction l as [|x l IH] using rev_ind; [done|]. rewrite map_app. cbn [map]. rewrite !order_by_app, IH. apply Hi.
Qed.

Lemma pg_versions_of f db : versions_of f (pg_db db) = map pg_version (versions_of f db).
Proof. by apply filter_map_comm. Qed.
Lemma pg_snapshots_of p db : snapshots_of p (pg_db db) = map pg_snapshot (snapshots_of p db).
Proof. by apply filter_map_comm. Qed.
Lemma pg_next_version f db : q_NextFlagVersion f (pg_db db) = q_NextFlagVersion f db.
Proof. unfold q_NextFlagVersion. by rewrite pg_versions_of, map_map. Qed.
Lemma pg_next_snapshot p db : q_NextSnapshotVersion p (pg_db db) = q_NextSnapshotVersion p db.
Proof. unfold q_NextSnapshotVersion. by rewrite pg_snapshots_of, map_map. Qed.
Lemma pg_list_versions f db : q_ListFlagVersions f (pg_db db) = map pg_version (q_ListFlagVersions f db).
Proof. unfold q_ListFlagVersions. rewrite pg_versions_of. by apply order_by_map. Qed.
Lemma pg_snapshots_desc p db : snapshots_desc p (pg_db db) = map pg_snapshot (snapshots_desc p db).
Proof. unfold snapshots_desc. rewrite pg_snapshots_of. by apply order_by_map. Qed.

(** ** Parameters *)

Lemma storable_json raw : storable raw = true -> pg_json raw = Ok (Some (col raw)).
Proof.
  unfold storable, pg_json, col. intros [Hn%negb_true_iff [s ->]%bool_decide_eq_true]%andb_true_iff. by rewrite Hn.
Qed.
Lemma storable_sqlite raw : storable raw = true -> sqliteRawMessage raw = raw /\ sqliteRawMessageFrom raw = raw.
Proof.
  unfold storable, sqliteRawMessage, sqliteRawMessageFrom. intros [Hn%negb_true_iff _]%andb_true_iff. by rewrite Hn.
Qed.
Lemma texts_ok l : forallb text_ok l = true -> pg_texts l = Ok tt.
Proof.
  intros H. apply rall_ok, List.Forall_forall. intros s Hs. rewrite forallb_forall in H. by rewrite H.
Qed.

(** ** Statements *)

(** What PostgreSQL answers where SQLite answers [m]. *)
Definition pg_answer {R} (f : R -> R) (m : result db_err (R * DB)) : result db_err (R * DB) :=
  match m with Ok (r, db) => Ok (f r, pg_db db) | Err e => Err (pg_error e) end.

(** Run the guards of an insert, which do not look at documents. *)
#[local] Ltac same_guards :=
  repeat match goal with
  | |- context [has ?p (map ?f ?l)] => rewrite (has_map f p p l) by done
  end.
#[local] Ltac insert_sim :=
  unfold project_exists, flag_exists, env_exists; cbn [pg_db projects flags flag_versions environments segments snapshots audit_events];
  same_guards;
  repeat match goal with |- context [if ?b then Err _ else _] => destruct b; [done|] end;
  cbn [rmap_err pg_answer]; unfold pg_db, set_projects, set_flags, set_versions, set_environments, set_segments, set_snapshots, set_audit;
  cbn [projects flags flag_versions environments segments snapshots audit_events]; by rewrite ?map_app.

Lemma sim_CreateProject id now slug name s db :
  forallb text_ok [slug; name; s] = true ->
  pq_CreateProject id now slug name s (pg_db db) = pg_answer (fun r => r) (q_CreateProject id now slug name s db).
Proof. intros H. rewrite pq_CreateProject_same, (texts_ok _ H). cbn [rbind]. unfold q_CreateProject. insert_sim. Qed.

Lemma sim_CreateFlag id now p k n d vt df db :
  forallb text_ok [k; n; d; vt] = true -> storable df = true ->
  pq_CreateFlag id now p k n d vt df (pg_db db) = pg_answer pg_flag (q_CreateFlag id now p k n d vt df db).
Proof.
  intros H Hj. rewrite pq_CreateFlag_same, (texts_ok _ H), (storable_json _ Hj). cbn [rbind not_null of_option]. unfold q_CreateFlag. insert_sim.
Qed.

Lemma sim_CreateFlagVersion id now f v s src c t db :
  forallb text_ok (s :: opt_list t) = true -> storable src = true -> storable c = true ->
  pq_CreateFlagVersion id now f v s src c t (pg_db db) = pg_answer pg_version (q_CreateFlagVersion id now f v s src c t db).
Proof.
  intros H Hs Hc. cbn [forallb] in H. apply andb_true_iff in H as [H1 H2]. rewrite pq_CreateFlagVersion_same.
  rewrite (texts_ok [s]) by (cbn; by rewrite H1). rewrite (texts_ok _ H2), (storable_json _ Hs), (storable_json _ Hc).
  cbn [rbind not_null of_option].
  unfold q_CreateFlagVersion. insert_sim.
Qed.

Lemma sim_CreateEnvironment id now p s n db :
  forallb text_ok [s; n] = true ->
  pq_CreateEnvironment id now p s n (pg_db db) = pg_answer (fun r => r) (q_CreateEnvironment id now p s n db).
Proof. intros H. rewrite pq_CreateEnvironment_same, (texts_ok _ H). cbn [rbind]. unfold q_CreateEnvironment. insert_sim. Qed.

Lemma sim_CreateSegment id now p k n d pr db :
  forallb text_ok [k; n; d] = true -> storable pr = true ->
  pq_CreateSegment id now p k n d pr (pg_db db) = pg_answer pg_segment (q_CreateSegment id now p k n d pr db).
Proof.
  intros H Hj. rewrite pq_CreateSegment_same, (texts_ok _ H), (storable_json _ Hj). cbn [rbind not_null of_option]. unfold q_CreateSegment. insert_sim.
Qed.

Lemma sim_UpdateSegment now p k n d pr db :
  forallb text_ok [k; n; d] = true -> storable pr = true ->
  pq_UpdateSegment now p k n d pr (pg_db db) = pg_answer pg_segment (q_UpdateSegment now p k n d pr db).
Proof.
  intros H Hj. rewrite pq_UpdateSegment_same, (texts_ok _ H), (storable_json _ Hj). cbn [rbind]. unfold q_UpdateSegment.
  cbn [pg_db segments]. rewrite (find_map pg_segment _ (is_segment p k)) by done. destruct (List.find _ _) as [r|]; [|done].
  cbn [option_map rmap_err pg_answer]. f_equal. f_equal. unfold set_segments, pg_db. cbn. f_equal.
  rewrite !map_map. apply map_ext. intros x. by destruct (is_segment p k x) eqn:E; unfold is_segment in *; cbn; rewrite E.
Qed.

Lemma sim_CreateSnapshot id now p e v c db :
  storable c = true ->
  pq_CreateSnapshot id now p e v c (pg_db db) = pg_answer pg_snapshot (q_CreateSnapshot id now p e v c db).
Proof. intros Hj. rewrite pq_CreateSnapshot_same, (storable_json _ Hj). cbn [rbind not_null of_option]. unfold q_CreateSnapshot. insert_sim. Qed.

Lemma sim_AppendAuditEvent id now p f a ac pl db :
  forallb text_ok (a :: opt_list ac) = true -> storable pl = true ->
  pq_AppendAuditEvent id now p f a ac pl (pg_db db) = pg_answer pg_audit (q_AppendAuditEvent id now p f a ac pl db).
Proof.
  intros H Hj. rewrite pq_AppendAuditEvent_same, (texts_ok _ H), (storable_json _ Hj). cbn [rbind not_null of_option]. unfold q_AppendAuditEvent.
  assert (opt_exists (flag_exists (pg_db db)) f = opt_exists (flag_exists db) f) as ->.
  { destruct f; [|done]. cbn. unfold flag_exists. cbn [pg_db flags]. by apply has_map. }
  assert (opt_exists (project_exists (pg_db db)) p = opt_exists (project_exists db) p) as -> by (by destruct p).
  insert_sim.
Qed.

(** ** Calls *)

Definition portable_op (t : txop) : bool :=
  match t with
  | TxCreateProject _ s n st => forallb text_ok [s; n; st]
  | TxCreateFlag _ p =>
      forallb text_ok [cf_Key p; cf_Name p; cf_Description p; cf_ValueType p] && storable (cf_DefaultValue p)
  | TxCreateEnvironment _ _ s n => forallb text_ok [s; n]
  | TxCreateSegment _ p | TxUpdateSegment _ p =>
      forallb text_ok [sp_Key p; sp_Name p; sp_Description p] && storable (sp_Predicate p)
  | TxPublish _ p =>
      forallb text_ok (pv_Strategy p :: opt_list (textFromString (pv_SourceText p))) && storable (pv_Source p) && storable (pv_Compiled p)
  | TxCompileSnapshot _ p => storable (cs_Compiled p)
  end.
Definition event_payload (ev : AppendAuditParams) : RawMessage := if String.eqb (aa_Payload ev) "" then "{}" else aa_Payload ev.
Definition portable_event (ev : AppendAuditParams) : bool :=
  forallb text_ok (aa_Action ev :: opt_list (textFromString (aa_Actor ev))) && storable (event_payload ev).

(** The next versions fit an [integer]. *)
Definition room (db : DB) : Prop :=
  (forall f, q_NextFlagVersion f db <= int32_max) /\ (forall p, q_NextSnapshotVersion p db <= int32_max).

Definition pg_store_err (e : store_err) : store_err := match e with Driver e => Driver (pg_error e) | e => e end.
Definition pg_reply {A} (m : result store_err (A * DB)) : result store_err (A * DB) :=
  match m with Ok (a, db) => Ok (a, pg_db db) | Err e => Err (pg_store_err e) end.

Lemma pg_forget {R A} (f : R -> R) (conv conv' : R -> A) m :
  match wrap conv' (pg_answer f m) with Ok (_, db') => Ok (tt, db') | Err e => Err e end =
  pg_reply (match wrap conv m with Ok (_, db') => Ok (tt, db') | Err e => Err e end).
Proof. by destruct m as [[r db]|e]. Qed.

Lemma max_version_nonneg l : 0 <= max_version l.
Proof. induction l as [|z l IH] using rev_ind; [done|]. rewrite max_append. lia. Qed.
Lemma int4_ok z l : z = max_version l + 1 -> z <= int32_max -> pg_int4 z = Ok z.
Proof.
  intros Hz Hm. pose proof (max_version_nonneg l). unfold pg_int4, int32_min, int32_max in *.
  assert ((-(2 ^ 31) <=? z) && (z <=? 2 ^ 31 - 1) = true) as -> by lia. done.
Qed.

(** A call inside a transaction, on both backends. *)
Lemma sim_op t db : portable_op t = true -> room db -> pg_txop t (pg_db db) = pg_reply (run_txop t db).
Proof.
  intros Hp [Hv Hn]. destruct t as [d s n st|d p|d p s n|d p|d p|d p|d p]; cbn [pg_txop run_txop portable_op] in *; bsplit;
    unfold forget, pgTx_CreateProject, pgTx_CreateFlag, pgTx_CreateEnvironment, pgTx_CreateSegment, pgTx_UpdateSegment,
      pg_publishFlagVersionTx, pgTx_CompileSnapshot, tx_CreateProject, tx_CreateFlag, tx_CreateEnvironment, tx_CreateSegment,
      tx_UpdateSegment, publishFlagVersionTx, tx_CompileSnapshot;
    repeat match goal with H : storable ?r = true |- _ => rewrite (proj1 (storable_sqlite r H)); revert H end; intros.
  - rewrite sim_CreateProject by done. apply pg_forget.
  - rewrite sim_CreateFlag by done. apply pg_forget.
  - rewrite sim_CreateEnvironment by done. apply pg_forget.
  - rewrite sim_CreateSegment by done. apply pg_forget.
  - rewrite sim_UpdateSegment by done. apply pg_forget.
  - rewrite pq_NextFlagVersion_same, pg_next_version, (int4_ok (q_NextFlagVersion (pv_FlagID p) db) _ eq_refl (Hv _)).
    rewrite sim_CreateFlagVersion by done. apply pg_forget.
  - rewrite pq_NextSnapshotVersion_same, pg_next_snapshot, (int4_ok (q_NextSnapshotVersion (cs_ProjectID p) db) _ eq_refl (Hn _)).
    rewrite sim_CreateSnapshot by done. apply pg_forget.
Qed.

(** The transaction of an audited call. *)
Record call : Type := mkCall { c_op : txop; c_event : AppendAuditParams; c_draw : draw }.
Definition portable (c : call) : bool := portable_op (c_op c) && portable_event (c_event c).

Lemma sim_audited c db :
  portable c = true -> room db ->
  pg_audited (c_draw c) (c_event c) (pg_txop (c_op c)) (pg_db db) = pg_reply (audited (c_draw c) (c_event c) (run_txop (c_op c)) db).
Proof.
  unfold portable, portable_event. intros Hp Hr. bsplit. unfold pg_audited, audited. rewrite sim_op by done.
  destruct (run_txop (c_op c) db) as [[u db1]|e]; [|done]. cbn [pg_reply]. unfold pg_audit_insert, AppendAudit.
  fold (event_payload (c_event c)). rewrite sim_AppendAuditEvent by done. by destruct (q_AppendAuditEvent _ _ _ _ _ _ _ _) as [[r db2]|].
Qed.

(** Without faults, [WithAudit] is one run of its transaction. *)
Definition sqlite_call (c : call) (db : DB) : result store_err unit * DB :=
  WithAudit (fun _ => mkTxEnv None None false) (fun _ => c_draw c) (c_event c) (fun _ => run_txop (c_op c)) db.
Definition pg_call (c : call) (db : DB) : result store_err unit * DB :=
  pg_WithAudit (fun _ => mkPgEnv None None Committed false) (fun _ db => db) (fun _ => c_draw c) (c_event c)
    (fun _ => pg_txop (c_op c)) db.
Definition settled {A} (m : result store_err (A * DB)) (db : DB) : result store_err A * DB :=
  match m with Ok (a, db') => (Ok a, db') | Err e => (Err e, db) end.

Lemma sqlite_quiet {A} (w : write A) left k db :
  retry_tx (fun _ => mkTxEnv None None false) (fun _ => w) left k db = settled (w db) db.
Proof.
  revert k. induction left as [|left IH]; intros k; cbn [retry_tx]; unfold runOnceTx; cbn [begin_fault commit_fault wait_cancelled];
    specialize (IH (S k)) || idtac; unfold settled in *; destruct (w db) as [[a db']|e] eqn:E; try done.
  destruct (isSQLiteRetry e); [|done]. exact IH.
Qed.

Lemma pg_quiet {A} d ev (w : write A) left k db :
  pg_attempts (fun _ => mkPgEnv None None Committed false) (fun _ db => db) (fun _ => d) ev (fun _ => w) left k db =
  settled (pg_audited d ev w db) db.
Proof.
  revert k. induction left as [|left IH]; intros k; cbn [pg_attempts]; unfold withAuditOnce, pg_once;
    cbn [begin_err stmt_err commit_end ctx_done]; specialize (IH (S k)) || idtac;
    unfold settled in *; destruct (pg_audited d ev w db) as [[a db']|e] eqn:E; try done.
  destruct (isSerializationFailure e); [|done]. exact IH.
Qed.

Lemma sim_call c db :
  portable c = true -> room db ->
  pg_call c (pg_db db) = ((let r := (sqlite_call c db).1 in match r with Ok u => Ok u | Err e => Err (pg_store_err e) end), pg_db (sqlite_call c db).2).
Proof.
  intros Hp Hr. unfold pg_call, pg_WithAudit, sqlite_call, WithAudit, withImmediateTx. rewrite pg_quiet, sqlite_quiet, sim_audited by done.
  by destruct (audited _ _ _ db) as [[u db']|e].
Qed.

(** ** What calls keep *)

Lemma forget_ok {A} (w : write A) db u db' : forget w db = Ok (u, db') -> exists a, w db = Ok (a, db').
Proof. unfold forget. destruct (w db) as [[a db1]|]; [|done]. intros [= _ <-]. eauto. Qed.

(** Open a successful call of a transaction down to its statement. *)
#[local] Ltac open_op H :=
  apply forget_ok in H as (? & H);
  unfold tx_CreateProject, tx_CreateFlag, tx_CreateEnvironment, tx_CreateSegment, tx_UpdateSegment, publishFlagVersionTx,
    tx_CompileSnapshot in H;
  apply wrap_ok in H as (? & H & _);
  unfold q_CreateProject, q_CreateFlag, q_CreateEnvironment, q_CreateSegment, q_CreateFlagVersion, q_CreateSnapshot in H.

Lemma stored_op t db u db' : portable_op t = true -> stored db -> run_txop t db = Ok (u, db') -> stored db'.
Proof.
  intros Hp [Hf Hv Hs Hn Ha] H. destruct t as [d s n st|d p|d p s n|d p|d p|d p|d p]; cbn [run_txop portable_op] in *; open_op H; bsplit;
    repeat match goal with X : storable ?r = true |- _ => rewrite (proj1 (storable_sqlite r X)) in H; revert X end; intros;
    try (inv_stmt H; split; cbn; auto; by apply in_append).
  unfold q_UpdateSegment in H. destruct (List.find _ _) as [r|]; [|done]. injection H as _ <-. split; cbn; auto.
  intros z (y & <- & Hy)%in_map_iff. destruct (is_segment _ _ y); [done | auto].
Qed.

Lemma stored_call c db : portable c = true -> stored db -> stored (sqlite_call c db).2.
Proof.
  unfold portable, portable_event. intros Hp Hs. bsplit. unfold sqlite_call, WithAudit, withImmediateTx. rewrite sqlite_quiet.
  unfold audited. destruct (run_txop (c_op c) db) as [[u db1]|e] eqn:E; [|done]. apply stored_op in E as [Hf Hv Hg Hn Ha]; [|done|done].
  destruct (AppendAudit (c_draw c) (c_event c) db1) as [[x db2]|] eqn:Ea; [|done]. cbn. unfold AppendAudit in Ea.
  fold (event_payload (c_event c)) in Ea. apply wrap_ok in Ea as (row & Ea & _). unfold q_AppendAuditEvent in Ea. inv_stmt Ea.
  split; cbn; auto. by apply in_append.
Qed.

(** A call publishes at most one version and compiles at most one snapshot. *)
Definition counts (n : nat) (db : DB) : Prop :=
  (List.length (flag_versions db) <= n)%nat /\ (List.length (snapshots db) <= n)%nat.

Lemma counts_op t db u db' n : counts n db -> run_txop t db = Ok (u, db') -> counts (S n) db'.
Proof.
  intros [Hv Hs] H. destruct t as [d s nm st|d p|d p s nm|d p|d p|d p|d p]; cbn [run_txop] in *; open_op H;
    try (inv_stmt H; split; cbn; rewrite ?length_app; cbn; lia).
  unfold q_UpdateSegment in H. destruct (List.find _ _) as [r|]; [|done]. injection H as _ <-. split; cbn; lia.
Qed.

Lemma counts_call c db n : counts n db -> counts (S n) (sqlite_call c db).2.
Proof.
  intros Hn. unfold sqlite_call, WithAudit, withImmediateTx. rewrite sqlite_quiet. unfold audited.
  destruct (run_txop (c_op c) db) as [[u db1]|e] eqn:E; [|destruct Hn; split; cbn; lia]. eapply counts_op in E as [H1 H2]; [|done].
  destruct (AppendAudit (c_draw c) (c_event c) db1) as [[x db2]|] eqn:Ea; [|destruct Hn; split; cbn; lia]. cbn.
  apply wrap_ok in Ea as (row & Ea & _). unfold q_AppendAuditEvent in Ea. inv_stmt Ea. done.
Qed.

Lemma next_bound {A} (own : A -> uuid) (ver : A -> Z) l o n :
  (exists k, map ver (List.filter (fun r => own r =? o) l) = upto k) -> (List.length l <= n)%nat ->
  max_version (map ver (List.filter (fun r => own r =? o) l)) + 1 <= Z.of_nat n + 1.
Proof.
  intros [k Hk] Hl. rewrite Hk, max_upto. apply (f_equal (@List.length Z)) in Hk. unfold upto in Hk. rewrite !length_map, length_seq in Hk.
  pose proof (filter_length_le (fun r => own r =? o) l). lia.
Qed.

Lemma counts_room n db : db_ok db -> counts n db -> Z.of_nat n + 1 <= int32_max -> room db.
Proof.
  intros Hok [Hv Hs] Hn. split.
  - intros f. etrans; [|exact Hn]. apply (next_bound vr_flag vr_version); [apply Hok | done].
  - intros p. etrans; [|exact Hn]. apply (next_bound nr_project nr_version); [apply Hok | done].
Qed.

Lemma ok_call c db : db_ok db -> db_ok (sqlite_call c db).2.
Proof.
  intros H. apply (exec_ok (OpWithAudit (fun _ => mkTxEnv None None false) (fun _ => c_draw c) (c_event c) (fun _ => c_op c)) db H).
Qed.

(** ** Histories *)

Fixpoint calls (f : call -> DB -> result store_err unit * DB) (cs : list call) (db : DB) : list (result store_err unit) * DB :=
  match cs with
  | [] => ([], db)
  | c :: cs' => let '(r, db1) := f c db in let '(rs, db2) := calls f cs' db1 in (r :: rs, db2)
  end.

(** Two outcomes a caller of the store treats alike. *)
Definition same_outcome (r r' : result store_err unit) : Prop :=
  match r, r' with
  | Ok _, Ok _ => True
  | Err e, Err e' => (e = ErrNotFound <-> e' = ErrNotFound) /\ IsConflict e = IsConflict e'
  | _, _ => False
  end.

Lemma same_err e : same_outcome (Err e) (Err (pg_store_err e)).
Proof. destruct e as [|d|]; [done| |done]. split; [done|]. by destruct d. Qed.

Lemma sim_calls cs n db :
  forallb portable cs = true -> Z.of_nat (n + List.length cs) <= int32_max -> db_ok db -> counts n db -> stored db ->
  Forall2 same_outcome (calls sqlite_call cs db).1 (calls pg_call cs (pg_db db)).1 /\
  (calls pg_call cs (pg_db db)).2 = pg_db (calls sqlite_call cs db).2 /\ stored (calls sqlite_call cs db).2.
Proof.
  revert n db. induction cs as [|c cs IH]; intros n db Hp Hn Hok Hc Hs; [split_and!; [constructor | done | done]|]. cbn [forallb List.length] in *. bsplit.
  pose proof (ok_call c db Hok) as Hok'. pose proof (counts_call c db n Hc) as Hc'. pose proof (stored_call c db H Hs) as Hs'.
  cbn [calls]. rewrite sim_call; [|done|apply (counts_room n); [done | done | lia]].
  destruct (sqlite_call c db) as [r db1]. cbn [fst snd] in *.
  destruct (IH (S n) db1) as (Hr & Hd & Hst); [done | lia | done..|].
  destruct (calls sqlite_call cs db1) as [rs db2], (calls pg_call cs (pg_db db1)) as [rs' db2']. cbn [fst snd] in *.
  split; [|done]. constructor; [|done]. destruct r; [done | apply same_err].
Qed.

(** ** Queries *)

Inductive query : Type :=
| QProject (slug : string) | QProjects
| QFlag (project : uuid) (key : string) | QFlags (project : uuid)
| QLatestVersion (flag : uuid) | QVersions (flag : uuid)
| QEnvironment (project : uuid) (slug : string) | QEnvironments (project : uuid)
| QSegment (project : uuid) (key : string) | QSegments (project : uuid)
| QSnapshot (project id : uuid) | QLatestSnapshot (project : uuid) | QSnapshots (project : uuid) (limit : Z)
| QLatestVersions (project : uuid)
| QEvents (p : ListAuditEventsParams).

Inductive answer : Type :=
| AProject (r : result store_err Project) | AProjects (l : list Project)
| AFlag (r : result store_err Flag) | AFlags (l : list Flag)
| AVersion (r : result store_err FlagVersion) | AVersions (l : list FlagVersion)
| AEnvironment (r : result store_err Environment) | AEnvironments (l : list Environment)
| ASegment (r : result store_err Segment) | ASegments (l : list Segment)
| ASnapshot (r : result store_err StoredSnapshot) | ASnapshots (r : result store_err (list StoredSnapshot))
| ALatestVersions (l : list LatestFlagVersion)
| AEvents (r : result store_err (list AuditEvent)).

Definition sqlite_query (q : query) (db : DB) : answer :=
  match q with
  | QProject slug => AProject (GetProjectBySlug slug db)
  | QProjects => AProjects (ListProjects db)
  | QFlag p k => AFlag (GetFlagByKey p k db)
  | QFlags p => AFlags (ListFlagsByProject p db)
  | QLatestVersion f => AVersion (GetLatestFlagVersion f db)
  | QVersions f => AVersions (ListFlagVersions f db)
  | QEnvironment p s => AEnvironment (GetEnvironmentBySlug p s db)
  | QEnvironments p => AEnvironments (ListEnvironmentsByProject p db)
  | QSegment p k => ASegment (GetSegmentByKey p k db)
  | QSegments p => ASegments (ListSegmentsByProject p db)
  | QSnapshot p id => ASnapshot (GetSnapshotByID p id db)
  | QLatestSnapshot p => ASnapshot (GetLatestSnapshot p db)
  | QSnapshots p limit => ASnapshots (Ok (ListSnapshotsByProject p limit db))
  | QLatestVersions p => ALatestVersions (ListLatestFlagVersions p db)
  | QEvents p => AEvents (Ok (ListAuditEvents p db))
  end.
Definition pg_query (q : query) (db : DB) : answer :=
  match q with
  | QProject slug => AProject (pg_GetProjectBySlug slug db)
  | QProjects => AProjects (pg_ListProjects db)
  | QFlag p k => AFlag (pg_GetFlagByKey p k db)
  | QFlags p => AFlags (pg_ListFlagsByProject p db)
  | QLatestVersion f => AVersion (pg_GetLatestFlagVersion f db)
  | QVersions f => AVersions (pg_ListFlagVersions f db)
  | QEnvironment p s => AEnvironment (pg_GetEnvironmentBySlug p s db)
  | QEnvironments p => AEnvironments (pg_ListEnvironmentsByProject p db)
  | QSegment p k => ASegment (pg_GetSegmentByKey p k db)
  | QSegments p => ASegments (pg_ListSegmentsByProject p db)
  | QSnapshot p id => ASnapshot (pg_GetSnapshotByID p id db)
  | QLatestSnapshot p => ASnapshot (pg_GetLatestSnapshot p db)
  | QSnapshots p limit => ASnapshots (pg_ListSnapshotsByProject p limit db)
  | QLatestVersions p => ALatestVersions (pg_ListLatestFlagVersions p db)
  | QEvents p => AEvents (pg_ListAuditEvents p db)
  end.

Definition portable_query (q : query) : bool :=
  match q with
  | QProject s | QFlag _ s | QEnvironment _ s | QSegment _ s => text_ok s
  | QSnapshots _ limit => 0 <=? limit
  | QEvents p => forallb text_ok (opt_list (textFromString (la_Action p)) ++ opt_list (textFromString (la_Actor p))) && (0 <=? la_Limit p)
  | _ => true
  end.

(** An answer with its documents in PostgreSQL's spelling. *)
Definition spell_flag (f : Flag) : Flag :=
  mkFlag (F_ID f) (F_ProjectID f) (F_Key f) (F_Name f) (F_Description f) (F_ValueType f) (col (F_DefaultValue f)) (F_CreatedAt f) (F_UpdatedAt f).
Definition spell_version (v : FlagVersion) : FlagVersion :=
  mkFlagVersion (V_ID v) (V_FlagID v) (V_Version v) (V_Strategy v) (col (V_Source v)) (col (V_Compiled v)) (V_SourceText v) (V_PublishedAt v).
Definition spell_segment (g : Segment) : Segment :=
  mkSegment (S_ID g) (S_ProjectID g) (S_Key g) (S_Name g) (S_Description g) (col (S_Predicate g)) (S_CreatedAt g) (S_UpdatedAt g).
Definition spell_snapshot (n : StoredSnapshot) : StoredSnapshot :=
  mkStoredSnapshot (N_ID n) (N_ProjectID n) (N_EnvironmentID n) (N_Version n) (col (N_Compiled n)) (N_CreatedAt n).
Definition spell_event (a : AuditEvent) : AuditEvent :=
  mkAuditEvent (A_ID a) (A_ProjectID a) (A_FlagID a) (A_Action a) (A_Actor a) (col (A_Payload a)) (A_CreatedAt a).
Definition spell_latest (l : LatestFlagVersion) : LatestFlagVersion :=
  mkLatestFlagVersion (L_FlagKey l) (L_FlagID l) (L_Version l) (L_Strategy l) (col (L_Compiled l)) (L_PublishedAt l).
Definition rmap {E A B} (f : A -> B) (m : result E A) : result E B := match m with Ok a => Ok (f a) | Err e => Err e end.

(** The answers agree; the latest versions may come in another order. *)
Definition agree (a a' : answer) : Prop :=
  match a, a' with
  | AFlag r, AFlag r' => r' = rmap spell_flag r
  | AFlags l, AFlags l' => l' = map spell_flag l
  | AVersion r, AVersion r' => r' = rmap spell_version r
  | AVersions l, AVersions l' => l' = map spell_version l
  | ASegment r, ASegment r' => r' = rmap spell_segment r
  | ASegments l, ASegments l' => l' = map spell_segment l
  | ASnapshot r, ASnapshot r' => r' = rmap spell_snapshot r
  | ASnapshots r, ASnapshots r' => r' = rmap (map spell_snapshot) r
  | ALatestVersions l, ALatestVersions l' => l' ≡ₚ map spell_latest l
  | AEvents r, AEvents r' => r' = rmap (map spell_event) r
  | a, a' => a' = a
  end.

Section rows.
Context {R A : Type} (conv conv' : R -> A) (f : R -> R) (spell : A -> A).

Lemma found_sim o :
  (forall r, o = Some r -> conv' (f r) = spell (conv r)) ->
  found conv' (of_option NoRows (option_map f o)) = rmap spell (found conv (of_option NoRows o)).
Proof. destruct o as [r|]; [|done]. intros H. cbn. by rewrite (H r). Qed.

Lemma list_sim l : (forall r, In r l -> conv' (f r) = spell (conv r)) -> map conv' (map f l) = map spell (map conv l).
Proof. intros H. rewrite !map_map. by apply map_ext_in. Qed.
End rows.

(** One row, read from both stores. *)
Lemma conv_flag r : storable (fr_default r) = true -> flagFromRow (pg_flag r) = spell_flag (sqliteFlagFromRow r).
Proof. intros H. unfold sqliteFlagFromRow, spell_flag. cbn. by rewrite (proj2 (storable_sqlite _ H)). Qed.
Lemma conv_version r :
  storable (vr_source r) = true /\ storable (vr_compiled r) = true ->
  flagVersionFromRow (pg_version r) = spell_version (sqliteFlagVersionFromRow r).
Proof.
  intros [H1 H2]. unfold sqliteFlagVersionFromRow, spell_version. cbn.
  rewrite (proj2 (storable_sqlite _ H1)), (proj2 (storable_sqlite _ H2)). by destruct r as [? ? ? ? ? ? ? []].
Qed.
Lemma conv_segment r : storable (sr_predicate r) = true -> segmentFromRow (pg_segment r) = spell_segment (sqliteSegmentFromRow r).
Proof. intros H. unfold sqliteSegmentFromRow, spell_segment. cbn. by rewrite (proj2 (storable_sqlite _ H)). Qed.
Lemma conv_snapshot r : storable (nr_compiled r) = true -> snapshotFromRow (pg_snapshot r) = spell_snapshot (sqliteSnapshotFromRow r).
Proof. intros H. unfold sqliteSnapshotFromRow, spell_snapshot. cbn. by rewrite (proj2 (storable_sqlite _ H)). Qed.
Lemma conv_event r : storable (ar_payload r) = true -> auditFromRow (pg_audit r) = spell_event (sqliteAuditFromRow r).
Proof.
  intros H. unfold sqliteAuditFromRow, spell_event. cbn. rewrite (proj2 (storable_sqlite _ H)). by destruct r as [? ? ? ? [] ? ?].
Qed.
Lemma conv_latest k r :
  storable (vr_compiled r) = true ->
  latestFlagVersionFromRow (k, pg_version r) = spell_latest (sqliteLatestFlagVersionFromRow (k, r)).
Proof. intros H. unfold sqliteLatestFlagVersionFromRow, spell_latest. cbn. by rewrite (proj2 (storable_sqlite _ H)). Qed.

Lemma head_map {A B} (f : A -> B) l : head (map f l) = option_map f (head l).
Proof. by destruct l. Qed.
Lemma head_in {A} (l : list A) x : head l = Some x -> In x l.
Proof. destruct l; [done|]. intros [= ->]. by left. Qed.
Lemma ordered_in {A} before p (l : list A) x : In x (order_by before (List.filter p l)) -> In x l.
Proof. intros H. eapply Permutation_in in H; [|apply order_by_perm]. by apply filter_In in H as [H _]. Qed.

(** The latest versions of both stores, flag by flag. *)
Lemma pg_latest project db :
  q_ListLatestFlagVersions project (pg_db db) = map (fun kv => (kv.1, pg_version kv.2)) (q_ListLatestFlagVersions project db).
Proof.
  unfold q_ListLatestFlagVersions. cbn [pg_db flags]. rewrite (filter_map_comm pg_flag _ (fun r => fr_project r =? project)) by done.
  induction (List.filter _ (flags db)) as [|r l IH]; [done|]. cbn [map flat_map]. rewrite map_app, IH. f_equal.
  change (fr_id (pg_flag r)) with (fr_id r). rewrite pg_list_versions, head_map. by destruct (head _).
Qed.

Lemma latest_in project db k v : In (k, v) (q_ListLatestFlagVersions project db) -> In v (flag_versions db).
Proof.
  intros (r & _ & H)%in_flat_map. destruct (head _) as [w|] eqn:E; [|done]. destruct H as [[= <- <-]|[]].
  apply head_in, ordered_in in E. exact E.
Qed.

Lemma one_text s : text_ok s = true -> pg_texts [s] = Ok tt.
Proof. intros H. apply texts_ok. cbn. by rewrite H. Qed.

(** A look-up by key. *)
Lemma lookup_sim {R A} (conv conv' : R -> A) f spell p (l : list R) :
  (forall x, p (f x) = p x) -> (forall r, In r l -> conv' (f r) = spell (conv r)) ->
  found conv' (query_one p (map f l)) = rmap spell (found conv (query_one p l)).
Proof.
  intros Hp Hc. unfold query_one. rewrite (find_map f p p) by done. apply found_sim. intros r [Hr _]%find_in. auto.
Qed.

Lemma audit_filter_same p :
  audit_params p = mkAuditFilter (la_ProjectID p) (textFromString (la_Action p)) (textFromString (la_Actor p)) (la_From p) (la_To p)
    (match la_CursorTs p with Some t => Some (t, la_CursorID p) | None => None end).
Proof. done. Qed.
Lemma pg_ListAudit_same p db :
  pg_ListAuditEvents p db =
  listed auditFromRow (let? _ := pg_texts (opt_list (textFromString (la_Action p)) ++ opt_list (textFromString (la_Actor p))) in
    pg_limit (la_Limit p) (order_by audit_after (List.filter (audit_matches (audit_params p)) (audit_events db)))).
Proof.
  unfold pg_ListAuditEvents. rewrite audit_filter_same, <- pq_ListAudit_same. unfold cursorIDParam. by destruct (la_CursorTs p).
Qed.

Lemma sim_lookups db :
  stored db ->
  (forall s, text_ok s = true -> pg_GetProjectBySlug s (pg_db db) = GetProjectBySlug s db) /\
  (forall p k, text_ok k = true -> pg_GetFlagByKey p k (pg_db db) = rmap spell_flag (GetFlagByKey p k db)) /\
  (forall p s, text_ok s = true -> pg_GetEnvironmentBySlug p s (pg_db db) = GetEnvironmentBySlug p s db) /\
  (forall p k, text_ok k = true -> pg_GetSegmentByKey p k (pg_db db) = rmap spell_segment (GetSegmentByKey p k db)) /\
  (forall p id, pg_GetSnapshotByID p id (pg_db db) = rmap spell_snapshot (GetSnapshotByID p id db)).
Proof.
  intros [Hf Hv Hs Hn Ha]. split_and!; intros.
  - unfold pg_GetProjectBySlug, pq_GetProjectBySlug. by rewrite one_text.
  - unfold pg_GetFlagByKey, pq_GetFlagByKey. rewrite one_text by done. apply lookup_sim; auto using conv_flag.
  - unfold pg_GetEnvironmentBySlug, pq_GetEnvironmentBySlug. by rewrite one_text.
  - unfold pg_GetSegmentByKey, pq_GetSegmentByKey. rewrite one_text by done. apply lookup_sim; auto using conv_segment.
  - apply lookup_sim; auto using conv_snapshot.
Qed.

Lemma sim_lists db :
  stored db -> db_ok (pg_db db) ->
  (forall p, pg_ListFlagsByProject p (pg_db db) = map spell_flag (ListFlagsByProject p db)) /\
  (forall f, pg_ListFlagVersions f (pg_db db) = map spell_version (ListFlagVersions f db)) /\
  (forall p, pg_ListSegmentsByProject p (pg_db db) = map spell_segment (ListSegmentsByProject p db)) /\
  (forall p, pg_ListLatestFlagVersions p (pg_db db) ≡ₚ map spell_latest (ListLatestFlagVersions p db)).
Proof.
  intros [Hf Hv Hs Hn Ha] Hok. split_and!; intros.
  - unfold pg_ListFlagsByProject, pq_ListFlagsByProject, ListFlagsByProject, q_ListFlagsByProject. cbn [pg_db flags].
    rewrite (filter_map_comm pg_flag _ (fun r => fr_project r =? p)), (order_by_map pg_flag (fun a b => fr_created b <=? fr_created a)) by done.
    apply list_sim. intros r Hr%ordered_in. auto using conv_flag.
  - unfold pg_ListFlagVersions. change (pq_ListFlagVersions f (pg_db db)) with (q_ListFlagVersions f (pg_db db)). rewrite pg_list_versions. apply list_sim. intros r Hr%ordered_in.
    auto using conv_version.
  - unfold pg_ListSegmentsByProject, pq_ListSegmentsByProject, ListSegmentsByProject, q_ListSegmentsByProject. cbn [pg_db segments].
    rewrite (filter_map_comm pg_segment _ (fun r => sr_project r =? p)), (order_by_map pg_segment (fun a b => sr_created a <=? sr_created b)) by done.
    apply list_sim. intros r Hr%ordered_in. auto using conv_segment.
  - unfold pg_ListLatestFlagVersions, ListLatestFlagVersions. rewrite (pq_ListLatest_same _ _ Hok), pg_latest.
    rewrite !map_map. apply Permutation_refl', map_ext_in. intros [k v] Hin%latest_in. apply conv_latest. by apply Hv.
Qed.

Lemma take_map {A B} (f : A -> B) n l : take n (map f l) = map f (take n l).
Proof. revert l. induction n as [|n IH]; intros [|x l]; [done..|]. cbn. by rewrite IH. Qed.

Lemma sim_limited db :
  stored db ->
  (forall p n, 0 <= n -> pg_ListSnapshotsByProject p n (pg_db db) = Ok (map spell_snapshot (ListSnapshotsByProject p n db))) /\
  (forall p, portable_query (QEvents p) = true -> pg_ListAuditEvents p (pg_db db) = Ok (map spell_event (ListAuditEvents p db))).
Proof.
  intros [Hf Hv Hs Hn Ha]. split.
  - intros p n H. unfold pg_ListSnapshotsByProject, pq_ListSnapshotsByProject, pg_limit, ListSnapshotsByProject, q_ListSnapshotsByProject, limit_rows.
    assert ((n <? 0) = false) as -> by lia. cbn [listed]. f_equal. 
    change (order_by _ _) with (snapshots_desc p (pg_db db)) at 1. rewrite pg_snapshots_desc, take_map. apply list_sim.
    intros r Hr. apply conv_snapshot, Hn. apply list_elem_of_In, elem_of_take in Hr as (i & Hr & _). apply list_elem_of_lookup_2, list_elem_of_In in Hr.
    by apply ordered_in in Hr.
  - intros p [Ht Hl]%andb_true_iff. rewrite pg_ListAudit_same, (texts_ok _ Ht). cbn [rbind]. unfold pg_limit, ListAuditEvents, q_ListAuditEventsByProject, limit_rows.
    assert ((la_Limit p <? 0) = false) as -> by lia. cbn [listed pg_db audit_events]. f_equal.
    rewrite (filter_map_comm pg_audit _ (audit_matches (audit_params p))), (order_by_map pg_audit audit_after), take_map by done. apply list_sim.
    intros r Hr. apply conv_event, Ha. apply list_elem_of_In, elem_of_take in Hr as (i & Hr & _). apply list_elem_of_lookup_2, list_elem_of_In in Hr.
    by apply ordered_in in Hr.
Qed.

Lemma sim_query q db : portable_query q = true -> stored db -> db_ok (pg_db db) -> agree (sqlite_query q db) (pg_query q (pg_db db)).
Proof.
  intros Hq Hs Hok. destruct (sim_lookups db Hs) as (H1 & H2 & H3 & H4 & H5), (sim_lists db Hs Hok) as (L1 & L2 & L3 & L4), (sim_limited db Hs) as [M1 M2].
  pose proof Hs as [Hf Hv Hg Hn Ha]. destruct q; cbn [sqlite_query pg_query agree portable_query] in *; auto.
  - by rewrite H1.
  - unfold pg_GetLatestFlagVersion, GetLatestFlagVersion.
    change (pq_GetLatestFlagVersion flag (pg_db db)) with (q_GetLatestFlagVersion flag (pg_db db)). unfold q_GetLatestFlagVersion.
    rewrite pg_list_versions, head_map. apply found_sim. intros r Hr%head_in%ordered_in. auto using conv_version.
  - by rewrite H3.
  - unfold pg_GetLatestSnapshot, GetLatestSnapshot.
    change (pq_GetLatestSnapshot project (pg_db db)) with (q_GetLatestSnapshot project (pg_db db)). unfold q_GetLatestSnapshot.
    rewrite pg_snapshots_desc, head_map. apply found_sim. intros r Hr%head_in%ordered_in. auto using conv_snapshot.
  - rewrite M1 by lia. done.
Qed.

Lemma empty_stored : stored empty_db.
Proof. by split. Qed.

End sim.
