(* ===== verification/Backends.v ===== *)
(** The two backends of [store.Store] on one clock.

    SQLite keeps a reading of the clock to the millisecond and PostgreSQL to the
    microsecond, so the calls here carry microseconds, which the SQLite store cuts
    ([ms]).  [cut_db] cuts the times of a PostgreSQL database; with PgSim, which
    relates documents, it gives the relation between the two databases.  Rows of
    one millisecond could come in any order from SQLite and in the order of their
    microseconds from PostgreSQL; on a clock that ticks between the calls
    ([ticking]) every order is determined. *)
From stdpp Require Import base list strings numbers gmap relations.
From Stdlib Require Import Ascii String ZArith Lia.
From S2P Require Import Prelude Text Literal Json Ir AnyTrip Jsonb Db PgDb Store PgStore PgSim.

Definition ms (t : time) : time := t / 1000.

(** ** Cutting rows *)

Definition cut_project (r : ProjectRow) : ProjectRow :=
  mkProjectRow (pr_id r) (pr_slug r) (pr_name r) (pr_strategy r) (ms (pr_created r)) (ms (pr_updated r)).
Definition cut_flag (r : FlagRow) : FlagRow :=
  mkFlagRow (fr_id r) (fr_project r) (fr_key r) (fr_name r) (fr_desc r) (fr_vtype r) (fr_default r) (ms (fr_created r)) (ms (fr_updated r)).
Definition cut_version (r : FlagVersionRow) : FlagVersionRow :=
  mkFlagVersionRow (vr_id r) (vr_flag r) (vr_version r) (vr_strategy r) (vr_source r) (vr_compiled r) (ms (vr_published r)) (vr_text r).
Definition cut_environment (r : EnvironmentRow) : EnvironmentRow :=
  mkEnvironmentRow (er_id r) (er_project r) (er_slug r) (er_name r) (ms (er_created r)).
Definition cut_segment (r : SegmentRow) : SegmentRow :=
  mkSegmentRow (sr_id r) (sr_project r) (sr_key r) (sr_name r) (sr_desc r) (sr_predicate r) (ms (sr_created r)) (ms (sr_updated r)).
Definition cut_snapshot (r : SnapshotRow) : SnapshotRow :=
  mkSnapshotRow (nr_id r) (nr_project r) (nr_env r) (nr_version r) (nr_compiled r) (ms (nr_created r)).
Definition cut_audit (r : AuditRow) : AuditRow :=
  mkAuditRow (ar_id r) (ar_project r) (ar_flag r) (ar_action r) (ar_actor r) (ar_payload r) (ms (ar_created r)).
Definition cut_db (db : DB) : DB :=
  mkDB (map cut_project (projects db)) (map cut_flag (flags db)) (map cut_version (flag_versions db))
    (map cut_environment (environments db)) (map cut_segment (segments db)) (map cut_snapshot (snapshots db))
    (map cut_audit (audit_events db)).

(** ** Cutting calls, questions and answers *)

Definition cut_draw (d : draw) : draw := mkDraw (new_id d) (ms (now d)).
Definition cut_op (t : txop) : txop :=
  match t with
  | TxCreateProject d s n st => TxCreateProject (cut_draw d) s n st
  | TxCreateFlag d p => TxCreateFlag (cut_draw d) p
  | TxCreateEnvironment d p s n => TxCreateEnvironment (cut_draw d) p s n
  | TxCreateSegment d p => TxCreateSegment (cut_draw d) p
  | TxUpdateSegment d p => TxUpdateSegment (cut_draw d) p
  | TxPublish d p => TxPublish (cut_draw d) p
  | TxCompileSnapshot d p => TxCompileSnapshot (cut_draw d) p
  end.
Definition cut_call (c : call) : call := mkCall (cut_op (c_op c)) (c_event c) (cut_draw (c_draw c)).

Definition cut_params (p : ListAuditEventsParams) : ListAuditEventsParams :=
  mkListAudit (la_ProjectID p) (la_Action p) (la_Actor p) (option_map ms (la_From p)) (option_map ms (la_To p))
    (option_map ms (la_CursorTs p)) (la_CursorID p) (la_Limit p).
Definition cut_query (q : query) : query := match q with QEvents p => QEvents (cut_params p) | q => q end.

Definition ms_project (x : Project) : Project :=
  mkProject (P_ID x) (P_Slug x) (P_DisplayName x) (P_ConfigStrategy x) (ms (P_CreatedAt x)) (ms (P_UpdatedAt x)).
Definition ms_flag (x : Flag) : Flag :=
  mkFlag (F_ID x) (F_ProjectID x) (F_Key x) (F_Name x) (F_Description x) (F_ValueType x) (F_DefaultValue x) (ms (F_CreatedAt x)) (ms (F_UpdatedAt x)).
Definition ms_version (x : FlagVersion) : FlagVersion :=
  mkFlagVersion (V_ID x) (V_FlagID x) (V_Version x) (V_Strategy x) (V_Source x) (V_Compiled x) (V_SourceText x) (ms (V_PublishedAt x)).
Definition ms_environment (x : Environment) : Environment :=
  mkEnvironment (E_ID x) (E_ProjectID x) (E_Slug x) (E_Name x) (ms (E_CreatedAt x)).
Definition ms_segment (x : Segment) : Segment :=
  mkSegment (S_ID x) (S_ProjectID x) (S_Key x) (S_Name x) (S_Description x) (S_Predicate x) (ms (S_CreatedAt x)) (ms (S_UpdatedAt x)).
Definition ms_snapshot (x : StoredSnapshot) : StoredSnapshot :=
  mkStoredSnapshot (N_ID x) (N_ProjectID x) (N_EnvironmentID x) (N_Version x) (N_Compiled x) (ms (N_CreatedAt x)).
Definition ms_event (x : AuditEvent) : AuditEvent :=
  mkAuditEvent (A_ID x) (A_ProjectID x) (A_FlagID x) (A_Action x) (A_Actor x) (A_Payload x) (ms (A_CreatedAt x)).
Definition ms_latest (x : LatestFlagVersion) : LatestFlagVersion :=
  mkLatestFlagVersion (L_FlagKey x) (L_FlagID x) (L_Version x) (L_Strategy x) (L_Compiled x) (ms (L_PublishedAt x)).
Definition cut_answer (a : answer) : answer :=
  match a with
  | AProject r => AProject (rmap ms_project r)
  | AProjects l => AProjects (map ms_project l)
  | AFlag r => AFlag (rmap ms_flag r)
  | AFlags l => AFlags (map ms_flag l)
  | AVersion r => AVersion (rmap ms_version r)
  | AVersions l => AVersions (map ms_version l)
  | AEnvironment r => AEnvironment (rmap ms_environment r)
  | AEnvironments l => AEnvironments (map ms_environment l)
  | ASegment r => ASegment (rmap ms_segment r)
  | ASegments l => ASegments (map ms_segment l)
  | ASnapshot r => ASnapshot (rmap ms_snapshot r)
  | ASnapshots r => ASnapshots (rmap (map ms_snapshot) r)
  | ALatestVersions l => ALatestVersions (map ms_latest l)
  | AEvents r => AEvents (rmap (map ms_event) r)
  end.

(** ** Writes do not look at times *)

Section writes.
Context {J : Jsonb}.

Definition cut_result {R} (f : R -> R) (m : result db_err (R * DB)) : result db_err (R * DB) :=
  match m with Ok (r, db) => Ok (f r, cut_db db) | Err e => Err e end.

Lemma cut_bind {A R} (f : R -> R) (m : result db_err A) (k k' : A -> result db_err (R * DB)) :
  (forall a, k' a = cut_result f (k a)) -> rbind m k' = cut_result f (rbind m k).
Proof. intros H. destruct m; cbn; auto. Qed.

#[local] Ltac cut_insert :=
  repeat (apply cut_bind; intros ?); cbn [cut_db projects flags flag_versions environments segments snapshots audit_events];
  repeat match goal with |- context [has ?p (map ?f ?l)] => rewrite (has_map f p p l) by done end;
  repeat match goal with
  | |- context [or_null ?o _] => destruct o; cbn [or_null]
  | |- context [has ?p (map ?f ?l)] => rewrite (has_map f p p l) by done
  | |- context [if ?b then Err _ else _] => destruct b; [done|]
  end; cbn [cut_result]; unfold cut_db, set_projects, set_flags, set_versions, set_environments, set_segments, set_snapshots, set_audit;
  cbn [projects flags flag_versions environments segments snapshots audit_events]; by rewrite ?map_app.

Lemma cut_CreateProject id now slug name s db :
  pq_CreateProject id (ms now) slug name s (cut_db db) = cut_result cut_project (pq_CreateProject id now slug name s db).
Proof. unfold pq_CreateProject. cut_insert. Qed.
Lemma cut_CreateFlag id now p k n d vt df db :
  pq_CreateFlag id (ms now) p k n d vt df (cut_db db) = cut_result cut_flag (pq_CreateFlag id now p k n d vt df db).
Proof. unfold pq_CreateFlag. cut_insert. Qed.
Lemma cut_CreateFlagVersion id now f v s src c t db :
  pq_CreateFlagVersion id (ms now) f v s src c t (cut_db db) = cut_result cut_version (pq_CreateFlagVersion id now f v s src c t db).
Proof. unfold pq_CreateFlagVersion. cut_insert. Qed.
Lemma cut_CreateEnvironment id now p s n db :
  pq_CreateEnvironment id (ms now) p s n (cut_db db) = cut_result cut_environment (pq_CreateEnvironment id now p s n db).
Proof. unfold pq_CreateEnvironment. cut_insert. Qed.
Lemma cut_CreateSegment id now p k n d pr db :
  pq_CreateSegment id (ms now) p k n d pr (cut_db db) = cut_result cut_segment (pq_CreateSegment id now p k n d pr db).
Proof. unfold pq_CreateSegment. cut_insert. Qed.
Lemma cut_CreateSnapshot id now p e v c db :
  pq_CreateSnapshot id (ms now) p e v c (cut_db db) = cut_result cut_snapshot (pq_CreateSnapshot id now p e v c db).
Proof. unfold pq_CreateSnapshot. cut_insert. Qed.
Lemma cut_AppendAuditEvent id now p f a ac pl db :
  pq_AppendAuditEvent id (ms now) p f a ac pl (cut_db db) = cut_result cut_audit (pq_AppendAuditEvent id now p f a ac pl db).
Proof. unfold pq_AppendAuditEvent. cut_insert. Qed.
Lemma cut_UpdateSegment now p k n d pr db :
  pq_UpdateSegment (ms now) p k n d pr (cut_db db) = cut_result cut_segment (pq_UpdateSegment now p k n d pr db).
Proof.
  unfold pq_UpdateSegment. repeat (apply cut_bind; intros ?). cbn [cut_db segments].
  set (here := fun r => (sr_project r =? p) && String.eqb (sr_key r) k).
  rewrite (find_map cut_segment here here) by reflexivity. destruct (List.find here _) as [r|]; [|done]. cbn [option_map].
  apply cut_bind. intros doc. cbn [cut_result]. f_equal. f_equal. unfold set_segments, cut_db. cbn. f_equal. rewrite !map_map.
  apply map_ext. intros x. unfold here. cbn. by destruct (_ && _).
Qed.
Lemma cut_NextFlagVersion f db : pq_NextFlagVersion f (cut_db db) = pq_NextFlagVersion f db.
Proof.
  unfold pq_NextFlagVersion. cbn [cut_db flag_versions]. rewrite (filter_map_comm cut_version _ (fun r => vr_flag r =? f)) by done.
  by rewrite map_map.
Qed.
Lemma cut_NextSnapshotVersion p db : pq_NextSnapshotVersion p (cut_db db) = pq_NextSnapshotVersion p db.
Proof.
  unfold pq_NextSnapshotVersion. cbn [cut_db snapshots]. rewrite (filter_map_comm cut_snapshot _ (fun r => nr_project r =? p)) by done.
  by rewrite map_map.
Qed.

(** ** Calls *)

Definition cut_reply {A} (m : result store_err (A * DB)) : result store_err (A * DB) :=
  match m with Ok (a, db) => Ok (a, cut_db db) | Err e => Err e end.
Lemma cut_forget {R A} (f : R -> R) (conv : R -> A) m :
  match wrap conv (cut_result f m) with Ok (_, db') => Ok (tt, db') | Err e => Err e end =
  cut_reply (match wrap conv m with Ok (_, db') => Ok (tt, db') | Err e => Err e end).
Proof. by destruct m as [[r db]|e]. Qed.

Lemma cut_txop t db : pg_txop (cut_op t) (cut_db db) = cut_reply (pg_txop t db).
Proof.
  destruct t as [d s n st|d p|d p s n|d p|d p|d p|d p]; cbn [pg_txop cut_op];
    unfold forget, pgTx_CreateProject, pgTx_CreateFlag, pgTx_CreateEnvironment, pgTx_CreateSegment, pgTx_UpdateSegment,
      pg_publishFlagVersionTx, pgTx_CompileSnapshot; cbn [cut_draw new_id now].
  - rewrite cut_CreateProject. apply cut_forget.
  - rewrite cut_CreateFlag. apply cut_forget.
  - rewrite cut_CreateEnvironment. apply cut_forget.
  - rewrite cut_CreateSegment. apply cut_forget.
  - rewrite cut_UpdateSegment. apply cut_forget.
  - rewrite cut_NextFlagVersion. destruct (pq_NextFlagVersion _ _); [|done]. rewrite cut_CreateFlagVersion. apply cut_forget.
  - rewrite cut_NextSnapshotVersion. destruct (pq_NextSnapshotVersion _ _); [|done]. rewrite cut_CreateSnapshot. apply cut_forget.
Qed.
Lemma cut_call_same c db : pg_call (cut_call c) (cut_db db) = ((pg_call c db).1, cut_db (pg_call c db).2).
Proof.
  unfold pg_call, pg_WithAudit. rewrite !pg_quiet. unfold pg_audited, cut_call. cbn [c_op c_event c_draw]. rewrite cut_txop.
  destruct (pg_txop (c_op c) db) as [[u db1]|e]; [|done]. cbn [cut_reply]. unfold pg_audit_insert. cbn [cut_draw new_id now].
  rewrite cut_AppendAuditEvent. by destruct (pq_AppendAuditEvent _ _ _ _ _ _ _ _) as [[r db2]|].
Qed.
Lemma cut_calls cs db :
  calls pg_call (map cut_call cs) (cut_db db) = ((calls pg_call cs db).1, cut_db (calls pg_call cs db).2).
Proof.
  revert db. induction cs as [|c cs IH]; intros db; [done|]. cbn [map calls]. rewrite cut_call_same.
  destruct (pg_call c db) as [r db1]. cbn [fst snd]. rewrite IH. by destruct (calls pg_call cs db1).
Qed.
End writes.

(** ** Reads *)

Section reads.
Context {J : Jsonb}.

Lemma ms_le x y : ms x <> ms y -> (ms x <=? ms y) = (x <=? y).
Proof. unfold ms. intros H. Z.to_euclidean_division_equations. lia. Qed.
Lemma ms_lt x y : ms x <> ms y -> (ms x <? ms y) = (x <? y).
Proof. unfold ms. intros H. Z.to_euclidean_division_equations. lia. Qed.

(** No two rows of a table that is listed by time are of one millisecond. *)
Record spaced (db : DB) : Prop := {
  sp_projects : NoDup (map (fun r => ms (pr_created r)) (projects db));
  sp_flags : NoDup (map (fun r => ms (fr_created r)) (flags db));
  sp_environments : NoDup (map (fun r => ms (er_created r)) (environments db));
  sp_segments : NoDup (map (fun r => ms (sr_created r)) (segments db));
  sp_audit : NoDup (map (fun r => ms (ar_created r)) (audit_events db))
}.

Lemma found_texts {R A} (conv : R -> A) g l (m m' : result db_err R) :
  found conv m' = rmap g (found conv m) ->
  found conv (let? _ := pg_texts l in m') = rmap g (found conv (let? _ := pg_texts l in m)).
Proof. intros H. destruct (pg_texts l) as [?|e]; [done|]. by destruct e. Qed.

Lemma distinct_map {A B} (f : A -> B) (k : A -> uuid) (k' : B -> uuid) l :
  (forall x, k' (f x) = k x) -> distinct_on k' (map f l) = map f (distinct_on k l).
Proof.
  intros H. induction l as [|x l IH]; [done|]. cbn. rewrite IH. destruct (distinct_on k l) as [|y r]; [done|]. cbn.
  rewrite !H. by destruct (k y =? k x).
Qed.

Lemma cut_latest project db :
  pq_ListLatestFlagVersions project (cut_db db) = map (fun kv => (kv.1, cut_version kv.2)) (pq_ListLatestFlagVersions project db).
Proof.
  unfold pq_ListLatestFlagVersions. set (f := fun kv : string * FlagVersionRow => (kv.1, cut_version kv.2)).
  assert (pq_joined project (cut_db db) = map f (pq_joined project db)) as ->.
  { unfold pq_joined. cbn [cut_db flag_versions flags]. induction (flag_versions db) as [|v l IH]; [done|].
    cbn [map flat_map]. rewrite IH, map_app, map_map. f_equal.
    rewrite (filter_map_comm cut_flag _ (fun g => (fr_id g =? vr_flag v) && (fr_project g =? project))) by done. by rewrite map_map. }
  rewrite (order_by_map f by_flag_version) by done. by apply distinct_map.
Qed.

(** Bounds of an audit search that both servers hold, and a cursor that names an
    event. *)
Definition whole_ms (o : option time) : bool := match o with Some t => t mod 1000 =? 0 | None => true end.
Definition exact_bounds (q : query) : bool := match q with QEvents p => whole_ms (la_From p) && whole_ms (la_To p) | _ => true end.
Definition known_cursor (q : query) (db : DB) : Prop :=
  match q with
  | QEvents p => forall t, la_CursorTs p = Some t -> exists r, In r (audit_events db) /\ ar_created r = t /\ ar_id r = la_CursorID p
  | _ => True
  end.

Lemma cut_matches p db r :
  spaced db -> exact_bounds (QEvents p) = true -> known_cursor (QEvents p) db -> In r (audit_events db) ->
  audit_matches (audit_params (cut_params p)) (cut_audit r) = audit_matches (audit_params p) r.
Proof.
  intros Hsp Hb Hc Hr. cbn [exact_bounds] in Hb. apply andb_true_iff in Hb as [Hf Ht].
  unfold audit_matches, audit_params, cut_params. cbn [af_project af_action af_actor af_from af_to af_cursor la_ProjectID la_Action
    la_Actor la_From la_To la_CursorTs la_CursorID cut_audit ar_project ar_action ar_actor ar_created ar_id].
  assert (unless_null (option_map ms (la_From p)) (fun t => t <=? ms (ar_created r)) = unless_null (la_From p) (fun t => t <=? ar_created r)) as ->.
  { destruct (la_From p) as [t|]; [|done]. cbn in *. unfold ms. Z.to_euclidean_division_equations. lia. }
  assert (unless_null (option_map ms (la_To p)) (fun t => ms (ar_created r) <? t) = unless_null (la_To p) (fun t => ar_created r <? t)) as ->.
  { destruct (la_To p) as [t|]; [|done]. cbn in *. unfold ms. Z.to_euclidean_division_equations. lia. }
  f_equal. cbn [known_cursor] in Hc. destruct (la_CursorTs p) as [t|]; [|done]. destruct (Hc t eq_refl) as (r0 & Hr0 & <- & Ei). cbn.
  destruct (Z.eq_dec (ms (ar_created r)) (ms (ar_created r0))) as [E|E].
  - assert (r = r0) as -> by (eapply (NoDup_key_eq (fun r => ms (ar_created r))); [apply Hsp | done..]). lia.
  - rewrite (ms_lt _ _ E). assert ((ms (ar_created r) =? ms (ar_created r0)) = false) as -> by lia.
    assert ((ar_created r =? ar_created r0) = false) as -> by (apply Z.eqb_neq; congruence). lia.
Qed.

Lemma filter_in_ext {A} (p q : A -> bool) l : (forall x, In x l -> p x = q x) -> List.filter p l = List.filter q l.
Proof. intros H. induction l as [|x l IH]; [done|]. cbn. rewrite (H x (or_introl eq_refl)), IH; [done|]. intros y Hy. apply H. by right. Qed.

Lemma cut_events p db :
  spaced db -> exact_bounds (QEvents p) = true -> known_cursor (QEvents p) db ->
  pg_ListAuditEvents (cut_params p) (cut_db db) = rmap (map ms_event) (pg_ListAuditEvents p db).
Proof.
  intros Hsp Hb Hc. rewrite !pg_ListAudit_same. cbn [cut_params la_Action la_Actor la_Limit].
  destruct (pg_texts _) as [?|e]; [|done]. cbn [rbind]. unfold pg_limit. destruct (la_Limit p <? 0); [done|]. cbn [listed rmap]. f_equal.
  set (f := audit_matches (audit_params p)).
  assert (List.filter (audit_matches (audit_params (cut_params p))) (audit_events (cut_db db)) = map cut_audit (List.filter f (audit_events db))) as ->.
  { cbn [cut_db audit_events]. rewrite (filter_map_comm cut_audit _ (fun r => audit_matches (audit_params (cut_params p)) (cut_audit r))) by done.
    f_equal. apply filter_in_ext. intros r Hr. by apply (cut_matches p db). }
  rewrite (order_by_keys (fun r => ms (ar_created r)) cut_audit audit_after).
  - by rewrite take_map, !map_map.
  - apply NoDup_sub, Hsp.
  - intros x y E. unfold audit_after, cut_audit. cbn. rewrite (ms_lt _ _ (not_eq_sym E)).
    assert ((ms (ar_created x) =? ms (ar_created y)) = false) as -> by (by apply Z.eqb_neq).
    assert ((ar_created x =? ar_created y) = false) as -> by (apply Z.eqb_neq; congruence). done.
Qed.

Lemma cut_lists db :
  spaced db ->
  pg_ListProjects (cut_db db) = map ms_project (pg_ListProjects db) /\
  (forall p, pg_ListFlagsByProject p (cut_db db) = map ms_flag (pg_ListFlagsByProject p db)) /\
  (forall p, pg_ListEnvironmentsByProject p (cut_db db) = map ms_environment (pg_ListEnvironmentsByProject p db)) /\
  (forall p, pg_ListSegmentsByProject p (cut_db db) = map ms_segment (pg_ListSegmentsByProject p db)).
Proof.
  intros [H1 H2 H3 H4 _]. split_and!; intros.
  - unfold pg_ListProjects, pq_ListProjects. cbn [cut_db projects].
    rewrite (order_by_keys (fun r => ms (pr_created r)) cut_project (fun a b => pr_created b <=? pr_created a)), !map_map; [done | done|].
    intros x y E. by apply ms_le, not_eq_sym.
  - unfold pg_ListFlagsByProject, pq_ListFlagsByProject. cbn [cut_db flags].
    rewrite (filter_map_comm cut_flag _ (fun r => fr_project r =? p)) by done.
    rewrite (order_by_keys (fun r => ms (fr_created r)) cut_flag (fun a b => fr_created b <=? fr_created a)), !map_map; [done | by apply NoDup_sub|].
    intros x y E. by apply ms_le, not_eq_sym.
  - unfold pg_ListEnvironmentsByProject, pq_ListEnvironmentsByProject. cbn [cut_db environments].
    rewrite (filter_map_comm cut_environment _ (fun r => er_project r =? p)) by done.
    rewrite (order_by_keys (fun r => ms (er_created r)) cut_environment (fun a b => er_created a <=? er_created b)), !map_map; [done | by apply NoDup_sub|].
    intros x y E. by apply ms_le.
  - unfold pg_ListSegmentsByProject, pq_ListSegmentsByProject. cbn [cut_db segments].
    rewrite (filter_map_comm cut_segment _ (fun r => sr_project r =? p)) by done.
    rewrite (order_by_keys (fun r => ms (sr_created r)) cut_segment (fun a b => sr_created a <=? sr_created b)), !map_map; [done | by apply NoDup_sub|].
    intros x y E. by apply ms_le.
Qed.

(** Rows listed by version. *)
Lemma cut_versions f db :
  order_by (fun a b => vr_version b <=? vr_version a) (List.filter (fun r => vr_flag r =? f) (flag_versions (cut_db db))) =
  map cut_version (order_by (fun a b => vr_version b <=? vr_version a) (List.filter (fun r => vr_flag r =? f) (flag_versions db))).
Proof. cbn [cut_db flag_versions]. rewrite (filter_map_comm cut_version _ (fun r => vr_flag r =? f)) by done. by apply order_by_map. Qed.
Lemma cut_snapshots p db :
  order_by (fun a b => nr_version b <=? nr_version a) (List.filter (fun r => nr_project r =? p) (snapshots (cut_db db))) =
  map cut_snapshot (order_by (fun a b => nr_version b <=? nr_version a) (List.filter (fun r => nr_project r =? p) (snapshots db))).
Proof. cbn [cut_db snapshots]. rewrite (filter_map_comm cut_snapshot _ (fun r => nr_project r =? p)) by done. by apply order_by_map. Qed.

Lemma cut_query_same q db :
  spaced db -> exact_bounds q = true -> known_cursor q db -> pg_query (cut_query q) (cut_db db) = cut_answer (pg_query q db).
Proof.
  intros Hsp Hb Hc. destruct (cut_lists db Hsp) as (L1 & L2 & L3 & L4). destruct q; cbn [cut_query pg_query cut_answer]; f_equal; auto.
  - apply found_texts. by apply lookup_sim.
  - apply found_texts. by apply lookup_sim.
  - unfold pg_GetLatestFlagVersion, pq_GetLatestFlagVersion. rewrite cut_versions, head_map. by apply found_sim.
  - unfold pg_ListFlagVersions, pq_ListFlagVersions. rewrite cut_versions. by apply list_sim.
  - apply found_texts. by apply lookup_sim.
  - apply found_texts. by apply lookup_sim.
  - by apply lookup_sim.
  - unfold pg_GetLatestSnapshot, pq_GetLatestSnapshot. rewrite cut_snapshots, head_map. by apply found_sim.
  - unfold pg_ListSnapshotsByProject, pq_ListSnapshotsByProject, pg_limit. rewrite cut_snapshots. destruct (limit <? 0); [done|].
    cbn. by rewrite take_map, !map_map.
  - unfold pg_ListLatestFlagVersions. by rewrite cut_latest, !map_map.
  - by apply cut_events.
Qed.
End reads.

(** ** A clock that ticks *)

Definition op_time (t : txop) : time :=
  match t with
  | TxCreateProject d _ _ _ | TxCreateFlag d _ | TxCreateEnvironment d _ _ _ | TxCreateSegment d _ | TxUpdateSegment d _
  | TxPublish d _ | TxCompileSnapshot d _ => now d
  end.
(** No two calls read the clock in one millisecond: neither for their rows, nor for
    their audit rows. *)
Definition ticking (cs : list call) : Prop :=
  NoDup (map (fun c => ms (op_time (c_op c))) cs) /\ NoDup (map (fun c => ms (now (c_draw c))) cs).

(** Distinct times, none of which is still to come. *)
Definition unused (later l : list time) : Prop := NoDup l /\ forall t, In t l -> ~ In t later.
Lemma unused_append t later l : NoDup (t :: later) -> unused (t :: later) l -> unused later (l ++ [t]).
Proof.
  intros [Ht _]%NoDup_cons [Hnd Hl]. split.
  - apply NoDup_app. split_and!; [done | | apply NoDup_singleton]. intros x Hx ->%list_elem_of_singleton.
    apply list_elem_of_In in Hx. apply (Hl t Hx). by left.
  - intros x [Hx|[<-|[]]]%in_app_iff; [|by rewrite <- list_elem_of_In]. intros Hin. apply (Hl x Hx). by right.
Qed.
Lemma unused_tail t later l : unused (t :: later) l -> unused later l.
Proof. intros [Hnd Hl]. split; [done|]. intros x Hx Hin. apply (Hl x Hx). by right. Qed.

Record clocked (ops audits : list time) (db : DB) : Prop := {
  ck_projects : unused ops (map pr_created (projects db));
  ck_flags : unused ops (map fr_created (flags db));
  ck_environments : unused ops (map er_created (environments db));
  ck_segments : unused ops (map sr_created (segments db));
  ck_audit : unused audits (map ar_created (audit_events db))
}.
Lemma clocked_tail t ops audits db : clocked (t :: ops) audits db -> clocked ops audits db.
Proof. intros []. split; eauto using unused_tail. Qed.

Lemma clocked_op t db u db' ops audits :
  NoDup (op_time t :: ops) -> clocked (op_time t :: ops) audits db -> run_txop t db = Ok (u, db') -> clocked ops audits db'.
Proof.
  intros Hnd Hck H. pose proof (clocked_tail _ _ _ _ Hck) as Ht. destruct Hck, Ht.
  destruct t as [d s n st|d p|d p s n|d p|d p|d p|d p]; cbn [run_txop op_time] in *; apply forget_ok in H as (a & H);
    apply wrap_ok in H as (r & H & _);
    unfold q_CreateProject, q_CreateFlag, q_CreateEnvironment, q_CreateSegment, q_CreateFlagVersion, q_CreateSnapshot in H;
    try (inv_stmt H; split; cbn; rewrite ?map_app; cbn; auto using unused_append).
  unfold q_UpdateSegment in H. destruct (List.find _ _) as [x|]; [|done]. injection H as _ <-. split; cbn; auto.
  rewrite map_map. erewrite map_ext; [exact ck_segments1|]. intros y. by destruct (is_segment _ _ y).
Qed.

Lemma clocked_call c db ops audits :
  NoDup (op_time (c_op c) :: ops) -> NoDup (now (c_draw c) :: audits) ->
  clocked (op_time (c_op c) :: ops) (now (c_draw c) :: audits) db -> clocked ops audits (sqlite_call c db).2.
Proof.
  intros Ho Ha Hck. assert (forall db1, clocked ops (now (c_draw c) :: audits) db1 -> clocked ops audits db1) as Ht.
  { intros db1 []. split; eauto using unused_tail. }
  unfold sqlite_call, WithAudit, withImmediateTx. rewrite sqlite_quiet. unfold audited.
  destruct (run_txop (c_op c) db) as [[u db1]|e] eqn:E; [|by apply Ht, (clocked_tail (op_time (c_op c)))].
  apply (clocked_op _ _ _ _ ops (now (c_draw c) :: audits)) in E as Hck1; [|done|done].
  destruct (AppendAudit (c_draw c) (c_event c) db1) as [[x db2]|] eqn:Ea; [|by apply Ht, (clocked_tail (op_time (c_op c)))].
  cbn. apply wrap_ok in Ea as (row & Ea & _). unfold q_AppendAuditEvent in Ea. inv_stmt Ea. destruct Hck1.
  split; cbn; rewrite ?map_app; cbn; auto using unused_append.
Qed.

Lemma clocked_calls cs db :
  NoDup (map (fun c => op_time (c_op c)) cs) -> NoDup (map (fun c => now (c_draw c)) cs) ->
  clocked (map (fun c => op_time (c_op c)) cs) (map (fun c => now (c_draw c)) cs) db -> clocked [] [] (calls sqlite_call cs db).2.
Proof.
  revert db. induction cs as [|c cs IH]; intros db Ho Ha Hck; [done|]. cbn [map calls] in *.
  pose proof (clocked_call c db _ _ Ho Ha Hck) as Hc. apply NoDup_cons in Ho as [_ Ho]. apply NoDup_cons in Ha as [_ Ha].
  destruct (sqlite_call c db) as [r db1]. specialize (IH db1 Ho Ha Hc). by destruct (calls sqlite_call cs db1).
Qed.

(** ** The theorem *)

Section agreement.
Context {J : Jsonb}.

(** Rows that are those of SQLite once cut have different milliseconds. *)
Lemma clocked_spaced db dbp : cut_db dbp = pg_db db -> clocked [] [] db -> spaced dbp.
Proof.
  intros E [[H1 _] [H2 _] [H3 _] [H4 _] [H5 _]].
  assert (map cut_project (projects dbp) = projects db) as E1 by (by injection E).
  assert (map cut_flag (flags dbp) = map pg_flag (flags db)) as E2 by (by injection E).
  assert (map cut_environment (environments dbp) = environments db) as E3 by (by injection E).
  assert (map cut_segment (segments dbp) = map pg_segment (segments db)) as E4 by (by injection E).
  assert (map cut_audit (audit_events dbp) = map pg_audit (audit_events db)) as E5 by (by injection E).
  apply (f_equal (map pr_created)) in E1. apply (f_equal (map fr_created)) in E2. apply (f_equal (map er_created)) in E3.
  apply (f_equal (map sr_created)) in E4. apply (f_equal (map ar_created)) in E5. rewrite !map_map in *. cbn in *.
  split; [by rewrite E1 | by rewrite E2 | by rewrite E3 | by rewrite E4 | by rewrite E5].
Qed.

Lemma cut_portable cs : forallb portable (map cut_call cs) = forallb portable cs.
Proof. induction cs as [|c cs IH]; [done|]. cbn [map forallb]. rewrite IH. f_equal. destruct c as [op ev d]. by destruct op. Qed.
Lemma cut_portable_query q : portable_query (cut_query q) = portable_query q.
Proof. by destruct q. Qed.
Lemma pg_call_ok c db : db_ok db -> db_ok (pg_call c db).2.
Proof.
  intros H. pose proof (pg_exec_ok (PgWithAudit (fun _ => mkPgEnv None None Committed false) (fun _ => c_draw c) (c_event c) (fun _ => c_op c)) db H) as H'.
  cbn [pg_exec] in H'. exact H'.
Qed.
Lemma pg_calls_ok cs db : db_ok db -> db_ok (calls pg_call cs db).2.
Proof.
  revert db. induction cs as [|c cs IH]; intros db H; [done|]. cbn [calls]. pose proof (pg_call_ok c db H) as H1.
  destruct (pg_call c db) as [r db1]. specialize (IH db1 H1). by destruct (calls pg_call cs db1).
Qed.

(** C8. The backends are interchangeable.  The same audited calls are made to an empty
    SQLite and an empty PostgreSQL store, with the same identifiers and readings of
    the clock, which SQLite keeps to the millisecond.  The calls meet no fault, say
    only what both servers can hold (texts of valid UTF-8 without the character
    zero, non-empty documents that [jsonb] accepts), no two of them read the clock in one
    millisecond, and there are fewer than 2^31 of them.  Then the two stores give
    the same outcomes (success, not found, conflict or another failure), and every
    query afterwards gets the same answer from both, up to three things: the
    spelling PostgreSQL gives documents, the microseconds of its times, and the
    order of the latest versions, which SQLite's query leaves open.  The query's
    texts are such texts, its limit is not negative, and an audit search has bounds
    of whole milliseconds and, if any, the cursor of an event. *)
Theorem backends_agree cs q :
  forallb portable cs = true -> ticking cs -> Z.of_nat (List.length cs) <= int32_max ->
  portable_query q = true -> exact_bounds q = true -> known_cursor q (calls pg_call cs empty_db).2 ->
  Forall2 same_outcome (calls sqlite_call (map cut_call cs) empty_db).1 (calls pg_call cs empty_db).1 /\
  agree (sqlite_query (cut_query q) (calls sqlite_call (map cut_call cs) empty_db).2)
    (cut_answer (pg_query q (calls pg_call cs empty_db).2)).
Proof.
  intros Hp [To Ta] Hn Hq Hb Hc. pose proof (cut_calls cs empty_db) as Hcut.
  destruct (sim_calls (map cut_call cs) 0 empty_db) as (Ho & Hd & Hs);
    [by rewrite cut_portable | rewrite length_map; exact Hn | apply empty_ok | done | apply empty_stored |].
  change (cut_db empty_db) with empty_db in Hcut. change (pg_db empty_db) with empty_db in Ho, Hd. rewrite Hcut in Ho, Hd. cbn [fst snd] in *.
  split; [done|]. rewrite <- (cut_query_same q), Hd; [|eapply clocked_spaced; [exact Hd|] | done | done].
  - apply sim_query; [by rewrite cut_portable_query | done|]. rewrite <- Hd. change empty_db with (cut_db empty_db).
    pose proof (pg_calls_ok (map cut_call cs) empty_db empty_ok) as H. by rewrite Hcut in H.
  - apply clocked_calls; rewrite ?map_map; [|..].
    + erewrite map_ext; [exact To|]. intros [op ev d]. by destruct op.
    + exact Ta.
    + split; cbn; (split; [constructor | done]).
Qed.
End agreement.

Module BackendsDemo.
Import JsonbDemo.
Definition event (flag : option uuid) (action : string) : AppendAuditParams := mkAuditParams (Some 1) flag action "ann" "".
Definition doc : string := print (JObj [("on", JBool true); ("size", JNum "2.50")]).
(** A project, a flag, two versions of it; then a second flag with the same key
    and an update of a segment that does not exist. *)
Definition demo_calls : list call :=
  [mkCall (TxCreateProject (mkDraw 1 100007) "acme" "Acme" "json") (event None "project.created") (mkDraw 11 100077);
   mkCall (TxCreateFlag (mkDraw 2 101014) (mkCreateFlagParams 1 "dark" "Dark" "" "object" doc)) (event (Some 2) "flag.created") (mkDraw 12 101084);
   mkCall (TxPublish (mkDraw 3 102021) (mkPublishParams 2 "json" doc doc "")) (event (Some 2) "flag.published") (mkDraw 13 102091);
   mkCall (TxPublish (mkDraw 4 103028) (mkPublishParams 2 "json" doc doc "src")) (event (Some 2) "flag.published") (mkDraw 14 103098);
   mkCall (TxCreateFlag (mkDraw 5 104035) (mkCreateFlagParams 1 "dark" "Other" "" "object" doc)) (event None "flag.created") (mkDraw 15 104105);
   mkCall (TxUpdateSegment (mkDraw 6 105042) (mkSegmentParams 1 "eu" "EU" "" doc)) (event None "segment.updated") (mkDraw 16 105112)].

Example demo_outcomes :
  (calls sqlite_call (map cut_call demo_calls) empty_db).1 =
    [Ok tt; Ok tt; Ok tt; Ok tt; Err (Driver ConstraintUnique); Err (Driver NoRows)] /\
  (calls pg_call demo_calls empty_db).1 =
    [Ok tt; Ok tt; Ok tt; Ok tt; Err (Driver (Sqlstate "23505")); Err (Driver NoRows)].
Proof. vm_compute. done. Qed.

Abbreviation demo_sqlite := (calls sqlite_call (map cut_call demo_calls) empty_db).
Abbreviation demo_pg := (calls pg_call demo_calls empty_db).
(** The events behind the third one. *)
Definition demo_search : ListAuditEventsParams := mkListAudit 1 "" "ann" (Some 100000) (Some 106000) (Some 103098) 14 10.
Example demo_searched :
  (exists l, pg_ListAuditEvents demo_search demo_pg.2 = Ok l /\ map A_ID l = [13; 12; 11]) /\
  map A_ID (ListAuditEvents (cut_params demo_search) demo_sqlite.2) = [13; 12; 11].
Proof. vm_compute. split; [by eexists | done]. Qed.

Lemma backends_agree_witness :
  Forall2 same_outcome demo_sqlite.1 demo_pg.1 /\
  agree (sqlite_query (cut_query (QEvents demo_search)) demo_sqlite.2) (cut_answer (pg_query (QEvents demo_search) demo_pg.2)).
Proof.
  apply (backends_agree demo_calls (QEvents demo_search)).
  - vm_compute. reflexivity.
  - split; (apply (bool_decide_eq_true_1 (NoDup _)); vm_compute; reflexivity).
  - vm_compute. discriminate.
  - vm_compute. reflexivity.
  - vm_compute. reflexivity.
  - intros t [= <-]. eexists. split; [vm_compute; right; right; right; left; reflexivity | split; reflexivity].
Defined.
End BackendsDemo.
