(* ===== verification/AuditCursor.v ===== *)
(** The cursor of the audit log ([internal/server/handlers/audit.go]): a time and
    an identifier as JSON in unpadded URL-safe base64. *)
From stdpp Require Import base list strings numbers.
From Stdlib Require Import Ascii String ZArith Lia.
From S2P Require Import Prelude Text Literal Json Float64 GoTime Ir Db Store SqliteText.

(** ** [base64.RawURLEncoding] *)

Definition b64_digit (n : Z) : ascii :=
  if n <? 26 then chr (65 + n) else if n <? 52 then chr (71 + n) else if n <? 62 then chr (n - 4)
  else if n =? 62 then "-"%char else "_"%char.
Definition b64_value (c : ascii) : option Z :=
  if byte_in 65 90 c then Some (code c - 65)
  else if byte_in 97 122 c then Some (code c - 71)
  else if is_digit c then Some (code c + 4)
  else if Ascii.eqb c "-"%char then Some 62
  else if Ascii.eqb c "_"%char then Some 63
  else None.

(** Three bytes at a time; what is left over gives two or three digits. *)
Fixpoint EncodeToString (s : string) : string :=
  match s with
  | EmptyString => ""
  | String a EmptyString => String (b64_digit (code a / 4)) (str1 (b64_digit (code a mod 4 * 16)))
  | String a (String b EmptyString) =>
      String (b64_digit (code a / 4)) (String (b64_digit (code a mod 4 * 16 + code b / 16)) (str1 (b64_digit (code b mod 16 * 4))))
  | String a (String b (String c r)) =>
      String (b64_digit (code a / 4)) (String (b64_digit (code a mod 4 * 16 + code b / 16))
        (String (b64_digit (code b mod 16 * 4 + code c / 64)) (String (b64_digit (code c mod 64)) (EncodeToString r))))
  end.

(** Line breaks are skipped, the spare bits of the last digit ignored. *)
Definition is_break (c : ascii) : bool := (code c =? 10) || (code c =? 13).
Fixpoint b64_values (s : string) : option (list Z) :=
  match s with
  | EmptyString => Some []
  | String c r =>
      if is_break c then b64_values r else
      do? v := b64_value c in
      do? vs := b64_values r in
      Some (v :: vs)
  end.
Fixpoint b64_bytes (vs : list Z) : option string :=
  match vs with
  | [] => Some ""
  | [_] => None
  | [a; b] => Some (str1 (chr (a * 4 + b / 16)))
  | [a; b; c] => Some (String (chr (a * 4 + b / 16)) (str1 (chr (b mod 16 * 16 + c / 4))))
  | a :: b :: c :: d :: r =>
      do? rest := b64_bytes r in
      Some (String (chr (a * 4 + b / 16)) (String (chr (b mod 16 * 16 + c / 4)) (String (chr (c mod 4 * 64 + d)) rest)))
  end.
Definition DecodeString (s : string) : option string := do? vs := b64_values s in b64_bytes vs.

(** ** The cursor *)

Section cursor.
Context {UT : UuidText}.

Record auditCursor : Type := mkAuditCursor { c_Ts : string; c_ID : uuid }.
Inductive cfield : Type := FTs | FCursorID.
Definition cfields : list (string * cfield) := [("ts", FTs); ("id", FCursorID)].

Definition dec_uuid (d : jdoc) (old : uuid) : option uuid :=
  match d with JNull => Some old | JStr l => uuid_Parse (unquote l) | _ => None end.
Definition cursor_set (f : cfield) (d : jdoc) (c : auditCursor) : option auditCursor :=
  match f with
  | FTs => do? ts := dec_str d (c_Ts c) in Some (mkAuditCursor ts (c_ID c))
  | FCursorID => do? id := dec_uuid d (c_ID c) in Some (mkAuditCursor (c_Ts c) id)
  end.
Definition dec_cursor (source : string) : option auditCursor :=
  do? d := scan source in
  match d with
  | JNull => Some (mkAuditCursor "" uuid_Nil)
  | JObj m => dec_members cfields cursor_set m (mkAuditCursor "" uuid_Nil)
  | _ => None
  end.

Definition encodeAuditCursor (ts : Time) (id : uuid) : string :=
  EncodeToString (print (JObj [("ts", enc_str (Format ts RFC3339Nano)); ("id", enc_str (uuid_String id))])).

Definition parseTime (s : string) : option Time := if String.eqb s "" then Some zeroTime else Parse RFC3339Nano s.
Definition decodeAuditCursor (s : string) : option (Time * uuid) :=
  do? b := DecodeString s in
  do? c := dec_cursor b in
  do? ts := parseTime (c_Ts c) in
  Some (ts, c_ID c).

(** ** Lemmas *)

Lemma b64_back n : 0 <= n < 64 -> b64_value (b64_digit n) = Some n /\ is_break (b64_digit n) = false.
Proof.
  intros H. assert (forallb (fun k => match b64_value (b64_digit (Z.of_nat k)) with
    | Some z => (z =? Z.of_nat k) && negb (is_break (b64_digit (Z.of_nat k))) | None => false end) (seq 0 64) = true) as Hall by (vm_compute; reflexivity).
  rewrite forallb_forall in Hall. assert (In (Z.to_nat n) (seq 0 64)) as Hi by (apply in_seq; lia). specialize (Hall _ Hi).
  rewrite Z2Nat.id in Hall by lia. destruct (b64_value (b64_digit n)) as [z|]; [|done]. bsplit. split; [f_equal; lia | done].
Qed.

Lemma b64_values_cons n r : 0 <= n < 64 ->
  b64_values (String (b64_digit n) r) = (do? vs := b64_values r in Some (n :: vs)).
Proof. intros [H1 H2]%b64_back. cbn [b64_values]. by rewrite H2, H1. Qed.

Lemma chr_bits c z : z = code c -> chr z = c.
Proof. intros ->. apply chr_code. Qed.

(** Base64 is read back. *)
Lemma decode_encode s : DecodeString (EncodeToString s) = Some s.
Proof.
  unfold DecodeString. induction s as [s IH] using string_len_ind.
  destruct s as [|a [|b [|c r]]]; [done| | |]; cbn [EncodeToString]; unfold str1;
    try pose proof (code_range a); try pose proof (code_range b); try pose proof (code_range c);
    repeat (rewrite b64_values_cons by (Z.div_mod_to_equations; lia)).
  - cbn [b64_values mbind option_bind b64_bytes]. unfold str1. do 2 f_equal. apply chr_bits. Z.div_mod_to_equations; lia.
  - cbn [b64_values mbind option_bind b64_bytes]. unfold str1. do 2 f_equal; [|f_equal]; apply chr_bits; Z.div_mod_to_equations; lia.
  - specialize (IH r ltac:(cbn; lia)). destruct (b64_values (EncodeToString r)) as [vs|]; [|done]. cbn [mbind option_bind] in *.
    cbn [b64_bytes]. rewrite IH. cbn [mbind option_bind].
    do 2 f_equal; [|f_equal; [|f_equal]]; apply chr_bits; Z.div_mod_to_equations; lia.
Qed.

Lemma all_chars_app p a b : all_chars p (a +:+ b) = all_chars p a && all_chars p b.
Proof. induction a as [|c a IH]; [done|]. cbn. by rewrite IH, andb_assoc. Qed.
Lemma all_chars_impl (p q : ascii -> bool) s : (forall c, p c = true -> q c = true) -> all_chars p s = true -> all_chars q s = true.
Proof. intros H. induction s as [|c s IH]; [done|]. cbn. intros [Hc Hs]%andb_true_iff. by rewrite H, IH. Qed.
Definition is_ascii (c : ascii) : bool := code c <? 128.
Lemma ascii_utf8 s : all_chars is_ascii s = true -> utf8_valid s = true.
Proof. induction s as [|c s IH]; [done|]. cbn. unfold is_ascii. intros [Hc Hs]%andb_true_iff. rewrite Hc. by apply IH. Qed.
Lemma digits_ascii s : all_digits s = true -> all_chars is_ascii s = true.
Proof.
  induction s as [|c s IH]; [done|]. cbn. intros [Hc Hs]%andb_true_iff. rewrite IH by done.
  unfold is_digit, byte_in, is_ascii in *. lia.
Qed.
Lemma uuid_ascii c : uuid_char c = true -> is_ascii c = true.
Proof.
  unfold uuid_char, is_digit, byte_in, is_ascii. intros H. destruct (Ascii.eqb c "-"%char) eqn:E; [|lia].
  by apply Ascii.eqb_eq in E as ->.
Qed.
Lemma format_ascii t : in_years t -> all_chars is_ascii (Format t RFC3339Nano) = true.
Proof.
  intros H. change RFC3339Nano with (timeLayout [StdFracSecond9 9; StdISO8601ColonTZ]). rewrite format_time by done.
  destruct (time_fields t). repeat (cbn [all_chars is_ascii]; rewrite ?all_chars_app, ?(digits_ascii _ (all_digits_fixed _ _))).
  cbn [andb]. change (is_ascii "-"%char) with true. change (is_ascii "T"%char) with true. change (is_ascii ":"%char) with true. cbn [andb].
  unfold Format, format_chunk. cbn [foldr]. destruct (dateOf (day t)) as [[? ?] ?].
  pose proof (trim0_digits _ (all_digits_fixed 9 (nanos t / 10 ^ (9 - Z.of_nat 9)))) as Ha%digits_ascii.
  rewrite all_chars_app. destruct (trim0 _); [done|]. cbn [all_chars] in *. by rewrite Ha.
Qed.

Context {UL : UuidLaws}.

(** The cursor is read back. *)
Lemma cursor_back ts id : in_years ts -> uuid_ok id -> decodeAuditCursor (encodeAuditCursor ts id) = Some (ts, id).
Proof.
  intros Ht Hi. unfold decodeAuditCursor, encodeAuditCursor. rewrite decode_encode. cbn [mbind option_bind].
  assert (dec_cursor (print (JObj [("ts", enc_str (Format ts RFC3339Nano)); ("id", enc_str (uuid_String id))])) =
    Some (mkAuditCursor (Format ts RFC3339Nano) id)) as ->.
  - unfold dec_cursor. rewrite scan_print.
    + cbn [mbind option_bind dec_members]. change (field_of cfields (unquote "ts")) with (Some FTs).
      change (field_of cfields (unquote "id")) with (Some FCursorID). cbn [cursor_set dec_str dec_uuid enc_str mbind option_bind c_Ts c_ID].
      rewrite !unquote_quote.
      * cbn [mbind option_bind]. by rewrite parse_string.
      * apply ascii_utf8. eapply all_chars_impl; [apply uuid_ascii | by apply string_chars].
      * by apply ascii_utf8, format_ascii.
    + apply wf_obj. repeat constructor; try done; try (by apply lit_name); apply lit_quote.
  - cbn [mbind option_bind c_Ts c_ID]. unfold parseTime. rewrite parse_format_nano by done.
    destruct (String.eqb_spec (Format ts RFC3339Nano) "") as [E|]; [|done].
    pose proof (parse_format_nano ts Ht) as Hp. by rewrite E in Hp.
Qed.
End cursor.
