(* ===== verification/Api.v ===== *)
(** What the control plane's handlers share ([internal/server/handlers]:
    [handlers.go], [convert.go], [compile_error.go], [timehelpers.go]): wire
    types, converters, error translation, and the programs handlers are written
    as.

    A handler is a [prog]: a tree of store calls.  A read may meet a driver fault
    and every attempt of a transaction may meet its own.  [pstep] is one store
    call, so that the calls of several requests can interleave; [exec] is a whole
    execution with no other request in between, and [run] the one without
    faults. *)
From stdpp Require Import base list strings numbers gmap relations.
From Stdlib Require Import Ascii String ZArith Lia.
From S2P Require Import Prelude Text Literal Json Float64 GoValue Ir Compile Eval Trace Segments Db Store.

(** ** Wire types and converters ([convert.go]) *)

(** [rawToAny]: a text that does not decode is shown as a string. *)
Definition rawToAny (raw : RawMessage) : goval :=
  if String.eqb raw "" then VNil
  else let '(v, bad) := unmarshal_any raw in if bad then VStr raw else v.

Record WProject : Type := mkWProject {
  w_Id : uuid; w_Slug : string; w_DisplayName : string; w_ConfigStrategy : string; w_CreatedAt : time; w_UpdatedAt : time
}.
Definition projectToAPI (p : Project) : WProject :=
  mkWProject (P_ID p) (P_Slug p) (P_DisplayName p) (P_ConfigStrategy p) (P_CreatedAt p) (P_UpdatedAt p).

Record WFlag : Type := mkWFlag {
  wf_Id : uuid; wf_ProjectId : uuid; wf_Key : string; wf_Name : string; wf_Description : string;
  wf_ValueType : string; wf_DefaultValue : goval; wf_CreatedAt : time; wf_UpdatedAt : time
}.
Definition flagToAPI (f : Flag) : WFlag :=
  mkWFlag (F_ID f) (F_ProjectID f) (F_Key f) (F_Name f) (F_Description f) (F_ValueType f)
    (rawToAny (F_DefaultValue f)) (F_CreatedAt f) (F_UpdatedAt f).

(** A pointer to a string that is set only when it is not empty. *)
Definition str_ptr (s : string) : option string := if String.eqb s "" then None else Some s.

Record WFlagVersion : Type := mkWFlagVersion {
  wv_Id : uuid; wv_FlagId : uuid; wv_Version : Z; wv_Strategy : string; wv_Source : goval; wv_Compiled : goval;
  wv_SourceText : option string; wv_PublishedAt : time
}.
Definition flagVersionToAPI (v : FlagVersion) : WFlagVersion :=
  mkWFlagVersion (V_ID v) (V_FlagID v) (wrap32 (V_Version v)) (V_Strategy v) (rawToAny (V_Source v))
    (rawToAny (V_Compiled v)) (str_ptr (V_SourceText v)) (V_PublishedAt v).

Record WEnvironment : Type := mkWEnvironment {
  we_Id : uuid; we_ProjectId : uuid; we_Slug : string; we_Name : string; we_CreatedAt : time
}.
Definition environmentToAPI (e : Environment) : WEnvironment :=
  mkWEnvironment (E_ID e) (E_ProjectID e) (E_Slug e) (E_Name e) (E_CreatedAt e).

Record WSegment : Type := mkWSegment {
  ws_Id : uuid; ws_ProjectId : uuid; ws_Key : string; ws_Name : string; ws_Description : string;
  ws_Predicate : goval; ws_CreatedAt : time; ws_UpdatedAt : time
}.
Definition segmentToAPI (s : Segment) : WSegment :=
  mkWSegment (S_ID s) (S_ProjectID s) (S_Key s) (S_Name s) (S_Description s) (rawToAny (S_Predicate s))
    (S_CreatedAt s) (S_UpdatedAt s).

Record WSnapshot : Type := mkWSnapshot {
  wn_Id : uuid; wn_ProjectId : uuid; wn_Version : Z; wn_Compiled : goval; wn_CreatedAt : time; wn_EnvironmentId : option uuid
}.
Definition snapshotToAPI (s : StoredSnapshot) : WSnapshot :=
  mkWSnapshot (N_ID s) (N_ProjectID s) (wrap32 (N_Version s)) (rawToAny (N_Compiled s)) (N_CreatedAt s) (N_EnvironmentID s).

Record WAuditEvent : Type := mkWAuditEvent {
  wa_Id : uuid; wa_ProjectId : option uuid; wa_FlagId : option uuid; wa_Action : string; wa_Actor : option string;
  wa_Payload : goval; wa_CreatedAt : time
}.
Definition auditEventToAPI (a : AuditEvent) : WAuditEvent :=
  mkWAuditEvent (A_ID a) (A_ProjectID a) (A_FlagID a) (A_Action a) (str_ptr (A_Actor a)) (rawToAny (A_Payload a))
    (A_CreatedAt a).

Record WDecision : Type := mkWDecision {
  wd_Value : goval; wd_Reason : string; wd_Version : Z; wd_RuleId : option string
}.
Definition decisionToAPI (d : Decision) : WDecision :=
  mkWDecision (DValue d) (Reason d) (wrap32 (Version d)) (str_ptr (RuleID d)).

Unset Elimination Schemes.
Inductive WTraceNode : Type := mkWTraceNode {
  wt_Kind : string; wt_Result : bool; wt_Attr : option string; wt_AttrValue : goval; wt_Expected : goval;
  wt_ExpectedValues : option (list goval); wt_Pattern : option string; wt_Salt : option string;
  wt_Percent : option Z; wt_Bucket : option Z; wt_Source : option string; wt_Children : option (list WTraceNode)
}.
Set Elimination Schemes.
(** A pointer to an [int32] that is set only when the number is not zero. *)
Definition int_ptr (z : Z) : option Z := if z =? 0 then None else Some (wrap32 z).
Definition list_ptr {A} (l : list A) : option (list A) := match l with [] => None | _ => Some l end.

Fixpoint traceNodeToAPI (n : TraceNode) : WTraceNode :=
  mkWTraceNode (TKind n) (Result n) (str_ptr (TAttr n)) (AttrValue n) (Expected n) (list_ptr (ExpectedValues n))
    (str_ptr (TPattern n)) (str_ptr (TSalt n)) (int_ptr (TPercent n)) (int_ptr (Bucket n)) (str_ptr (TSource n))
    (list_ptr (map traceNodeToAPI (Children n))).

Record WTraceRule : Type := mkWTraceRule {
  wr_RuleId : string; wr_Matched : bool; wr_Predicate : WTraceNode; wr_Error : option eval_err
}.
Record WTrace : Type := mkWTrace {
  wt_EvaluatedRules : list WTraceRule; wt_DefaultUsed : bool; wt_MatchedRuleId : option string
}.
Definition traceToAPI (t : Trace) : WTrace :=
  mkWTrace (map (fun r => mkWTraceRule (TRuleID r) (Matched r) (traceNodeToAPI (TPredicate r)) (TError r)) (EvaluatedRules t))
    (DefaultUsed t) (str_ptr (MatchedRuleID t)).

(** ** Responses *)

(** One message of a compile error, its empty parts left out. *)
Record WDetail : Type := mkWDetail {
  cd_Column : option Z; cd_File : option string; cd_Line : option Z; cd_Text : string
}.

(** The value a handler passes to [writeJSON]; error texts are not kept. *)
Inductive body : Type :=
| BError
| BCompileError (details : option (list WDetail))
| BHealth (status service : string)
| BProject (p : WProject) | BProjects (l : list WProject)
| BEnvironment (e : WEnvironment) | BEnvironments (l : list WEnvironment)
| BFlag (f : WFlag) | BFlags (l : list WFlag)
| BFlagWithLatest (f : WFlag) (latest : option WFlagVersion)
| BFlagVersion (v : WFlagVersion) | BFlagVersions (l : list WFlagVersion)
| BSegment (s : WSegment) | BSegments (l : list WSegment)
| BSnapshot (s : WSnapshot) | BSnapshots (l : list WSnapshot)
| BDecision (d : WDecision) | BDecisionTrace (d : WDecision) (t : WTrace)
| BAuditEvents (items : list WAuditEvent) (next : option string).

Record response : Type := mkResponse { status : Z; payload : body }.
Definition writeJSON (st : Z) (b : body) : response := mkResponse st b.
Definition writeError (st : Z) : response := writeJSON st BError.
Definition badRequest : response := writeError 400.

Definition notFoundOrError (e : store_err) : response :=
  match e with ErrNotFound => writeError 404 | _ => writeError 500 end.
Definition writeStoreErr (e : store_err) : response :=
  match e with
  | ErrNotFound => writeError 404
  | _ => if IsConflict e then writeError 409 else writeError 500
  end.
Definition internalError (e : store_err) : response := writeError 500.

Definition isCompileError (e : cfg_error) : bool :=
  errors_is e ErrTypeScriptCompileFailure || errors_is e ErrCELCompileFailure || errors_is e ErrInvalidIR ||
  errors_is e ErrInvalidPredicate || errors_is e ErrInvalidValueType.
Definition compile_detail (m : EsbuildMessage) : WDetail :=
  mkWDetail (int_ptr (EM_Column m)) (str_ptr (EM_File m)) (int_ptr (EM_Line m)) (EM_Text m).
Definition writeCompileError (e : cfg_error) : response :=
  writeJSON 422 (BCompileError (match e with EsbuildError ms => Some (map compile_detail ms) | _ => None end)).

Definition derefString (s : option string) : string := default "" s.
Definition mustMarshal (v : goval) : RawMessage := default "{}" (marshal v).

(** ** Programs *)

Inductive prog (A : Type) : Type :=
| Done (a : A)
| Panics
| Read {X : Type} (q : DB -> result store_err X) (k : result store_err X -> prog A)
(** The look-ups of a [storeSegmentResolver]: the stored texts that could be read. *)
| Segs (project : uuid) (k : (string -> option RawMessage) -> prog A)
(** [Store.WithAudit], with what the callback draws in each attempt. *)
| Audit {X : Type} (ev : AppendAuditParams) (fn : draw -> write X) (k : result store_err X -> prog A).
Arguments Done {A} a.
Arguments Panics {A}.
Arguments Read {A X} q k.
Arguments Segs {A} project k.
Arguments Audit {A X} ev fn k.

(** [x, err := q; if err != nil { h(err); return }]. *)
Definition get_or {X R} (q : DB -> result store_err X) (h : store_err -> R) (k : X -> prog R) : prog R :=
  Read q (fun r => match r with Ok x => k x | Err e => Done (h e) end).
Definition audit_or {X R} (ev : AppendAuditParams) (fn : draw -> write X) (h : store_err -> R) (k : X -> R) : prog R :=
  Audit ev fn (fun r => Done (match r with Ok x => k x | Err e => h e end)).
(** [if err := f(); err != nil { h; return }] for a step outside the store. *)
Definition need {X E R} (m : result E X) (h : E -> R) (k : X -> prog R) : prog R :=
  match m with Ok x => k x | Err e => Done (h e) end.
Definition body_or {X R} (b : option X) (h : R) (k : X -> prog R) : prog R :=
  match b with Some x => k x | None => Done h end.

Notation "'get!' x ':=' q 'or' h 'in' k" := (get_or q h (fun x => k))
  (at level 10, x pattern, q at level 99, h at level 99, k at level 200) : ff_scope.
Notation "'need!' x ':=' m 'or' h 'in' k" := (need m h (fun x => k))
  (at level 10, x pattern, m at level 99, h at level 99, k at level 200) : ff_scope.
Notation "'body!' x ':=' b 'or' h 'in' k" := (body_or b h (fun x => k))
  (at level 10, x pattern, b at level 99, h at level 99, k at level 200) : ff_scope.

(** The stored text of a segment, if it can be read. *)
Definition segment_text (project : uuid) (db : DB) (key : string) : option RawMessage :=
  match GetSegmentByKey project key db with Ok s => Some (S_Predicate s) | Err _ => None end.

(** Faults a read can meet: anything the driver reports except an empty result
    and a violated constraint. *)
Definition read_fault (e : store_err) : Prop := e <> ErrNotFound /\ IsConflict e = false.

(** One store call of a program: the next program and database. *)
Definition pstep {A} (p : prog A) (db : DB) (p' : prog A) (db' : DB) : Prop :=
  match p with
  | Done _ | Panics => False
  | Read q k => exists r, (r = q db \/ exists e, read_fault e /\ r = Err e) /\ p' = k r /\ db' = db
  | Segs project k => exists get,
      (forall key raw, get key = Some raw -> segment_text project db key = Some raw) /\ p' = k get /\ db' = db
  | Audit ev fn k => exists envs draws ds,
      let '(r, db2) := WithAudit envs draws ev (fun n => fn (ds n)) db in p' = k r /\ db' = db2
  end.

(** A whole execution with no other request in between: the answer and the
    database after it. *)
Fixpoint exec {A} (p : prog A) (db : DB) (a : A) (db' : DB) {struct p} : Prop :=
  match p with
  | Done x => a = x /\ db' = db
  | Panics => False
  | Read q k => exists r, (r = q db \/ exists e, read_fault e /\ r = Err e) /\ exec (k r) db a db'
  | Segs project k => exists get,
      (forall key raw, get key = Some raw -> segment_text project db key = Some raw) /\ exec (k get) db a db'
  | Audit ev fn k => exists envs draws ds,
      let '(r, db2) := WithAudit envs draws ev (fun n => fn (ds n)) db in exec (k r) db2 a db'
  end.

(** What a fault-free run draws: for the callback and for the audit row. *)
Record draws : Type := mkDraws { d_fn : draw; d_audit : draw }.
Definition quiet (n : nat) : tx_env := mkTxEnv None None false.

Fixpoint run {A} (ds : draws) (p : prog A) (db : DB) {struct p} : option A * DB :=
  match p with
  | Done x => (Some x, db)
  | Panics => (None, db)
  | Read q k => run ds (k (q db)) db
  | Segs project k => run ds (k (segment_text project db)) db
  | Audit ev fn k =>
      let '(r, db2) := WithAudit quiet (fun _ => d_audit ds) ev (fun _ => fn (d_fn ds)) db in run ds (k r) db2
  end.

(** The run without faults is one of the executions. *)
Lemma run_exec {A} ds (p : prog A) db a db' : run ds p db = (Some a, db') -> exec p db a db'.
Proof.
  revert db. induction p as [x| |X q k IH|pr k IH|X ev fn k IH]; intros db; cbn [run exec].
  - by intros [= -> ->].
  - done.
  - intros H. exists (q db). split; [by left | by apply IH].
  - intros H. exists (segment_text pr db). split; [done | by apply IH].
  - intros H. exists quiet, (fun _ => d_audit ds), (fun _ => d_fn ds).
    destruct (WithAudit quiet _ ev _ db) as [r db2]. by apply IH.
Qed.

(** An execution is a sequence of store calls. *)
Definition step_pair {A} (s s' : prog A * DB) : Prop := pstep s.1 s.2 s'.1 s'.2.

Lemma exec_steps {A} (p : prog A) db a db' : exec p db a db' <-> rtc step_pair (p, db) (Done a, db').
Proof.
  split.
  - revert db. induction p as [x| |X q k IH|pr k IH|X ev fn k IH]; intros db; cbn [exec].
    + intros [-> ->]. apply rtc_refl.
    + done.
    + intros (r & Hr & H). eapply rtc_l; [|by apply IH]. by exists r.
    + intros (get & Hg & H). eapply rtc_l; [|by apply IH]. by exists get.
    + intros (envs & dr & ds & H). destruct (WithAudit envs dr ev _ db) as [r db2] eqn:E.
      eapply rtc_l; [|by apply IH]. unfold step_pair. cbn [fst snd pstep]. exists envs, dr, ds. by rewrite E.
  - enough (forall s s' : prog A * DB, rtc step_pair s s' -> s' = (Done a, db') -> exec s.1 s.2 a db') as H.
    { intros Hs. by apply (H _ _ Hs). }
    intros s s'. induction 1 as [s|[p1 d1] [p2 d2] s' Hst _ IH]; [by intros ->|].
    intros E. specialize (IH E). unfold step_pair in Hst. cbn [fst snd] in *. destruct p1; cbn [pstep exec] in *; try done.
    + destruct Hst as (r & Hr & -> & ->). eauto.
    + destruct Hst as (get & Hg & -> & ->). eauto.
    + destruct Hst as (envs & dr & ds & Hst). exists envs, dr, ds.
      destruct (WithAudit envs dr ev _ d1) as [r db2]. destruct Hst as [-> ->]. done.
Qed.

(** Every transaction of a program satisfies [G], whatever its reads return. *)
Fixpoint writes {A} (G : forall X : Type, AppendAuditParams -> (draw -> write X) -> Prop) (p : prog A) : Prop :=
  match p with
  | Done _ | Panics => True
  | Read _ k => forall r, writes G (k r)
  | Segs _ k => forall get, writes G (k get)
  | Audit ev fn k => G _ ev fn /\ forall r, writes G (k r)
  end.

(** The changes of a transaction are in [T], in every attempt and with every fault. *)
Definition within (T : DB -> DB -> Prop) (X : Type) (ev : AppendAuditParams) (fn : draw -> write X) : Prop :=
  forall envs draws ds db, T db (WithAudit envs draws ev (fun n => fn (ds n)) db).2.

Lemma pstep_within {A} (T : DB -> DB -> Prop) (p p' : prog A) db db' :
  (forall x, T x x) -> writes (within T) p -> pstep p db p' db' -> T db db' /\ writes (within T) p'.
Proof.
  intros Hr Hw H. destruct p as [x| |X q k|pr k|X ev fn k]; cbn [pstep writes] in *; try done.
  - destruct H as (r & _ & -> & ->). auto.
  - destruct H as (get & _ & -> & ->). auto.
  - destruct H as (envs & dr & ds & H). destruct Hw as [Hg Hw]. specialize (Hg envs dr ds db).
    destruct (WithAudit envs dr ev _ db) as [r db2]. destruct H as [-> ->]. auto.
Qed.

(** A program with its answer translated. *)
Fixpoint pmap {A B} (f : A -> B) (p : prog A) : prog B :=
  match p with
  | Done a => Done (f a)
  | Panics => Panics
  | Read q k => Read q (fun r => pmap f (k r))
  | Segs project k => Segs project (fun get => pmap f (k get))
  | Audit ev fn k => Audit ev fn (fun r => pmap f (k r))
  end.
Lemma writes_pmap {A B} (f : A -> B) G p : writes G p -> writes G (pmap f p).
Proof. induction p; cbn; auto. intros [??]. auto. Qed.
Lemma exec_pmap {A B} (f : A -> B) p db a db' : exec p db a db' -> exec (pmap f p) db (f a) db'.
Proof.
  revert db. induction p as [x| |X q k IH|pr k IH|X ev fn k IH]; intros db; cbn [exec pmap].
  - by intros [-> ->].
  - done.
  - intros (r & Hr & H). exists r. auto.
  - intros (get & Hg & H). exists get. auto.
  - intros (envs & dr & ds & H). exists envs, dr, ds. destruct (WithAudit envs dr ev _ db). auto.
Qed.

(** ** Requests in flight over one database *)

Record server (A : Type) : Type := mkServer { sv_db : DB; inflight : list (prog A) }.
Arguments mkServer {A} sv_db inflight.
Arguments sv_db {A} s.
Arguments inflight {A} s.

(** The programs a server accepts run one store call at a time, in any
    interleaving; a panic ends only its own request. *)
Inductive server_step {A} (accepts : prog A -> Prop) : server A -> server A -> Prop :=
| sv_accept p db pool : accepts p -> server_step accepts (mkServer db pool) (mkServer db (pool ++ [p]))
| sv_call i p p' db db' pool :
    pool !! i = Some p -> pstep p db p' db' -> server_step accepts (mkServer db pool) (mkServer db' (<[i := p']> pool))
| sv_answer i a db pool :
    pool !! i = Some (Done a) -> server_step accepts (mkServer db pool) (mkServer db (delete i pool))
| sv_panic i db pool :
    pool !! i = Some Panics -> server_step accepts (mkServer db pool) (mkServer db (delete i pool)).

Section serving.
Context {A : Type} (accepts : prog A -> Prop) (T : DB -> DB -> Prop) `{!PreOrder T}.
Hypothesis accepts_within : forall p, accepts p -> writes (within T) p.

Lemma pool_kept s s' :
  server_step accepts s s' -> Forall (writes (within T)) (inflight s) ->
  T (sv_db s) (sv_db s') /\ Forall (writes (within T)) (inflight s').
Proof.
  intros [p db pool Hp|i p p' db db' pool Hi Hp|i a db pool Hi|i db pool Hi] Hw; cbn [sv_db inflight] in *.
  - split; [done|]. apply Forall_app. split; [done|]. apply Forall_singleton. auto.
  - destruct (pstep_within T p p' db db') as [Ht Hp']; [done | by eapply Forall_lookup_1 | done |].
    split; [done|]. by apply Forall_insert.
  - split; [done|]. by apply Forall_delete.
  - split; [done|]. by apply Forall_delete.
Qed.

Lemma server_kept s s' :
  rtc (server_step accepts) s s' -> Forall (writes (within T)) (inflight s) -> T (sv_db s) (sv_db s').
Proof.
  induction 1 as [|s1 s2 s3 Hst _ IH]; [done|]. intros Hw. destruct (pool_kept _ _ Hst Hw) as [Hr Hw'].
  etransitivity; [exact Hr | auto].
Qed.

(** A whole execution is a run of the server that accepts it alone. *)
Lemma exec_server p db a db' :
  accepts p -> exec p db a db' -> rtc (server_step accepts) (mkServer db []) (mkServer db' []).
Proof.
  intros Hp H. apply exec_steps in H. eapply rtc_l; [by apply (sv_accept _ p)|]. cbn [app].
  enough (forall s s' : prog A * DB, rtc step_pair s s' -> s' = (Done a, db') ->
    rtc (server_step accepts) (mkServer s.2 [s.1]) (mkServer db' [])) as Hgen by (exact (Hgen _ _ H eq_refl)).
  intros s s'. induction 1 as [s|[p1 d1] [p2 d2] s' Hst _ IH]; intros E.
  - subst s. apply rtc_once. by apply (sv_answer _ 0 a).
  - eapply rtc_l; [by apply (sv_call _ 0 p1 p2)|]. by apply IH.
Qed.
End serving.

(** What every transaction of a program does, a whole execution does. *)
Lemma exec_within {A} (T : DB -> DB -> Prop) `{!PreOrder T} (p : prog A) db a db' :
  writes (within T) p -> exec p db a db' -> T db db'.
Proof.
  revert db. induction p as [x| |X q k IH|pr k IH|X ev fn k IH]; intros db; cbn [writes exec].
  - by intros _ [_ ->].
  - done.
  - intros Hw (r & _ & H). by eapply IH.
  - intros Hw (get & _ & H). by eapply IH.
  - intros [Hg Hw] (envs & dr & ds & H). specialize (Hg envs dr ds db). destruct (WithAudit envs dr ev _ db) as [r db2].
    etransitivity; [exact Hg | by eapply IH].
Qed.

Section writes_rules.
Context {A : Type} (G : forall X : Type, AppendAuditParams -> (draw -> write X) -> Prop).
Lemma writes_get {X} q h (k : X -> prog A) : (forall x, writes G (k x)) -> writes G (get_or q h k).
Proof. intros H [x|e]; cbn; auto. Qed.
Lemma writes_need {X E} (m : result E X) h (k : X -> prog A) :
  (forall x, m = Ok x -> writes G (k x)) -> writes G (need m h k).
Proof. intros H. destruct m; cbn; auto. Qed.
Lemma writes_body {X} (b : option X) h (k : X -> prog A) :
  (forall x, b = Some x -> writes G (k x)) -> writes G (body_or b h k).
Proof. intros H. destruct b; cbn; auto. Qed.
Lemma writes_audit {X} ev fn (h : store_err -> A) (k : X -> A) : G X ev fn -> writes G (audit_or ev fn h k).
Proof. intros H. by split. Qed.
Lemma writes_done (a : A) : writes G (Done a).
Proof. done. Qed.
Lemma writes_if (b : bool) (p q : prog A) : (b = true -> writes G p) -> (b = false -> writes G q) -> writes G (if b then p else q).
Proof. destruct b; auto. Qed.
End writes_rules.

(** Walk down a handler to its transactions. *)
Ltac walk_writes :=
  repeat first [ apply writes_done | apply writes_audit; solve [eauto with ff] | apply writes_get; intros ?
               | apply writes_need; intros ? ? | apply writes_body; intros ? ? | apply writes_if; intros _ ].

(** ** One audited change per request *)

Definition success (r : response) : Prop := 200 <= status r < 300.
Definition failure (r : response) : Prop := 400 <= status r.

(** The program answers with a failure and no change, or runs one transaction
    under the given action and actor and answers with success when it commits. *)
Fixpoint audits_as (action actor : string) (p : prog response) : Prop :=
  match p with
  | Done r => failure r
  | Panics => True
  | Read _ k => forall r, audits_as action actor (k r)
  | Segs _ k => forall get, audits_as action actor (k get)
  | Audit ev fn k =>
      aa_Action ev = action /\ aa_Actor ev = actor /\
      (forall d db x db', fn d db = Ok (x, db') -> audit_events db' = audit_events db) /\
      forall r, exists resp, k r = Done resp /\ (if is_ok r then success resp else failure resp)
  end.

Definition audited_by (action actor : string) (db db' : DB) : Prop :=
  exists row, audit_events db' = audit_events db ++ [row] /\
    A_Action (sqliteAuditFromRow row) = action /\ A_Actor (sqliteAuditFromRow row) = actor.

Lemma append_row d ev db row db' :
  AppendAudit d ev db = Ok (sqliteAuditFromRow row, db') ->
  A_Action (sqliteAuditFromRow row) = aa_Action ev /\ A_Actor (sqliteAuditFromRow row) = aa_Actor ev.
Proof.
  intros H. apply wrap_ok in H as (r & Eq & ->). unfold q_AppendAuditEvent in Eq. do 2 (case_match; [done|]).
  injection Eq as <- _. split; [done | apply text_trip].
Qed.

Lemma audits_exec action actor p db resp db' :
  audits_as action actor p -> exec p db resp db' ->
  (failure resp /\ db' = db) \/ (success resp /\ audited_by action actor db db').
Proof.
  induction p as [x| |X q k IH|pr k IH|X ev fn k IH]; cbn [audits_as exec].
  - intros Hf [-> ->]. by left.
  - done.
  - intros Hk (r & _ & H). by eapply IH.
  - intros Hk (get & _ & H). by eapply IH.
  - intros (Ha & Hc & Hfn & Hk) (envs & dr & ds & H).
    destruct (WithAudit_cases envs dr ev (fun n => fn (ds n)) db) as [[e E]|(n & x & db1 & row & _ & Ef & E & Ea)]; rewrite E in H.
    + destruct (Hk (Err e)) as (resp' & Er & Hr). rewrite Er in H. destruct H as [-> ->]. by left.
    + destruct (Hk (Ok x)) as (resp' & Er & Hr). rewrite Er in H. destruct H as [-> ->]. right. split; [done|].
      exists row. destruct (append_row _ _ _ _ _ Ea) as [-> ->]. cbn. by rewrite (Hfn _ _ _ _ Ef).
Qed.

Lemma failure_store e : failure (writeStoreErr e).
Proof. unfold writeStoreErr, writeError, failure. repeat case_match; cbn; lia. Qed.
Lemma failure_found e : failure (notFoundOrError e).
Proof. destruct e; unfold failure; cbn; lia. Qed.

(** Programs without a transaction leave the database alone. *)
Lemma exec_reads {A} (p : prog A) db a db' : writes (fun _ _ _ => False) p -> exec p db a db' -> db' = db.
Proof.
  induction p as [x| |X q k IH|pr k IH|X ev fn k IH]; cbn [writes exec].
  - by intros _ [_ ->].
  - done.
  - intros Hk (r & _ & H). by eapply IH.
  - intros Hk (get & _ & H). by eapply IH.
  - by intros [[] _].
Qed.

Section audits_rules.
Variables action actor : string.
Lemma audits_get {X} q h (k : X -> prog response) :
  (forall e, failure (h e)) -> (forall x, audits_as action actor (k x)) -> audits_as action actor (get_or q h k).
Proof. intros Hh H [x|e]; cbn; auto. Qed.
Lemma audits_need {X E} (m : result E X) h (k : X -> prog response) :
  (forall e, failure (h e)) -> (forall x, m = Ok x -> audits_as action actor (k x)) -> audits_as action actor (need m h k).
Proof. intros Hh H. destruct m; cbn; auto. Qed.
Lemma audits_body {X} (b : option X) h (k : X -> prog response) :
  failure h -> (forall x, b = Some x -> audits_as action actor (k x)) -> audits_as action actor (body_or b h k).
Proof. intros Hh H. destruct b; cbn; auto. Qed.
Lemma audits_audit {X} ev fn h (k : X -> response) :
  aa_Action ev = action -> aa_Actor ev = actor ->
  (forall d db x db', fn d db = Ok (x, db') -> audit_events db' = audit_events db) ->
  (forall e, failure (h e)) -> (forall x, success (k x)) -> audits_as action actor (audit_or ev fn h k).
Proof. intros. split_and!; try done. intros [x|e]; eexists; (split; [done|]); cbn; auto. Qed.
Lemma audits_if (b : bool) p q :
  audits_as action actor p -> audits_as action actor q -> audits_as action actor (if b then p else q).
Proof. by destruct b. Qed.
End audits_rules.

(** The failures a handler answers with. *)
Ltac fails :=
  try match goal with |- audits_as _ _ (Done ?r) => change (failure r) end;
  unfold failure, badRequest, internalError, writeCompileError, writeError, writeJSON; cbn [status]; lia.

(** Walk down a handler to its transaction, closing the failures on the way. *)
Ltac walk_audits :=
  repeat lazymatch goal with
  | |- audits_as _ _ (get_or _ ?h _) =>
      apply audits_get; [try exact failure_found; intros []; fails | intros ?]
  | |- audits_as _ _ (need _ _ _) => apply audits_need; [intros ?; try fails | intros ? ?]
  | |- audits_as _ _ (body_or _ _ _) => apply audits_body; [fails | intros ? ?]
  | |- audits_as _ _ (audit_or _ _ _ _) =>
      apply audits_audit; [reflexivity | reflexivity | | exact failure_store | intros ?; unfold success, writeJSON; cbn [status]; lia]
  | |- audits_as _ _ (if _ then _ else _) => apply audits_if
  | |- audits_as _ _ (Done _) => fails
  end.

(** ** Executions that succeed *)

Section success_rules.
Context {A : Type} (good : A -> Prop).
Lemma exec_get {X} q h (k : X -> prog A) db a db' :
  exec (get_or q h k) db a db' -> good a -> (forall e, ~ good (h e)) -> exists x, q db = Ok x /\ exec (k x) db a db'.
Proof.
  intros (r & [->|(e & _ & ->)] & H) Hg Hh.
  - destruct (q db) as [x|e]; [eauto|]. destruct H as [-> _]. by destruct (Hh e).
  - destruct H as [-> _]. by destruct (Hh e).
Qed.
Lemma exec_need {X E} (m : result E X) h (k : X -> prog A) db a db' :
  exec (need m h k) db a db' -> good a -> (forall e, ~ good (h e)) -> exists x, m = Ok x /\ exec (k x) db a db'.
Proof. destruct m as [x|e]; cbn; [eauto|]. intros [-> _] Hg Hh. by destruct (Hh e). Qed.
Lemma exec_body {X} (b : option X) h (k : X -> prog A) db a db' :
  exec (body_or b h k) db a db' -> good a -> ~ good h -> exists x, b = Some x /\ exec (k x) db a db'.
Proof. destruct b as [x|]; cbn; [eauto|]. intros [-> _] Hg Hh. by destruct Hh. Qed.
Lemma exec_audit {X} ev fn h (k : X -> A) db a db' :
  exec (audit_or ev fn h k) db a db' -> good a -> (forall e, ~ good (h e)) ->
  exists d x db1 row, fn d db = Ok (x, db1) /\ a = k x /\ db' = set_audit (audit_events db1 ++ [row]) db1.
Proof.
  intros (envs & dr & ds & H) Hg Hh.
  destruct (WithAudit_cases envs dr ev (fun n => fn (ds n)) db) as [[e E]|(n & x & db1 & row & _ & Ef & E & Ea)]; rewrite E in H.
  - destruct H as [-> _]. by destruct (Hh e).
  - destruct H as [-> ->]. by eexists _, x, db1, row.
Qed.
End success_rules.

Lemma failure_not_success r : failure r -> ~ success r.
Proof. unfold failure, success. lia. Qed.
