(* ===== verification/Handlers.v ===== *)
(** The REST handlers of the control plane ([internal/server/handlers]) as
    programs over the store, and what holds of the whole server: whatever
    requests run, in whatever interleaving and with whatever faults.

    A request's body is what [decodeJSON] made of it, with [None] for a body it
    rejects; [fuel] bounds how deep segment references nest, and a publish that
    needs more has no response. *)
From stdpp Require Import base list strings numbers gmap relations.
From Stdlib Require Import Ascii String ZArith Lia.
From S2P Require Import Prelude Text Literal Json Float64 GoValue Ir Compile Rollout Eval Trace Segments Sdk Db Store Api.

(** ** Request bodies *)

Record CreateProjectRequest : Type := mkCreateProject { rq_Slug : string; rq_DisplayName : string; rq_Strategy : string }.
Record CreateEnvironmentRequest : Type := mkCreateEnvironment { rq_EnvSlug : string; rq_EnvName : string }.
Record CreateFlagRequest : Type := mkCreateFlag {
  rq_Key : string; rq_Name : string; rq_Description : option string; rq_ValueType : string; rq_DefaultValue : goval
}.
Record PublishFlagVersionRequest : Type := mkPublish {
  rq_PubStrategy : string; rq_Source : goval; rq_SourceText : option string
}.
Record CreateSegmentRequest : Type := mkCreateSegment {
  rq_SegKey : string; rq_SegName : string; rq_SegDescription : option string; rq_Predicate : goval
}.
Record UpdateSegmentRequest : Type := mkUpdateSegment {
  rq_UpdName : string; rq_UpdDescription : option string; rq_UpdPredicate : goval
}.
(** The body of a compile request: absent, or with an optional environment. *)
Record CompileSnapshotRequest : Type := mkCompileSnapshot { rq_EnvironmentSlug : option string }.
Record EvaluationRequest : Type := mkEvaluation { rq_Context : context }.

(** [API]: whether a store is configured. *)
Record API : Type := mkAPI { a_Store : bool }.

Definition requireStore (a : API) (k : prog response) : prog response :=
  if a_Store a then k else Done (writeError 503).

Definition GetHealth : response := writeJSON 200 (BHealth "ok" "falseflag-api").

(** ** Projects ([projects.go]) *)

Definition listed {X} (q : DB -> X) (db : DB) : result store_err X := Ok (q db).

Definition h_ListProjects (a : API) : prog response :=
  requireStore a (
  get! rows := listed ListProjects or internalError in
  Done (writeJSON 200 (BProjects (map projectToAPI rows)))).

Definition h_CreateProject (a : API) (actor : string) (b : option CreateProjectRequest) : prog response :=
  requireStore a (
  body! req := b or badRequest in
  if negb (Strategy_Valid (rq_Strategy req)) then Done badRequest
  else audit_or (mkAuditParams None None "create_project" actor (mustMarshal (VMap [("slug", VStr (rq_Slug req))])))
         (fun d => tx_CreateProject d (rq_Slug req) (rq_DisplayName req) (rq_Strategy req))
         writeStoreErr (fun proj => writeJSON 201 (BProject (projectToAPI proj)))).

Definition h_GetProject (a : API) (slug : string) : prog response :=
  requireStore a (
  get! proj := GetProjectBySlug slug or notFoundOrError in
  Done (writeJSON 200 (BProject (projectToAPI proj)))).

(** ** Environments ([environments.go]) *)

Definition h_ListEnvironments (a : API) (slug : string) : prog response :=
  requireStore a (
  get! proj := GetProjectBySlug slug or notFoundOrError in
  get! rows := listed (ListEnvironmentsByProject (P_ID proj)) or internalError in
  Done (writeJSON 200 (BEnvironments (map environmentToAPI rows)))).

Definition h_CreateEnvironment (a : API) (actor slug : string) (b : option CreateEnvironmentRequest) : prog response :=
  requireStore a (
  get! proj := GetProjectBySlug slug or notFoundOrError in
  body! req := b or badRequest in
  audit_or (mkAuditParams (Some (P_ID proj)) None "create_environment" actor
              (mustMarshal (VMap [("slug", VStr (rq_EnvSlug req))])))
    (fun d => tx_CreateEnvironment d (P_ID proj) (rq_EnvSlug req) (rq_EnvName req))
    writeStoreErr (fun env => writeJSON 201 (BEnvironment (environmentToAPI env)))).

Definition h_GetEnvironment (a : API) (slug envSlug : string) : prog response :=
  requireStore a (
  get! proj := GetProjectBySlug slug or notFoundOrError in
  get! env := GetEnvironmentBySlug (P_ID proj) envSlug or notFoundOrError in
  Done (writeJSON 200 (BEnvironment (environmentToAPI env)))).

(** ** Segments ([segments.go]) *)

Section handlers.
Context {RX : RegexpLib} {CEL : CelLib} {TS : TsLib}.

Definition h_ListSegments (a : API) (slug : string) : prog response :=
  requireStore a (
  get! proj := GetProjectBySlug slug or notFoundOrError in
  get! rows := listed (ListSegmentsByProject (P_ID proj)) or internalError in
  Done (writeJSON 200 (BSegments (map segmentToAPI rows)))).

Definition h_CreateSegment (a : API) (actor slug : string) (b : option CreateSegmentRequest) : prog response :=
  requireStore a (
  get! proj := GetProjectBySlug slug or notFoundOrError in
  body! req := b or badRequest in
  need! predicateRaw := normalizePredicate (rq_Predicate req) or (fun _ => badRequest) in
  audit_or (mkAuditParams (Some (P_ID proj)) None "create_segment" actor
              (mustMarshal (VMap [("key", VStr (rq_SegKey req))])))
    (fun d => tx_CreateSegment d (mkSegmentParams (P_ID proj) (rq_SegKey req) (rq_SegName req)
                (derefString (rq_SegDescription req)) predicateRaw))
    writeStoreErr (fun seg => writeJSON 201 (BSegment (segmentToAPI seg)))).

Definition h_GetSegment (a : API) (slug segKey : string) : prog response :=
  requireStore a (
  get! proj := GetProjectBySlug slug or notFoundOrError in
  get! seg := GetSegmentByKey (P_ID proj) segKey or notFoundOrError in
  Done (writeJSON 200 (BSegment (segmentToAPI seg)))).

Definition h_UpdateSegment (a : API) (actor slug segKey : string) (b : option UpdateSegmentRequest) : prog response :=
  requireStore a (
  get! proj := GetProjectBySlug slug or notFoundOrError in
  body! req := b or badRequest in
  need! predicateRaw := normalizePredicate (rq_UpdPredicate req) or (fun _ => badRequest) in
  audit_or (mkAuditParams (Some (P_ID proj)) None "update_segment" actor (mustMarshal (VMap [("key", VStr segKey)])))
    (fun d => tx_UpdateSegment d (mkSegmentParams (P_ID proj) segKey (rq_UpdName req)
                (derefString (rq_UpdDescription req)) predicateRaw))
    writeStoreErr (fun seg => writeJSON 200 (BSegment (segmentToAPI seg)))).

(** ** Flags ([flags.go]) *)

Definition h_ListFlags (a : API) (slug : string) : prog response :=
  requireStore a (
  get! proj := GetProjectBySlug slug or notFoundOrError in
  get! rows := listed (ListFlagsByProject (P_ID proj)) or internalError in
  Done (writeJSON 200 (BFlags (map flagToAPI rows)))).

Definition h_CreateFlag (a : API) (actor slug : string) (b : option CreateFlagRequest) : prog response :=
  requireStore a (
  get! proj := GetProjectBySlug slug or notFoundOrError in
  body! req := b or badRequest in
  body! defaultRaw := marshal (rq_DefaultValue req) or badRequest in
  audit_or (mkAuditParams (Some (P_ID proj)) None "create_flag" actor (mustMarshal (VMap [("key", VStr (rq_Key req))])))
    (fun d => tx_CreateFlag d (mkCreateFlagParams (P_ID proj) (rq_Key req) (rq_Name req)
                (derefString (rq_Description req)) (rq_ValueType req) defaultRaw))
    writeStoreErr (fun flag => writeJSON 201 (BFlag (flagToAPI flag)))).

Definition h_GetFlag (a : API) (slug key : string) : prog response :=
  requireStore a (
  get! proj := GetProjectBySlug slug or notFoundOrError in
  get! flag := GetFlagByKey (P_ID proj) key or notFoundOrError in
  Read (GetLatestFlagVersion (F_ID flag)) (fun r =>
  match r with
  | Ok latest => Done (writeJSON 200 (BFlagWithLatest (flagToAPI flag) (Some (flagVersionToAPI latest))))
  | Err ErrNotFound => Done (writeJSON 200 (BFlagWithLatest (flagToAPI flag) None))
  | Err _ => Done (writeError 500)
  end)).

(** What a publish compiles and stores: the compile input, and from its
    outcome the source text and IR text to persist. *)
Definition from_text (strategy : Strategy) (sourceText : string) : bool :=
  String.eqb strategy StrategyTypeScript && negb (String.eqb sourceText "").
Definition compile_input (strategy : Strategy) (sourceRaw : RawMessage) (sourceText : string) : RawMessage :=
  if from_text strategy sourceText then sourceText else sourceRaw.
Definition persisted_source (strategy : Strategy) (sourceRaw compiledRaw : RawMessage) (sourceText : string) : RawMessage :=
  if from_text strategy sourceText then compiledRaw else sourceRaw.

Definition h_PublishFlagVersion (fuel : nat) (a : API) (actor slug key : string) (b : option PublishFlagVersionRequest) :
    prog response :=
  requireStore a (
  get! proj := GetProjectBySlug slug or notFoundOrError in
  get! flag := GetFlagByKey (P_ID proj) key or notFoundOrError in
  body! req := b or badRequest in
  let strategy := rq_PubStrategy req in
  if negb (Strategy_Valid strategy) then Done badRequest else
  body! sourceRaw := marshal (rq_Source req) or badRequest in
  let sourceText := derefString (rq_SourceText req) in
  Segs (P_ID proj) (fun get =>
  match resolveSegmentRefs (storeSegmentResolver get) fuel (compile_input strategy sourceRaw sourceText) with
  | Err Diverges => Panics
  | Err (Failed _) => Done badRequest
  | Ok resolved =>
      need! compiled := Compile strategy resolved
        or (fun e => if isCompileError e then writeCompileError e else badRequest) in
      body! compiledRaw := enc_tree (IR compiled) or (writeError 500) in
      audit_or (mkAuditParams (Some (P_ID proj)) (Some (F_ID flag)) "publish_version" actor
                  (mustMarshal (VMap [("flag_key", VStr (F_Key flag)); ("strategy", VStr strategy)])))
        (fun d => publishFlagVersionTx d (mkPublishParams (F_ID flag) strategy
                    (persisted_source strategy sourceRaw compiledRaw sourceText) compiledRaw sourceText))
        writeStoreErr (fun published => writeJSON 200 (BFlagVersion (flagVersionToAPI published)))
  end)).

Definition h_ListFlagVersions (a : API) (slug key : string) : prog response :=
  requireStore a (
  get! proj := GetProjectBySlug slug or notFoundOrError in
  get! flag := GetFlagByKey (P_ID proj) key or notFoundOrError in
  get! rows := listed (ListFlagVersions (F_ID flag)) or internalError in
  Done (writeJSON 200 (BFlagVersions (map flagVersionToAPI rows)))).

(** ** Evaluation ([evaluate.go]) *)

Definition loadEvaluation (slug key : string) (b : option EvaluationRequest)
    (k : Compiled -> Z -> context -> prog response) : prog response :=
  get! proj := GetProjectBySlug slug or notFoundOrError in
  get! flag := GetFlagByKey (P_ID proj) key or notFoundOrError in
  get! version := GetLatestFlagVersion (F_ID flag) or notFoundOrError in
  body! req := b or badRequest in
  need! compiled := Compile (V_Strategy version) (V_Compiled version) or (fun _ => writeError 500) in
  k compiled (V_Version version) (rq_Context req).

Definition h_EvaluateFlag (a : API) (slug key : string) (b : option EvaluationRequest) : prog response :=
  requireStore a (
  loadEvaluation slug key b (fun compiled version ctx =>
    need! d := Evaluate (Some compiled) ctx version or (fun _ => writeError 500) in
    Done (writeJSON 200 (BDecision (decisionToAPI d))))).

Definition h_EvaluateFlagWithTrace (a : API) (slug key : string) (b : option EvaluationRequest) : prog response :=
  requireStore a (
  loadEvaluation slug key b (fun compiled version ctx =>
    need! dt := EvaluateWithTrace (Some compiled) ctx version or (fun _ => writeError 500) in
    Done (writeJSON 200 (BDecisionTrace (decisionToAPI dt.1) (traceToAPI dt.2))))).

(** ** Snapshots ([snapshots.go]) *)

Definition h_ListSnapshots (a : API) (slug : string) (limit : option Z) : prog response :=
  requireStore a (
  get! proj := GetProjectBySlug slug or notFoundOrError in
  get! rows := listed (ListSnapshotsByProject (P_ID proj) (default 50 limit)) or internalError in
  Done (writeJSON 200 (BSnapshots (map snapshotToAPI rows)))).

Definition h_GetLatestSnapshot (a : API) (slug : string) : prog response :=
  requireStore a (
  get! proj := GetProjectBySlug slug or notFoundOrError in
  get! snap := GetLatestSnapshot (P_ID proj) or notFoundOrError in
  Done (writeJSON 200 (BSnapshot (snapshotToAPI snap)))).

Definition h_GetSnapshot (a : API) (slug : string) (id : uuid) : prog response :=
  requireStore a (
  get! proj := GetProjectBySlug slug or notFoundOrError in
  get! snap := GetSnapshotByID (P_ID proj) id or notFoundOrError in
  Done (writeJSON 200 (BSnapshot (snapshotToAPI snap)))).

(** [snapshotBundle]: the map from flag keys to trees, sorted by key. *)
Definition snapshotBundle : Type := list (string * RulesTree).

(** The loop of [compileBundle] over the latest versions. *)
Definition bundle_step (bundle : snapshotBundle) (lv : LatestFlagVersion) : result unit snapshotBundle :=
  match dec_tree (L_Compiled lv) with
  | None => Err tt
  | Some tree => Ok (map_set (L_FlagKey lv) tree bundle)
  end.
Definition bundle_of (latest : list LatestFlagVersion) : result unit snapshotBundle := rfold bundle_step [] latest.

Definition enc_member (kt : string * RulesTree) : option (string * jdoc) :=
  do? d := enc_tree_doc kt.2 in Some (quote kt.1, d).
Definition enc_bundle (b : snapshotBundle) : option RawMessage :=
  do? m := mapM enc_member b in Some (print (JObj [("flags", JObj m)])).

(** The environment a compile request selects; an empty body selects none, and
    a body that does not decode is rejected. *)
Definition select_environment (projectID : uuid) (b : option (option CompileSnapshotRequest))
    (k : option uuid -> prog response) : prog response :=
  match b with
  | None => k None
  | Some None => Done badRequest
  | Some (Some req) =>
      match rq_EnvironmentSlug req with
      | None => k None
      | Some s =>
          if String.eqb s "" then k None
          else get! env := GetEnvironmentBySlug projectID s
                 or (fun e => match e with ErrNotFound => badRequest | _ => writeError 500 end) in
               k (Some (E_ID env))
      end
  end.

Definition h_CompileSnapshot (a : API) (actor slug : string) (b : option (option CompileSnapshotRequest)) : prog response :=
  requireStore a (
  get! proj := GetProjectBySlug slug or notFoundOrError in
  select_environment (P_ID proj) b (fun envID =>
  get! latest := listed (ListLatestFlagVersions (P_ID proj)) or internalError in
  need! bundle := bundle_of latest or (fun _ => writeError 500) in
  body! compiledRaw := enc_bundle bundle or (writeError 500) in
  audit_or (mkAuditParams (Some (P_ID proj)) None "compile_snapshot" actor
              (mustMarshal (VMap [("flag_count", VInt (Z.of_nat (List.length bundle)))])))
    (fun d => tx_CompileSnapshot d (mkSnapshotParams (P_ID proj) envID compiledRaw))
    writeStoreErr (fun snap => writeJSON 201 (BSnapshot (snapshotToAPI snap))))).

(** ** Requests *)

Inductive request : Type :=
| ReqListProjects
| ReqCreateProject (b : option CreateProjectRequest)
| ReqGetProject (slug : string)
| ReqListEnvironments (slug : string)
| ReqCreateEnvironment (slug : string) (b : option CreateEnvironmentRequest)
| ReqGetEnvironment (slug env : string)
| ReqListSegments (slug : string)
| ReqCreateSegment (slug : string) (b : option CreateSegmentRequest)
| ReqGetSegment (slug key : string)
| ReqUpdateSegment (slug key : string) (b : option UpdateSegmentRequest)
| ReqListFlags (slug : string)
| ReqCreateFlag (slug : string) (b : option CreateFlagRequest)
| ReqGetFlag (slug key : string)
| ReqPublish (fuel : nat) (slug key : string) (b : option PublishFlagVersionRequest)
| ReqListFlagVersions (slug key : string)
| ReqEvaluate (slug key : string) (b : option EvaluationRequest)
| ReqEvaluateTrace (slug key : string) (b : option EvaluationRequest)
| ReqListSnapshots (slug : string) (limit : option Z)
| ReqGetLatestSnapshot (slug : string)
| ReqGetSnapshot (slug : string) (id : uuid)
| ReqCompileSnapshot (slug : string) (b : option (option CompileSnapshotRequest)).

Definition handle (a : API) (actor : string) (r : request) : prog response :=
  match r with
  | ReqListProjects => h_ListProjects a
  | ReqCreateProject b => h_CreateProject a actor b
  | ReqGetProject slug => h_GetProject a slug
  | ReqListEnvironments slug => h_ListEnvironments a slug
  | ReqCreateEnvironment slug b => h_CreateEnvironment a actor slug b
  | ReqGetEnvironment slug env => h_GetEnvironment a slug env
  | ReqListSegments slug => h_ListSegments a slug
  | ReqCreateSegment slug b => h_CreateSegment a actor slug b
  | ReqGetSegment slug key => h_GetSegment a slug key
  | ReqUpdateSegment slug key b => h_UpdateSegment a actor slug key b
  | ReqListFlags slug => h_ListFlags a slug
  | ReqCreateFlag slug b => h_CreateFlag a actor slug b
  | ReqGetFlag slug key => h_GetFlag a slug key
  | ReqPublish fuel slug key b => h_PublishFlagVersion fuel a actor slug key b
  | ReqListFlagVersions slug key => h_ListFlagVersions a slug key
  | ReqEvaluate slug key b => h_EvaluateFlag a slug key b
  | ReqEvaluateTrace slug key b => h_EvaluateFlagWithTrace a slug key b
  | ReqListSnapshots slug limit => h_ListSnapshots a slug limit
  | ReqGetLatestSnapshot slug => h_GetLatestSnapshot a slug
  | ReqGetSnapshot slug id => h_GetSnapshot a slug id
  | ReqCompileSnapshot slug b => h_CompileSnapshot a actor slug b
  end.

(** The audit action of a request that changes the database. *)
Definition action_of (r : request) : option string :=
  match r with
  | ReqCreateProject _ => Some "create_project"
  | ReqCreateEnvironment _ _ => Some "create_environment"
  | ReqCreateSegment _ _ => Some "create_segment"
  | ReqUpdateSegment _ _ _ => Some "update_segment"
  | ReqCreateFlag _ _ => Some "create_flag"
  | ReqPublish _ _ _ _ => Some "publish_version"
  | ReqCompileSnapshot _ _ => Some "compile_snapshot"
  | _ => None
  end.

(** The server of the REST surface. *)
Definition rest_program (p : prog response) : Prop := exists a actor r, p = handle a actor r.
Definition rest_step : server response -> server response -> Prop := server_step rest_program.

(** ** What the server keeps of its database *)

(** The stored text is the IR of a compilation under the version's strategy. *)
Definition stored_compiles (r : FlagVersionRow) : Prop :=
  exists src c, Compile (vr_strategy r) src = Ok c /\ enc_tree (IR c) = Some (sqliteRawMessageFrom (vr_compiled r)).
Definition server_ok (db : DB) : Prop := db_ok db /\ forall r, In r (flag_versions db) -> stored_compiles r.

Definition server_stmt (db db' : DB) : Prop :=
  stmt db db' /\ forall r, In r (flag_versions db') -> In r (flag_versions db) \/ stored_compiles r.
Definition server_reach : DB -> DB -> Prop := rtc server_stmt.

Lemma server_reach_ok db db' : server_reach db db' -> server_ok db -> server_ok db'.
Proof.
  induction 1 as [|x y z [Hs Hv] _ IH]; [done|]. intros [Hok Hc]. apply IH. split; [by eapply stmt_ok|].
  intros r [Hr|Hr]%Hv; auto.
Qed.

Lemma same_versions db db' : stmt db db' -> flag_versions db' = flag_versions db -> server_stmt db db'.
Proof. intros Hs E. split; [done|]. rewrite E. auto. Qed.

Lemma audit_reach d ev db x db' : AppendAudit d ev db = Ok (x, db') -> server_stmt db db'.
Proof.
  intros H. apply wrap_ok in H as (r & H & _). apply same_versions; [by eapply st_audit|].
  unfold q_AppendAuditEvent in H. by inv_stmt H.
Qed.

Lemma within_reach {X} ev (fn : draw -> write X) :
  (forall d db x db', fn d db = Ok (x, db') -> server_stmt db db') -> within server_reach X ev fn.
Proof.
  intros Hf envs draws ds db. destruct (WithAudit_cases envs draws ev (fun n => fn (ds n)) db) as [[e ->]|(k & x & db1 & row & _ & Ef & -> & Ea)]; cbn.
  - apply rtc_refl.
  - eapply rtc_l; [by eapply Hf|]. apply rtc_once. by eapply audit_reach.
Qed.
(** Each transaction callback of a handler is a statement of the server. *)
#[local] Ltac one_stmt st := intros d db x db' H; apply wrap_ok in H as (r & H & _); apply same_versions; [by eapply st|].

Lemma reach_project ev slug n s : within server_reach _ ev (fun d => tx_CreateProject d slug n s).
Proof. apply within_reach. one_stmt st_project. unfold q_CreateProject in H. by inv_stmt H. Qed.
Lemma reach_flag ev p : within server_reach _ ev (fun d => tx_CreateFlag d p).
Proof. apply within_reach. one_stmt st_flag. unfold q_CreateFlag in H. by inv_stmt H. Qed.
Lemma reach_environment ev p s n : within server_reach _ ev (fun d => tx_CreateEnvironment d p s n).
Proof. apply within_reach. one_stmt st_env. unfold q_CreateEnvironment in H. by inv_stmt H. Qed.
Lemma reach_segment ev p : within server_reach _ ev (fun d => tx_CreateSegment d p).
Proof. apply within_reach. one_stmt st_segment. unfold q_CreateSegment in H. by inv_stmt H. Qed.
Lemma reach_update ev p : within server_reach _ ev (fun d => tx_UpdateSegment d p).
Proof. apply within_reach. one_stmt st_update. unfold q_UpdateSegment in H. repeat case_match; try done. by injection H as <- <-. Qed.
Lemma reach_snapshot ev p : within server_reach _ ev (fun d => tx_CompileSnapshot d p).
Proof. apply within_reach. one_stmt st_snapshot. unfold q_CreateSnapshot in H. by inv_stmt H. Qed.

Lemma enc_tree_nonempty t j : enc_tree t = Some j -> j <> "".
Proof.
  unfold enc_tree. destruct (enc_tree_doc t) as [d|] eqn:E; [|done]. cbn. intros [= <-]. unfold enc_tree_doc in E.
  destruct (enc_raw _); [|done]. cbn in E. destruct (match Rules t with None => _ | Some _ => _ end); [|done].
  cbn in E. by injection E as <-.
Qed.

Lemma stored_raw j : j <> "" -> sqliteRawMessageFrom (sqliteRawMessage j) = j.
Proof. intros H. unfold sqliteRawMessage. destruct (String.eqb_spec j ""); [done|]. by apply raw_from. Qed.

(** A publish stores the IR text of a compilation, which compiles again. *)
Lemma reach_publish ev f s src resolved c j text :
  Compile s resolved = Ok c -> enc_tree (IR c) = Some j ->
  within server_reach _ ev (fun d => publishFlagVersionTx d (mkPublishParams f s src j text)).
Proof.
  intros Hc Hj. apply within_reach. intros d db v db' H. split.
  - pose proof H as H'. apply wrap_ok in H' as (r & H' & _). by eapply st_version.
  - destruct (publish_ok _ _ _ _ _ H) as (r & _ & -> & _ & _ & Ee). intros r' [Hr|[<-|[]]]%in_app_iff; [by left|].
    right. injection Ee as Es _ Ec _. exists resolved, c. rewrite Es, Ec. cbn [pv_Compiled pv_Strategy].
    unfold sqliteRawMessage. destruct (String.eqb_spec j "") as [->|]; [by apply enc_tree_nonempty in Hj | done].
Qed.
#[local] Hint Resolve reach_project reach_flag reach_environment reach_segment reach_update reach_snapshot reach_publish : ff.

Lemma handle_writes a actor r : writes (within server_reach) (handle a actor r).
Proof.
  destruct r; cbn [handle]; apply writes_if; intros _; try apply writes_done;
    try apply writes_get; intros; walk_writes.
  - intros [v|[]]; apply writes_done.
  - intros get. destruct (resolveSegmentRefs _ _ _) as [resolved|[|e]]; try done. walk_writes.
  - unfold select_environment. repeat case_match; walk_writes.
Qed.

Lemma rest_writes p : rest_program p -> writes (within server_reach) p.
Proof. intros (a & actor & r & ->). apply handle_writes. Qed.

Lemma empty_server_ok : server_ok empty_db.
Proof. split; [apply empty_ok | done]. Qed.

#[local] Ltac same_audit q :=
  let Hq := fresh "Hq" in intros ? ? ? ? Hq; apply wrap_ok in Hq as (? & Hq & _); unfold q in Hq;
  repeat case_match; try done; by injection Hq as <- <-.

Lemma requireStore_audits act actor a k : audits_as act actor k -> audits_as act actor (requireStore a k).
Proof. intros H. unfold requireStore. destruct (a_Store a); [done | change (failure (writeError 503)); fails]. Qed.

Lemma handle_audits a actor r act : action_of r = Some act -> audits_as act actor (handle a actor r).
Proof.
  destruct r; try done; intros [= <-]; cbn [handle]; apply requireStore_audits; walk_audits.
  - same_audit q_CreateProject.
  - same_audit q_CreateEnvironment.
  - same_audit q_CreateSegment.
  - same_audit q_UpdateSegment.
  - same_audit q_CreateFlag.
  - cbv zeta. walk_audits. intros get. destruct (resolveSegmentRefs _ _ _) as [resolved|[|e]]; [|done|fails]. walk_audits.
    + destruct (isCompileError _); fails.
    + same_audit q_CreateFlagVersion.
  - unfold select_environment. repeat case_match; walk_audits; same_audit q_CreateSnapshot.
Qed.
Lemma handle_reads a actor r : action_of r = None -> writes (fun _ _ _ => False) (handle a actor r).
Proof.
  destruct r; try done; intros _; cbn [handle]; apply writes_if; intros _; try apply writes_done;
    try apply writes_get; intros; walk_writes.
  intros [v|[]]; apply writes_done.
Qed.

(** What a successful publish did. *)
Lemma publish_success fuel actor slug key req db resp db' :
  exec (h_PublishFlagVersion fuel (mkAPI true) actor slug key (Some req)) db resp db' -> success resp ->
  exists proj flag get source resolved c j d v db1 row,
    GetProjectBySlug slug db = Ok proj /\ GetFlagByKey (P_ID proj) key db = Ok flag /\
    (forall k raw, get k = Some raw -> segment_text (P_ID proj) db k = Some raw) /\
    marshal (rq_Source req) = Some source /\
    resolveSegmentRefs (storeSegmentResolver get) fuel
      (compile_input (rq_PubStrategy req) source (derefString (rq_SourceText req))) = Ok resolved /\
    Compile (rq_PubStrategy req) resolved = Ok c /\ enc_tree (IR c) = Some j /\
    publishFlagVersionTx d (mkPublishParams (F_ID flag) (rq_PubStrategy req)
      (persisted_source (rq_PubStrategy req) source j (derefString (rq_SourceText req))) j
      (derefString (rq_SourceText req))) db = Ok (v, db1) /\
    resp = writeJSON 200 (BFlagVersion (flagVersionToAPI v)) /\ db' = set_audit (audit_events db1 ++ [row]) db1.
Proof.
  assert (forall r, failure r -> ~ success r) as Hns by exact failure_not_success.
  intros H Hs. unfold h_PublishFlagVersion in H. cbn [requireStore a_Store] in H.
  apply (exec_get success) in H as (proj & Hp & H); [|exact Hs|intros e; apply Hns, failure_found].
  apply (exec_get success) in H as (flag & Hf & H); [|exact Hs|intros e; apply Hns, failure_found].
  cbn [body_or] in H. cbv zeta in H. destruct (negb (Strategy_Valid _)).
  { destruct H as [-> _]. exfalso. revert Hs. apply Hns. fails. }
  apply (exec_body success) in H as (source & Es & H); [|exact Hs|apply Hns; fails].
  destruct H as (get & Hg & H). destruct (resolveSegmentRefs _ _ _) as [resolved|[|e]] eqn:Er; [|done|].
  2: { destruct H as [-> _]. exfalso. revert Hs. apply Hns. fails. }
  apply (exec_need success) in H as (c & Hc & H); [|exact Hs|intros e; apply Hns; destruct (isCompileError e); fails].
  apply (exec_body success) in H as (j & Ej & H); [|exact Hs|apply Hns; fails].
  apply (exec_audit success) in H as (d & v & db1 & row & Hv & -> & ->); [|exact Hs|intros e; apply Hns, failure_store].
  by exists proj, flag, get, source, resolved, c, j, d, v, db1, row.
Qed.

(** The lookups of an evaluation after a publish. *)
Lemma lookup_after_publish d p db v db1 row slug proj key flag :
  publishFlagVersionTx d p db = Ok (v, db1) -> GetProjectBySlug slug db = Ok proj ->
  GetFlagByKey (P_ID proj) key db = Ok flag ->
  GetProjectBySlug slug (set_audit row db1) = Ok proj /\ GetFlagByKey (P_ID proj) key (set_audit row db1) = Ok flag.
Proof. intros Hv Hp Hf. destruct (publish_db _ _ _ _ _ Hv) as (r & -> & _). done. Qed.
(** A stored version decodes, compiles, and encodes again to a text the SDK
    compiles to a flag with the same decisions. *)
Lemma stored_flag r :
  NewEnv_ok = true -> stored_compiles r ->
  let j := sqliteRawMessageFrom (vr_compiled r) in
  exists t c j' c', dec_tree j = Some t /\ Compile (vr_strategy r) j = Ok c /\ enc_tree t = Some j' /\
    Compile StrategyCEL j' = Ok c' /\ forall ctx v, Evaluate (Some c') ctx v = Evaluate (Some c) ctx v.
Proof.
  intros Henv (src & c0 & Hc & Ej) j. fold j in Ej.
  destruct (rehydrate _ _ _ Hc) as (j1 & E1 & C1). rewrite Ej in E1. injection E1 as <-.
  destruct (rehydrate _ _ _ C1) as (j' & E2 & _). pose proof (compile_under_cel _ _ _ _ Henv C1 E2) as C2. cbn [IR CELPrograms] in *.
  eexists (norm_tree (IR c0)), _, j', _. split_and!; [|exact C1|exact E2|exact C2|].
  - apply Compile_ok in Hc as [_ Hc]. destruct (tree_trip (IR c0)) as (j2 & E3 & D3); [eapply valid_full; apply Hc|].
    rewrite Ej in E3. by injection E3 as <-.
  - intros ctx v. rewrite (Evaluate_respell _ norm_raw_equiv). apply Evaluate_strategy.
Qed.

(** ** Snapshot bundles *)

(** The tree a bundle should hold for a key: the IR of the flag's latest version. *)
Definition published_tree (project : uuid) (key : string) (db : DB) : option RulesTree :=
  match GetFlagByKey project key db with
  | Err _ => None
  | Ok flag => match GetLatestFlagVersion (F_ID flag) db with
               | Err _ => None
               | Ok v => dec_tree (V_Compiled v)
               end
  end.

Lemma bundle_fold latest acc :
  NoDup (map L_FlagKey latest) -> (forall lv, In lv latest -> is_Some (dec_tree (L_Compiled lv))) ->
  exists b, rfold bundle_step acc latest = Ok b /\
    (forall lv, In lv latest -> map_get (L_FlagKey lv) b = dec_tree (L_Compiled lv)) /\
    (forall key, (forall lv, In lv latest -> L_FlagKey lv <> key) -> map_get key b = map_get key acc).
Proof.
  revert acc. induction latest as [|lv l IH]; intros acc; cbn [map]; intros Hnd Hd; [by exists acc|].
  apply NoDup_cons in Hnd as [Hx Hnd]. destruct (Hd lv) as [t Et]; [by left|]. cbn [rfold]. unfold bundle_step at 1. rewrite Et.
  destruct (IH (map_set (L_FlagKey lv) t acc)) as (b & Eb & Hin & Hout); [done | intros; apply Hd; by right|].
  exists b. split; [done|]. split.
  - intros lv' [<-|H]; [|by apply Hin]. rewrite Et, Hout, map_get_set; [by rewrite String.eqb_refl|].
    intros lv' Hlv E. apply Hx. apply list_elem_of_In. rewrite <- E. by apply in_map.
  - intros key Hk. rewrite Hout, map_get_set by (intros; apply Hk; by right).
    destruct (String.eqb_spec key (L_FlagKey lv)) as [->|]; [|done]. exfalso. by apply (Hk lv); [left|].
Qed.

Lemma latest_stored project db lv :
  server_ok db -> In lv (ListLatestFlagVersions project db) ->
  exists r, lv = sqliteLatestFlagVersionFromRow r /\ In r (q_ListLatestFlagVersions project db) /\ stored_compiles r.2.
Proof.
  intros [Hok Hc] H. apply in_map_iff in H as ([k v] & <- & Hr). exists (k, v). split_and!; try done.
  apply Hc. by destruct (latest_inv _ _ _ _ Hok Hr) as (f & _ & _ & ?).
Qed.

Lemma bundle_published project db :
  NewEnv_ok = true -> server_ok db ->
  exists b, bundle_of (ListLatestFlagVersions project db) = Ok b /\ forall key, map_get key b = published_tree project key db.
Proof.
  intros Henv Hs. pose proof Hs as [Hok Hc]. destruct (bundle_fold (ListLatestFlagVersions project db) []) as (b & Eb & Hin & Hout).
  - unfold ListLatestFlagVersions. rewrite map_map. cbn. by apply latest_keys.
  - intros lv Hlv. destruct (latest_stored _ _ _ Hs Hlv) as ([k v] & -> & _ & Hst).
    destruct (stored_flag _ Henv Hst) as (t & _ & _ & _ & Et & _). by exists t.
  - exists b. split; [done|]. intros key. unfold published_tree, GetFlagByKey, GetLatestFlagVersion.
    destruct (q_GetFlagByKey project key db) as [f|e] eqn:Ef; cbn [found].
    + cbn [F_ID sqliteFlagFromRow]. destruct (q_GetLatestFlagVersion (fr_id f) db) as [v|e] eqn:Ev; cbn [found].
      * pose proof (latest_of_flag _ _ _ _ _ Hok Ef Ev) as Hl.
        apply (Hin (sqliteLatestFlagVersionFromRow (key, v))). by apply in_map.
      * assert (map_get key b = None) as ->; [|by destruct e]. apply Hout. intros lv Hlv <-.
        destruct (latest_stored _ _ _ Hs Hlv) as ([k v] & -> & Hr & _). destruct (latest_inv _ _ _ _ Hok Hr) as (f' & Ef' & Ev' & _).
        cbn in Ef. congruence.
    + assert (map_get key b = None) as ->; [|by destruct e]. apply Hout. intros lv Hlv <-.
      destruct (latest_stored _ _ _ Hs Hlv) as ([k v] & -> & Hr & _). destruct (latest_inv _ _ _ _ Hok Hr) as (f' & Ef' & _).
      cbn in Ef. congruence.
Qed.
Lemma bundle_encodes project db b :
  NewEnv_ok = true -> server_ok db -> bundle_of (ListLatestFlagVersions project db) = Ok b -> is_Some (enc_bundle b).
Proof.
  intros Henv Hs Hb. assert (Forall (fun kt => is_Some (enc_tree kt.2)) b) as Hf.
  { eapply (rfold_inv bundle_step (Forall (fun kt => is_Some (enc_tree kt.2)))); [|exact Hb | constructor].
    intros acc lv acc' Hlv H Hacc. unfold bundle_step in H. destruct (dec_tree _) as [t|] eqn:Et; [|done]. injection H as <-.
    apply map_set_Forall; [|done]. destruct (latest_stored _ _ _ Hs Hlv) as ([k v] & -> & _ & Hst).
    destruct (stored_flag _ Henv Hst) as (t' & _ & j & _ & Et' & _ & Ej & _). cbn in Et, Et'. rewrite Et in Et'. injection Et' as <-. by exists j. }
  unfold enc_bundle. assert (is_Some (mapM enc_member b)) as [m ->]; [|by eexists].
  apply mapM_is_Some. eapply Forall_impl; [exact Hf|]. intros [k t] [j Ej]. unfold enc_member, enc_tree in *. cbn in *.
  destruct (enc_tree_doc t); [by eexists | done].
Qed.

(** Whatever environment is selected, the rest of the request follows. *)
Lemma exec_environment project b k db resp db' :
  exec (select_environment project b k) db resp db' -> success resp -> exists env, exec (k env) db resp db'.
Proof.
  assert (forall r, failure r -> ~ success r) as Hns by exact failure_not_success.
  unfold select_environment. destruct b as [[req|]|]; [|intros [-> _] Hs; exfalso; revert Hs; apply Hns; fails | eauto].
  destruct (rq_EnvironmentSlug req) as [s|]; [|eauto]. destruct (String.eqb s ""); [eauto|]. intros H Hs.
  apply (exec_get success) in H as (env & _ & H); [eauto | done | intros []; apply Hns; fails].
Qed.
Lemma compile_success actor slug b db resp db' proj bundle raw :
  exec (h_CompileSnapshot (mkAPI true) actor slug b) db resp db' -> success resp ->
  GetProjectBySlug slug db = Ok proj -> bundle_of (ListLatestFlagVersions (P_ID proj) db) = Ok bundle ->
  enc_bundle bundle = Some raw ->
  exists d env n db1 row, tx_CompileSnapshot d (mkSnapshotParams (P_ID proj) env raw) db = Ok (n, db1) /\
    resp = writeJSON 201 (BSnapshot (snapshotToAPI n)) /\ db' = set_audit (audit_events db1 ++ [row]) db1.
Proof.
  assert (forall r, failure r -> ~ success r) as Hns by exact failure_not_success.
  intros H Hs Hp Hb Hr. unfold h_CompileSnapshot in H. cbn [requireStore a_Store] in H.
  apply (exec_get success) in H as (proj' & Hp' & H); [|exact Hs|intros e; apply Hns, failure_found].
  rewrite Hp in Hp'. injection Hp' as <-. apply exec_environment in H as [env H]; [|done].
  apply (exec_get success) in H as (latest & Hl & H); [|exact Hs|intros e; apply Hns; fails]. injection Hl as <-.
  rewrite Hb in H. cbn [need] in H. rewrite Hr in H. cbn [body_or] in H.
  apply (exec_audit success) in H as (d & n & db1 & row & Hn & -> & ->); [|exact Hs|intros e; apply Hns, failure_store].
  by exists d, env, n, db1, row.
Qed.

Lemma latest_row flag db v :
  GetLatestFlagVersion flag db = Ok v -> exists r, v = sqliteFlagVersionFromRow r /\ In r (flag_versions db).
Proof.
  unfold GetLatestFlagVersion, q_GetLatestFlagVersion. destruct (head _) as [r|] eqn:E; [|done]. intros [= <-]. exists r. split; [done|].
  assert (In r (q_ListFlagVersions flag db)) as Hl by (destruct (q_ListFlagVersions flag db); [done|]; injection E as ->; by left).
  eapply Permutation_in in Hl; [|apply order_by_perm]. by apply filter_In in Hl as [Hl _].
Qed.
End handlers.

(** ** Theorems *)

Section theorems.
Context {RX : RegexpLib} {CEL : CelLib} {TS : TsLib}.

(** A request either fails, with a status of at least 400 and no change, or
    succeeds with exactly one audit row that names its action and its actor;
    requests that only read never change the database. *)
Theorem one_audit_row_per_change a actor r db resp db' :
  exec (handle a actor r) db resp db' ->
  match action_of r with
  | Some act => (failure resp /\ db' = db) \/ (success resp /\ audited_by act actor db db')
  | None => db' = db
  end.
Proof.
  intros H. destruct (action_of r) as [act|] eqn:E.
  - eapply audits_exec; [by apply handle_audits | exact H].
  - eapply exec_reads; [by apply handle_reads | exact H].
Qed.

(** What a successful publish leaves behind: one more entry in the flag's log,
    the same project and flag, and an evaluate endpoint that serves it. *)
Lemma publish_serves fuel actor slug key req db resp db' :
  db_ok db ->
  exec (h_PublishFlagVersion fuel (mkAPI true) actor slug key (Some req)) db resp db' -> success resp ->
  exists proj flag get source resolved c v,
    GetProjectBySlug slug db = Ok proj /\ GetFlagByKey (P_ID proj) key db = Ok flag /\
    (forall k raw, get k = Some raw -> segment_text (P_ID proj) db k = Some raw) /\
    marshal (rq_Source req) = Some source /\
    resolveSegmentRefs (storeSegmentResolver get) fuel
      (compile_input (rq_PubStrategy req) source (derefString (rq_SourceText req))) = Ok resolved /\
    Compile (rq_PubStrategy req) resolved = Ok c /\
    resp = writeJSON 200 (BFlagVersion (flagVersionToAPI v)) /\
    GetProjectBySlug slug db' = Ok proj /\ GetFlagByKey (P_ID proj) key db' = Ok flag /\ segments db' = segments db /\
    (exists e, forall f, log db' f = if f =? F_ID flag then log db f ++ [e] else log db f) /\
    V_Version v = Z.of_nat (List.length (log db' (F_ID flag))) /\
    forall ds ctx, run ds (h_EvaluateFlag (mkAPI true) slug key (Some (mkEvaluation ctx))) db' =
      (Some (match Evaluate (Some c) ctx (V_Version v) with
             | Ok d => writeJSON 200 (BDecision (decisionToAPI d))
             | Err _ => writeError 500
             end), db').
Proof.
  intros Hok H Hs.
  destruct (publish_success _ _ _ _ _ _ _ _ H Hs) as
    (proj & flag & get & source & resolved & c & j & d & v & db1 & row & Hp & Hf & Hg & Es & Er & Hc & Ej & Hv & -> & ->).
  destruct (lookup_after_publish _ _ _ _ _ (audit_events db1 ++ [row]) _ _ _ _ Hv Hp Hf) as [Hp' Hf'].
  destruct (publish_log _ _ _ _ _ Hok Hv) as (Hlog & Hn & Hl & _).
  exists proj, flag, get, source, resolved, c, v. split_and!; try done.
  { by destruct (publish_db _ _ _ _ _ Hv) as (r & -> & _). }
  { eexists. exact Hlog. }
  intros ds ctx.
  destruct (publish_ok _ _ _ _ _ Hv) as (r & -> & _ & _ & _ & Ee). injection Ee as E1 _ E2 _.
  destruct (rehydrate _ _ _ Hc) as (j' & Ej' & Cj). rewrite Ej in Ej'. injection Ej' as <-.
  assert (sqliteRawMessage j = j) as Hj
    by (unfold sqliteRawMessage; destruct (String.eqb_spec j "") as [->|]; [by apply enc_tree_nonempty in Ej | done]).
  unfold h_EvaluateFlag, loadEvaluation. cbn [requireStore a_Store get_or run]. rewrite Hp'. cbn [get_or run]. rewrite Hf'. cbn [get_or run].
  change (GetLatestFlagVersion (F_ID flag) (set_audit _ db1)) with (GetLatestFlagVersion (F_ID flag) db1).
  cbn [pv_FlagID] in Hl. rewrite Hl. cbn [body_or V_Strategy V_Compiled sqliteFlagVersionFromRow]. rewrite E1, E2.
  cbn [pv_Strategy pv_Compiled]. rewrite Hj, Cj. cbn [need rq_Context].
  destruct (Compile_ok _ _ _ Hc) as [Hst _]. destruct c as [s t ps]. cbn [IR CELPrograms CStrategy] in *. subst s.
  rewrite (Evaluate_respell _ norm_raw_equiv). by destruct (Evaluate _ ctx _).
Qed.

(** C1. Publish, then evaluate: when a publish is answered with success, the
    source (with the stored segments inlined) compiled under the requested
    strategy, and from then on the evaluate endpoint answers every context with
    the decision of that compilation, or with 500 exactly when it has none. *)
Theorem publish_then_evaluate fuel actor slug key req db resp db' :
  db_ok db ->
  exec (h_PublishFlagVersion fuel (mkAPI true) actor slug key (Some req)) db resp db' -> success resp ->
  exists proj get source resolved c v,
    GetProjectBySlug slug db = Ok proj /\
    (forall k raw, get k = Some raw -> segment_text (P_ID proj) db k = Some raw) /\
    marshal (rq_Source req) = Some source /\
    resolveSegmentRefs (storeSegmentResolver get) fuel
      (compile_input (rq_PubStrategy req) source (derefString (rq_SourceText req))) = Ok resolved /\
    Compile (rq_PubStrategy req) resolved = Ok c /\
    resp = writeJSON 200 (BFlagVersion (flagVersionToAPI v)) /\
    forall ds ctx, run ds (h_EvaluateFlag (mkAPI true) slug key (Some (mkEvaluation ctx))) db' =
      (Some (match Evaluate (Some c) ctx (V_Version v) with
             | Ok d => writeJSON 200 (BDecision (decisionToAPI d))
             | Err _ => writeError 500
             end), db').
Proof.
  intros Hok H Hs. destruct (publish_serves _ _ _ _ _ _ _ _ Hok H Hs) as
    (proj & flag & get & source & resolved & c & v & Hp & Hf & Hg & Es & Er & Hc & Hr & _ & _ & _ & _ & _ & He).
  by exists proj, get, source, resolved, c, v.
Qed.
Lemma evaluate_run db ds slug key ctx :
  server_ok db ->
  run ds (h_EvaluateFlag (mkAPI true) slug key (Some (mkEvaluation ctx))) db =
    (match (let? proj := GetProjectBySlug slug db in let? flag := GetFlagByKey (P_ID proj) key db in
            GetLatestFlagVersion (F_ID flag) db) with
     | Err _ => Some (writeError 404)
     | Ok v => match Compile (V_Strategy v) (V_Compiled v) with
               | Err _ => None
               | Ok c => Some (match Evaluate (Some c) ctx (V_Version v) with
                               | Ok d => writeJSON 200 (BDecision (decisionToAPI d))
                               | Err _ => writeError 500
                               end)
               end
     end, db).
Proof.
  intros [Hok Hc].
  unfold h_EvaluateFlag, loadEvaluation. cbn [requireStore a_Store get_or run].
  destruct (GetProjectBySlug slug db) as [proj|e] eqn:Ep; cbn [rbind get_or run]; [|by rewrite (found_missing _ _ _ Ep : e = _)].
  destruct (GetFlagByKey (P_ID proj) key db) as [flag|e] eqn:Ef; cbn [rbind get_or run]; [|by rewrite (found_missing _ _ _ Ef : e = _)].
  destruct (GetLatestFlagVersion (F_ID flag) db) as [v|e] eqn:Ev; cbn [rbind get_or run body_or]; [|by rewrite (found_missing _ _ _ Ev : e = _)].
  assert (exists c, Compile (V_Strategy v) (V_Compiled v) = Ok c) as [c ->].
  { destruct (latest_row _ _ _ Ev) as (r & -> & Hin). destruct (Hc r Hin) as (src & c & H & Ej).
    destruct (rehydrate _ _ _ H) as (j & Ej' & Cj). rewrite Ej in Ej'. injection Ej' as <-. eauto. }
  cbn [need rq_Context]. by destruct (Evaluate _ _ _).
Qed.

(** C29. On any database the server can reach, the evaluate endpoint answers a
    well-formed request with 404 exactly when the project, the flag or a
    published version is missing, and otherwise compiles the latest version and
    answers with its decision; only a default that does not decode gives 500. *)
Theorem evaluate_answers db ds slug key ctx :
  server_ok db ->
  run ds (h_EvaluateFlag (mkAPI true) slug key (Some (mkEvaluation ctx))) db =
    (match (let? proj := GetProjectBySlug slug db in let? flag := GetFlagByKey (P_ID proj) key db in
            GetLatestFlagVersion (F_ID flag) db) with
     | Err _ => Some (writeError 404)
     | Ok v => match Compile (V_Strategy v) (V_Compiled v) with
               | Err _ => None
               | Ok c => Some (match Evaluate (Some c) ctx (V_Version v) with
                               | Ok d => writeJSON 200 (BDecision (decisionToAPI d))
                               | Err _ => writeError 500
                               end)
               end
     end, db).
Proof. apply evaluate_run. Qed.

(** Compiling a snapshot of a project never fails on a stored IR: the bundle
    maps each key to the IR of the flag's latest published version and has no
    other key; every flag of it, compiled the way the SDK does, decides like the
    server; and when the request succeeds, the stored latest snapshot is the
    text of that bundle. *)
Theorem snapshot_holds_latest slug db proj :
  NewEnv_ok = true -> server_ok db -> GetProjectBySlug slug db = Ok proj ->
  exists bundle raw, bundle_of (ListLatestFlagVersions (P_ID proj) db) = Ok bundle /\ enc_bundle bundle = Some raw /\
    (forall key, map_get key bundle = published_tree (P_ID proj) key db) /\
    (forall key t, map_get key bundle = Some t ->
       exists flag v c j c', GetFlagByKey (P_ID proj) key db = Ok flag /\ GetLatestFlagVersion (F_ID flag) db = Ok v /\
         Compile (V_Strategy v) (V_Compiled v) = Ok c /\ enc_tree t = Some j /\ Compile StrategyCEL j = Ok c' /\
         forall ctx n, Evaluate (Some c') ctx n = Evaluate (Some c) ctx n) /\
    forall actor b resp db', exec (h_CompileSnapshot (mkAPI true) actor slug b) db resp db' -> success resp ->
      exists n, GetLatestSnapshot (P_ID proj) db' = Ok n /\ N_Compiled n = raw /\
        resp = writeJSON 201 (BSnapshot (snapshotToAPI n)).
Proof.
  intros Henv Hs Hp. destruct (bundle_published (P_ID proj) db Henv Hs) as (bundle & Eb & Hget).
  destruct (bundle_encodes _ _ _ Henv Hs Eb) as [raw Er]. exists bundle, raw. split_and!; try done.
  - intros key t. rewrite Hget. unfold published_tree. destruct (GetFlagByKey _ _ _) as [flag|] eqn:Ef; [|done].
    destruct (GetLatestFlagVersion _ _) as [v|] eqn:Ev; [|done]. intros Et.
    destruct (latest_row _ _ _ Ev) as (r & -> & Hin).
    destruct (stored_flag r Henv (proj2 Hs r Hin)) as (t' & c & j & c' & Et' & Hc & Ej & Hc' & Heq).
    cbn in Et. rewrite Et in Et'. injection Et' as <-. by exists flag, (sqliteFlagVersionFromRow r), c, j, c'.
  - intros actor b resp db' H Hsucc. destruct (compile_success _ _ _ _ _ _ _ _ _ H Hsucc Hp Eb Er) as (d & env & n & db1 & row & Hn & -> & ->).
    exists n. destruct (snapshot_latest _ _ _ _ _ (proj1 Hs) Hn) as (Hl & Hraw & _). cbn [cs_ProjectID cs_Compiled] in *.
    split_and!; try done. rewrite Hraw. unfold sqliteRawMessage. destruct (String.eqb_spec raw "") as [->|]; [|done].
    unfold enc_bundle in Er. by destruct (mapM _ _); cbn in Er.
Qed.

(** Updating a segment that does not exist is answered with 500, although
    reading it gives 404 and the store's own [UpdateSegment] reports
    [ErrNotFound]: the transaction's version does not. *)
Theorem update_missing_segment ds actor slug key req raw db proj :
  GetProjectBySlug slug db = Ok proj -> GetSegmentByKey (P_ID proj) key db = Err ErrNotFound ->
  normalizePredicate (rq_UpdPredicate req) = Ok raw ->
  run ds (h_UpdateSegment (mkAPI true) actor slug key (Some req)) db = (Some (writeError 500), db) /\
  run ds (h_GetSegment (mkAPI true) slug key) db = (Some (writeError 404), db) /\
  forall d name desc, store_UpdateSegment d (mkSegmentParams (P_ID proj) key name desc raw) db = Err ErrNotFound.
Proof.
  intros Hp Hg Hn.
  assert (forall now name desc pr, q_UpdateSegment now (P_ID proj) key name desc pr db = Err NoRows) as Hq.
  { intros. by apply update_missing. }
  split_and!.
  - unfold h_UpdateSegment. cbn [requireStore a_Store get_or run]. rewrite Hp. cbn [body_or]. rewrite Hn. cbn [need audit_or run].
    unfold WithAudit, withImmediateTx. cbn [maxRetries retry_tx]. unfold runOnceTx, audited, tx_UpdateSegment. cbn [begin_fault quiet].
    by rewrite Hq.
  - unfold h_GetSegment. cbn [requireStore a_Store get_or run]. rewrite Hp. cbn [get_or run]. by rewrite Hg.
  - intros. unfold store_UpdateSegment. by rewrite Hq.
Qed.
End theorems.

Module HandlersDemo.
Import Demo.
Definition api : API := mkAPI true.
Definition demo_draws (n : Z) : draws := mkDraws (mkDraw n n) (mkDraw (n + 100) n).
Definition answer (n : Z) (r : request) (db : DB) : option response * DB := run (demo_draws n) (handle api "ops" r) db.

Definition new_project : request := ReqCreateProject (Some (mkCreateProject "acme" "Acme" "cel")).
Definition new_flag : request := ReqCreateFlag "acme" (Some (mkCreateFlag "us" "US" None "boolean" (VBool false))).
Definition us_request : PublishFlagVersionRequest := mkPublish "cel" (unmarshal_any us_source).1 None.
Definition publish : request := ReqPublish 1 "acme" "us" (Some us_request).

Definition db1 : DB := (answer 1 new_project empty_db).2.
Definition db2 : DB := (answer 2 new_flag db1).2.
Definition db3 : DB := (answer 3 publish db2).2.

Lemma demo_exec n r db a db' :
  answer n r db = (Some a, db') -> rtc rest_step (mkServer db []) (mkServer db' []).
Proof. intros H. apply (exec_server rest_program (handle api "ops" r) db a db'); [by exists api, "ops", r | by eapply run_exec]. Defined.

Lemma demo_server2 : rtc rest_step (mkServer empty_db []) (mkServer db2 []).
Proof.
  etransitivity; [eapply (demo_exec 1 new_project); vm_compute; reflexivity|].
  eapply (demo_exec 2 new_flag). vm_compute. reflexivity.
Defined.
Lemma demo_server : rtc rest_step (mkServer empty_db []) (mkServer db3 []).
Proof. etransitivity; [exact demo_server2 | eapply (demo_exec 3 publish); vm_compute; reflexivity]. Defined.

Lemma reached_ok db : rtc rest_step (mkServer empty_db []) (mkServer db []) -> server_ok db.
Proof.
  intros H. eapply server_reach_ok, empty_server_ok. eapply (server_kept rest_program server_reach rest_writes _ _ H). constructor.
Defined.

Definition published : response := default (writeError 0) (answer 3 publish db2).1.
Lemma one_audit_row_per_change_witness :
  (failure published /\ db3 = db2) \/ (success published /\ audited_by "publish_version" "ops" db2 db3).
Proof.
  apply (one_audit_row_per_change api "ops" publish db2 published db3), (run_exec (demo_draws 3)). vm_compute. reflexivity.
Defined.

Definition demo_ctx : context := [("user", VMap [("country", VStr "US")])].
Lemma publish_then_evaluate_witness :
  exists proj get source resolved c v,
    GetProjectBySlug "acme" db2 = Ok proj /\
    (forall k raw, get k = Some raw -> segment_text (P_ID proj) db2 k = Some raw) /\
    marshal (rq_Source us_request) = Some source /\
    resolveSegmentRefs (storeSegmentResolver get) 1
      (compile_input (rq_PubStrategy us_request) source (derefString (rq_SourceText us_request))) = Ok resolved /\
    Compile (rq_PubStrategy us_request) resolved = Ok c /\
    published = writeJSON 200 (BFlagVersion (flagVersionToAPI v)) /\
    forall ds ctx, run ds (h_EvaluateFlag (mkAPI true) "acme" "us" (Some (mkEvaluation ctx))) db3 =
      (Some (match Evaluate (Some c) ctx (V_Version v) with
             | Ok d => writeJSON 200 (BDecision (decisionToAPI d))
             | Err _ => writeError 500
             end), db3).
Proof.
  apply (publish_then_evaluate 1 "ops" "acme" "us" us_request db2 published db3).
  - exact (proj1 (reached_ok db2 demo_server2)).
  - apply (run_exec (demo_draws 3)). vm_compute. reflexivity.
  - split; vm_compute; congruence.
Defined.

Lemma evaluate_answers_witness :
  run (demo_draws 9) (h_EvaluateFlag (mkAPI true) "acme" "us" (Some (mkEvaluation demo_ctx))) db3 =
  (Some (writeJSON 200 (BDecision (mkWDecision (VBool true) "rule_matched" 1 (Some "us")))), db3).
Proof. rewrite (evaluate_answers db3 (demo_draws 9) "acme" "us" demo_ctx (reached_ok db3 demo_server)). vm_compute. reflexivity. Defined.

Definition acme : Project := mkProject 1 "acme" "Acme" "cel" 1 1.
Lemma snapshot_holds_latest_witness :
  exists bundle raw, bundle_of (ListLatestFlagVersions 1 db3) = Ok bundle /\ enc_bundle bundle = Some raw /\
    (forall key, map_get key bundle = published_tree 1 key db3).
Proof.
  destruct (snapshot_holds_latest "acme" db3 acme) as (bundle & raw & H1 & H2 & H3 & _).
  - reflexivity.
  - exact (reached_ok db3 demo_server).
  - vm_compute. reflexivity.
  - by exists bundle, raw.
Defined.

Definition demo_update : UpdateSegmentRequest :=
  mkUpdateSegment "VIP" None (unmarshal_any (print (eq_doc "vip" (JBool true)))).1.
Lemma update_missing_segment_witness :
  run (demo_draws 9) (h_UpdateSegment (mkAPI true) "ops" "acme" "vip" (Some demo_update)) db3 = (Some (writeError 500), db3).
Proof.
  apply (update_missing_segment (demo_draws 9) "ops" "acme" "vip" demo_update (default "" (marshal (rq_UpdPredicate demo_update))) db3 acme);
    vm_compute; reflexivity.
Defined.
End HandlersDemo.
