(* ===== verification/AuditApi.v ===== *)
(** The audit log endpoint ([internal/server/handlers/audit.go]) and its
    pagination.

    The theorems are about a client that follows the cursors on a log that does
    not change.  A cursor's time counts to the millisecond, as [sqliteNullableTime]
    passes it on. *)
From stdpp Require Import base list strings numbers gmap sorting.
From Stdlib Require Import Ascii String ZArith Lia Sorting.Permutation.
From S2P Require Import Prelude Text Literal Json Float64 GoValue Ir Compile Eval Trace Segments GoTime Db Store SqliteText AuditCursor Api Handlers.

Record ListAuditEventsRequest : Type := mkListAuditEvents {
  q_Limit : option Z; q_Cursor : option string;
  q_Action : option string; q_Actor : option string; q_From : option time; q_To : option time
}.

(** [rows[i]] for an [int32] index: out of range it panics. *)
Definition row_at {A} (i : Z) (l : list A) : option A := if i <? 0 then None else l !! Z.to_nat i.

Section handler.
Context {UT : UuidText}.

(** The rest of the handler once the page is read: [limit + 1] rows at most were
    asked for, the last of them only tells that there is a next page. *)
Definition audit_page (limit : Z) (rows : list AuditEvent) : prog response :=
  let items := map auditEventToAPI (take (Z.to_nat limit) rows) in
  if limit <? wrap32 (Z.of_nat (List.length rows)) then
    match row_at (wrap32 (limit - 1)) rows with
    | None => Panics
    | Some last => Done (writeJSON 200 (BAuditEvents items (Some (encodeAuditCursor (of_ms (A_CreatedAt last)) (A_ID last)))))
    end
  else Done (writeJSON 200 (BAuditEvents items None)).

Definition h_ListAuditEvents (a : API) (slug : string) (p : ListAuditEventsRequest) : prog response :=
  requireStore a (
  get! proj := GetProjectBySlug slug or notFoundOrError in
  let limit := default 100 (q_Limit p) in
  let page (cursorTs : option time) (cursorID : uuid) :=
    get! rows := listed (ListAuditEvents (mkListAudit (P_ID proj) (derefString (q_Action p)) (derefString (q_Actor p))
                   (q_From p) (q_To p) cursorTs cursorID (wrap32 (limit + 1)))) or internalError in
    audit_page limit rows in
  match q_Cursor p with
  | None => page None 0
  | Some s =>
      if String.eqb s "" then page None 0 else
      match decodeAuditCursor s with
      | None => Done badRequest
      | Some (ts, id) => page (time_ptr ts) id
      end
  end).
End handler.

(** ** Sorted rows *)

Lemma audit_after_trans x y z : audit_after x y = true -> audit_after y z = true -> audit_after x z = true.
Proof. unfold audit_after. lia. Qed.
Lemma audit_after_total x y : audit_after x y = true \/ audit_after y x = true.
Proof. unfold audit_after. lia. Qed.

(** The rows a cursor leaves: those behind the row it was made from. *)
Definition behind (c : time * uuid) (r : AuditRow) : bool :=
  (ar_created r <? c.1) || ((ar_created r =? c.1) && (ar_id r <? c.2)).

Lemma behind_split pre x post :
  ordered audit_after (pre ++ x :: post) -> NoDup (map ar_id (pre ++ x :: post)) ->
  List.filter (behind (ar_created x, ar_id x)) (pre ++ x :: post) = post.
Proof.
  intros Ho Hn. rewrite List.filter_app. cbn. unfold behind at 2. cbn. rewrite !Z.ltb_irrefl, Z.eqb_refl. cbn.
  assert (forall y, In y pre -> behind (ar_created x, ar_id x) y = false) as Hpre.
  { intros y Hy. assert (audit_after y x = true) as H.
    { clear Hn. induction pre as [|w pre IH]; [done|]. inversion Ho as [|? ? Ho' Hw]; subst. destruct Hy as [->|Hy]; [|by apply IH].
      rewrite List.Forall_forall in Hw. apply Hw. apply in_app_iff. right. by left. }
    unfold audit_after in H. unfold behind. cbn. lia. }
  assert (forall z, In z post -> behind (ar_created x, ar_id x) z = true) as Hpost.
  { intros z Hz. assert (audit_after x z = true /\ ar_id z <> ar_id x) as [H Hne].
    { clear Hpre. induction pre as [|w pre IH].
      - inversion Ho as [|? ? Ho' Hx]; subst. rewrite List.Forall_forall in Hx. split; [by apply Hx|]. cbn in Hn.
        apply NoDup_cons in Hn as [Hx' _]. intros E. apply Hx'. rewrite <- E. apply list_elem_of_In. by apply in_map.
      - inversion Ho; subst. cbn in Hn. apply NoDup_cons in Hn as [_ Hn]. by apply IH. }
    unfold audit_after in H. unfold behind. cbn. lia. }
  replace (List.filter (behind (ar_created x, ar_id x)) pre) with (@nil AuditRow).
  - clear -Hpost. induction post as [|z post IH]; [done|]. cbn. rewrite (Hpost z) by (by left). f_equal. apply IH. intros. apply Hpost. by right.
  - clear -Hpre. induction pre as [|y pre IH]; [done|]. cbn. rewrite (Hpre y) by (by left). apply IH. intros. apply Hpre. by right.
Qed.

Lemma row_at_nth {A} i (l : list A) : 0 <= i -> row_at i l = l !! Z.to_nat i.
Proof. intros. unfold row_at. by destruct (Z.ltb_spec i 0); [lia|]. Qed.

(** ** A client that follows the cursors *)

Section crawl.
Context {UT : UuidText} {UL : UuidLaws}.
Variables (db : DB) (proj : Project) (slug : string) (p : ListAuditEventsRequest) (limit : Z).
Hypothesis project_found : GetProjectBySlug slug db = Ok proj.
Hypothesis limit_range : 1 <= limit < int32_max.

Definition with_cursor (c : option string) : ListAuditEventsRequest :=
  mkListAuditEvents (Some limit) c (q_Action p) (q_Actor p) (q_From p) (q_To p).

(** Request pages until one has no next cursor; [None] when the client runs out
    of requests or gets another answer. *)
Fixpoint crawl (requests : nat) (c : option string) : option (list WAuditEvent) :=
  match requests with
  | O => None
  | S n =>
      match (run (mkDraws (mkDraw 0 0) (mkDraw 0 0)) (h_ListAuditEvents (mkAPI true) slug (with_cursor c)) db).1 with
      | Some (mkResponse 200 (BAuditEvents items None)) => Some items
      | Some (mkResponse 200 (BAuditEvents items (Some c'))) => do? rest := crawl n (Some c') in Some (items ++ rest)
      | _ => None
      end
  end.

Definition filter_at (c : option (time * uuid)) : audit_filter :=
  mkAuditFilter (P_ID proj) (nullable (derefString (q_Action p))) (nullable (derefString (q_Actor p))) (q_From p) (q_To p) c.
(** The rows from a cursor on, newest first. *)
Definition log_at (c : option (time * uuid)) : list AuditRow :=
  order_by audit_after (List.filter (audit_matches (filter_at c)) (audit_events db)).

Lemma log_behind c : log_at (Some c) = List.filter (behind c) (log_at None).
Proof.
  unfold log_at. rewrite <- order_filter by eauto using audit_after_trans, audit_after_total. f_equal.
  induction (audit_events db) as [|r l IH]; [done|]. cbn [List.filter].
  assert (audit_matches (filter_at (Some c)) r = audit_matches (filter_at None) r && behind c r) as ->.
  { unfold audit_matches. cbn. by rewrite andb_true_r. }
  destruct (audit_matches (filter_at None) r); cbn; [|done]. by destruct (behind c r); rewrite IH.
Qed.

Definition to_wire (r : AuditRow) : WAuditEvent := auditEventToAPI (sqliteAuditFromRow r).
Definition cursor_of (r : AuditRow) : time * uuid := (ar_created r, ar_id r).

(** Cursors that a text can carry. *)
Definition cursor_ok (c : time * uuid) : Prop :=
  in_years (of_ms c.1) /\ IsZero (of_ms c.1) = false /\ uuid_ok c.2.
Definition cursor_text (c : time * uuid) : string := encodeAuditCursor (of_ms c.1) c.2.
Lemma cursor_text_back c : cursor_ok c ->
  String.eqb (cursor_text c) "" = false /\ decodeAuditCursor (cursor_text c) = Some (of_ms c.1, c.2) /\ time_ptr (of_ms c.1) = Some c.1.
Proof.
  intros (Ht & Hz & Hi). pose proof (cursor_back (of_ms c.1) c.2 Ht Hi) as Hb. split_and!; [|exact Hb|].
  - apply String.eqb_neq. intros E. unfold cursor_text in E. rewrite E in Hb. discriminate Hb.
  - unfold time_ptr. by rewrite Hz, ms_of_ms.
Qed.

Lemma page_answer ds c :
  from_option cursor_ok True c -> Z.of_nat (List.length (log_at c)) <= int32_max ->
  run ds (h_ListAuditEvents (mkAPI true) slug (with_cursor (cursor_text <$> c))) db =
  (Some (writeJSON 200 (BAuditEvents (map to_wire (take (Z.to_nat limit) (log_at c)))
     (if limit <? Z.of_nat (List.length (log_at c)) then (fun r => cursor_text (cursor_of r)) <$> (log_at c !! Z.to_nat (limit - 1)) else None))), db).
Proof.
  intros Hc Hlen. unfold int32_max in *.
  assert (run ds (h_ListAuditEvents (mkAPI true) slug (with_cursor (cursor_text <$> c))) db =
    run ds (audit_page limit (map sqliteAuditFromRow (take (Z.to_nat (limit + 1)) (log_at c)))) db) as ->.
  { unfold h_ListAuditEvents. cbn [requireStore a_Store get_or run]. rewrite project_found. cbn [with_cursor q_Limit q_Cursor default].
    unfold log_at. destruct c as [[t i]|]; cbn [fmap option_fmap option_map];
      [destruct (cursor_text_back (t, i) Hc) as (E1 & E2 & E3); rewrite E1, E2; cbn [fst snd] in E3 |- *; rewrite E3|];
      cbn [get_or run listed]; unfold listed, ListAuditEvents, q_ListAuditEventsByProject, limit_rows; cbn;
      rewrite wrap32_id by (unfold int32_min, int32_max; lia); destruct (Z.ltb_spec (limit + 1) 0); try lia; done. }
  unfold audit_page. rewrite length_map, length_take, wrap32_id by (unfold int32_min, int32_max; lia).
  rewrite firstn_map, map_map, take_take, (Nat.min_l (Z.to_nat limit) (Z.to_nat (limit + 1))) by lia.
  destruct (Z.ltb_spec limit (Z.of_nat (List.length (log_at c)))) as [Hlt|Hge].
  - destruct (Z.ltb_spec limit (Z.of_nat (Init.Nat.min (Z.to_nat (limit + 1)) (List.length (log_at c))))); [|lia].
    rewrite wrap32_id by (unfold int32_min, int32_max; lia). rewrite row_at_nth by lia.
    rewrite list_lookup_fmap, lookup_take_lt by lia.
    destruct (lookup_lt_is_Some_2 (log_at c) (Z.to_nat (limit - 1))) as [x ->]; [lia|]. done.
  - destruct (Z.ltb_spec limit (Z.of_nat (Init.Nat.min (Z.to_nat (limit + 1)) (List.length (log_at c))))); [lia|]. done.
Qed.

Lemma log_sorted c : ordered audit_after (log_at c).
Proof. apply order_ordered; eauto using audit_after_trans, audit_after_total. Qed.

Lemma log_nodup c : db_ok db -> NoDup (map ar_id (log_at c)).
Proof.
  intros Hok. unfold log_at. rewrite (order_by_perm audit_after). apply NoDup_sub, Hok.
Qed.

Lemma log_in c r : In r (log_at (Some c)) -> behind c r = true.
Proof. rewrite log_behind. by intros [_ H]%filter_In. Qed.

(** The next page starts behind the row the cursor was made from. *)
Lemma next_page c pre x post : db_ok db -> log_at c = pre ++ x :: post -> log_at (Some (cursor_of x)) = post.
Proof.
  intros Hok E. pose proof (log_sorted c) as Ho. pose proof (log_nodup c Hok) as Hn. rewrite E in Ho, Hn.
  transitivity (List.filter (behind (cursor_of x)) (log_at c)); [|rewrite E; by apply behind_split].
  rewrite log_behind. destruct c as [c0|]; [|done]. rewrite (log_behind c0).
  assert (behind c0 x = true) as Hx by (apply log_in; rewrite E; apply in_app_iff; right; by left).
  induction (log_at None) as [|r l IH]; [done|]. cbn. destruct (behind (cursor_of x) r) eqn:Er.
  - assert (behind c0 r = true) as -> by (unfold behind, cursor_of in *; cbn in *; lia). cbn. by rewrite Er, IH.
  - destruct (behind c0 r); cbn; [by rewrite Er | done].
Qed.

Definition log_in_range : Prop := Forall (fun r => cursor_ok (cursor_of r)) (audit_events db).
Lemma log_row_ok c i x : log_in_range -> log_at c !! i = Some x -> cursor_ok (cursor_of x).
Proof.
  intros H Hx%list_elem_of_lookup_2%list_elem_of_In. eapply Permutation_in in Hx; [|apply order_by_perm].
  apply filter_In in Hx as [Hx _]. by eapply List.Forall_forall in H.
Qed.

Lemma crawl_from requests c :
  db_ok db -> log_in_range -> from_option cursor_ok True c ->
  Z.of_nat (List.length (log_at c)) <= int32_max -> (List.length (log_at c) < requests)%nat ->
  crawl requests (cursor_text <$> c) = Some (map to_wire (log_at c)).
Proof.
  intros Hok Hr. revert c. induction requests as [|n IH]; intros c Hc Hlen Hn; [lia|]. cbn [crawl]. rewrite page_answer by done. cbn [fst writeJSON].
  destruct (Z.ltb_spec limit (Z.of_nat (List.length (log_at c)))) as [Hlt|Hge].
  - destruct (lookup_lt_is_Some_2 (log_at c) (Z.to_nat (limit - 1))) as [x Hx]; [lia|]. rewrite Hx. cbn [fmap option_fmap option_map].
    pose proof (take_drop_middle _ _ _ Hx) as E.
    pose proof (next_page c _ _ _ Hok (eq_sym E)) as Hnext.
    change (Some (cursor_text (cursor_of x))) with (cursor_text <$> Some (cursor_of x)).
    rewrite IH; rewrite ?Hnext; [|by eapply log_row_ok | rewrite length_drop; lia | rewrite length_drop; lia].
    cbn [mbind option_bind]. f_equal.
    rewrite <- map_app. f_equal. replace (S (Z.to_nat (limit - 1))) with (Z.to_nat limit) by lia. apply take_drop.
  - by rewrite take_ge by lia.
Qed.
End crawl.

(** ** Theorems *)

Section theorems.
Context {UT : UuidText} {UL : UuidLaws}.

(** C24. Pagination is complete: a client that follows the cursors, with any page
    size from 1 up, collects every event that matches its filters exactly once,
    newest first, in at most one request per event and one more.  The cursors are
    the opaque texts of the responses, and each is read back as the row it was
    made from. *)
Theorem audit_pagination db slug proj p limit requests :
  db_ok db -> log_in_range db -> GetProjectBySlug slug db = Ok proj -> 1 <= limit < int32_max ->
  let all := ListAuditEvents (mkListAudit (P_ID proj) (derefString (q_Action p)) (derefString (q_Actor p))
               (q_From p) (q_To p) None 0 (-1)) db in
  Z.of_nat (List.length all) <= int32_max -> (List.length all < requests)%nat ->
  crawl db slug p limit requests None = Some (map auditEventToAPI all) /\
  (forall e, In e all <-> exists r, In r (audit_events db) /\ e = sqliteAuditFromRow r /\
                            audit_matches (filter_at proj p None) r = true) /\
  NoDup (map A_ID all).
Proof.
  intros Hok Hrange Hp Hl all. assert (all = map sqliteAuditFromRow (log_at db proj p None)) as -> by done.
  rewrite length_map. intros H1 H2. rewrite (crawl_from db proj slug p limit Hp Hl requests None) by done. split_and!.
  - by rewrite map_map.
  - intros e. rewrite in_map_iff. split.
    + intros (r & <- & Hr). exists r. eapply Permutation_in in Hr; [|apply order_by_perm]. apply filter_In in Hr as [? ?]. done.
    + intros (r & Hr & -> & Hm). exists r. split; [done|]. eapply Permutation_in; [symmetry; apply order_by_perm|]. by apply filter_In.
  - rewrite map_map. by apply log_nodup.
Qed.

(** C36. A page size below 1 panics on the SQLite store: for a first page (no
    cursor) of an existing project with at most [int32_max] matching events, with
    limit 0 the handler indexes [rows[-1]] as soon as one event matches, and with a
    negative limit above [int32_min] it indexes a negative position whether or not
    an event matches. *)
Theorem audit_limit_panics ds db slug proj p :
  GetProjectBySlug slug db = Ok proj -> q_Cursor p = None ->
  let all := ListAuditEvents (mkListAudit (P_ID proj) (derefString (q_Action p)) (derefString (q_Actor p))
               (q_From p) (q_To p) None 0 (-1)) db in
  Z.of_nat (List.length all) <= int32_max ->
  (q_Limit p = Some 0 -> all <> [] -> run ds (h_ListAuditEvents (mkAPI true) slug p) db = (None, db)) /\
  (forall n, q_Limit p = Some n -> int32_min < n < 0 -> run ds (h_ListAuditEvents (mkAPI true) slug p) db = (None, db)).
Proof.
  intros Hp Hc all Hlen. assert (all = map sqliteAuditFromRow (log_at db proj p None)) as Hall by done.
  assert (forall n, q_Limit p = Some n -> int32_min < n <= 0 ->
    run ds (h_ListAuditEvents (mkAPI true) slug p) db =
    run ds (audit_page n (map sqliteAuditFromRow (limit_rows (n + 1) (log_at db proj p None)))) db) as Hrun.
  { intros n Hn Hr. unfold h_ListAuditEvents. cbn [requireStore a_Store get_or run]. rewrite Hp, Hc, Hn. cbn [default get_or run].
    unfold listed, ListAuditEvents, q_ListAuditEventsByProject. cbn. rewrite wrap32_id by (unfold int32_min, int32_max in *; lia). done. }
  rewrite Hall, length_map in Hlen. rewrite Hall. unfold int32_min, int32_max in *.
  assert (forall n, - 2 ^ 31 < n <= 0 -> forall rows : list AuditEvent, n < Z.of_nat (List.length rows) <= 2 ^ 31 - 1 ->
    run ds (audit_page n rows) db = (None, db)) as Hpanic.
  { intros n Hn rows Hr. unfold audit_page. rewrite (wrap32_id (Z.of_nat _)) by (unfold int32_min, int32_max; lia).
    destruct (Z.ltb_spec n (Z.of_nat (List.length rows))); [|lia]. rewrite wrap32_id by (unfold int32_min, int32_max; lia).
    unfold row_at. destruct (Z.ltb_spec (n - 1) 0); [done | lia]. }
  split.
  - intros H0 Hne. rewrite (Hrun 0 H0) by lia. apply Hpanic; [lia|]. rewrite length_map. unfold limit_rows.
    destruct (Z.ltb_spec (0 + 1) 0); [lia|]. rewrite length_take. destruct (log_at db proj p None); [done|]. cbn [List.length]. lia.
  - intros n Hn Hr. rewrite (Hrun n Hn) by lia. apply Hpanic; [lia|]. rewrite length_map. unfold limit_rows.
    destruct (Z.ltb_spec (n + 1) 0); [lia|]. rewrite length_take. lia.
Qed.
End theorems.

Module AuditDemo.
Import Demo HandlersDemo SqliteTextDemo.
Definition all_events : ListAuditEventsRequest := mkListAuditEvents None None None None None None.

Lemma audit_pagination_witness :
  crawl db3 "acme" all_events 1 3 None =
  Some (map auditEventToAPI (ListAuditEvents (mkListAudit 1 "" "" None None None 0 (-1)) db3)).
Proof.
  destruct (audit_pagination db3 "acme" acme all_events 1 3) as [H _].
  - exact (proj1 (reached_ok db3 demo_server)).
  - repeat constructor; vm_compute; try reflexivity; discriminate.
  - vm_compute. reflexivity.
  - unfold int32_max. lia.
  - vm_compute. discriminate.
  - vm_compute. lia.
  - exact H.
Defined.

Definition no_page : ListAuditEventsRequest := mkListAuditEvents (Some 0) None None None None None.
Lemma audit_limit_panics_witness :
  run (demo_draws 9) (h_ListAuditEvents (mkAPI true) "acme" no_page) db3 = (None, db3).
Proof.
  destruct (audit_limit_panics (demo_draws 9) db3 "acme" acme no_page) as [H _].
  - vm_compute. reflexivity.
  - reflexivity.
  - vm_compute. discriminate.
  - apply H; [reflexivity | vm_compute; discriminate].
Defined.
End AuditDemo.
