(* ===== verification/Wire.v ===== *)
(** From the control plane to the SDK over the wire: the stored snapshot is
    decoded into an [any] for the response, marshalled, and decoded again by the
    SDK's poll, which compiles every flag under CEL. *)
From stdpp Require Import base list strings numbers gmap.
From Stdlib Require Import Ascii String ZArith Lia Sorting.Permutation.
From S2P Require Import Prelude Text Literal Json Float64 GoValue Ir Compile Rollout Eval AnyTrip Trace Segments Sdk Db Store Api Handlers.

(** ** The [compiled] field of a response, as the SDK decodes it *)

(** Into [struct { Flags map[string]json.RawMessage }]: later duplicates replace
    earlier ones, and anything but an object or null is an error. *)
Fixpoint dec_flags (m : list (string * jdoc)) (old : list (string * RawMessage)) : option (list (string * RawMessage)) :=
  match m with
  | [] => Some old
  | (k, d) :: m' =>
      match field_of [("flags", tt)] (unquote k), d with
      | None, _ => dec_flags m' old
      | Some _, JNull => dec_flags m' []
      | Some _, JObj fm =>
          dec_flags m' (fold_left (fun acc kv => map_set (unquote kv.1) (dec_raw kv.2) acc) fm old)
      | Some _, _ => None
      end
  end.

Definition read_flags (compiled : goval) : option (list (string * RawMessage)) :=
  do? d := doc_of compiled in
  match d with
  | JNull => Some []
  | JObj m => dec_flags m []
  | _ => None
  end.

(** ** Bundles go through *)

Section wire.
Context {RX : RegexpLib} {CEL : CelLib} {TS : TsLib}.

Definition tree_doc_of (t : RulesTree) (d' : jdoc) : Prop := dec_tree_doc d' zero_tree = Some (respell_tree canon t) /\ wf_doc d'.

Lemma bundle_members_thru b :
  Forall (fun kt => utf8_valid kt.1 = true /\ wf_tree kt.2 = true /\ plain_tree kt.2 = true) b ->
  exists m m', mapM enc_member b = Some m /\ Forall2 thru_member m m' /\ map member_key m = map fst b /\
    Forall2 (fun kt kd => member_key kd = kt.1 /\ tree_doc_of kt.2 kd.2) b m'.
Proof.
  induction 1 as [|[k t] b (Hu & Hw & Hp) _ (m & m' & Em & Ht & Hk & Hd)]; [by exists [], []|]. cbn [fst snd] in *.
  destruct (tree_thru t Hw Hp) as (d & d' & Ed & Td & Dd). exists ((quote k, d) :: m), ((quote k, d') :: m').
  assert (unquote (quote k) = k) as Hq by (by apply unquote_quote). split_and!.
  - apply mapM_cons_some; [|done]. unfold enc_member. cbn [fst snd]. by rewrite Ed.
  - constructor; [|done]. unfold thru_member. cbn [fst snd]. by rewrite Hq.
  - cbn [map fst]. rewrite Hk. unfold member_key. cbn [fst]. by rewrite Hq.
  - constructor; [|done]. unfold member_key. cbn [fst snd]. split; [done|]. split; [done|]. by eapply thru_wf.
Qed.

Lemma load_raw_perm (fm : list (string * jdoc)) acc :
  NoDup (map member_key fm ++ map fst acc) ->
  fold_left (fun acc kv => map_set (unquote kv.1) (dec_raw kv.2) acc) fm acc ≡ₚ
  map (fun kd => (member_key kd, dec_raw kd.2)) fm ++ acc.
Proof.
  revert acc. induction fm as [|[k d] fm IH]; intros acc; cbn [map fold_left app fst snd]; [done|]. intros [Hk Hnd]%NoDup_cons.
  assert (map_set (unquote k) (dec_raw d) acc ≡ₚ (unquote k, dec_raw d) :: acc) as Hp.
  { apply map_set_perm. intros Hin. apply Hk. apply elem_of_app. right. by apply list_elem_of_In. }
  rewrite IH.
  - rewrite Hp. symmetry. apply Permutation_middle.
  - rewrite Hp. cbn [map fst]. rewrite <- Permutation_middle. by apply NoDup_cons.
Qed.

(** What the SDK reads from the response for a stored bundle. *)
Lemma bundle_read b raw :
  Forall (fun kt => utf8_valid kt.1 = true /\ wf_tree kt.2 = true /\ plain_tree kt.2 = true) b ->
  NoDup (map fst b) -> enc_bundle b = Some raw ->
  exists flags, read_flags (rawToAny raw) = Some flags /\ plain (rawToAny raw) = true /\ NoDup (map fst flags) /\
    (forall key, In key (map fst flags) <-> In key (map fst b)) /\
    forall key t, In (key, t) b -> exists j, In (key, j) flags /\ dec_tree j = Some (respell_tree canon t).
Proof.
  intros Hb Hnd Er. destruct (bundle_members_thru b Hb) as (m & m' & Em & Ht & Hk & Hd).
  destruct (thru_obj m m' Ht) as (m'' & Hperm & Hobj); [by rewrite Hk|].
  destruct (thru_obj [("flags", JObj m)] [("flags", JObj m'')]) as (top & Htop & Hthru).
  { apply member_one; [done | exact Hobj]. }
  { apply NoDup_singleton. }
  apply Permutation_singleton_r in Htop as ->.
  assert (raw = print (JObj [("flags", JObj m)])) as -> by (unfold enc_bundle in Er; rewrite Em in Er; cbn [mbind option_bind] in Er; congruence).
  destruct Hthru as (Hwf & v & Ea & Hv & Edoc).
  assert (rawToAny (print (JObj [("flags", JObj m)])) = v) as ->.
  { unfold rawToAny. rewrite print_nonempty by done. unfold unmarshal_any. by rewrite scan_print, Ea. }
  assert (map member_key m' = map fst b) as Hk'.
  { clear -Hd. induction Hd as [|? ? ? ? [Hkey _] _ IH]; cbn [map]; [done|]. by rewrite IH, Hkey. }
  assert (NoDup (map member_key m'')) as Hnd'' by (rewrite Hperm, Hk'; done).
  set (flags := fold_left (fun acc kv => map_set (unquote kv.1) (dec_raw kv.2) acc) m'' []).
  assert (flags ≡ₚ map (fun kd => (member_key kd, dec_raw kd.2)) m') as Hfl.
  { unfold flags. rewrite load_raw_perm by (cbn; by rewrite app_nil_r). by rewrite app_nil_r, Hperm. }
  assert (map fst flags ≡ₚ map fst b) as Hkeys.
  { rewrite Hfl, map_map. change (map member_key m' ≡ₚ map fst b). by rewrite Hk'. }
  exists flags. split_and!.
  - unfold read_flags. rewrite Edoc. cbn [mbind option_bind dec_flags].
    change (field_of [("flags", tt)] (unquote "flags")) with (Some tt). done.
  - exact Hv.
  - by rewrite Hkeys.
  - intros key. by rewrite Hkeys.
  - intros key t Hin. clear -Hd Hin Hfl. assert (exists kd, In kd m' /\ member_key kd = key /\ tree_doc_of t kd.2) as (kd & Hkd & <- & Hdec & Hw).
    { clear Hfl. induction Hd as [|[k0 t0] kd b m' [Hk Ht] _ IH]; [done|]. destruct Hin as [[= -> ->]|Hin].
      - exists kd. split; [by left | done].
      - destruct (IH Hin) as (kd' & ? & ?). exists kd'. split; [by right | done]. }
    exists (dec_raw kd.2). split; [rewrite Hfl; by apply (in_map (fun kd => (member_key kd, dec_raw kd.2)))|].
    unfold dec_tree, dec_raw. by rewrite scan_print.
Qed.

(** A stored version with its compilation. *)
Lemma stored_tree r :
  stored_compiles r ->
  let j := sqliteRawMessageFrom (vr_compiled r) in
  exists c, Compile (vr_strategy r) j = Ok c /\ dec_tree j = Some (IR c).
Proof.
  intros (src & c0 & Hc & Ej) j. fold j in Ej. destruct (rehydrate _ _ _ Hc) as (j1 & E1 & C1). rewrite Ej in E1. injection E1 as <-.
  eexists. split; [exact C1|]. cbn [IR]. apply Compile_ok in Hc as [_ Hc].
  destruct (tree_trip (IR c0)) as (j2 & E3 & D3); [eapply valid_full; apply Hc|]. rewrite Ej in E3. by injection E3 as <-.
Qed.

(** The SDK's compilation of a tree that went through an [any]. *)
Lemma sdk_compiles s src c j :
  NewEnv_ok = true -> Compile s src = Ok c -> dec_tree j = Some (respell_tree canon (IR c)) ->
  exists c', Compile StrategyCEL j = Ok c' /\ forall ctx n, Evaluate (Some c') ctx n = Evaluate (Some c) ctx n.
Proof.
  intros Henv Hc Hj. pose proof (cel_compiled _ _ _ Henv Hc) as Hok.
  pose proof (compile_doc canon StrategyCEL (mkCompiled StrategyCEL (IR c) (CELPrograms c)) j canon_equiv eq_refl Hok Hj) as H.
  eexists. split; [exact H|]. intros ctx n. cbn [IR CELPrograms]. rewrite (Evaluate_respell _ canon_equiv).
  destruct c. apply Evaluate_strategy.
Qed.

(** Every published flag of a project can travel: valid UTF-8 keys, numbers in the
    range of a float64 whose shortest form reads back, percentages from 0 to 100. *)
Definition can_travel (project : uuid) (db : DB) : Prop :=
  forall key t, published_tree project key db = Some t -> utf8_valid key = true /\ plain_tree t = true.

Lemma bundle_sorted latest b : bundle_of latest = Ok b -> keys_sorted b = true.
Proof.
  intros H. eapply (rfold_inv bundle_step (fun b => keys_sorted b = true)); [|exact H | done].
  intros acc lv acc' _ E Ha. unfold bundle_step in E. destruct (dec_tree _); [|done]. injection E as <-. by apply map_set_sorted.
Qed.

Lemma keys_sorted_nodup {A} (m : list (string * A)) : keys_sorted m = true -> NoDup (map fst m).
Proof.
  induction m as [|[k v] m IH]; [constructor|]. intros [Hk Hm]%keys_sorted_cons. cbn. apply NoDup_cons. split; [|auto].
  intros Hin. assert (map_get k m <> None) as Hg.
  { clear -Hin. apply list_elem_of_In in Hin. induction m as [|[k1 v1] m IH]; cbn in *; [done|].
    destruct (String.eqb_spec k k1); [done|]. destruct Hin; [congruence | auto]. }
  specialize (Hk k Hg). by rewrite sltb_irrefl in Hk.
Qed.

Lemma sorted_get {A} (m : list (string * A)) k v : NoDup (map fst m) -> In (k, v) m <-> map_get k m = Some v.
Proof.
  induction m as [|[k1 v1] m IH]; cbn; [done|]. intros [Hk Hnd]%NoDup_cons. destruct (String.eqb_spec k k1) as [->|Hne].
  - split; [|intros [= ->]; by left]. intros [[= <-]|Hin]; [done|]. destruct Hk. apply list_elem_of_In. by apply (in_map fst _ (k1, v)).
  - rewrite <- IH by done. split; [intros [[= -> _]|?]; [done | done] | by right].
Qed.

Lemma keys_get {A} (m : list (string * A)) k : In k (map fst m) <-> is_Some (map_get k m).
Proof.
  induction m as [|[k1 v1] m IH]; cbn; [split; [done | by intros [? ?]]|]. destruct (String.eqb_spec k k1) as [->|Hne].
  - split; [by eexists | by left].
  - rewrite <- IH. split; [intros [?|?]; [congruence | done] | by right].
Qed.
End wire.

(** ** What an SDK client is served *)

Section served.
Context {RX : RegexpLib} {CEL : CelLib} {TS : TsLib}.

(** After a successful snapshot compilation, the latest snapshot is served as a
    value with a text, and an SDK client that read its flags decides every
    published flag like the server's compilation of its latest version (with the
    snapshot's version number), and has no other flag. *)
Definition decides_like_server (proj : Project) (db : DB) (polled : Client) (version : Z) : Prop :=
  forall key ctx,
  match (let? flag := GetFlagByKey (P_ID proj) key db in GetLatestFlagVersion (F_ID flag) db) with
  | Err _ => sdk_Evaluate polled key ctx = mkDecision VNil ReasonDefault "" version
  | Ok v => exists c, Compile (V_Strategy v) (V_Compiled v) = Ok c /\
      sdk_Evaluate polled key ctx = match Evaluate (Some c) ctx version with
                                    | Ok d => d
                                    | Err _ => mkDecision VNil ReasonError "" version
                                    end
  end.

(** The latest snapshot is read after the audit row was added. *)
Lemma latest_run slug db db1 rows ds proj n :
  GetProjectBySlug slug db = Ok proj -> projects db1 = projects db -> GetLatestSnapshot (P_ID proj) db1 = Ok n ->
  run ds (h_GetLatestSnapshot (mkAPI true) slug) (set_audit rows db1) =
  (Some (writeJSON 200 (BSnapshot (snapshotToAPI n))), set_audit rows db1).
Proof.
  intros Hp Hproj Hl. unfold h_GetLatestSnapshot. cbn [requireStore a_Store get_or run].
  assert (GetProjectBySlug slug (set_audit rows db1) = Ok proj) as ->.
  { unfold GetProjectBySlug, q_GetProjectBySlug. cbn [projects set_audit]. by rewrite Hproj. }
  cbn [get_or run]. change (GetLatestSnapshot (P_ID proj) (set_audit _ db1)) with (GetLatestSnapshot (P_ID proj) db1). by rewrite Hl.
Qed.

Lemma snapshot_served actor slug b db resp db' ds proj :
  NewEnv_ok = true -> server_ok db -> GetProjectBySlug slug db = Ok proj -> can_travel (P_ID proj) db ->
  exec (h_CompileSnapshot (mkAPI true) actor slug b) db resp db' -> success resp ->
  exists n flags,
    GetLatestSnapshot (P_ID proj) db' = Ok n /\
    run ds (h_GetLatestSnapshot (mkAPI true) slug) db' = (Some (writeJSON 200 (BSnapshot (snapshotToAPI n))), db') /\
    read_flags (wn_Compiled (snapshotToAPI n)) = Some flags /\ plain (wn_Compiled (snapshotToAPI n)) = true /\
    forall client id created,
      decides_like_server proj db (pollOnce client (Response 200 (Some (mkBody id (wn_Version (snapshotToAPI n)) created flags)))).1
        (wn_Version (snapshotToAPI n)).
Proof.
  intros Henv Hs Hp Htr H Hsucc. destruct (bundle_published (P_ID proj) db Henv Hs) as (bundle & Eb & Hget).
  destruct (bundle_encodes _ _ _ Henv Hs Eb) as [raw Er].
  destruct (compile_success _ _ _ _ _ _ _ _ _ H Hsucc Hp Eb Er) as (d & env & n & db1 & row & Hn & -> & ->).
  destruct (snapshot_latest _ _ _ _ _ (proj1 Hs) Hn) as (Hl & Hraw & Hproj). cbn [cs_ProjectID cs_Compiled] in *.
  pose proof (bundle_sorted _ _ Eb) as Hsort. pose proof (keys_sorted_nodup _ Hsort) as Hnd.
  assert (Forall (fun kt => utf8_valid kt.1 = true /\ wf_tree kt.2 = true /\ plain_tree kt.2 = true) bundle) as Hall.
  { apply List.Forall_forall. intros [k t] Hin. apply (sorted_get bundle) in Hin; [|done]. rewrite Hget in Hin.
    destruct (Htr k t Hin) as [Hu Hpl]. split_and!; try done. unfold published_tree in Hin. repeat case_match; try done.
    by apply dec_tree_wf in Hin. }
  destruct (bundle_read bundle raw Hall Hnd Er) as (flags & Hread & Hplain & Hnf & Hkeys & Hflag).
  assert (sqliteRawMessage raw = raw) as Hraw'.
  { unfold sqliteRawMessage. destruct (String.eqb_spec raw "") as [->|]; [|done]. unfold enc_bundle in Er. by destruct (mapM _ _). }
  rewrite Hraw' in Hraw. exists n, flags. split_and!; [exact Hl| | | |].
  - by apply latest_run with db proj.
  - cbn [wn_Compiled snapshotToAPI]. by rewrite Hraw.
  - cbn [wn_Compiled snapshotToAPI]. by rewrite Hraw.
  - intros client id created key ctx. cbn [pollOnce fst]. unfold sdk_Evaluate. cbn [Z.eqb Pos.eqb snap set_snap SnapFlags SnapVersion fst sb_version sb_flags].
    specialize (Hget key). unfold published_tree in Hget.
    assert (map_get key bundle = None -> compile_flags flags !! key = None) as Hnone.
    { intros E. unfold compile_flags. rewrite compile_flags_out, lookup_empty; [done|]. rewrite Hkeys, keys_get, E. by intros [? ?]. }
    destruct (GetFlagByKey (P_ID proj) key db) as [flag|e]; cbn [rbind]; [|by rewrite (Hnone Hget)].
    destruct (GetLatestFlagVersion (F_ID flag) db) as [v|e] eqn:Ev; [|by rewrite (Hnone Hget)].
    destruct (latest_row _ _ _ Ev) as (r & -> & Hin). destruct (stored_tree r (proj2 Hs r Hin)) as (c & Hc & Ht).
    cbn [V_Compiled V_Strategy sqliteFlagVersionFromRow] in *. rewrite Ht in Hget. exists c. split; [done|].
    destruct (Hflag key (IR c)) as (j & Hj & Dj); [by apply sorted_get|].
    destruct (sdk_compiles _ _ _ j Henv Hc Dj) as (c' & Hc' & Heq).
    unfold compile_flags. rewrite (compile_flags_in flags ∅ key j c' Hnf Hj Hc'). by rewrite Heq.
Qed.

(** *** A number out of range *)

(** A JSON text with a number outside the range of a float64. *)
Definition out_of_range (r : RawMessage) : bool := match scan r with Some d => (any_of d).2 | None => false end.
(** The IR's default or the value of one of its rules is such a text. *)
Definition tree_out_of_range (t : RulesTree) : bool :=
  out_of_range (Default t) || existsb (fun r => out_of_range (RuleValue r)) (rules_of t).

Lemma map_bad_in {A B} (f : A -> B * bool) l x : In x l -> (f x).2 = true -> (map_bad f l).2 = true.
Proof.
  induction l as [|y l IH]; [done|]. rewrite map_bad_cons. cbn [snd]. intros [->|Hin] Hx; [by rewrite Hx|]. by rewrite IH, orb_true_r.
Qed.
Lemma obj_bad m k d : In (k, d) m -> (any_of d).2 = true -> (any_of (JObj m)).2 = true.
Proof. intros Hin Hd. cbn [any_of snd]. apply (map_bad_in _ _ (k, d)); [done|]. cbn [snd]. by destruct (any_of d). Qed.
Lemma arr_bad l d : In d l -> (any_of d).2 = true -> (any_of (JArr l)).2 = true.
Proof. intros Hin Hd. cbn [any_of]. pose proof (map_bad_in any_of l d Hin Hd) as H. by destruct (map_bad any_of l). Qed.
Lemma raw_bad r d : out_of_range r = true -> enc_raw r = Some d -> (any_of d).2 = true.
Proof.
  unfold out_of_range, enc_raw. destruct (scan r) as [d0|] eqn:E; [|done]. intros Hd. destruct (String.eqb_spec r "") as [->|]; [done|].
  intros [= <-]. rewrite any_esc; [done|]. by apply scan_sound in E.
Qed.
Lemma tree_bad t d : tree_out_of_range t = true -> enc_tree_doc t = Some d -> (any_of d).2 = true.
Proof.
  unfold tree_out_of_range, enc_tree_doc, rules_of. intros Ht H. destruct (enc_raw (Default t)) as [df|] eqn:Ed; [|done].
  cbn [mbind option_bind] in H. apply orb_true_iff in Ht as [Ht|Ht].
  - destruct (match Rules t with None => _ | Some l => _ end); [|done]. injection H as <-.
    apply (obj_bad _ "default" df); [right; by left | by eapply raw_bad].
  - destruct (Rules t) as [l|]; [|done]. cbn [default from_option id] in Ht. destruct (mapM enc_rule l) as [ds|] eqn:Em; [|done].
    injection H as <-. apply (obj_bad _ "rules" (JArr ds)); [do 2 right; by left|].
    apply existsb_exists in Ht as (r & Hin & Hr). apply mapM_Some_1 in Em.
    apply list_elem_of_In, list_elem_of_lookup in Hin as [i Hi]. destruct (Forall2_lookup_l _ _ _ _ _ Em Hi) as (d & Hd & Er).
    apply (arr_bad _ d); [by apply list_elem_of_In, list_elem_of_lookup; exists i|].
    unfold enc_rule in Er. destruct (enc_ptr (When r)); [|done]. cbn [mbind option_bind] in Er.
    destruct (enc_raw (RuleValue r)) as [v|] eqn:Ev; [|done]. injection Er as <-.
    apply (obj_bad _ "value" v); [do 2 right; by left | by eapply raw_bad].
Qed.

Lemma enc_tree_doc_wf t : full_tree t = true -> exists d, enc_tree_doc t = Some d /\ wf_doc d.
Proof.
  unfold full_tree, wf_tree. intros H. bsplit. destruct t as [vt df rs]. cbn [TreeValueType Default Rules] in *.
  destruct (enc_raw_ok df) as (dd & Ed & Wd & _); [done|]. destruct (rules_field_trip rs) as (d & E & Wr & _); [done|].
  exists (JObj [("value_type", enc_str vt); ("default", dd); ("rules", d)]).
  unfold enc_tree_doc. cbn [TreeValueType Default Rules]. rewrite Ed. cbn [mbind option_bind]. rewrite E. split; [done|].
  apply wf_obj. repeat constructor; try done; try (by apply lit_name); apply lit_quote.
Qed.

Lemma bundle_bad b raw k t :
  Forall (fun kt => full_tree kt.2 = true) b -> In (k, t) b -> tree_out_of_range t = true -> enc_bundle b = Some raw ->
  raw <> "" /\ (unmarshal_any raw).2 = true.
Proof.
  intros Hb Hin Ht Er. unfold enc_bundle in Er. destruct (mapM enc_member b) as [m|] eqn:Em; [|done]. cbn [mbind option_bind] in Er.
  assert (raw = print (JObj [("flags", JObj m)])) as -> by congruence. clear Er. apply mapM_Some_1 in Em. assert (wf_doc (JObj m)) as Hw.
  { apply wf_obj. clear Hin. induction Em as [|[k' t'] [k2 d2] b m E Em IH]; [constructor|].
    inversion Hb as [|? ? Hf Hb']; subst. constructor; [|by apply IH]. unfold enc_member in E. cbn [fst snd] in *.
    destruct (enc_tree_doc_wf t' Hf) as (d & Ed & Hd). rewrite Ed in E. injection E as <- <-. split; [apply lit_quote | done]. }
  assert (wf_doc (JObj [("flags", JObj m)])) as Hw2 by (apply wf_obj; constructor; [split; [by apply lit_name | done] | constructor]).
  split; [by apply String.eqb_neq, print_nonempty|].
  unfold unmarshal_any. rewrite scan_print by done. apply (obj_bad _ "flags" (JObj m)); [by left|].
  apply list_elem_of_In, list_elem_of_lookup in Hin as [i Hi]. destruct (Forall2_lookup_l _ _ _ _ _ Em Hi) as ([k2 d] & Hd & E).
  unfold enc_member in E. cbn [fst snd] in E. destruct (enc_tree_doc t) as [d'|] eqn:Et; [|done]. injection E as <- <-.
  apply (obj_bad _ (quote k) d'); [by apply list_elem_of_In, list_elem_of_lookup; exists i | by eapply tree_bad].
Qed.

Lemma bundle_full project db b :
  server_ok db -> bundle_of (ListLatestFlagVersions project db) = Ok b -> Forall (fun kt => full_tree kt.2 = true) b.
Proof.
  intros Hs Hb. eapply (rfold_inv bundle_step (Forall (fun kt => full_tree kt.2 = true))); [|exact Hb | constructor].
  intros acc lv acc' Hlv H Hacc. unfold bundle_step in H. destruct (dec_tree _) as [t|] eqn:Et; [|done]. injection H as <-.
  apply map_set_Forall; [|done]. destruct (latest_stored _ _ _ Hs Hlv) as ([k v] & -> & _ & Hst).
  destruct (stored_tree v Hst) as (c & Hc & Dc). cbn in Et. rewrite Et in Dc. injection Dc as ->.
  apply Compile_ok in Hc as [_ Hc]. cbn [snd]. eapply valid_full; apply Hc.
Qed.

(** The snapshot is served as the string of its text, which has no flags. *)
Lemma snapshot_unreadable actor slug b db resp db' ds proj key t :
  NewEnv_ok = true -> server_ok db -> GetProjectBySlug slug db = Ok proj ->
  published_tree (P_ID proj) key db = Some t -> tree_out_of_range t = true ->
  exec (h_CompileSnapshot (mkAPI true) actor slug b) db resp db' -> success resp ->
  exists n raw, GetLatestSnapshot (P_ID proj) db' = Ok n /\
    run ds (h_GetLatestSnapshot (mkAPI true) slug) db' = (Some (writeJSON 200 (BSnapshot (snapshotToAPI n))), db') /\
    wn_Compiled (snapshotToAPI n) = VStr raw.
Proof.
  intros Henv Hs Hp Hkey Hout H Hsucc. destruct (bundle_published (P_ID proj) db Henv Hs) as (bundle & Eb & Hget).
  destruct (bundle_encodes _ _ _ Henv Hs Eb) as [raw Er].
  destruct (compile_success _ _ _ _ _ _ _ _ _ H Hsucc Hp Eb Er) as (d & env & n & db1 & row & Hn & -> & ->).
  destruct (snapshot_latest _ _ _ _ _ (proj1 Hs) Hn) as (Hl & Hraw & Hproj). cbn [cs_ProjectID cs_Compiled] in *.
  pose proof (keys_sorted_nodup _ (bundle_sorted _ _ Eb)) as Hnd. rewrite <- Hget in Hkey.
  destruct (bundle_bad bundle raw key t (bundle_full _ _ _ Hs Eb)) as [Hne Hbad]; [by apply sorted_get | done | done |].
  exists n, raw. split; [exact Hl|]. split.
  - by apply latest_run with db proj.
  - cbn [wn_Compiled snapshotToAPI]. rewrite Hraw. unfold sqliteRawMessage, rawToAny. rewrite (proj2 (String.eqb_neq _ _) Hne).
    rewrite (proj2 (String.eqb_neq _ _) Hne). by destruct (unmarshal_any raw) as [? []].
Qed.
End served.

Module WireDemo.
Import Demo HandlersDemo.
Definition compile : request := ReqCompileSnapshot "acme" None.
Definition db4 : DB := (answer 4 compile db3).2.
Definition compiled : response := default (writeError 0) (answer 4 compile db3).1.

Definition us_tree : RulesTree := default zero_tree (published_tree 1 "us" db3).
Lemma us_published : published_tree 1 "us" db3 = Some us_tree.
Proof. vm_compute. reflexivity. Qed.
Lemma us_plain : plain_tree us_tree = true.
Proof. vm_compute. reflexivity. Qed.
Lemma us_flags : flags db3 = [mkFlagRow 2 1 "us" "US" "" "boolean" "false" 2 2].
Proof. vm_compute. reflexivity. Qed.

Lemma demo_travels : can_travel 1 db3.
Proof.
  intros key t H. destruct (String.eqb_spec "us" key) as [<-|Hne].
  - rewrite us_published in H. assert (t = us_tree) as -> by congruence. split; [done | exact us_plain].
  - exfalso. revert H. unfold published_tree, GetFlagByKey, q_GetFlagByKey, query_one. rewrite us_flags.
    cbn [List.find fr_project fr_key]. apply String.eqb_neq in Hne. rewrite Hne. done.
Qed.

(** A number that JSON allows and float64 does not. *)
Definition huge_text : string := print (tree_doc "number" (JNum "1e400") []).
Definition publish_huge : request := ReqPublish 1 "acme" "us" (Some (mkPublish "typescript" VNil (Some huge_text))).
Definition db5 : DB := (answer 5 publish_huge db3).2.
Definition db6 : DB := (answer 6 (ReqCompileSnapshot "acme" None) db5).2.

End WireDemo.
