(* ===== verification/Rpc.v ===== *)
(** The Connect surface of the control plane ([internal/server/rpc]): the same
    operations as the REST handlers, over the same store, with protobuf messages
    and Connect codes.

    The types of [structpb] are outside the repository: [StructPb] is a class
    with the calls the source makes.  A request is the decoded message; a
    snapshot id is what [uuid.Parse] makes of its text.  As in the REST model,
    error texts are not kept. *)
From stdpp Require Import base list strings numbers gmap relations.
From Stdlib Require Import Ascii String ZArith Lia.
From S2P Require Import Prelude Text Literal Json Float64 GoValue Ir Compile Rollout Eval Trace Segments Sdk GoTime Db Store SqliteText AuditCursor Api Handlers AuditApi.

(** ** Protobuf values *)

Class StructPb : Type := {
  PbValue : Type;
  PbStruct : Type;
  NewValue : goval -> option PbValue;
  NewStruct : list (string * goval) -> option PbStruct;
  AsInterface : PbValue -> goval;
  NewNullValue : PbValue;
  UnmarshalValue : string -> option PbValue;   (* [Value.UnmarshalJSON] *)
  AsMap : PbStruct -> list (string * goval)
}.

(** Open enums: a message can carry a number without a name. *)
Inductive PbStrategy : Type :=
| STRATEGY_UNSPECIFIED | STRATEGY_JSON | STRATEGY_CEL | STRATEGY_TYPESCRIPT | STRATEGY_unknown (n : Z).
Inductive PbValueType : Type :=
| VALUE_TYPE_UNSPECIFIED | VALUE_TYPE_BOOLEAN | VALUE_TYPE_STRING | VALUE_TYPE_NUMBER | VALUE_TYPE_OBJECT
| VALUE_TYPE_unknown (n : Z).
Inductive PbReason : Type :=
| DECISION_REASON_UNSPECIFIED | DECISION_REASON_DEFAULT | DECISION_REASON_RULE_MATCHED
| DECISION_REASON_ROLLOUT_IN_BUCKET | DECISION_REASON_ROLLOUT_OUT_OF_BUCKET | DECISION_REASON_TYPE_MISMATCH
| DECISION_REASON_ERROR.

(** The codes of a [connect.Error]. *)
Inductive code : Type :=
| CodeCanceled | CodeUnknown | CodeInvalidArgument | CodeDeadlineExceeded | CodeNotFound | CodeAlreadyExists
| CodePermissionDenied | CodeResourceExhausted | CodeFailedPrecondition | CodeAborted | CodeOutOfRange
| CodeUnimplemented | CodeInternal | CodeUnavailable | CodeDataLoss | CodeUnauthenticated.

(** ** Converters ([convert.go]) *)

Definition strategyFromProto (s : PbStrategy) : string :=
  match s with
  | STRATEGY_JSON => "json" | STRATEGY_CEL => "cel" | STRATEGY_TYPESCRIPT => "typescript" | _ => ""
  end.
Definition protoStrategy (s : string) : PbStrategy :=
  if String.eqb s "json" then STRATEGY_JSON
  else if String.eqb s "cel" then STRATEGY_CEL
  else if String.eqb s "typescript" then STRATEGY_TYPESCRIPT
  else STRATEGY_UNSPECIFIED.
Definition valueTypeFromProto (v : PbValueType) : string :=
  match v with
  | VALUE_TYPE_BOOLEAN => "boolean" | VALUE_TYPE_STRING => "string" | VALUE_TYPE_NUMBER => "number"
  | VALUE_TYPE_OBJECT => "object" | _ => ""
  end.
Definition protoValueType (v : string) : PbValueType :=
  if String.eqb v "boolean" then VALUE_TYPE_BOOLEAN
  else if String.eqb v "string" then VALUE_TYPE_STRING
  else if String.eqb v "number" then VALUE_TYPE_NUMBER
  else if String.eqb v "object" then VALUE_TYPE_OBJECT
  else VALUE_TYPE_UNSPECIFIED.
Definition decisionReasonToProto (r : string) : PbReason :=
  if String.eqb r ReasonDefault then DECISION_REASON_DEFAULT
  else if String.eqb r ReasonRuleMatched then DECISION_REASON_RULE_MATCHED
  else if String.eqb r ReasonRolloutInBucket then DECISION_REASON_ROLLOUT_IN_BUCKET
  else if String.eqb r ReasonRolloutOutOfBucket then DECISION_REASON_ROLLOUT_OUT_OF_BUCKET
  else if String.eqb r ReasonTypeMismatch then DECISION_REASON_TYPE_MISMATCH
  else if String.eqb r ReasonError then DECISION_REASON_ERROR
  else DECISION_REASON_UNSPECIFIED.

(** [json.Unmarshal] into a [map[string]any]: null gives the nil map. *)
Definition unmarshal_map (raw : RawMessage) : option (list (string * goval)) :=
  match unmarshal_any raw with
  | (VMap m, false) => Some m
  | (VNil, false) => Some []
  | _ => None
  end.

Section rpc.
Context {RX : RegexpLib} {CEL : CelLib} {TS : TsLib} {SP : StructPb}.

(** A nil struct or value is [None]; the callers drop the error. *)
Definition jsonRawToStruct (raw : RawMessage) : option PbStruct :=
  if String.eqb raw "" || String.eqb raw "null" then None
  else do? m := unmarshal_map raw in NewStruct m.
Definition goValueToProto (v : goval) : option PbValue := NewValue v.
Definition jsonRawToValue (raw : RawMessage) : option PbValue :=
  if String.eqb raw "" || String.eqb raw "null" then None
  else let '(v, bad) := unmarshal_any raw in if bad then None else goValueToProto v.
(** [AsMap] of a possibly nil struct. *)
Definition struct_map (s : option PbStruct) : list (string * goval) := default [] (AsMap <$> s).
Definition structToJSONRaw (s : option PbStruct) : option RawMessage :=
  match s with None => Some "{}" | Some s => marshal (VMap (AsMap s)) end.
Definition valueToAny (v : option PbValue) : goval := match v with None => VNil | Some v => AsInterface v end.

Record PProject : Type := mkPProject {
  p_Id : uuid; p_Slug : string; p_DisplayName : string; p_ConfigStrategy : PbStrategy; p_CreatedAt : time; p_UpdatedAt : time
}.
Definition projectToProto (p : Project) : PProject :=
  mkPProject (P_ID p) (P_Slug p) (P_DisplayName p) (protoStrategy (P_ConfigStrategy p)) (P_CreatedAt p) (P_UpdatedAt p).
Record PEnvironment : Type := mkPEnvironment {
  pe_Id : uuid; pe_ProjectId : uuid; pe_Slug : string; pe_Name : string; pe_CreatedAt : time
}.
Definition environmentToProto (e : Environment) : PEnvironment :=
  mkPEnvironment (E_ID e) (E_ProjectID e) (E_Slug e) (E_Name e) (E_CreatedAt e).
Record PFlag : Type := mkPFlag {
  pf_Id : uuid; pf_ProjectId : uuid; pf_Key : string; pf_Name : string; pf_Description : string;
  pf_ValueType : PbValueType; pf_DefaultValue : option PbValue; pf_CreatedAt : time; pf_UpdatedAt : time
}.
Definition flagToProto (f : Flag) : PFlag :=
  mkPFlag (F_ID f) (F_ProjectID f) (F_Key f) (F_Name f) (F_Description f) (protoValueType (F_ValueType f))
    (jsonRawToValue (F_DefaultValue f)) (F_CreatedAt f) (F_UpdatedAt f).
Record PFlagVersion : Type := mkPFlagVersion {
  pv_Id : uuid; pv_FlagId : uuid; pv_Version : Z; pv_PbStrategy : PbStrategy; pv_PbSource : option PbStruct;
  pv_PbCompiled : option PbStruct; pv_PbSourceText : string; pv_PublishedAt : time
}.
Definition flagVersionToProto (v : FlagVersion) : PFlagVersion :=
  mkPFlagVersion (V_ID v) (V_FlagID v) (wrap32 (V_Version v)) (protoStrategy (V_Strategy v))
    (jsonRawToStruct (V_Source v)) (jsonRawToStruct (V_Compiled v)) (V_SourceText v) (V_PublishedAt v).
Record PSegment : Type := mkPSegment {
  ps_Id : uuid; ps_ProjectId : uuid; ps_Key : string; ps_Name : string; ps_Description : string;
  ps_Predicate : option PbStruct; ps_CreatedAt : time; ps_UpdatedAt : time
}.
Definition segmentToProto (s : Segment) : PSegment :=
  mkPSegment (S_ID s) (S_ProjectID s) (S_Key s) (S_Name s) (S_Description s) (jsonRawToStruct (S_Predicate s))
    (S_CreatedAt s) (S_UpdatedAt s).
Record PSnapshot : Type := mkPSnapshot {
  pn_Id : uuid; pn_ProjectId : uuid; pn_Version : Z; pn_Compiled : option PbStruct; pn_CreatedAt : time;
  pn_EnvironmentId : option uuid
}.
Definition snapshotToProto (s : StoredSnapshot) : PSnapshot :=
  mkPSnapshot (N_ID s) (N_ProjectID s) (wrap32 (N_Version s)) (jsonRawToStruct (N_Compiled s)) (N_CreatedAt s)
    (N_EnvironmentID s).
Record PAuditEvent : Type := mkPAuditEvent {
  pa_Id : uuid; pa_ProjectId : option uuid; pa_FlagId : option uuid; pa_Action : string; pa_Actor : option string;
  pa_Payload : option PbStruct; pa_CreatedAt : time
}.
Definition auditEventToProto (a : AuditEvent) : PAuditEvent :=
  mkPAuditEvent (A_ID a) (A_ProjectID a) (A_FlagID a) (A_Action a) (str_ptr (A_Actor a)) (jsonRawToStruct (A_Payload a))
    (A_CreatedAt a).
Record PDecision : Type := mkPDecision {
  pd_Value : option PbValue; pd_Reason : PbReason; pd_Version : Z; pd_RuleId : option string
}.
Definition decisionToProto (d : Decision) : PDecision :=
  mkPDecision (goValueToProto (DValue d)) (decisionReasonToProto (Reason d)) (wrap32 (Version d)) (str_ptr (RuleID d)).

Unset Elimination Schemes.
Inductive PTraceNode : Type := mkPTraceNode {
  pt_Kind : string; pt_Result : bool; pt_Attr : option string; pt_AttrValue : option PbValue;
  pt_Expected : option PbValue; pt_ExpectedValues : list PbValue; pt_Pattern : option string;
  pt_Salt : option string; pt_Percent : option Z; pt_Bucket : option Z; pt_Source : option string;
  pt_Children : list PTraceNode
}.
Set Elimination Schemes.
(** A value that is set only when it is not nil and converts. *)
Definition value_ptr (v : goval) : option PbValue := match v with VNil => None | _ => goValueToProto v end.
Fixpoint traceNodeToProto (n : TraceNode) : PTraceNode :=
  mkPTraceNode (TKind n) (Result n) (str_ptr (TAttr n)) (value_ptr (AttrValue n)) (value_ptr (Expected n))
    (omap goValueToProto (ExpectedValues n)) (str_ptr (TPattern n)) (str_ptr (TSalt n)) (int_ptr (TPercent n))
    (int_ptr (Bucket n)) (str_ptr (TSource n)) (map traceNodeToProto (Children n)).
Record PTraceRule : Type := mkPTraceRule {
  pr_RuleId : string; pr_Matched : bool; pr_Predicate : PTraceNode; pr_Error : option eval_err
}.
Record PTrace : Type := mkPTrace {
  pt_EvaluatedRules : list PTraceRule; pt_DefaultUsed : bool; pt_MatchedRuleId : option string
}.
Definition traceToProto (t : Trace) : PTrace :=
  mkPTrace (map (fun r => mkPTraceRule (TRuleID r) (Matched r) (traceNodeToProto (TPredicate r)) (TError r)) (EvaluatedRules t))
    (DefaultUsed t) (str_ptr (MatchedRuleID t)).

(** ** Responses *)

Inductive message : Type :=
| MProject (p : PProject) | MProjects (l : list PProject)
| MEnvironment (e : PEnvironment) | MEnvironments (l : list PEnvironment)
| MFlag (f : PFlag) | MFlags (l : list PFlag)
| MFlagWithLatest (f : PFlag) (latest : option PFlagVersion)
| MFlagVersion (v : PFlagVersion) | MFlagVersions (l : list PFlagVersion)
| MSegment (s : PSegment) | MSegments (l : list PSegment)
| MSnapshot (s : PSnapshot) | MSnapshots (l : list PSnapshot)
| MDecision (d : PDecision) | MDecisionTrace (d : PDecision) (t : PTrace)
| MAuditEvents (items : list PAuditEvent).

Definition rpc_response : Type := result code message.

Definition connectError (e : store_err) : rpc_response :=
  match e with
  | ErrNotFound => Err CodeNotFound
  | _ => if IsConflict e then Err CodeAlreadyExists else Err CodeInternal
  end.
Definition rpc_badRequest : rpc_response := Err CodeInvalidArgument.
Definition compileErrorToConnect (e : cfg_error) : rpc_response := Err CodeInvalidArgument.

(** ** Projects and environments ([projects.go], [environments.go]) *)

Definition rpc_ListProjects : prog rpc_response :=
  get! rows := listed ListProjects or connectError in
  Done (Ok (MProjects (map projectToProto rows))).
Definition rpc_GetProject (slug : string) : prog rpc_response :=
  get! p := GetProjectBySlug slug or connectError in
  Done (Ok (MProject (projectToProto p))).
Definition rpc_CreateProject (actor slug displayName : string) (configStrategy : PbStrategy) : prog rpc_response :=
  let strategyStr := strategyFromProto configStrategy in
  if negb (Strategy_Valid strategyStr) then Done rpc_badRequest
  else audit_or (mkAuditParams None None "create_project" actor (mustMarshal (VMap [("slug", VStr slug)])))
         (fun d => tx_CreateProject d slug displayName strategyStr)
         connectError (fun proj => Ok (MProject (projectToProto proj))).

Definition rpc_ListEnvironments (projectSlug : string) : prog rpc_response :=
  get! proj := GetProjectBySlug projectSlug or connectError in
  get! rows := listed (ListEnvironmentsByProject (P_ID proj)) or connectError in
  Done (Ok (MEnvironments (map environmentToProto rows))).
Definition rpc_GetEnvironment (projectSlug envSlug : string) : prog rpc_response :=
  get! proj := GetProjectBySlug projectSlug or connectError in
  get! env := GetEnvironmentBySlug (P_ID proj) envSlug or connectError in
  Done (Ok (MEnvironment (environmentToProto env))).
Definition rpc_CreateEnvironment (actor projectSlug slug name : string) : prog rpc_response :=
  get! proj := GetProjectBySlug projectSlug or connectError in
  audit_or (mkAuditParams (Some (P_ID proj)) None "create_environment" actor (mustMarshal (VMap [("slug", VStr slug)])))
    (fun d => tx_CreateEnvironment d (P_ID proj) slug name)
    connectError (fun env => Ok (MEnvironment (environmentToProto env))).

(** ** Segments ([segments.go]) *)

Definition normalizePredicateBytes (s : option PbStruct) : result normalize_err RawMessage :=
  let m := struct_map s in
  let? bytes := of_option EncodeError (marshal (VMap m)) in
  let? p := of_option DecodeError (dec_predicate bytes) in
  when String.eqb (Kind p) (kind_name PredSegment) fail SegmentInSegment ;;
  let? _ := rmap_err Invalid (validatePredicate p true) in
  Ok bytes.

Definition rpc_ListSegments (projectSlug : string) : prog rpc_response :=
  get! proj := GetProjectBySlug projectSlug or connectError in
  get! rows := listed (ListSegmentsByProject (P_ID proj)) or connectError in
  Done (Ok (MSegments (map segmentToProto rows))).
Definition rpc_GetSegment (projectSlug segKey : string) : prog rpc_response :=
  get! proj := GetProjectBySlug projectSlug or connectError in
  get! seg := GetSegmentByKey (P_ID proj) segKey or connectError in
  Done (Ok (MSegment (segmentToProto seg))).
Definition rpc_CreateSegment (actor projectSlug key name description : string) (predicate : option PbStruct) :
    prog rpc_response :=
  get! proj := GetProjectBySlug projectSlug or connectError in
  need! predicateRaw := normalizePredicateBytes predicate or (fun _ => rpc_badRequest) in
  audit_or (mkAuditParams (Some (P_ID proj)) None "create_segment" actor (mustMarshal (VMap [("key", VStr key)])))
    (fun d => tx_CreateSegment d (mkSegmentParams (P_ID proj) key name description predicateRaw))
    connectError (fun seg => Ok (MSegment (segmentToProto seg))).
Definition rpc_UpdateSegment (actor projectSlug segKey name description : string) (predicate : option PbStruct) :
    prog rpc_response :=
  get! proj := GetProjectBySlug projectSlug or connectError in
  need! predicateRaw := normalizePredicateBytes predicate or (fun _ => rpc_badRequest) in
  audit_or (mkAuditParams (Some (P_ID proj)) None "update_segment" actor (mustMarshal (VMap [("key", VStr segKey)])))
    (fun d => tx_UpdateSegment d (mkSegmentParams (P_ID proj) segKey name description predicateRaw))
    connectError (fun seg => Ok (MSegment (segmentToProto seg))).

(** ** Flags ([flags.go]) *)

Definition rpc_ListFlags (projectSlug : string) : prog rpc_response :=
  get! proj := GetProjectBySlug projectSlug or connectError in
  get! rows := listed (ListFlagsByProject (P_ID proj)) or connectError in
  Done (Ok (MFlags (map flagToProto rows))).
Definition rpc_GetFlag (projectSlug key : string) : prog rpc_response :=
  get! proj := GetProjectBySlug projectSlug or connectError in
  get! flag := GetFlagByKey (P_ID proj) key or connectError in
  Read (GetLatestFlagVersion (F_ID flag)) (fun r =>
  match r with
  | Ok v => Done (Ok (MFlagWithLatest (flagToProto flag) (Some (flagVersionToProto v))))
  | Err ErrNotFound => Done (Ok (MFlagWithLatest (flagToProto flag) None))
  | Err e => Done (connectError e)
  end).
Definition rpc_CreateFlag (actor projectSlug key name description : string) (valueType : PbValueType)
    (defaultValue : option PbValue) : prog rpc_response :=
  get! proj := GetProjectBySlug projectSlug or connectError in
  body! defaultRaw := marshal (valueToAny defaultValue) or rpc_badRequest in
  audit_or (mkAuditParams (Some (P_ID proj)) None "create_flag" actor (mustMarshal (VMap [("key", VStr key)])))
    (fun d => tx_CreateFlag d (mkCreateFlagParams (P_ID proj) key name description (valueTypeFromProto valueType) defaultRaw))
    connectError (fun flag => Ok (MFlag (flagToProto flag))).
(** The package's own copy of the segment resolver ([segment_resolver.go]). *)
Definition rpc_storeSegmentResolver (get : string -> option RawMessage) : SegmentResolver :=
  fun key =>
    match get key with
    | None => Err tt
    | Some raw => match dec_predicate raw with None => Err tt | Some pred => Ok (Some pred) end
    end.
Definition rpc_resolveSegmentRefs (get : string -> option RawMessage) (fuel : nat) (sourceRaw : RawMessage) :
    result resolve_err RawMessage :=
  match dec_tree sourceRaw with
  | None => Ok sourceRaw
  | Some tree =>
      let? tree' := ResolveSegments (rpc_storeSegmentResolver get) fuel tree in
      of_option (Failed (Wraps ErrInvalidIR)) (enc_tree tree')
  end.
Lemma rpc_resolve_same : rpc_resolveSegmentRefs = fun get fuel raw => resolveSegmentRefs (storeSegmentResolver get) fuel raw.
Proof. reflexivity. Qed.

Definition rpc_PublishFlagVersion (fuel : nat) (actor projectSlug key : string) (strategy : PbStrategy)
    (source : option PbStruct) (sourceText : string) : prog rpc_response :=
  get! proj := GetProjectBySlug projectSlug or connectError in
  get! flag := GetFlagByKey (P_ID proj) key or connectError in
  let strategyStr := strategyFromProto strategy in
  if negb (Strategy_Valid strategyStr) then Done rpc_badRequest else
  body! sourceRaw := structToJSONRaw source or rpc_badRequest in
  let compileInput := if String.eqb strategyStr StrategyTypeScript && negb (String.eqb sourceText "") then sourceText else sourceRaw in
  Segs (P_ID proj) (fun get =>
  match rpc_resolveSegmentRefs get fuel compileInput with
  | Err Diverges => Panics
  | Err (Failed _) => Done rpc_badRequest
  | Ok resolved =>
      need! compiled := Compile strategyStr resolved
        or (fun e => if isCompileError e then compileErrorToConnect e else rpc_badRequest) in
      body! compiledRaw := enc_tree (IR compiled) or Err CodeInternal in
      let persistedSource :=
        if String.eqb strategyStr StrategyTypeScript && negb (String.eqb sourceText "") then compiledRaw else sourceRaw in
      audit_or (mkAuditParams (Some (P_ID proj)) (Some (F_ID flag)) "publish_version" actor
                  (mustMarshal (VMap [("flag_key", VStr (F_Key flag)); ("strategy", VStr strategyStr)])))
        (fun d => publishFlagVersionTx d (mkPublishParams (F_ID flag) strategyStr persistedSource compiledRaw sourceText))
        connectError (fun published => Ok (MFlagVersion (flagVersionToProto published)))
  end).
Definition rpc_ListFlagVersions (projectSlug key : string) : prog rpc_response :=
  get! proj := GetProjectBySlug projectSlug or connectError in
  get! flag := GetFlagByKey (P_ID proj) key or connectError in
  get! rows := listed (ListFlagVersions (F_ID flag)) or connectError in
  Done (Ok (MFlagVersions (map flagVersionToProto rows))).

(** ** Evaluation ([evaluation.go]) *)

Definition rpc_loadEvaluation (slug key : string) (ctxStruct : option PbStruct)
    (k : Compiled -> Z -> context -> prog rpc_response) : prog rpc_response :=
  get! proj := GetProjectBySlug slug or connectError in
  get! flag := GetFlagByKey (P_ID proj) key or connectError in
  get! version := GetLatestFlagVersion (F_ID flag) or connectError in
  need! compiled := Compile (V_Strategy version) (V_Compiled version) or (fun _ => Err CodeInternal) in
  k compiled (V_Version version) (struct_map ctxStruct).
Definition rpc_Evaluate (projectSlug key : string) (ctxStruct : option PbStruct) : prog rpc_response :=
  rpc_loadEvaluation projectSlug key ctxStruct (fun compiled version ctx =>
    need! d := Evaluate (Some compiled) ctx version or (fun _ => Err CodeInternal) in
    Done (Ok (MDecision (decisionToProto d)))).
Definition rpc_EvaluateWithTrace (projectSlug key : string) (ctxStruct : option PbStruct) : prog rpc_response :=
  rpc_loadEvaluation projectSlug key ctxStruct (fun compiled version ctx =>
    need! dt := EvaluateWithTrace (Some compiled) ctx version or (fun _ => Err CodeInternal) in
    Done (Ok (MDecisionTrace (decisionToProto dt.1) (traceToProto dt.2)))).

(** ** Snapshots ([snapshots.go]) *)

(** An [int32] limit of a message, with the default for one that is not positive. *)
Definition limit_or (n limit : Z) : Z := let limit := wrap32 limit in if limit <=? 0 then n else limit.

Definition rpc_ListSnapshots (projectSlug : string) (limit : Z) : prog rpc_response :=
  get! proj := GetProjectBySlug projectSlug or connectError in
  get! rows := listed (ListSnapshotsByProject (P_ID proj) (limit_or 50 limit)) or connectError in
  Done (Ok (MSnapshots (map snapshotToProto rows))).
Definition rpc_GetSnapshot (projectSlug : string) (id : option uuid) : prog rpc_response :=
  get! proj := GetProjectBySlug projectSlug or connectError in
  body! id := id or rpc_badRequest in
  get! snap := GetSnapshotByID (P_ID proj) id or connectError in
  Done (Ok (MSnapshot (snapshotToProto snap))).
Definition rpc_GetLatestSnapshot (projectSlug : string) : prog rpc_response :=
  get! proj := GetProjectBySlug projectSlug or connectError in
  get! snap := GetLatestSnapshot (P_ID proj) or connectError in
  Done (Ok (MSnapshot (snapshotToProto snap))).

Definition rpc_environment (projectID : uuid) (environmentSlug : option string) (k : option uuid -> prog rpc_response) :
    prog rpc_response :=
  match environmentSlug with
  | None => k None
  | Some s =>
      if String.eqb s "" then k None
      else get! env := GetEnvironmentBySlug projectID s
             or (fun e => match e with ErrNotFound => rpc_badRequest | _ => connectError e end) in
           k (Some (E_ID env))
  end.
(** The package's own copy of [compileBundle]'s loop. *)
Definition rpc_compileBundle (latest : list LatestFlagVersion) : result unit snapshotBundle :=
  rfold (fun bundle lv =>
    match dec_tree (L_Compiled lv) with
    | None => Err tt
    | Some tree => Ok (map_set (L_FlagKey lv) tree bundle)
    end) [] latest.
Lemma rpc_bundle_same : rpc_compileBundle = bundle_of.
Proof. reflexivity. Qed.

Definition rpc_CompileSnapshot (actor projectSlug : string) (environmentSlug : option string) : prog rpc_response :=
  get! proj := GetProjectBySlug projectSlug or connectError in
  rpc_environment (P_ID proj) environmentSlug (fun envID =>
  get! latest := listed (ListLatestFlagVersions (P_ID proj)) or connectError in
  need! bundle := rpc_compileBundle latest or (fun _ => Err CodeInternal) in
  body! compiledRaw := enc_bundle bundle or Err CodeInternal in
  audit_or (mkAuditParams (Some (P_ID proj)) None "compile_snapshot" actor
              (mustMarshal (VMap [("flag_count", VInt (Z.of_nat (List.length bundle)))])))
    (fun d => tx_CompileSnapshot d (mkSnapshotParams (P_ID proj) envID compiledRaw))
    connectError (fun snap => Ok (MSnapshot (snapshotToProto snap)))).

(** ** Audit log ([audit.go]): one page, without a cursor *)

Definition rpc_ListAuditEvents (projectSlug : string) (limit : Z) (action actor : option string) (from to : option time) :
    prog rpc_response :=
  get! proj := GetProjectBySlug projectSlug or connectError in
  let limit := limit_or 100 limit in
  get! rows := listed (ListAuditEvents (mkListAudit (P_ID proj) (default "" action) (default "" actor) from to None 0
                 (wrap32 (limit + 1)))) or connectError in
  Done (Ok (MAuditEvents (map auditEventToProto (take (Z.to_nat limit) rows)))).
End rpc.

(** ** Programs that make the same store calls *)

(** What a read can return: its result on some database, or a fault. *)
Definition possible {X} (q : DB -> result store_err X) (r : result store_err X) : Prop :=
  (exists db, r = q db) \/ exists e, read_fault e /\ r = Err e.

(** The two programs make the same store calls with the same arguments, and
    their answers are related by [R]. *)
Inductive sim {A B} (R : A -> B -> Prop) : prog A -> prog B -> Prop :=
| sim_done a b : R a b -> sim R (Done a) (Done b)
| sim_panics : sim R Panics Panics
| sim_read {X} (q : DB -> result store_err X) k k' :
    (forall r, possible q r -> sim R (k r) (k' r)) -> sim R (Read q k) (Read q k')
| sim_segs project k k' : (forall get, sim R (k get) (k' get)) -> sim R (Segs project k) (Segs project k')
| sim_audit {X} ev (fn : draw -> write X) k k' :
    (forall r, sim R (k r) (k' r)) -> sim R (Audit ev fn k) (Audit ev fn k').

Lemma sim_exec {A B} (R : A -> B -> Prop) p p' db a db' :
  sim R p p' -> exec p db a db' -> exists b, exec p' db b db' /\ R a b.
Proof.
  intros H. revert db. induction H as [x y HR| |X q k k' H IH|pr k k' H IH|X ev fn k k' H IH]; intros db; cbn [exec].
  - intros [-> ->]. by exists y.
  - done.
  - intros (r & Hr & He). destruct (IH r) with db as (b & Hb & HR); [|done|].
    { destruct Hr as [->|Hr]; [left; eauto | by right]. }
    exists b. split; [|done]. by exists r.
  - intros (get & Hg & He). destruct (IH get _ He) as (b & Hb & HR). exists b. split; [|done]. by exists get.
  - intros (envs & dr & ds & He). destruct (WithAudit envs dr ev _ db) as [r db2] eqn:E.
    destruct (IH r _ He) as (b & Hb & HR). exists b. split; [|done]. exists envs, dr, ds. by rewrite E.
Qed.

Lemma sim_flip {A B} (R : A -> B -> Prop) p p' : sim R p p' -> sim (fun b a => R a b) p' p.
Proof. induction 1; constructor; auto. Qed.


Section sim_rules.
Context {A B : Type} (R : A -> B -> Prop).
Lemma sim_get {X} (q : DB -> result store_err X) h h' k k' :
  (forall e, possible q (Err e) -> R (h e) (h' e)) -> (forall x, sim R (k x) (k' x)) -> sim R (get_or q h k) (get_or q h' k').
Proof. intros He Hk. constructor. intros [x|e] Hr; [auto | by constructor; auto]. Qed.
Lemma sim_need {X E} (m : result E X) h h' k k' :
  (forall e, m = Err e -> R (h e) (h' e)) -> (forall x, m = Ok x -> sim R (k x) (k' x)) -> sim R (need m h k) (need m h' k').
Proof. intros He Hk. destruct m; cbn; [auto | by constructor; auto]. Qed.
Lemma sim_body {X} (o : option X) h h' k k' :
  R h h' -> (forall x, o = Some x -> sim R (k x) (k' x)) -> sim R (body_or o h k) (body_or o h' k').
Proof. intros He Hk. destruct o; cbn; [auto | by constructor]. Qed.
Lemma sim_audit_or {X} ev (fn : draw -> write X) h h' k k' :
  (forall e, R (h e) (h' e)) -> (forall x, R (k x) (k' x)) -> sim R (audit_or ev fn h k) (audit_or ev fn h' k').
Proof. intros He Hk. constructor. intros [x|e]; constructor; auto. Qed.
End sim_rules.

(** ** Answers that say the same *)

Definition http_status (c : code) : option Z :=
  match c with
  | CodeNotFound => Some 404 | CodeAlreadyExists => Some 409 | CodeInvalidArgument => Some 400 | CodeInternal => Some 500
  | _ => None
  end.

Section mirror.
Context {RX : RegexpLib} {CEL : CelLib} {TS : TsLib} {SP : StructPb}.

(** An enumeration goes by its names on one surface and by its constants on the
    other; a name outside the table has the unspecified constant. *)
Definition named {E} (table : list (string * E)) (unspecified : E) (name : string) (e : E) : Prop :=
  (name, e) ∈ table \/ (~ (name ∈ map fst table) /\ e = unspecified).
Definition same_strategy : string -> PbStrategy -> Prop :=
  named [("json", STRATEGY_JSON); ("cel", STRATEGY_CEL); ("typescript", STRATEGY_TYPESCRIPT)] STRATEGY_UNSPECIFIED.
Definition same_value_type : string -> PbValueType -> Prop :=
  named [("boolean", VALUE_TYPE_BOOLEAN); ("string", VALUE_TYPE_STRING); ("number", VALUE_TYPE_NUMBER);
         ("object", VALUE_TYPE_OBJECT)] VALUE_TYPE_UNSPECIFIED.
Definition same_reason : string -> PbReason -> Prop :=
  named [("default", DECISION_REASON_DEFAULT); ("rule_matched", DECISION_REASON_RULE_MATCHED);
         ("rollout_in_bucket", DECISION_REASON_ROLLOUT_IN_BUCKET);
         ("rollout_out_of_bucket", DECISION_REASON_ROLLOUT_OUT_OF_BUCKET);
         ("type_mismatch", DECISION_REASON_TYPE_MISMATCH); ("error", DECISION_REASON_ERROR)] DECISION_REASON_UNSPECIFIED.

(** A JSON document: an object is the struct [structpb] makes of it, if it makes
    one.  A null may be a missing or an empty struct.  For any other document,
    and for a stored text that does not decode, which REST shows as a string,
    Connect has no struct. *)
Definition same_document (v : goval) (s : option PbStruct) : Prop :=
  match v with
  | VMap m => s = NewStruct m
  | VNil => s = None \/ s = NewStruct []
  | _ => s = None
  end.
(** A default value: the value [structpb] makes of it; a null may be missing, and
    a stored text that does not decode is a string of REST and missing here. *)
Definition same_default (v : goval) (w : option PbValue) : Prop :=
  w = NewValue v \/ v = VNil /\ w = None \/ exists raw, v = VStr raw /\ (unmarshal_any raw).2 = true /\ w = None.
(** A value a trace shows only when it is not null. *)
Definition same_shown (v : goval) (w : option PbValue) : Prop := (v = VNil -> w = None) /\ (v <> VNil -> w = NewValue v).

Definition same_project (w : WProject) (p : PProject) : Prop :=
  p_Id p = w_Id w /\ p_Slug p = w_Slug w /\ p_DisplayName p = w_DisplayName w /\
  same_strategy (w_ConfigStrategy w) (p_ConfigStrategy p) /\ p_CreatedAt p = w_CreatedAt w /\ p_UpdatedAt p = w_UpdatedAt w.
Definition same_environment (w : WEnvironment) (p : PEnvironment) : Prop :=
  pe_Id p = we_Id w /\ pe_ProjectId p = we_ProjectId w /\ pe_Slug p = we_Slug w /\ pe_Name p = we_Name w /\
  pe_CreatedAt p = we_CreatedAt w.
Definition same_segment (w : WSegment) (p : PSegment) : Prop :=
  ps_Id p = ws_Id w /\ ps_ProjectId p = ws_ProjectId w /\ ps_Key p = ws_Key w /\ ps_Name p = ws_Name w /\
  ps_Description p = ws_Description w /\ same_document (ws_Predicate w) (ps_Predicate p) /\
  ps_CreatedAt p = ws_CreatedAt w /\ ps_UpdatedAt p = ws_UpdatedAt w.
Definition same_flag (w : WFlag) (p : PFlag) : Prop :=
  pf_Id p = wf_Id w /\ pf_ProjectId p = wf_ProjectId w /\ pf_Key p = wf_Key w /\ pf_Name p = wf_Name w /\
  pf_Description p = wf_Description w /\ same_value_type (wf_ValueType w) (pf_ValueType p) /\
  same_default (wf_DefaultValue w) (pf_DefaultValue p) /\ pf_CreatedAt p = wf_CreatedAt w /\ pf_UpdatedAt p = wf_UpdatedAt w.
Definition same_version (w : WFlagVersion) (p : PFlagVersion) : Prop :=
  pv_Id p = wv_Id w /\ pv_FlagId p = wv_FlagId w /\ pv_Version p = wv_Version w /\
  same_strategy (wv_Strategy w) (pv_PbStrategy p) /\ same_document (wv_Source w) (pv_PbSource p) /\
  same_document (wv_Compiled w) (pv_PbCompiled p) /\ pv_PbSourceText p = default "" (wv_SourceText w) /\
  pv_PublishedAt p = wv_PublishedAt w.
Definition same_snapshot (w : WSnapshot) (p : PSnapshot) : Prop :=
  pn_Id p = wn_Id w /\ pn_ProjectId p = wn_ProjectId w /\ pn_Version p = wn_Version w /\
  same_document (wn_Compiled w) (pn_Compiled p) /\ pn_CreatedAt p = wn_CreatedAt w /\
  pn_EnvironmentId p = wn_EnvironmentId w.
Definition same_event (w : WAuditEvent) (p : PAuditEvent) : Prop :=
  pa_Id p = wa_Id w /\ pa_ProjectId p = wa_ProjectId w /\ pa_FlagId p = wa_FlagId w /\ pa_Action p = wa_Action w /\
  pa_Actor p = wa_Actor w /\ same_document (wa_Payload w) (pa_Payload p) /\ pa_CreatedAt p = wa_CreatedAt w.
Definition same_decision (w : WDecision) (p : PDecision) : Prop :=
  pd_Value p = NewValue (wd_Value w) /\ same_reason (wd_Reason w) (pd_Reason p) /\ pd_Version p = wd_Version w /\
  pd_RuleId p = wd_RuleId w.
(** An absent list of REST is an empty one; expected values without a protobuf
    value are left out. *)
Inductive same_node : WTraceNode -> PTraceNode -> Prop :=
| same_node_intro w p :
    pt_Kind p = wt_Kind w -> pt_Result p = wt_Result w -> pt_Attr p = wt_Attr w ->
    same_shown (wt_AttrValue w) (pt_AttrValue p) -> same_shown (wt_Expected w) (pt_Expected p) ->
    pt_ExpectedValues p = omap NewValue (default [] (wt_ExpectedValues w)) ->
    pt_Pattern p = wt_Pattern w -> pt_Salt p = wt_Salt w -> pt_Percent p = wt_Percent w -> pt_Bucket p = wt_Bucket w ->
    pt_Source p = wt_Source w -> Forall2 same_node (default [] (wt_Children w)) (pt_Children p) -> same_node w p.
Definition same_rule (w : WTraceRule) (p : PTraceRule) : Prop :=
  pr_RuleId p = wr_RuleId w /\ pr_Matched p = wr_Matched w /\ same_node (wr_Predicate w) (pr_Predicate p) /\
  pr_Error p = wr_Error w.
Definition same_trace (w : WTrace) (p : PTrace) : Prop :=
  Forall2 same_rule (wt_EvaluatedRules w) (pt_EvaluatedRules p) /\ pt_DefaultUsed p = wt_DefaultUsed w /\
  pt_MatchedRuleId p = wt_MatchedRuleId w.

(** The content of the answers, field by field.  A Connect page of audit events
    has no field for the cursor of the next page. *)
Definition same_content (b : body) (m : message) : Prop :=
  match b, m with
  | BProject w, MProject p => same_project w p
  | BProjects l, MProjects l' => Forall2 same_project l l'
  | BEnvironment w, MEnvironment p => same_environment w p
  | BEnvironments l, MEnvironments l' => Forall2 same_environment l l'
  | BSegment w, MSegment p => same_segment w p
  | BSegments l, MSegments l' => Forall2 same_segment l l'
  | BFlag w, MFlag p => same_flag w p
  | BFlags l, MFlags l' => Forall2 same_flag l l'
  | BFlagWithLatest w v, MFlagWithLatest p v' => same_flag w p /\ option_Forall2 same_version v v'
  | BFlagVersion w, MFlagVersion p => same_version w p
  | BFlagVersions l, MFlagVersions l' => Forall2 same_version l l'
  | BSnapshot w, MSnapshot p => same_snapshot w p
  | BSnapshots l, MSnapshots l' => Forall2 same_snapshot l l'
  | BDecision w, MDecision p => same_decision w p
  | BDecisionTrace w t, MDecisionTrace p t' => same_decision w p /\ same_trace t t'
  | BAuditEvents l _, MAuditEvents l' => Forall2 same_event l l'
  | _, _ => False
  end.

(** *** The converters of the two surfaces show the same *)

Ltac in_table :=
  unfold same_strategy, same_value_type, same_reason, named;
  repeat lazymatch goal with
  | |- context [if String.eqb ?s ?t then _ else _] =>
      destruct (String.eqb_spec s t) as [->|?]; [left; rewrite ?elem_of_cons; tauto|]
  end;
  right; split; [cbn; rewrite ?not_elem_of_cons; split_and?; auto using not_elem_of_nil | done].
Lemma strategies_same s : same_strategy s (protoStrategy s).
Proof. unfold protoStrategy. in_table. Qed.
Lemma value_types_same s : same_value_type s (protoValueType s).
Proof. unfold protoValueType. in_table. Qed.
Lemma reasons_same s : same_reason s (decisionReasonToProto s).
Proof. unfold decisionReasonToProto. in_table. Qed.

Lemma documents_same raw : same_document (rawToAny raw) (jsonRawToStruct raw).
Proof.
  unfold rawToAny, jsonRawToStruct, unmarshal_map.
  destruct (String.eqb_spec raw "") as [->|Hn]; [by left|]. destruct (String.eqb_spec raw "null") as [->|Hn']; [by left|].
  cbn [orb]. destruct (unmarshal_any raw) as [v [|]]; [by destruct v|]. destruct v; cbn; auto.
Qed.
Lemma defaults_same raw : same_default (rawToAny raw) (jsonRawToValue raw).
Proof.
  unfold same_default, rawToAny, jsonRawToValue, goValueToProto.
  destruct (String.eqb_spec raw "") as [->|Hn]; [auto|]. destruct (String.eqb_spec raw "null") as [->|Hn']; [auto|].
  cbn [orb]. destruct (unmarshal_any raw) as [v [|]] eqn:E; [|auto]. right. right. exists raw. by rewrite E.
Qed.
Lemma shown_same v : same_shown v (value_ptr v).
Proof. split; [by intros -> | by destruct v]. Qed.
Lemma list_ptr_default {A} (l : list A) : default [] (list_ptr l) = l.
Proof. by destruct l. Qed.
Lemma str_ptr_default s : default "" (str_ptr s) = s.
Proof. unfold str_ptr. by destruct (String.eqb_spec s ""). Qed.

Lemma projects_same p : same_project (projectToAPI p) (projectToProto p).
Proof. unfold same_project. split_and!; try done. apply strategies_same. Qed.
Lemma environments_same e : same_environment (environmentToAPI e) (environmentToProto e).
Proof. done. Qed.
Lemma segments_same s : same_segment (segmentToAPI s) (segmentToProto s).
Proof. unfold same_segment. split_and!; try done. apply documents_same. Qed.
Lemma flags_same f : same_flag (flagToAPI f) (flagToProto f).
Proof. unfold same_flag. split_and!; try done; [apply value_types_same | apply defaults_same]. Qed.
Lemma versions_same v : same_version (flagVersionToAPI v) (flagVersionToProto v).
Proof. unfold same_version. split_and!; try done; [apply strategies_same | apply documents_same | apply documents_same | symmetry; apply str_ptr_default]. Qed.
Lemma snapshots_same s : same_snapshot (snapshotToAPI s) (snapshotToProto s).
Proof. unfold same_snapshot. split_and!; try done. apply documents_same. Qed.
Lemma events_same a : same_event (auditEventToAPI a) (auditEventToProto a).
Proof. unfold same_event. split_and!; try done. apply documents_same. Qed.
Lemma decisions_same d : same_decision (decisionToAPI d) (decisionToProto d).
Proof. unfold same_decision. split_and!; try done. apply reasons_same. Qed.
Lemma nodes_same : forall n, same_node (traceNodeToAPI n) (traceNodeToProto n).
Proof.
  fix IH 1. intros [kind r a av ex evs pat salt pc bk src ch].
  apply same_node_intro; try done; cbn; rewrite ?list_ptr_default; try apply shown_same; [done|].
  induction ch as [|n ch IHch]; constructor; auto.
Qed.
Lemma Forall2_maps {A B C} (R : B -> C -> Prop) (f : A -> B) (g : A -> C) l : (forall x, R (f x) (g x)) -> Forall2 R (map f l) (map g l).
Proof. intros H. induction l; constructor; auto. Qed.
Lemma traces_same t : same_trace (traceToAPI t) (traceToProto t).
Proof.
  split_and!; try done. apply Forall2_maps. intros r. unfold same_rule. split_and!; try done. apply nodes_same.
Qed.

(** A REST response and a Connect response with the same meaning. *)
Inductive mirrors : response -> rpc_response -> Prop :=
| mir_error c st : http_status c = Some st -> mirrors (writeError st) (Err c)
| mir_compile e : mirrors (writeCompileError e) (Err CodeInvalidArgument)
| mir_ok st b m : st = 200 \/ st = 201 -> same_content b m -> mirrors (writeJSON st b) (Ok m).

Lemma mirrors_store e : mirrors (writeStoreErr e) (connectError e).
Proof. unfold writeStoreErr, connectError. destruct e; [by constructor | destruct (IsConflict _); by constructor | by constructor]. Qed.
Lemma mirrors_found e : e = ErrNotFound \/ read_fault e -> mirrors (notFoundOrError e) (connectError e).
Proof. intros [->|[H1 H2]]; [by constructor|]. destruct e as [|d|]; [done| |by constructor]. cbn in *. rewrite H2. by constructor. Qed.
Lemma mirrors_internal e : read_fault e -> mirrors (internalError e) (connectError e).
Proof. intros [H1 H2]. destruct e as [|d|]; [done| |by constructor]. cbn in *. rewrite H2. by constructor. Qed.

(** Look-ups report a missing row, and nothing else without a fault. *)
Definition lookup_query {X} (q : DB -> result store_err X) : Prop := forall db e, q db = Err e -> e = ErrNotFound.
Lemma project_lookup slug : lookup_query (GetProjectBySlug slug).
Proof. intros db e. apply found_missing. Qed.
Lemma flag_lookup p k : lookup_query (GetFlagByKey p k).
Proof. intros db e. apply found_missing. Qed.
Lemma version_lookup f : lookup_query (GetLatestFlagVersion f).
Proof. intros db e. apply found_missing. Qed.
Lemma environment_lookup p s : lookup_query (GetEnvironmentBySlug p s).
Proof. intros db e. apply found_missing. Qed.
Lemma segment_lookup p k : lookup_query (GetSegmentByKey p k).
Proof. intros db e. apply found_missing. Qed.
Lemma snapshot_lookup p i : lookup_query (GetSnapshotByID p i).
Proof. intros db e. apply found_missing. Qed.
Lemma latest_snapshot_lookup p : lookup_query (GetLatestSnapshot p).
Proof. intros db e. apply found_missing. Qed.

Lemma lookup_possible {X} (q : DB -> result store_err X) e : lookup_query q -> possible q (Err e) -> e = ErrNotFound \/ read_fault e.
Proof. intros Hq [[db H]|(e' & He & [= <-])]; [left; by eapply Hq | by right]. Qed.
Lemma listed_possible {X} (q : DB -> X) e : possible (listed q) (Err e) -> read_fault e.
Proof. by intros [[db H]|(e' & He & [= <-])]. Qed.
End mirror.
#[export] Hint Resolve project_lookup flag_lookup version_lookup environment_lookup segment_lookup snapshot_lookup
  latest_snapshot_lookup : ff.

(** Two answers converted from the same rows. *)
Ltac same_answers :=
  cbn [same_content]; try apply Forall2_maps;
  solve [ auto using projects_same, environments_same, segments_same, flags_same, versions_same, snapshots_same,
            events_same, decisions_same, traces_same
        | intros ?; auto using projects_same, environments_same, segments_same, flags_same, versions_same, snapshots_same,
            events_same ].

(** Walk two handlers down in step. *)
Ltac walk_sim :=
  repeat lazymatch goal with
  | |- sim _ (get_or (listed _) _ _) _ => apply sim_get; [intros ? ?%listed_possible; by apply mirrors_internal | intros ?]
  | |- sim _ (get_or _ _ _) _ =>
      apply sim_get; [intros ? ?%lookup_possible; [by apply mirrors_found | solve [eauto with ff]] | intros ?]
  | |- sim _ (need _ _ _) _ => apply sim_need; [intros ? ?; try (by constructor) | intros ? ?]
  | |- sim _ (body_or _ _ _) _ => apply sim_body; [by constructor | intros ? ?]
  | |- sim _ (audit_or _ _ _ _) _ =>
      apply sim_audit_or; [exact mirrors_store | intros ?; apply mir_ok; [lia | same_answers]]
  | |- sim _ (if ?b then _ else _) _ => destruct b
  | |- sim _ (Segs _ _) _ => apply sim_segs; intros ?
  | |- sim _ (Done (writeJSON _ _)) _ => apply sim_done, mir_ok; [lia | same_answers]
  | |- sim _ (Done _) _ => by repeat constructor
  | |- sim _ Panics _ => constructor
  end.

(** Open the handlers of both surfaces. *)
Ltac unfold_surfaces :=
  unfold h_ListProjects, h_GetProject, h_CreateProject, h_ListEnvironments, h_GetEnvironment, h_CreateEnvironment,
    h_ListSegments, h_GetSegment, h_CreateSegment, h_UpdateSegment, h_ListFlags, h_GetFlag, h_CreateFlag,
    h_PublishFlagVersion, h_ListFlagVersions, h_EvaluateFlag, h_EvaluateFlagWithTrace, loadEvaluation, h_ListSnapshots,
    h_GetSnapshot, h_GetLatestSnapshot, h_CompileSnapshot, select_environment, h_ListAuditEvents, requireStore,
    rpc_ListProjects, rpc_GetProject, rpc_CreateProject, rpc_ListEnvironments, rpc_GetEnvironment, rpc_CreateEnvironment,
    rpc_ListSegments, rpc_GetSegment, rpc_CreateSegment, rpc_UpdateSegment, rpc_ListFlags, rpc_GetFlag, rpc_CreateFlag,
    rpc_PublishFlagVersion, rpc_ListFlagVersions, rpc_Evaluate, rpc_EvaluateWithTrace, rpc_loadEvaluation,
    rpc_ListSnapshots, rpc_GetSnapshot, rpc_GetLatestSnapshot, rpc_CompileSnapshot, rpc_environment, rpc_ListAuditEvents;
  rewrite ?rpc_resolve_same, ?rpc_bundle_same;
  cbn [a_Store rq_Slug rq_DisplayName rq_Strategy rq_EnvSlug rq_EnvName rq_SegKey rq_SegName rq_SegDescription rq_Predicate
    rq_UpdName rq_UpdDescription rq_UpdPredicate rq_Key rq_Name rq_Description rq_ValueType rq_DefaultValue rq_PubStrategy
    rq_Source rq_SourceText rq_Context rq_EnvironmentSlug q_Limit q_Cursor q_Action q_Actor q_From q_To derefString default
    body_or id];
  cbv zeta.

(** ** Requests *)

Section requests.
Context {RX : RegexpLib} {CEL : CelLib} {TS : TsLib} {SP : StructPb} {UT : UuidText}.

Inductive rpc_request : Type :=
| RpcListProjects
| RpcGetProject (slug : string)
| RpcCreateProject (slug displayName : string) (strategy : PbStrategy)
| RpcListEnvironments (projectSlug : string)
| RpcGetEnvironment (projectSlug envSlug : string)
| RpcCreateEnvironment (projectSlug slug name : string)
| RpcListSegments (projectSlug : string)
| RpcGetSegment (projectSlug segKey : string)
| RpcCreateSegment (projectSlug key name description : string) (predicate : option PbStruct)
| RpcUpdateSegment (projectSlug segKey name description : string) (predicate : option PbStruct)
| RpcListFlags (projectSlug : string)
| RpcGetFlag (projectSlug key : string)
| RpcCreateFlag (projectSlug key name description : string) (valueType : PbValueType) (defaultValue : option PbValue)
| RpcPublish (fuel : nat) (projectSlug key : string) (strategy : PbStrategy) (source : option PbStruct) (sourceText : string)
| RpcListFlagVersions (projectSlug key : string)
| RpcEvaluate (projectSlug key : string) (ctx : option PbStruct)
| RpcEvaluateTrace (projectSlug key : string) (ctx : option PbStruct)
| RpcListSnapshots (projectSlug : string) (limit : Z)
| RpcGetSnapshot (projectSlug : string) (id : option uuid)
| RpcGetLatestSnapshot (projectSlug : string)
| RpcCompileSnapshot (projectSlug : string) (environmentSlug : option string)
| RpcListAudit (projectSlug : string) (limit : Z) (action actor : option string) (from to : option time).

Definition rpc_handle (actor : string) (q : rpc_request) : prog rpc_response :=
  match q with
  | RpcListProjects => rpc_ListProjects
  | RpcGetProject slug => rpc_GetProject slug
  | RpcCreateProject slug name s => rpc_CreateProject actor slug name s
  | RpcListEnvironments slug => rpc_ListEnvironments slug
  | RpcGetEnvironment slug env => rpc_GetEnvironment slug env
  | RpcCreateEnvironment slug env name => rpc_CreateEnvironment actor slug env name
  | RpcListSegments slug => rpc_ListSegments slug
  | RpcGetSegment slug key => rpc_GetSegment slug key
  | RpcCreateSegment slug key name d p => rpc_CreateSegment actor slug key name d p
  | RpcUpdateSegment slug key name d p => rpc_UpdateSegment actor slug key name d p
  | RpcListFlags slug => rpc_ListFlags slug
  | RpcGetFlag slug key => rpc_GetFlag slug key
  | RpcCreateFlag slug key name d vt v => rpc_CreateFlag actor slug key name d vt v
  | RpcPublish fuel slug key s src text => rpc_PublishFlagVersion fuel actor slug key s src text
  | RpcListFlagVersions slug key => rpc_ListFlagVersions slug key
  | RpcEvaluate slug key ctx => rpc_Evaluate slug key ctx
  | RpcEvaluateTrace slug key ctx => rpc_EvaluateWithTrace slug key ctx
  | RpcListSnapshots slug limit => rpc_ListSnapshots slug limit
  | RpcGetSnapshot slug id => rpc_GetSnapshot slug id
  | RpcGetLatestSnapshot slug => rpc_GetLatestSnapshot slug
  | RpcCompileSnapshot slug env => rpc_CompileSnapshot actor slug env
  | RpcListAudit slug limit act who from to => rpc_ListAuditEvents slug limit act who from to
  end.

(** The REST request a Connect request corresponds to.  A snapshot id that is
    not a UUID has none: the REST router rejects it before the handler runs. *)
Definition rest_of (actor : string) (q : rpc_request) : option (prog response) :=
  let rest r := Some (handle (mkAPI true) actor r) in
  match q with
  | RpcListProjects => rest ReqListProjects
  | RpcGetProject slug => rest (ReqGetProject slug)
  | RpcCreateProject slug name s => rest (ReqCreateProject (Some (mkCreateProject slug name (strategyFromProto s))))
  | RpcListEnvironments slug => rest (ReqListEnvironments slug)
  | RpcGetEnvironment slug env => rest (ReqGetEnvironment slug env)
  | RpcCreateEnvironment slug env name => rest (ReqCreateEnvironment slug (Some (mkCreateEnvironment env name)))
  | RpcListSegments slug => rest (ReqListSegments slug)
  | RpcGetSegment slug key => rest (ReqGetSegment slug key)
  | RpcCreateSegment slug key name d p =>
      rest (ReqCreateSegment slug (Some (mkCreateSegment key name (Some d) (VMap (struct_map p)))))
  | RpcUpdateSegment slug key name d p =>
      rest (ReqUpdateSegment slug key (Some (mkUpdateSegment name (Some d) (VMap (struct_map p)))))
  | RpcListFlags slug => rest (ReqListFlags slug)
  | RpcGetFlag slug key => rest (ReqGetFlag slug key)
  | RpcCreateFlag slug key name d vt v =>
      rest (ReqCreateFlag slug (Some (mkCreateFlag key name (Some d) (valueTypeFromProto vt) (valueToAny v))))
  | RpcPublish fuel slug key s src text =>
      rest (ReqPublish fuel slug key (Some (mkPublish (strategyFromProto s) (VMap (struct_map src)) (Some text))))
  | RpcListFlagVersions slug key => rest (ReqListFlagVersions slug key)
  | RpcEvaluate slug key ctx => rest (ReqEvaluate slug key (Some (mkEvaluation (struct_map ctx))))
  | RpcEvaluateTrace slug key ctx => rest (ReqEvaluateTrace slug key (Some (mkEvaluation (struct_map ctx))))
  | RpcListSnapshots slug limit => rest (ReqListSnapshots slug (Some (limit_or 50 limit)))
  | RpcGetSnapshot slug id => match id with Some id => rest (ReqGetSnapshot slug id) | None => None end
  | RpcGetLatestSnapshot slug => rest (ReqGetLatestSnapshot slug)
  | RpcCompileSnapshot slug env => rest (ReqCompileSnapshot slug (Some (Some (mkCompileSnapshot env))))
  | RpcListAudit slug limit act who from to =>
      Some (h_ListAuditEvents (mkAPI true) slug (mkListAuditEvents (Some (limit_or 100 limit)) None act who from to))
  end.

Lemma structToJSONRaw_map s : structToJSONRaw s = marshal (VMap (struct_map s)).
Proof. by destruct s. Qed.

Lemma limit_or_range n limit : 0 < n <= int32_max -> 0 < limit_or n limit <= int32_max.
Proof. intros Hn. unfold limit_or. cbv zeta. pose proof (wrap32_range limit). destruct (Z.leb_spec (wrap32 limit) 0); lia. Qed.

(** A first page with a positive limit does not panic. *)
Lemma wrap32_le z : 0 <= z -> wrap32 z <= z.
Proof.
  intros H. unfold wrap32. pose proof (Z.mod_le (z + 2 ^ 31) (2 ^ 32)). lia.
Qed.
Lemma sim_page limit rows :
  0 < limit <= int32_max ->
  sim mirrors (audit_page limit rows) (Done (Ok (MAuditEvents (map auditEventToProto (take (Z.to_nat limit) rows))))).
Proof.
  intros H. unfold audit_page. destruct (Z.ltb_spec limit (wrap32 (Z.of_nat (List.length rows)))) as [Hl|Hl].
  - pose proof (wrap32_le (Z.of_nat (List.length rows)) ltac:(lia)).
    rewrite wrap32_id by (unfold int32_min, int32_max in *; lia). rewrite row_at_nth by lia.
    destruct (lookup_lt_is_Some_2 rows (Z.to_nat (limit - 1))) as [x ->]; [lia|]. walk_sim.
  - walk_sim.
Qed.

Lemma sim_handle actor q p : rest_of actor q = Some p -> sim mirrors p (rpc_handle actor q).
Proof.
  destruct q as [| | | | | | | | | | | | |? ? ? s src text| | | | |? [id|]| | |];
    cbn [rest_of rpc_handle handle]; unfold_surfaces; try (intros [= <-]); try done; try (solve [walk_sim]).
  - walk_sim. apply sim_read. intros [v|e] Hr.
    + apply sim_done, mir_ok; [lia|]. split; [apply flags_same | constructor; apply versions_same].
    + apply lookup_possible in Hr as [->|[H1 H2]]; [| |apply version_lookup].
      * apply sim_done, mir_ok; [lia|]. split; [apply flags_same | constructor].
      * destruct e as [|d|]; [done| |by repeat constructor]. cbn in *. rewrite H2. by repeat constructor.
  - rewrite structToJSONRaw_map. unfold compile_input, persisted_source, from_text. walk_sim.
    destruct (resolveSegmentRefs _ _ _) as [resolved|[|e]]; walk_sim. destruct (isCompileError _); by constructor.
  - apply sim_get; [intros ? ?%lookup_possible; [by apply mirrors_found | apply project_lookup] | intros proj].
    destruct environmentSlug as [s|]; [|solve [walk_sim]]. destruct (String.eqb s ""); [solve [walk_sim]|].
    apply sim_get; [|intros env; solve [walk_sim]]. intros e [->|[H1 H2]]%lookup_possible; [by constructor| |apply environment_lookup].
    destruct e as [|d|]; [done| |by constructor]. cbn in *. rewrite H2. by constructor.
  - walk_sim. apply sim_page, limit_or_range. unfold int32_max. lia.
Qed.
End requests.

(** ** The two surfaces *)

Section surfaces.
Context {RX : RegexpLib} {CEL : CelLib} {TS : TsLib} {SP : StructPb} {UT : UuidText}.

(** C6. Connect mirrors REST: a Connect request other than a look-up of a
    snapshot by an id that is no UUID, and the REST request it corresponds to,
    have the same executions.  For every execution of one, with whatever faults,
    the other has an execution with the same change of the database and a
    corresponding answer.  Errors correspond by code and status (not found 404,
    already exists 409, invalid argument 400 or, for a failed compilation, 422,
    internal 500).  Successful answers agree field by field: identifiers, keys,
    names, versions and times are equal, strategies, value types and reasons
    carry the constant of the same name, and a JSON object or value is what
    [structpb] makes of it.  The differences are those [same_content] spells out:
    Connect has no next cursor, and no struct for a document that is not an
    object or for a stored text that does not decode, which REST shows as a
    string. *)
Theorem connect_mirrors_rest actor q p db db' :
  rest_of actor q = Some p ->
  (forall m, exec (rpc_handle actor q) db m db' -> exists resp, exec p db resp db' /\ mirrors resp m) /\
  (forall resp, exec p db resp db' -> exists m, exec (rpc_handle actor q) db m db' /\ mirrors resp m).
Proof.
  intros Hp. pose proof (sim_handle actor q p Hp) as H. split.
  - intros m Hm. by apply (sim_exec _ _ _ _ _ _ (sim_flip _ _ _ H)).
  - intros resp Hr. by eapply sim_exec.
Qed.

(** Requests of both surfaces in one server. *)
Definition control_plane (p : prog (response + rpc_response)) : Prop :=
  (exists a actor r, p = pmap inl (handle a actor r)) \/
  (exists a slug q, p = pmap inl (h_ListAuditEvents a slug q)) \/
  (exists actor q, p = pmap inr (rpc_handle actor q)).

#[local] Hint Resolve reach_project reach_flag reach_environment reach_segment reach_update reach_snapshot reach_publish : ff.

Lemma rpc_writes actor q : writes (within server_reach) (rpc_handle actor q).
Proof.
  destruct q; cbn [rpc_handle]; unfold_surfaces; walk_writes.
  - intros [v|[]]; apply writes_done.
  - intros get. destruct (resolveSegmentRefs _ _ _) as [resolved|[|e]]; try done. walk_writes.
  - repeat case_match; walk_writes.
Qed.
Lemma audit_writes a slug q : writes (within server_reach) (h_ListAuditEvents a slug q).
Proof.
  unfold h_ListAuditEvents, requireStore. destruct (a_Store a); [|apply writes_done]. walk_writes.
  unfold audit_page. destruct (q_Cursor q) as [s|]; [|walk_writes; repeat case_match; done].
  destruct (String.eqb s ""); [walk_writes; repeat case_match; done|].
  destruct (decodeAuditCursor s) as [[]|]; walk_writes; repeat case_match; done.
Qed.
Lemma control_plane_writes p : control_plane p -> writes (within server_reach) p.
Proof.
  intros [(a & actor & r & ->)|[(a & slug & q & ->)|(actor & q & ->)]]; apply writes_pmap;
    [apply handle_writes | apply audit_writes | apply rpc_writes].
Qed.

(** Whatever REST and Connect requests the server accepts, however their
    store calls interleave and whatever faults they meet, the database keeps the
    store's invariant, and the IR of every stored flag version is the IR of a
    compilation under the strategy it was published with. *)
Theorem server_invariant db pool :
  rtc (server_step control_plane) (mkServer empty_db []) (mkServer db pool) -> server_ok db.
Proof.
  intros H. eapply server_reach_ok, empty_server_ok. eapply (server_kept _ server_reach control_plane_writes _ _ H). constructor.
Qed.
End surfaces.

Module RpcDemo.
Import Demo HandlersDemo SqliteTextDemo.

(** [structpb] with a struct held as the map it came from; only the texts of
    booleans are read as values. *)
#[export] Instance demo_structpb : StructPb := {
  PbValue := goval; PbStruct := list (string * goval);
  NewValue v := Some v;
  NewStruct m := Some m;
  AsInterface v := v; AsMap m := m; NewNullValue := VNil;
  UnmarshalValue raw :=
    if String.eqb raw "true" then Some (VBool true) else if String.eqb raw "false" then Some (VBool false) else None
}.

Definition rpc_publish : rpc_request :=
  RpcPublish 1 "acme" "us" STRATEGY_CEL (jsonRawToStruct us_source) "".
Definition rpc_published : rpc_response :=
  default (Err CodeUnknown) (run (demo_draws 3) (rpc_handle "ops" rpc_publish) db2).1.

Lemma rpc_publish_run : run (demo_draws 3) (rpc_handle "ops" rpc_publish) db2 = (Some rpc_published, db3).
Proof. vm_compute. reflexivity. Qed.
Lemma rpc_publish_exec : exec (rpc_handle "ops" rpc_publish) db2 rpc_published db3.
Proof. exact (run_exec (demo_draws 3) (rpc_handle "ops" rpc_publish) db2 rpc_published db3 rpc_publish_run). Qed.

Lemma connect_mirrors_rest_witness :
  exists p resp, rest_of "ops" rpc_publish = Some p /\ exec p db2 resp db3 /\ mirrors resp rpc_published.
Proof.
  destruct (rest_of "ops" rpc_publish) as [p|] eqn:E; [|discriminate E].
  destruct (connect_mirrors_rest "ops" rpc_publish p db2 db3 E) as [H _].
  destruct (H rpc_published) as (resp & H1 & H2); [exact rpc_publish_exec|].
  exists p, resp. split; [reflexivity | split; [exact H1 | exact H2]].
Defined.

Lemma server_invariant_witness : server_ok db3 /\ List.length (flag_versions db3) = 1%nat.
Proof.
  split; [|vm_compute; reflexivity]. apply (server_invariant db3 []).
  assert (forall n r db a db', answer n r db = (Some a, db') ->
    rtc (server_step control_plane) (mkServer db []) (mkServer db' [])) as Hrest.
  { intros n r db a db' H. apply (exec_server control_plane (pmap inl (handle api "ops" r)) db (inl a) db').
    - left. by exists api, "ops", r.
    - apply exec_pmap. by eapply run_exec. }
  etransitivity; [apply (Hrest 1 new_project empty_db (default (writeError 0) (answer 1 new_project empty_db).1) db1); vm_compute; reflexivity|].
  etransitivity; [apply (Hrest 2 new_flag db1 (default (writeError 0) (answer 2 new_flag db1).1) db2); vm_compute; reflexivity|].
  apply (exec_server control_plane (pmap inr (rpc_handle "ops" rpc_publish)) db2 (inr rpc_published) db3).
  - right. right. exists "ops", rpc_publish. reflexivity.
  - exact (exec_pmap inr (rpc_handle "ops" rpc_publish) db2 rpc_published db3 rpc_publish_exec).
Defined.
End RpcDemo.
