(* ===== verification/Operator.v ===== *)
(** The Kubernetes operator ([internal/operator], [operator/api/v1alpha1]): the
    translation of custom resources into IR, the reconcilers, and what holds of
    the control plane's database after a reconcile.

    A reconciler is a program of Connect calls ([oprog]).  A call is served by
    the Connect handlers, or fails in transport, before or after the server ran
    it.  What the Kubernetes client returns (the resource, the lists it reads,
    whether an update succeeds) and the clock are inputs.  A
    [runtime.RawExtension] is its [Raw] bytes, empty for nil; messages of
    conditions and log lines are not kept. *)
From stdpp Require Import base list strings numbers gmap relations.
From Stdlib Require Import Ascii String ZArith Lia.
From S2P Require Import Prelude Text Literal Json Float64 GoValue Ir Compile Rollout Eval AnyTrip Trace Segments Sdk Db Store SqliteText Api Handlers AuditApi Rpc.

(** ** Custom resources *)

Definition RawExtension : Type := string.

Record ObjectMeta : Type := mkMeta { Deleting : bool; Finalizers : list string; Generation : Z }.
Record Condition : Type := mkCondition {
  c_Type : string; c_Status : bool; c_Reason : string; c_LastTransitionTime : time
}.
(** The status fields every resource has, and those of its own. *)
Record Status (E : Type) : Type := mkStatus {
  Conditions : list Condition; ObservedGeneration : Z; LastSyncTime : option time; Own : E
}.
Arguments mkStatus {E}.
Arguments Conditions {E}.
Arguments ObservedGeneration {E}.
Arguments LastSyncTime {E}.
Arguments Own {E}.
Record Resource (S E : Type) : Type := mkResource { Meta : ObjectMeta; Spec : S; St : Status E }.
Arguments mkResource {S E}.
Arguments Meta {S E}.
Arguments Spec {S E}.
Arguments St {S E}.

Record FlagRule : Type := mkFlagRule {
  fr_ID : string; fr_When : RawExtension; fr_Value : option RawExtension; fr_RolloutRef : string
}.
Record FlagSpecBinding : Type := mkFlagSpecBinding {
  fb_Environment : string; fb_Default : option RawExtension; fb_Rules : option (list FlagRule)
}.
Record FlagSpec : Type := mkFlagSpec {
  fs_ProjectSlug : string; fs_Key : string; fs_Name : string; fs_ValueType : string; fs_Default : RawExtension;
  fs_Rules : list FlagRule; fs_Bindings : list FlagSpecBinding
}.
(** Its own status field is [LastPublishedVersion]. *)
Definition FlagCR : Type := Resource FlagSpec Z.

Record RolloutVariant : Type := mkVariant { rv_ID : string; rv_Weight : Z; rv_Value : RawExtension }.
Definition zero_variant : RolloutVariant := mkVariant "" 0 "".
Record RolloutPolicySpec : Type := mkPolicy {
  rp_ProjectSlug : string; rp_Name : string; rp_Attribute : string; rp_BucketStrategy : string; rp_Salt : string;
  rp_Variants : list RolloutVariant
}.
Definition RolloutPolicyCR : Type := Resource RolloutPolicySpec unit.

Record SegmentSpec : Type := mkSegmentSpec {
  ss_ProjectSlug : string; ss_Key : string; ss_Name : string; ss_Description : string; ss_Predicate : RawExtension
}.
Definition SegmentCR : Type := Resource SegmentSpec unit.
Record ProjectSpec : Type := mkProjectSpec { pj_ProjectSlug : string; pj_DisplayName : string; pj_ConfigStrategy : string }.
Definition ProjectCR : Type := Resource ProjectSpec unit.
Record EnvironmentSpec : Type := mkEnvironmentSpec { es_ProjectSlug : string; es_Slug : string; es_Name : string }.
Definition EnvironmentCR : Type := Resource EnvironmentSpec unit.
Record FlagBindingSpec : Type := mkBindingSpec {
  bs_ProjectSlug : string; bs_FlagKey : string; bs_Environments : list string; bs_Overrides : option RawExtension
}.
(** Its own status field is [PublishedVersions]. *)
Definition FlagBindingCR : Type := Resource FlagBindingSpec (list (string * Z)).
Record FlagSnapshotStatus : Type := mkSnapshotStatus { CompiledVersion : Z; FlagCount : Z }.
(** Its spec is the project's slug. *)
Definition FlagSnapshotCR : Type := Resource string FlagSnapshotStatus.

(** ** Translation ([translate.go]) *)

Definition unmarshalPredicate (raw : RawExtension) : option Predicate :=
  if String.eqb raw "" then None else dec_predicate raw.

(** The loop over the variants: the first of the heaviest, the zero variant
    when no weight is positive. *)
Definition heavier (heaviest v : RolloutVariant) : RolloutVariant :=
  if rv_Weight heaviest <? rv_Weight v then v else heaviest.
Definition pickRolloutValue (rp : RolloutPolicySpec) : option RawMessage :=
  match rp_Variants rp with
  | [] => None
  | first :: _ =>
      let heaviest := fold_left heavier (rp_Variants rp) zero_variant in
      Some (rv_Value (if String.eqb (rv_Value heaviest) "" then first else heaviest))
  end.

Definition rule_for (rollouts : list (string * RolloutPolicySpec)) (r : FlagRule) : option Rule :=
  do? pred := unmarshalPredicate (fr_When r) in
  if negb (String.eqb (fr_RolloutRef r) "") then
    do? rp := map_get (fr_RolloutRef r) rollouts in
    do? value := pickRolloutValue rp in
    Some (mkRule (fr_ID r) (Some pred) value)
  else
    do? value := fr_Value r in
    Some (mkRule (fr_ID r) (Some pred) value).

(** The default and the rules a binding leaves or replaces. *)
Definition default_for (spec : FlagSpec) (binding : option FlagSpecBinding) : RawExtension :=
  default (fs_Default spec) (do? b := binding in fb_Default b).
Definition rules_for (spec : FlagSpec) (binding : option FlagSpecBinding) : list FlagRule :=
  default (fs_Rules spec) (do? b := binding in fb_Rules b).

(** Appending to a nil slice: without rules the slice stays nil. *)
Definition IRForFlag (spec : FlagSpec) (rollouts : list (string * RolloutPolicySpec)) (binding : option FlagSpecBinding) :
    option RulesTree :=
  do? rules := mapM (rule_for rollouts) (rules_for spec binding) in
  Some (mkRulesTree (fs_ValueType spec) (default_for spec binding) (list_ptr rules)).

Definition IRForSegment (seg : SegmentSpec) : option Predicate := unmarshalPredicate (ss_Predicate seg).

Definition PublishSource (tree : RulesTree) : option (list (string * goval)) :=
  do? data := enc_tree tree in unmarshal_map data.

(** ** Conditions and results ([result.go]) *)

(** An error of a call: a [connect.Error] or another one. *)
Inductive api_err : Type := Connect (c : code) | OtherError.

Definition requeueAfterSuccess : Z := 30 * 10 ^ 9.
Definition requeueAfterConflict : Z := 10 ^ 9.

(** The transition time is filled in by [setCondition]. *)
Definition syncedTrue : Condition := mkCondition "Synced" true "UpstreamApplied" 0.
Definition readyTrue : Condition := mkCondition "Ready" true "AsExpected" 0.
Definition conditionFalse (typ reason : string) : Condition := mkCondition typ false reason 0.

Definition translateError (err : option api_err) : Z * Condition * option api_err :=
  match err with
  | None => (requeueAfterSuccess, syncedTrue, None)
  | Some (Connect CodeAlreadyExists) => (requeueAfterSuccess, syncedTrue, None)
  | Some (Connect CodeFailedPrecondition) | Some (Connect CodeAborted) =>
      (requeueAfterConflict, conditionFalse "Synced" "Conflict", None)
  | Some (Connect CodeInvalidArgument) => (0, conditionFalse "Ready" "InvalidSpec", None)
  | Some (Connect CodeNotFound) => (requeueAfterConflict, conditionFalse "Synced" "UpstreamMissing", None)
  | Some e => (0, conditionFalse "Synced" "Error", Some e)
  end.

Definition at_time (t : time) (c : Condition) : Condition := mkCondition (c_Type c) (c_Status c) (c_Reason c) t.
Fixpoint setCondition (now : time) (conds : list Condition) (cond : Condition) : list Condition :=
  match conds with
  | [] => [at_time now cond]
  | c :: rest =>
      if String.eqb (c_Type c) (c_Type cond) then
        at_time (if Bool.eqb (c_Status c) (c_Status cond) then c_LastTransitionTime c else now) cond :: rest
      else c :: setCondition now rest cond
  end.

(** ** Rollout policies ([rolloutpolicy_controller.go]) *)

Fixpoint sum_weights (total : Z) (vs : list RolloutVariant) : option Z :=
  match vs with
  | [] => Some total
  | v :: rest => if String.eqb (rv_Value v) "" then None else sum_weights (wrap32 (total + rv_Weight v)) rest
  end.
Definition validateRolloutPolicy (rp : RolloutPolicySpec) : bool :=
  match rp_Variants rp with
  | [] => false
  | vs => match sum_weights 0 vs with None => false | Some total => total =? 100 end
  end.

(** ** Programs of Connect calls *)

Section operator.
Context {RX : RegexpLib} {CEL : CelLib} {TS : TsLib} {SP : StructPb}.

Inductive oprog (A : Type) : Type :=
| ODone (a : A)
| OCall (q : rpc_request) (k : result api_err message -> oprog A).
Arguments ODone {A} a.
Arguments OCall {A} q k.

Fixpoint obind {A B} (p : oprog A) (f : A -> oprog B) : oprog B :=
  match p with
  | ODone a => f a
  | OCall q k => OCall q (fun r => obind (k r) f)
  end.
Definition omap_prog {A B} (f : A -> B) (p : oprog A) : oprog B := obind p (fun a => ODone (f a)).

(** A call whose answer matters only as success or failure. *)
Definition attempt (q : rpc_request) : oprog (option api_err) :=
  OCall q (fun r => ODone (match r with Ok _ => None | Err e => Some e end)).

(** Get; on [NotFound] create, where [AlreadyExists] counts as success; [found]
    is what an existing object still needs. *)
Definition get_or_create (get : rpc_request) (found : oprog (option api_err)) (create : oprog (option api_err)) :
    oprog (option api_err) :=
  OCall get (fun r =>
  match r with
  | Ok _ => found
  | Err (Connect CodeNotFound) =>
      obind create (fun e => ODone (match e with Some (Connect CodeAlreadyExists) => None | _ => e end))
  | Err e => ODone (Some e)
  end).

(** ** Reconcilers *)

(** What the Kubernetes client and the clock do in one pass: [k_now i] is what the
    [i]th [setCondition] of the pass reads, and [k_now 3] what [nowMeta] reads. *)
Record k8s : Type := mkK8s { update_ok : bool; status_ok : bool; k_now : nat -> time }.
Inductive op_err : Type := Upstream (e : api_err) | Kubernetes.
Record outcome (S E : Type) : Type := mkOutcome { RequeueAfter : Z; Error : option op_err; After : option (Resource S E) }.
Arguments mkOutcome {S E}.
Arguments RequeueAfter {S E}.
Arguments Error {S E}.
Arguments After {S E}.

(** Reading the resource: missing, failed, or there. *)
Inductive got (S E : Type) : Type := GetNotFound | GetFailed | Got (cr : Resource S E).
Arguments GetNotFound {S E}.
Arguments GetFailed {S E}.
Arguments Got {S E}.

Definition with_status {S E} (cr : Resource S E) (st : Status E) : Resource S E := mkResource (Meta cr) (Spec cr) st.
Definition with_finalizers {S E} (cr : Resource S E) (fs : list string) : Resource S E :=
  mkResource (mkMeta (Deleting (Meta cr)) fs (Generation (Meta cr))) (Spec cr) (St cr).

(** The end of a pass: conditions, status fields and the status update. *)
Definition finish {S E} (k : k8s) (cr : Resource S E) (upstreamErr : option api_err) (more : Status E -> Status E) :
    outcome S E :=
  let '(requeue, syncCond, retErr) := translateError upstreamErr in
  let conds := setCondition (k_now k 0) (Conditions (St cr)) syncCond in
  let st :=
    if c_Status syncCond then
      more (mkStatus (setCondition (k_now k 1) conds readyTrue) (Generation (Meta cr)) (Some (k_now k 3)) (Own (St cr)))
    else mkStatus conds (ObservedGeneration (St cr)) (LastSyncTime (St cr)) (Own (St cr)) in
  mkOutcome requeue
    (match retErr with Some e => Some (Upstream e) | None => if status_ok k then None else Some Kubernetes end)
    (Some (with_status cr st)).

(** A pass over a resource without a finalizer. *)
Definition pass {S E A} (k : k8s) (g : got S E) (sync : Resource S E -> oprog A)
    (fin : Resource S E -> A -> outcome S E) : oprog (outcome S E) :=
  match g with
  | GetNotFound => ODone (mkOutcome 0 None None)
  | GetFailed => ODone (mkOutcome 0 (Some Kubernetes) None)
  | Got cr => omap_prog (fin cr) (sync cr)
  end.

(** A pass over a resource with one: deletion removes it, and the first pass
    only adds it. *)
Definition finalized_pass {S E A} (finalizer : string) (k : k8s) (g : got S E) (sync : Resource S E -> oprog A)
    (fin : Resource S E -> A -> outcome S E) : oprog (outcome S E) :=
  match g with
  | Got cr =>
      let has := existsb (String.eqb finalizer) (Finalizers (Meta cr)) in
      if Deleting (Meta cr) then
        if has then
          let cr' := with_finalizers cr (List.filter (fun f => negb (String.eqb finalizer f)) (Finalizers (Meta cr))) in
          ODone (mkOutcome 0 (if update_ok k then None else Some Kubernetes) (Some cr'))
        else ODone (mkOutcome 0 None (Some cr))
      else if negb has then
        let cr' := with_finalizers cr (Finalizers (Meta cr) ++ [finalizer]) in
        ODone (if update_ok k then mkOutcome 1 None (Some cr') else mkOutcome 0 (Some Kubernetes) (Some cr'))
      else pass k g sync fin
  | _ => pass k g sync fin
  end.

(** ** Projects and environments *)

Definition strategyFromString (s : string) : PbStrategy :=
  if String.eqb s "cel" then STRATEGY_CEL
  else if String.eqb s "typescript" then STRATEGY_TYPESCRIPT
  else if String.eqb s "" || String.eqb s "json" then STRATEGY_JSON
  else STRATEGY_UNSPECIFIED.

Definition project_sync (p : ProjectSpec) : oprog (option api_err) :=
  get_or_create (RpcGetProject (pj_ProjectSlug p)) (ODone None)
    (attempt (RpcCreateProject (pj_ProjectSlug p) (pj_DisplayName p) (strategyFromString (pj_ConfigStrategy p)))).
Definition project_Reconcile (k : k8s) (g : got ProjectSpec unit) : oprog (outcome ProjectSpec unit) :=
  pass k g (fun cr => project_sync (Spec cr)) (fun cr e => finish k cr e (fun st => st)).

Definition environment_sync (e : EnvironmentSpec) : oprog (option api_err) :=
  get_or_create (RpcGetEnvironment (es_ProjectSlug e) (es_Slug e)) (ODone None)
    (attempt (RpcCreateEnvironment (es_ProjectSlug e) (es_Slug e) (es_Name e))).
Definition environment_Reconcile (k : k8s) (g : got EnvironmentSpec unit) : oprog (outcome EnvironmentSpec unit) :=
  pass k g (fun cr => environment_sync (Spec cr)) (fun cr e => finish k cr e (fun st => st)).

(** ** Segments *)

Definition segmentFinalizer : string := "segment.falseflag.dev/finalizer".

Definition predicateToStruct (p : Predicate) : option PbStruct :=
  do? data := enc_predicate p in
  do? m := unmarshal_map data in
  NewStruct m.

Definition segment_sync (s : SegmentSpec) : oprog (option api_err) :=
  match (do? pred := IRForSegment s in predicateToStruct pred) with
  | None => ODone (Some (Connect CodeInvalidArgument))
  | Some predStruct =>
      get_or_create (RpcGetSegment (ss_ProjectSlug s) (ss_Key s))
        (attempt (RpcUpdateSegment (ss_ProjectSlug s) (ss_Key s) (ss_Name s) (ss_Description s) (Some predStruct)))
        (attempt (RpcCreateSegment (ss_ProjectSlug s) (ss_Key s) (ss_Name s) (ss_Description s) (Some predStruct)))
  end.
Definition segment_Reconcile (k : k8s) (g : got SegmentSpec unit) : oprog (outcome SegmentSpec unit) :=
  finalized_pass segmentFinalizer k g (fun cr => segment_sync (Spec cr)) (fun cr e => finish k cr e (fun st => st)).

(** ** Rollout policies *)

Definition rolloutpolicy_Reconcile (k : k8s) (g : got RolloutPolicySpec unit) : outcome RolloutPolicySpec unit :=
  match g with
  | GetNotFound => mkOutcome 0 None None
  | GetFailed => mkOutcome 0 (Some Kubernetes) None
  | Got rp =>
      let set i := setCondition (k_now k i) in
      let old := St rp in
      if negb (validateRolloutPolicy (Spec rp)) then
        let conds := set 1%nat (set 0%nat (Conditions old) (conditionFalse "Ready" "InvalidSpec")) (conditionFalse "Resolved" "InvalidSpec") in
        mkOutcome 0 None (Some (with_status rp (mkStatus conds (ObservedGeneration old) (LastSyncTime old) tt)))
      else
        let conds := set 2%nat (set 1%nat (set 0%nat (Conditions old) readyTrue) (mkCondition "Resolved" true "Valid" 0)) syncedTrue in
        let rp' := with_status rp (mkStatus conds (Generation (Meta rp)) (Some (k_now k 3)) tt) in
        if status_ok k then mkOutcome requeueAfterSuccess None (Some rp') else mkOutcome 0 (Some Kubernetes) (Some rp')
  end.

(** ** Flags *)

Definition flagFinalizer : string := "flag.falseflag.dev/finalizer".

Definition valueTypeFromString (s : string) : PbValueType :=
  if String.eqb s "string" then VALUE_TYPE_STRING
  else if String.eqb s "number" then VALUE_TYPE_NUMBER
  else if String.eqb s "object" then VALUE_TYPE_OBJECT
  else if String.eqb s "boolean" || String.eqb s "" then VALUE_TYPE_BOOLEAN
  else VALUE_TYPE_UNSPECIFIED.

Definition rawToValue (raw : RawExtension) : option PbValue :=
  if String.eqb raw "" then Some NewNullValue else UnmarshalValue raw.

Definition ensureFlag (spec : FlagSpec) : oprog (option api_err) :=
  get_or_create (RpcGetFlag (fs_ProjectSlug spec) (fs_Key spec)) (ODone None)
    (match rawToValue (fs_Default spec) with
     | None => ODone (Some (Connect CodeInvalidArgument))
     | Some defaultVal =>
         attempt (RpcCreateFlag (fs_ProjectSlug spec) (fs_Key spec) (fs_Name spec) ""
                    (valueTypeFromString (fs_ValueType spec)) (Some defaultVal))
     end).

(** The policies by name that the flag's rules need, from those of the
    namespace; a later policy of the same name replaces an earlier one. *)
Definition needed (spec : FlagSpec) : list string :=
  List.filter (fun n => negb (String.eqb n "")) (map fr_RolloutRef (fs_Rules spec)).
Definition resolveRollouts (spec : FlagSpec) (policies : option (list RolloutPolicySpec)) :
    option (list (string * RolloutPolicySpec)) :=
  match needed spec with
  | [] => Some []
  | names =>
      do? items := policies in
      let out := fold_left (fun out rp =>
          if negb (String.eqb (rp_ProjectSlug rp) (fs_ProjectSlug spec)) then out
          else if existsb (String.eqb (rp_Name rp)) names then map_set (rp_Name rp) rp out else out) items [] in
      if forallb (fun n => match map_get n out with Some _ => true | None => false end) names then Some out else None
  end.

(** The message of one publish. *)
Definition publish_request (fuel : nat) (slug key : string) (tree : RulesTree) : option rpc_request :=
  do? src := PublishSource tree in
  do? srcStruct := NewStruct src in
  Some (RpcPublish fuel slug key STRATEGY_JSON (Some srcStruct) "").
Definition version_of (m : message) : Z := match m with MFlagVersion v => pv_Version v | _ => 0 end.

Definition publish (fuel : nat) (spec : FlagSpec) (rollouts : list (string * RolloutPolicySpec))
    (binding : option FlagSpecBinding) : oprog (Z * option api_err) :=
  match (do? tree := IRForFlag spec rollouts binding in publish_request fuel (fs_ProjectSlug spec) (fs_Key spec) tree) with
  | None => ODone (0, Some (Connect CodeInvalidArgument))
  | Some q => OCall q (fun r => ODone (match r with Ok m => (version_of m, None) | Err e => (0, Some e) end))
  end.

Fixpoint publish_bindings (fuel : nat) (spec : FlagSpec) (rollouts : list (string * RolloutPolicySpec))
    (bindings : list FlagSpecBinding) (lastVer : Z) : oprog (Z * option api_err) :=
  match bindings with
  | [] => ODone (lastVer, None)
  | b :: rest =>
      obind (publish fuel spec rollouts (Some b)) (fun r =>
      match r with
      | (_, Some e) => ODone (lastVer, Some e)
      | (ver, None) => publish_bindings fuel spec rollouts rest ver
      end)
  end.

Definition flag_sync (fuel : nat) (policies : option (list RolloutPolicySpec)) (spec : FlagSpec) : oprog (Z * option api_err) :=
  obind (ensureFlag spec) (fun e =>
  match e with
  | Some e => ODone (0, Some e)
  | None =>
      match resolveRollouts spec policies with
      | None => ODone (0, Some (Connect CodeInvalidArgument))
      | Some rollouts =>
          match fs_Bindings spec with
          | [] => publish fuel spec rollouts None
          | bindings => publish_bindings fuel spec rollouts bindings 0
          end
      end
  end).
Definition flag_Reconcile (fuel : nat) (policies : option (list RolloutPolicySpec)) (k : k8s) (g : got FlagSpec Z) :
    oprog (outcome FlagSpec Z) :=
  finalized_pass flagFinalizer k g (fun cr => flag_sync fuel policies (Spec cr))
    (fun cr '(lastVersion, e) => finish k cr e (fun st =>
       if 0 <? lastVersion then mkStatus (Conditions st) (ObservedGeneration st) (LastSyncTime st) lastVersion else st)).

(** ** Flag bindings *)

(** Into a [map[string]json.RawMessage]. *)
Definition parseOverridesJSON (data : RawExtension) : list (string * RawExtension) :=
  match scan data with
  | Some (JObj m) => fold_left (fun acc kv => map_set (unquote kv.1) (dec_raw kv.2) acc) m []
  | _ => []
  end.
Definition decodeOverrides (b : FlagBindingSpec) : list (string * RawExtension) :=
  match bs_Overrides b with
  | None => []
  | Some raw => if String.eqb raw "" then [] else parseOverridesJSON raw
  end.
Definition fetchFlag (b : FlagBindingSpec) (flags : option (list FlagSpec)) : option FlagSpec :=
  do? items := flags in
  List.find (fun f => String.eqb (fs_ProjectSlug f) (bs_ProjectSlug b) && String.eqb (fs_Key f) (bs_FlagKey b)) items.

Fixpoint publish_environments (fuel : nat) (b : FlagBindingSpec) (flag : FlagSpec)
    (overrides : list (string * RawExtension)) (envs : list string) (versions : list (string * Z)) :
    oprog (list (string * Z) * option api_err) :=
  match envs with
  | [] => ODone (versions, None)
  | env :: rest =>
      let sb := mkFlagSpecBinding env (map_get env overrides) None in
      match (do? tree := IRForFlag flag [] (Some sb) in publish_request fuel (bs_ProjectSlug b) (bs_FlagKey b) tree) with
      | None => ODone (versions, Some (Connect CodeInvalidArgument))
      | Some q =>
          OCall q (fun r =>
          match r with
          | Ok m => publish_environments fuel b flag overrides rest (map_set env (version_of m) versions)
          | Err (Connect CodeAlreadyExists) => publish_environments fuel b flag overrides rest versions
          | Err e => ODone (versions, Some e)
          end)
      end
  end.
Definition publishAll (fuel : nat) (b : FlagBindingSpec) (flag : FlagSpec) : oprog (list (string * Z) * option api_err) :=
  publish_environments fuel b flag (decodeOverrides b) (bs_Environments b) [].

Definition flagbinding_Reconcile (fuel : nat) (flags : option (list FlagSpec)) (k : k8s)
    (g : got FlagBindingSpec (list (string * Z))) : oprog (outcome FlagBindingSpec (list (string * Z))) :=
  match g with
  | Got cr =>
      match fetchFlag (Spec cr) flags with
      | None =>
          let st := St cr in
          ODone (mkOutcome requeueAfterConflict None (Some (with_status cr
            (mkStatus (setCondition (k_now k 0) (Conditions st) (conditionFalse "Ready" "FlagNotFound"))
               (ObservedGeneration st) (LastSyncTime st) (Own st)))))
      | Some flag =>
          pass k g (fun cr => publishAll fuel (Spec cr) flag) (fun cr '(versions, e) => finish k cr e (fun st =>
            mkStatus (setCondition (k_now k 2) (Conditions st) (mkCondition "Published" true "AllEnvironmentsPublished" 0))
              (ObservedGeneration st) (LastSyncTime st) versions))
      end
  | GetNotFound => ODone (mkOutcome 0 None None)
  | GetFailed => ODone (mkOutcome 0 (Some Kubernetes) None)
  end.

(** ** Flag snapshots *)

(** The number of flags of a snapshot message that has them. *)
Definition flag_count (s : PSnapshot) : option Z :=
  do? comp := pn_Compiled s in
  match map_get "flags" (AsMap comp) with
  | Some (VMap m) => Some (wrap32 (Z.of_nat (List.length m)))
  | _ => None
  end.
Definition snapshot_status (k : k8s) (cr : FlagSnapshotCR) (conds : list Condition) (r : result api_err message) :
    Status FlagSnapshotStatus :=
  let set i := setCondition (k_now k i) in
  let old := St cr in
  match r with
  | Ok (MSnapshot s) =>
      mkStatus (set 2%nat (set 1%nat conds (mkCondition "Compiled" true "SnapshotExists" 0)) readyTrue) (Generation (Meta cr))
        (Some (k_now k 3)) (mkSnapshotStatus (pn_Version s) (default (FlagCount (Own old)) (flag_count s)))
  | Ok _ => mkStatus conds (ObservedGeneration old) (LastSyncTime old) (Own old)
  | Err _ => mkStatus (set 1%nat conds (conditionFalse "Compiled" "Unavailable")) (ObservedGeneration old) (LastSyncTime old) (Own old)
  end.
Definition flagsnapshot_Reconcile (k : k8s) (g : got string FlagSnapshotStatus) : oprog (outcome string FlagSnapshotStatus) :=
  match g with
  | GetNotFound => ODone (mkOutcome 0 None None)
  | GetFailed => ODone (mkOutcome 0 (Some Kubernetes) None)
  | Got cr =>
      OCall (RpcGetLatestSnapshot (Spec cr)) (fun r =>
      let '(requeue, syncCond, retErr) := translateError (match r with Ok _ => None | Err e => Some e end) in
      let conds := setCondition (k_now k 0) (Conditions (St cr)) syncCond in
      ODone (mkOutcome requeue
        (match retErr with Some e => Some (Upstream e) | None => if status_ok k then None else Some Kubernetes end)
        (Some (with_status cr (snapshot_status k cr conds r)))))
  end.
End operator.
Arguments ODone {SP A} a.
Arguments OCall {SP A} q k.
Arguments mkOutcome {S E}.
Arguments RequeueAfter {S E}.
Arguments Error {S E}.
Arguments After {S E}.
Arguments GetNotFound {S E}.
Arguments GetFailed {S E}.
Arguments Got {S E}.

(** ** Executions *)

(** [NewStruct] keeps the contents of a decoded JSON object. *)
Class StructPbLaws {SP : StructPb} : Prop :=
  as_map_new : forall m s, plain (VMap m) = true -> NewStruct m = Some s -> AsMap s = m.

Section executions.
Context {RX : RegexpLib} {CEL : CelLib} {TS : TsLib} {SP : StructPb}.
Variable actor : string.

(** A call is answered by the server, or fails in transport, in which case the
    server ran it or not. *)
Definition served (q : rpc_request) (db : DB) (r : result api_err message) (db' : DB) : Prop :=
  (exists m, exec (rpc_handle actor q) db m db' /\ r = rmap_err Connect m) \/
  (exists e, r = Err e /\ (db' = db \/ exists m, exec (rpc_handle actor q) db m db')).

Fixpoint oexec {A} (p : oprog A) (db : DB) (a : A) (db' : DB) : Prop :=
  match p with
  | ODone x => a = x /\ db' = db
  | OCall q k => exists r db1, served q db r db1 /\ oexec (k r) db1 a db'
  end.

Lemma oexec_bind {A B} (p : oprog A) (f : A -> oprog B) db b db' :
  oexec (obind p f) db b db' <-> exists a db1, oexec p db a db1 /\ oexec (f a) db1 b db'.
Proof.
  revert db. induction p as [x|q k IH]; intros db; cbn [obind oexec].
  - split; [intros H; by exists x, db | by intros (a & db1 & [-> ->] & H)].
  - split.
    + intros (r & db1 & Hs & (a & db2 & H1 & H2)%IH). exists a, db2. eauto.
    + intros (a & db2 & (r & db1 & Hs & H1) & H2). exists r, db1. split; [done|]. apply IH. eauto.
Qed.

(** What every served request does, in a preorder. *)
Section within.
Context (T : DB -> DB -> Prop) `{!PreOrder T}.
Fixpoint calls_within {A} (p : oprog A) : Prop :=
  match p with
  | ODone _ => True
  | OCall q k => writes (within T) (rpc_handle actor q) /\ forall r, calls_within (k r)
  end.
Lemma served_within q db r db' : writes (within T) (rpc_handle actor q) -> served q db r db' -> T db db'.
Proof. intros Hw [(m & H & _)|(e & _ & [->|[m H]])]; [by eapply exec_within | done | by eapply exec_within]. Qed.
Lemma oexec_within {A} (p : oprog A) db a db' : calls_within p -> oexec p db a db' -> T db db'.
Proof.
  revert db. induction p as [x|q k IH]; intros db; cbn [calls_within oexec].
  - by intros _ [_ ->].
  - intros [Hq Hk] (r & db1 & Hs & H). etransitivity; [by eapply served_within | by eapply IH].
Qed.
End within.

(** No reconciler breaks the server. *)
Lemma calls_reach {A} (p : oprog A) : calls_within server_reach p.
Proof. induction p; cbn [calls_within]; [done|]. split; [apply rpc_writes | done]. Qed.
Lemma oexec_ok {A} (p : oprog A) db a db' : server_ok db -> oexec p db a db' -> server_ok db'.
Proof. intros Hok H. apply (server_reach_ok db db'); [|done]. exact (oexec_within server_reach p db a db' (calls_reach p) H). Qed.

(** ** Making sure the flag exists publishes nothing *)

Definition same_log (db db' : DB) : Prop := flag_versions db' = flag_versions db.
#[export] Instance same_log_preorder : PreOrder same_log.
Proof. split; [done|]. intros x y z H1 H2. unfold same_log in *. congruence. Qed.

Lemma within_same_log {X} ev (fn : draw -> write X) :
  (forall d db x db', fn d db = Ok (x, db') -> same_log db db') -> within same_log X ev fn.
Proof.
  intros Hf envs dr ds db. destruct (WithAudit_cases envs dr ev (fun n => fn (ds n)) db) as [[e ->]|(n & x & db1 & row & _ & Ef & -> & _)]; cbn.
  - done.
  - by apply Hf in Ef.
Qed.

Lemma ensure_same_log spec : calls_within same_log (ensureFlag spec).
Proof.
  split; [unfold_surfaces; cbn [rpc_handle]; unfold_surfaces|].
  - walk_writes. intros [v|[]]; apply writes_done.
  - intros [m|[[]|]]; try done. cbn [obind].
    destruct (rawToValue _); [|done]. split; [|done]. cbn [rpc_handle]. unfold_surfaces. walk_writes.
    apply writes_audit, within_same_log. intros d db y db' Hq. apply wrap_ok in Hq as (r & Hq & _). unfold q_CreateFlag in Hq. by inv_stmt Hq.
Qed.

Lemma same_log_log db db' f : same_log db db' -> log db' f = log db f.
Proof. intros H. unfold log, versions_of. by rewrite H. Qed.

(** ** Publishing *)

Definition tree_no_refs (t : RulesTree) : bool := forallb (fun r => no_refs_ptr (When r)) (rules_of t).

(** The tree the server compiles for an operator's message decides like the IR
    itself, when it has no segment reference to inline. *)
Lemma resolve_id resolver fuel t : tree_no_refs t = true -> ResolveSegments resolver (S fuel) t = Ok t.
Proof.
  unfold tree_no_refs, ResolveSegments, rules_of. destruct t as [vt df [rs|]]; cbn [Rules default from_option id]; [|done]. intros H.
  rewrite rmap_id; [done|]. rewrite forallb_forall in H. apply List.Forall_forall. intros [id [p|] v] Hin; [|done].
  specialize (H _ Hin). unfold resolve_rule. cbn [When no_refs_ptr] in *. cbn [resolveOne]. by rewrite resolve_walk_id.
Qed.
Lemma tree_no_refs_respell f t : tree_no_refs (respell_tree f t) = tree_no_refs t.
Proof.
  unfold tree_no_refs. rewrite rules_of_respell. induction (rules_of t) as [|[id [p|] v] rs IH]; cbn; [done| |done].
  by rewrite no_refs_respell, IH.
Qed.

Lemma json_compile_spec src c :
  Compile StrategyJSON src = Ok c <-> exists t, dec_tree src = Some t /\ validateTree t = Ok tt /\ c = mkCompiled StrategyJSON t ∅.
Proof.
  unfold Compile, CompilerFor. cbn. unfold json_Compile, unmarshal_tree. destruct (dec_tree src) as [t|]; cbn [of_option rbind].
  - destruct (validateTree t) as [[]|e] eqn:E; cbn [rbind]; split.
    + intros [= <-]. by exists t.
    + by intros (t' & [= <-] & _ & ->).
    + done.
    + intros (t' & [= <-] & E' & _). congruence.
  - split; [done | by intros (t & ? & _)].
Qed.
Lemma validateTree_respell f t : (forall r, raw_equiv (f r) r) -> validateTree (respell_tree f t) = validateTree t.
Proof. intros Hf. rewrite !validateTree_with. by apply validateTreeWith_respell. Qed.

(** A tree without empty raw messages has nothing to fill in. *)
Definition no_empty_raws (t : RulesTree) : Prop :=
  Default t <> "" /\ Forall (fun r => RuleValue r <> "") (rules_of t).
Lemma fill_id t : no_empty_raws t -> fill_tree t = t.
Proof.
  assert (forall r, r <> "" -> fill_raw r = r) as Hf by (intros r H; unfold fill_raw; by destruct (String.eqb_spec r "")).
  destruct t as [vt df rs]. unfold no_empty_raws, fill_tree, rules_of. cbn [Default Rules TreeValueType]. intros [Hd Hr]. rewrite (Hf df Hd). f_equal.
  destruct rs as [rs|]; [|done]. cbn in *. f_equal. induction Hr as [|[i w v] rs Hv _ IH]; cbn; [done|]. by rewrite (Hf v Hv), IH.
Qed.
Lemma full_no_empty t : full_tree t = true -> no_empty_raws t.
Proof.
  assert (forall r, raw_ok r = true -> r <> "") as Hok by (by intros r H ->).
  unfold full_tree, no_empty_raws. intros H. bsplit. split; [auto|]. rewrite forallb_forall in *. apply List.Forall_forall. intros r Hin.
  apply Hok. specialize (H0 r Hin). unfold full_rule in H0. by bsplit.
Qed.
Lemma respell_no_empty f t : (forall r, raw_equiv (f r) r) -> no_empty_raws t -> no_empty_raws (respell_tree f t).
Proof.
  intros Hf [Hd Hr]. assert (forall r, r <> "" -> f r <> "") as He.
  { intros r H E. pose proof (respell_empty f Hf r) as Hr'. unfold is_empty in Hr'. rewrite E in Hr'. cbn in Hr'. by destruct (String.eqb_spec r ""). }
  split; [by apply He|]. rewrite rules_of_respell. apply Forall_map. eapply List.Forall_impl; [|exact Hr]. intros r H. by apply He.
Qed.

(** The text of a tree decodes into a map. *)
Lemma tree_any t data v : wf_tree t = true -> plain_tree t = true -> enc_tree t = Some data -> unmarshal_any data = (v, false) -> exists m, v = VMap m.
Proof.
  intros Hw Hp Ed Ev. destruct (tree_thru t Hw Hp) as (d & d' & Et & [Hd _] & _). unfold enc_tree in Ed. rewrite Et in Ed. injection Ed as <-.
  unfold unmarshal_any in Ev. rewrite (scan_print d Hd) in Ev. unfold enc_tree_doc in Et.
  destruct (enc_raw _) as [e|]; [|done]. destruct (match Rules t with None => _ | Some _ => _ end) as [rd|]; [|done]. cbn in Et.
  injection Et as <-. cbn [any_of] in Ev. injection Ev as <- _. eauto.
Qed.

(** What the server compiles for an operator's message: the IR, with its literals in
    the spelling the message gives them, once its segment references are inlined. *)
Lemma published_resolved resolver fuel t data m s source resolved `{!StructPbLaws} :
  wf_tree t = true -> plain_tree t = true -> enc_tree t = Some data -> unmarshal_map data = Some m -> NewStruct m = Some s ->
  structToJSONRaw (Some s) = Some source -> resolveSegmentRefs resolver fuel source = Ok resolved ->
  wf_tree (respell_tree canon t) = true /\
  exists t1, ResolveSegments resolver fuel (respell_tree canon t) = Ok t1 /\ enc_tree t1 = Some resolved.
Proof.
  intros Hw Hp Ed Em Es Esrc Eres. destruct (tree_text_thru t data Hw Hp Ed) as (v & j' & Ev & Hv & Ej & Dj).
  destruct (tree_any t data v Hw Hp Ed Ev) as [m' ->]. unfold unmarshal_map in Em. rewrite Ev in Em. injection Em as ->.
  cbn [structToJSONRaw] in Esrc. rewrite (as_map_new _ _ Hv Es), Ej in Esrc. injection Esrc as <-.
  split; [exact (dec_tree_wf _ _ Dj)|]. unfold resolveSegmentRefs in Eres. rewrite Dj in Eres.
  apply rbind_ok in Eres as (t1 & Er & Ee). exists t1. split; [done|]. destruct (enc_tree t1); [by injection Ee as -> | done].
Qed.

Lemma published_ir resolver fuel t data m s source resolved c' `{!StructPbLaws} :
  full_tree t = true -> plain_tree t = true -> tree_no_refs t = true ->
  enc_tree t = Some data -> unmarshal_map data = Some m -> NewStruct m = Some s -> structToJSONRaw (Some s) = Some source ->
  resolveSegmentRefs resolver (S fuel) source = Ok resolved -> Compile StrategyJSON resolved = Ok c' ->
  exists c, Compile StrategyJSON data = Ok c /\ forall ctx n, Evaluate (Some c') ctx n = Evaluate (Some c) ctx n.
Proof.
  intros Hfull Hp Hr Ed Em Es Esrc Eres Hc.
  assert (wf_tree t = true) as Hw by (unfold full_tree in Hfull; by bsplit).
  destruct (published_resolved _ _ _ _ _ _ _ _ Hw Hp Ed Em Es Esrc Eres) as (Hw1 & t1 & Et1 & E1).
  rewrite resolve_id in Et1 by (by rewrite tree_no_refs_respell). injection Et1 as <-.
  destruct (tree_trip t Hfull) as (data' & Ed' & Dd). rewrite Ed in Ed'. injection Ed' as <-.
  destruct (tree_trip_fill (respell_tree canon t) Hw1) as (j1' & E1' & D1). rewrite E1 in E1'. injection E1' as <-.
  rewrite fill_id in D1 by (apply respell_no_empty; [exact canon_equiv | by apply full_no_empty]).
  apply json_compile_spec in Hc as (t2 & D2 & V2 & ->). rewrite D1 in D2. injection D2 as <-.
  rewrite !validateTree_respell in V2 by auto using norm_raw_equiv, canon_equiv.
  exists (mkCompiled StrategyJSON (norm_tree t) ∅). split.
  - apply json_compile_spec. exists (norm_tree t). split_and!; [done| |done]. by rewrite validateTree_respell by apply norm_raw_equiv.
  - intros ctx n. rewrite !Evaluate_respell by auto using norm_raw_equiv, canon_equiv. done.
Qed.

Lemma mirrors_version st v m : mirrors (writeJSON st (BFlagVersion (flagVersionToAPI v))) (Ok m) -> version_of m = wrap32 (V_Version v).
Proof.
  intros H. inversion H as [| |? ? ? ? Hc]; subst. destruct m; try done. destruct Hc as (_ & _ & Hc & _). exact Hc.
Qed.

(** A publish call that was answered with success. *)
Lemma publish_call fuel slug key s db m db' :
  db_ok db -> served (RpcPublish fuel slug key STRATEGY_JSON (Some s) "") db (Ok m) db' ->
  exists proj flag get source resolved c n,
    GetProjectBySlug slug db = Ok proj /\ GetFlagByKey (P_ID proj) key db = Ok flag /\
    GetProjectBySlug slug db' = Ok proj /\ GetFlagByKey (P_ID proj) key db' = Ok flag /\
    (exists e, log db' (F_ID flag) = log db (F_ID flag) ++ [e]) /\ n = Z.of_nat (List.length (log db' (F_ID flag))) /\
    version_of m = wrap32 n /\
    (forall k raw, get k = Some raw -> segment_text (P_ID proj) db' k = Some raw) /\
    structToJSONRaw (Some s) = Some source /\ resolveSegmentRefs (storeSegmentResolver get) fuel source = Ok resolved /\
    Compile StrategyJSON resolved = Ok c /\
    forall ds ctx, run ds (h_EvaluateFlag (mkAPI true) slug key (Some (mkEvaluation ctx))) db' =
      (Some (match Evaluate (Some c) ctx n with
             | Ok d => writeJSON 200 (BDecision (decisionToAPI d))
             | Err _ => writeError 500
             end), db').
Proof.
  intros Hok [(r & H & E)|(e & [=] & _)]. destruct r as [m'|]; [|done]. injection E as <-.
  pose (UT := Build_UuidText (fun _ => "") (fun _ => None)).    (* no identifier is read or written here *)
  destruct (sim_exec _ _ _ _ _ _ (sim_flip _ _ _ (sim_handle actor (RpcPublish fuel slug key STRATEGY_JSON (Some s) "") _ eq_refl)) H)
    as (resp & Hr & Hm). cbn [handle] in Hr.
  assert (success resp) as Hs by (inversion Hm; subst; unfold success; cbn; lia).
  destruct (publish_serves _ _ _ _ _ _ _ _ Hok Hr Hs) as
    (proj & flag & get & source & resolved & c & v & Hp & Hf & Hg & Es & Er & Hc & -> & Hp' & Hf' & Hseg & [e He] & Hn & Hev).
  exists proj, flag, get, source, resolved, c, (V_Version v). split_and!; try done.
  - exists e. by rewrite He, Z.eqb_refl.
  - apply mirrors_version in Hm. by rewrite Hm.
  - intros k raw Hk. rewrite <- (Hg k raw Hk). unfold segment_text, GetSegmentByKey, q_GetSegmentByKey. by rewrite Hseg.
Qed.

Definition serves_ir (slug key : string) (tree : RulesTree) (n : Z) (db : DB) : Prop :=
  exists data c, enc_tree tree = Some data /\ Compile StrategyJSON data = Ok c /\
    forall ds ctx, run ds (h_EvaluateFlag (mkAPI true) slug key (Some (mkEvaluation ctx))) db =
      (Some (match Evaluate (Some c) ctx n with
             | Ok d => writeJSON 200 (BDecision (decisionToAPI d))
             | Err _ => writeError 500
             end), db).

(** The same for an IR with segment references: they are replaced by the segments that
    are stored, in the IR with the literals as the protobuf message spells them. *)
Definition serves_resolved (project : uuid) (slug key : string) (tree : RulesTree) (n : Z) (db : DB) : Prop :=
  exists get fuel t1 data c,
    (forall k raw, get k = Some raw -> segment_text project db k = Some raw) /\
    ResolveSegments (storeSegmentResolver get) fuel (respell_tree canon tree) = Ok t1 /\
    enc_tree t1 = Some data /\ Compile StrategyJSON data = Ok c /\
    forall ds ctx, run ds (h_EvaluateFlag (mkAPI true) slug key (Some (mkEvaluation ctx))) db =
      (Some (match Evaluate (Some c) ctx n with
             | Ok d => writeJSON 200 (BDecision (decisionToAPI d))
             | Err _ => writeError 500
             end), db).

(** The state after a sequence of publishes that ended with [tree]. *)
Record published (slug key : string) (tree : RulesTree) (count : nat) (ver : Z) (db db' : DB) : Prop := mkPublished {
  pub_flag : exists proj flag es, GetProjectBySlug slug db = Ok proj /\ GetFlagByKey (P_ID proj) key db = Ok flag /\
    GetProjectBySlug slug db' = Ok proj /\ GetFlagByKey (P_ID proj) key db' = Ok flag /\
    log db' (F_ID flag) = log db (F_ID flag) ++ es /\ List.length es = count /\
    ver = wrap32 (Z.of_nat (List.length (log db' (F_ID flag)))) /\
    (full_tree tree = true -> plain_tree tree = true ->
     serves_resolved (P_ID proj) slug key tree (Z.of_nat (List.length (log db' (F_ID flag)))) db' /\
     (tree_no_refs tree = true -> serves_ir slug key tree (Z.of_nat (List.length (log db' (F_ID flag)))) db'))
}.

Context {laws : StructPbLaws}.

Lemma publish_effect fuel spec rollouts b db ver db' :
  db_ok db -> oexec (publish (S fuel) spec rollouts b) db (ver, None) db' ->
  exists tree, IRForFlag spec rollouts b = Some tree /\ published (fs_ProjectSlug spec) (fs_Key spec) tree 1 ver db db'.
Proof.
  intros Hok. unfold publish, publish_request. destruct (IRForFlag spec rollouts b) as [tree|]; [|by intros [[=] _]].
  cbn [mbind option_bind]. unfold PublishSource. destruct (enc_tree tree) as [data|] eqn:Ed; [|by intros [[=] _]]. cbn [mbind option_bind].
  destruct (unmarshal_map data) as [src|] eqn:Em; [|by intros [[=] _]]. cbn [mbind option_bind].
  destruct (NewStruct src) as [s|] eqn:Es; [|by intros [[=] _]]. cbn [mbind option_bind].
  intros (r & db1 & Hs & [Er ->]). destruct r as [m|]; [|done]. injection Er as ->. exists tree. split; [done|].
  destruct (publish_call _ _ _ _ _ _ _ Hok Hs) as
    (proj & flag & get & source & resolved & c & n & Hp & Hf & Hp' & Hf' & [e He] & -> & Hv & Hg & Esrc & Er & Hc & Hev).
  constructor. exists proj, flag, [e]. split_and!; try done. intros H1 H2. split.
  { assert (wf_tree tree = true) as Hw by (unfold full_tree in H1; by bsplit).
    destruct (published_resolved _ _ _ _ _ _ _ _ Hw H2 Ed Em Es Esrc Er) as (_ & t1 & Et1 & E1).
    exists get, (S fuel), t1, resolved, c. by split_and!. }
  intros H3. destruct (published_ir _ _ _ _ _ _ _ _ _ H1 H2 H3 Ed Em Es Esrc Er Hc) as (c0 & Hc0 & Heq).
  exists data, c0. split_and!; try done. intros ds ctx. rewrite Hev. by rewrite Heq.
Qed.

Lemma published_trans slug key t1 t2 n1 n2 v1 v2 db1 db2 db3 :
  published slug key t1 n1 v1 db1 db2 -> published slug key t2 n2 v2 db2 db3 -> published slug key t2 (n1 + n2) v2 db1 db3.
Proof.
  intros [(proj & flag & es & Hp & Hf & Hp' & Hf' & Hl & Hn & _ & _)] [(proj2 & flag2 & es2 & Hp2 & Hf2 & Hp3 & Hf3 & Hl2 & Hn2 & Hv & Hs)].
  rewrite Hp' in Hp2. injection Hp2 as <-. rewrite Hf' in Hf2. injection Hf2 as <-.
  constructor. exists proj, flag, (es ++ es2). split_and!; try done.
  - by rewrite Hl2, Hl, app_assoc.
  - by rewrite length_app, Hn, Hn2.
Qed.

Lemma bindings_effect fuel spec rollouts bs b ver0 db ver db' :
  server_ok db -> oexec (publish_bindings (S fuel) spec rollouts (b :: bs) ver0) db (ver, None) db' ->
  exists tree, IRForFlag spec rollouts (last (b :: bs)) = Some tree /\
    published (fs_ProjectSlug spec) (fs_Key spec) tree (List.length (b :: bs)) ver db db'.
Proof.
  revert b ver0 db. induction bs as [|b' bs IH]; intros b ver0 db Hok H; cbn [publish_bindings] in H;
    apply oexec_bind in H as ([v [e|]] & db1 & H1 & H2); try by destruct H2 as [[=] _].
  - destruct H2 as [[= ->] ->]. by apply publish_effect in H1; [|apply Hok].
  - assert (server_ok db1) as Hok1 by (by eapply oexec_ok).
    destruct (IH b' v db1 Hok1 H2) as (tree & Et & Hp). apply publish_effect in H1 as (t1 & _ & Hp1); [|apply Hok].
    exists tree. split; [done|]. apply (published_trans _ _ _ _ 1 _ _ _ _ _ _ Hp1 Hp).
Qed.
End executions.

(** ** Conditions *)

Definition condition (typ : string) (conds : list Condition) : option Condition :=
  List.find (fun c => String.eqb (c_Type c) typ) conds.

Lemma set_types now conds cond typ :
  In typ (map c_Type (setCondition now conds cond)) <-> In typ (map c_Type conds) \/ typ = c_Type cond.
Proof.
  induction conds as [|c conds IH]; cbn [setCondition map In at_time c_Type].
  - intuition congruence.
  - destruct (String.eqb_spec (c_Type c) (c_Type cond)) as [E|E]; cbn [map In c_Type at_time]; [rewrite E; intuition congruence|].
    rewrite IH. tauto.
Qed.
Lemma set_unique now conds cond : NoDup (map c_Type conds) -> NoDup (map c_Type (setCondition now conds cond)).
Proof.
  induction conds as [|c conds IH]; cbn [setCondition map]; [intros _; apply NoDup_singleton|]. intros [Hc Hn]%NoDup_cons.
  destruct (String.eqb_spec (c_Type c) (c_Type cond)) as [E|E]; cbn [map c_Type at_time].
  - rewrite <- E. by constructor.
  - constructor; [|auto]. rewrite list_elem_of_In, set_types, <- list_elem_of_In. intuition.
Qed.
Lemma set_same now conds cond :
  condition (c_Type cond) (setCondition now conds cond) =
    Some (at_time (match condition (c_Type cond) conds with
                   | Some c => if Bool.eqb (c_Status c) (c_Status cond) then c_LastTransitionTime c else now
                   | None => now
                   end) cond).
Proof.
  unfold condition. induction conds as [|c conds IH]; cbn [setCondition List.find]; [by rewrite String.eqb_refl|].
  destruct (String.eqb_spec (c_Type c) (c_Type cond)) as [E|E]; cbn [List.find c_Type at_time].
  - by rewrite String.eqb_refl.
  - by destruct (String.eqb_spec (c_Type c) (c_Type cond)).
Qed.
Lemma set_other now conds cond typ : typ <> c_Type cond -> condition typ (setCondition now conds cond) = condition typ conds.
Proof.
  intros H. unfold condition. induction conds as [|c conds IH]; cbn [setCondition List.find at_time c_Type].
  - by destruct (String.eqb_spec (c_Type cond) typ).
  - destruct (String.eqb_spec (c_Type c) (c_Type cond)) as [E|E]; cbn [List.find c_Type at_time]; [|by rewrite IH].
    rewrite E. by destruct (String.eqb_spec (c_Type cond) typ).
Qed.

(** What a condition says: its status and reason. *)
Definition says (typ : string) (b : bool) (reason : string) (conds : list Condition) : Prop :=
  exists t, condition typ conds = Some (mkCondition typ b reason t).
Lemma set_says now conds cond : says (c_Type cond) (c_Status cond) (c_Reason cond) (setCondition now conds cond).
Proof. eexists. apply set_same. Qed.

Section theorems.
Context {RX : RegexpLib} {CEL : CelLib} {TS : TsLib} {SP : StructPb} {laws : StructPbLaws}.

(** A flag the operator synced is what the API serves: when a sync of a
    [Flag] resource reports no error, one version per binding (or a single one)
    was appended to the flag's log, and the evaluate endpoint answers every
    context, for every environment, with the decision of the IR of the last
    binding with its segment references inlined, whenever the numbers of that IR
    survive the protobuf message.  A repeated sync appends the versions again. *)
Theorem flag_sync_served actor fuel policies spec db ver db' :
  server_ok db -> oexec actor (flag_sync (S fuel) policies spec) db (ver, None) db' ->
  server_ok db' /\
  exists rollouts tree proj flag es,
    resolveRollouts spec policies = Some rollouts /\ IRForFlag spec rollouts (last (fs_Bindings spec)) = Some tree /\
    GetProjectBySlug (fs_ProjectSlug spec) db' = Ok proj /\ GetFlagByKey (P_ID proj) (fs_Key spec) db' = Ok flag /\
    log db' (F_ID flag) = log db (F_ID flag) ++ es /\ List.length es = Nat.max 1 (List.length (fs_Bindings spec)) /\
    ver = wrap32 (Z.of_nat (List.length (log db' (F_ID flag)))) /\
    (full_tree tree = true -> plain_tree tree = true ->
     serves_resolved (P_ID proj) (fs_ProjectSlug spec) (fs_Key spec) tree (Z.of_nat (List.length (log db' (F_ID flag)))) db' /\
     (tree_no_refs tree = true ->
      serves_ir (fs_ProjectSlug spec) (fs_Key spec) tree (Z.of_nat (List.length (log db' (F_ID flag)))) db')).
Proof.
  intros Hok H. split; [by eapply oexec_ok|]. unfold flag_sync in H. apply oexec_bind in H as (e & db1 & H1 & H2).
  assert (server_ok db1) as Hok1 by (by eapply oexec_ok).
  pose proof (oexec_within actor same_log _ _ _ _ (ensure_same_log actor spec) H1) as Hsame. destruct e as [e|]; [by destruct H2 as [[=] _]|].
  destruct (resolveRollouts spec policies) as [rollouts|]; [|by destruct H2 as [[=] _]].
  assert (exists tree, IRForFlag spec rollouts (last (fs_Bindings spec)) = Some tree /\
    published (fs_ProjectSlug spec) (fs_Key spec) tree (Nat.max 1 (List.length (fs_Bindings spec))) ver db1 db') as (tree & Et & [Hp]).
  { destruct (fs_Bindings spec) as [|b bs]; [exact (publish_effect actor fuel spec rollouts None db1 ver db' (proj1 Hok1) H2) | exact (bindings_effect actor fuel spec rollouts bs b 0 db1 ver db' Hok1 H2)]. }
  destruct Hp as (proj & flag & es & _ & _ & Hp & Hf & Hl & Hn & Hv & Hs).
  exists rollouts, tree, proj, flag, es. rewrite (same_log_log _ _ (F_ID flag) Hsame) in Hl. by split_and!.
Qed.

(** A binding of a flag with a rollout rule never publishes: the binding
    controller translates without policies. *)
Theorem binding_rollout_rejected fuel b flag :
  bs_Environments b <> [] -> existsb (fun r => negb (String.eqb (fr_RolloutRef r) "")) (fs_Rules flag) = true ->
  publishAll fuel b flag = ODone ([], Some (Connect CodeInvalidArgument)).
Proof.
  intros He Hr. unfold publishAll. destruct (bs_Environments b) as [|env envs]; [done|]. cbn [publish_environments].
  unfold IRForFlag. replace (mapM _ _) with (@None (list Rule)); [done|]. cbn [rules_for mbind option_bind fb_Rules default from_option id].
  symmetry. apply existsb_exists in Hr as (r & Hin & Hr). destruct (mapM (rule_for []) (fs_Rules flag)) as [rs|] eqn:E; [|done].
  apply mapM_Some in E. apply list_elem_of_In, list_elem_of_lookup in Hin as [i Hi].
  eapply Forall2_lookup_l in E as (rule & _ & Hrule); [|exact Hi]. unfold rule_for in Hrule. rewrite Hr in Hrule. cbn in Hrule.
  by destruct (unmarshalPredicate _).
Qed.

(** *** The status a pass leaves *)

Definition unique_types {E} (st : Status E) : Prop := NoDup (map c_Type (Conditions st)).
(** The resource after the pass: its new status has one condition per type, and
    conditions of other types than [touched] are as they were. *)
Definition leaves {S E} (cr : Resource S E) (touched : list string) (o : outcome S E) (st : Status E) : Prop :=
  After o = Some (with_status cr st) /\ unique_types st /\
  forall typ, ~ In typ touched -> condition typ (Conditions st) = condition typ (Conditions (St cr)).
(** No error but a failed update of the status. *)
Definition handled {S E} (k : k8s) (o : outcome S E) : Prop := Error o = if status_ok k then None else Some Kubernetes.
(** Success: Synced and Ready, the generation and the time noted, again in 30 s. *)
Definition applied {S E} (k : k8s) (cr : Resource S E) (own : E) (o : outcome S E) (st : Status E) : Prop :=
  says "Synced" true "UpstreamApplied" (Conditions st) /\ says "Ready" true "AsExpected" (Conditions st) /\
  ObservedGeneration st = Generation (Meta cr) /\ LastSyncTime st = Some (k_now k 3) /\ Own st = own /\
  RequeueAfter o = 30 * 10 ^ 9 /\ handled k o.
(** Failure: an invalid spec waits for a change, a conflict or a missing object is
    tried again in a second, anything else is returned as an error. *)
Definition failed {S E} (k : k8s) (cr : Resource S E) (e : api_err) (o : outcome S E) (st : Status E) : Prop :=
  ObservedGeneration st = ObservedGeneration (St cr) /\ LastSyncTime st = LastSyncTime (St cr) /\ Own st = Own (St cr) /\
  match e with
  | Connect CodeInvalidArgument => says "Ready" false "InvalidSpec" (Conditions st) /\ RequeueAfter o = 0 /\ handled k o
  | Connect CodeFailedPrecondition | Connect CodeAborted =>
      says "Synced" false "Conflict" (Conditions st) /\ RequeueAfter o = 10 ^ 9 /\ handled k o
  | Connect CodeNotFound => says "Synced" false "UpstreamMissing" (Conditions st) /\ RequeueAfter o = 10 ^ 9 /\ handled k o
  | _ => says "Synced" false "Error" (Conditions st) /\ RequeueAfter o = 0 /\ Error o = Some (Upstream e)
  end.
(** An object that already exists counts as success. *)
Definition reported {S E} (k : k8s) (cr : Resource S E) (err : option api_err) (own : E) (o : outcome S E) (st : Status E) : Prop :=
  match err with
  | None | Some (Connect CodeAlreadyExists) => applied k cr own o st
  | Some e => failed k cr e o st
  end.

Lemma set_keeps_says now conds cond typ b reason :
  typ <> c_Type cond -> says typ b reason conds -> says typ b reason (setCondition now conds cond).
Proof. intros H [t Ht]. exists t. by rewrite set_other. Qed.

(** The end of a pass, where success changes the status' own field to [own] and
    sets the conditions [f] does. *)
Lemma finish_reported {S E} k (cr : Resource S E) err more touched own f :
  unique_types (St cr) ->
  (forall conds g t, more (mkStatus conds g t (Own (St cr))) = mkStatus (f conds) g t own) ->
  (forall conds, NoDup (map c_Type conds) -> NoDup (map c_Type (f conds))) ->
  (forall conds typ, typ = "Synced" \/ typ = "Ready" \/ ~ In typ touched -> condition typ (f conds) = condition typ conds) ->
  In "Synced" touched -> In "Ready" touched ->
  exists st, leaves cr touched (finish k cr err more) st /\ reported k cr err own (finish k cr err more) st.
Proof.
  intros Hu Hmore Hf Hother Hs Hr.
  assert (forall now c conds typ, c_Type c = "Synced" \/ c_Type c = "Ready" -> ~ In typ touched ->
    condition typ (setCondition now conds c) = condition typ conds) as Hset.
  { intros now c conds typ [Ec|Ec] Ht; apply set_other; rewrite Ec; by intros ->. }
  assert (forall typ b r conds, typ = "Synced" \/ typ = "Ready" -> says typ b r conds -> says typ b r (f conds)) as Hsays.
  { intros typ b r conds Ht [t Hc]. exists t. rewrite Hother by tauto. done. }
  assert (forall r e c, c_Status c = false -> c_Type c = "Synced" \/ c_Type c = "Ready" ->
    translateError err = (r, c, e) ->
    exists st, leaves cr touched (finish k cr err more) st /\ says (c_Type c) (c_Status c) (c_Reason c) (Conditions st) /\
      ObservedGeneration st = ObservedGeneration (St cr) /\ LastSyncTime st = LastSyncTime (St cr) /\ Own st = Own (St cr)) as Hfail.
  { intros r e c Ef Et Etr. unfold finish. rewrite Etr, Ef. eexists. split; [split; [reflexivity|split]|].
    - by apply set_unique.
    - intros typ Ht. cbn [Conditions]. by apply Hset.
    - split; [|done]. cbn [Conditions]. rewrite <- Ef. apply set_says. }
  assert (translateError err = (requeueAfterSuccess, syncedTrue, None) ->
    exists st, leaves cr touched (finish k cr err more) st /\ applied k cr own (finish k cr err more) st) as Hok.
  { intros Etr. unfold finish. rewrite Etr. cbn [c_Status syncedTrue]. rewrite Hmore. eexists. split; [split; [reflexivity|split]|].
    - apply Hf. by repeat apply set_unique.
    - intros typ Ht. cbn [Conditions]. rewrite Hother by auto. by rewrite !Hset by auto.
    - unfold applied. cbn [Conditions ObservedGeneration LastSyncTime Own RequeueAfter]. split_and!; try done.
      + apply Hsays; [auto|]. apply set_keeps_says; [done|]. apply (set_says _ _ syncedTrue).
      + apply Hsays; [auto|]. apply (set_says _ _ readyTrue). }
  destruct err as [[c|]|]; [|destruct (Hfail 0 (Some OtherError) (conditionFalse "Synced" "Error")) as (st & ? & ? & ? & ? & ?);
    [done | auto | reflexivity | by exists st]|exact (Hok eq_refl)].
  destruct c; try exact (Hok eq_refl).
  all: edestruct Hfail as (st & ? & ? & ? & ? & ?); [| |reflexivity|]; [done | cbn; auto | by exists st].
Qed.

Section passes.
Variables (actor : string) (k : k8s) (db : DB).

Lemma oexec_pass {S E A} (g : Resource S E) (sync : Resource S E -> oprog A) fin o db' :
  oexec actor (pass k (Got g) sync fin) db o db' -> exists x, oexec actor (sync g) db x db' /\ o = fin g x.
Proof. intros H. apply oexec_bind in H as (x & db1 & H & [-> ->]). eauto. Qed.

(** A resource with the controller's finalizer that is not being deleted. *)
Definition in_service {S E} (finalizer : string) (cr : Resource S E) : bool :=
  negb (Deleting (Meta cr)) && existsb (String.eqb finalizer) (Finalizers (Meta cr)).

Lemma oexec_finalized {S E A} finalizer (cr : Resource S E) (sync : Resource S E -> oprog A) fin o db' :
  oexec actor (finalized_pass finalizer k (Got cr) sync fin) db o db' ->
  if in_service finalizer cr then exists x, oexec actor (sync cr) db x db' /\ o = fin cr x
  else db' = db /\ exists cr', After o = Some cr' /\ Spec cr' = Spec cr /\ St cr' = St cr.
Proof.
  unfold finalized_pass, in_service. destruct (Deleting (Meta cr)), (existsb (String.eqb finalizer) (Finalizers (Meta cr))); cbn [negb andb].
  - intros [-> ->]. split; [done|]. by eexists.
  - intros [-> ->]. split; [done|]. by eexists.
  - apply oexec_pass.
  - intros [-> ->]. split; [done|]. destruct (update_ok k); by eexists.
Qed.

Lemma connect_fails e : ~ is_ok (connectError e) = true.
Proof. unfold connectError. destruct e; [done | by destruct (IsConflict _) | done]. Qed.
Lemma snapshot_message slug db' m : served actor (RpcGetLatestSnapshot slug) db (Ok m) db' -> exists s, m = MSnapshot s.
Proof.
  intros [(r & H & E)|(e & [=] & _)]. destruct r as [m'|]; [|done]. injection E as <-.
  cbn [rpc_handle] in H. unfold rpc_GetLatestSnapshot in H.
  apply (exec_get (fun r => is_ok r = true)) in H as (proj & _ & H); [|done|exact connect_fails].
  apply (exec_get (fun r => is_ok r = true)) in H as (n & _ & H); [|done|exact connect_fails].
  destruct H as [[= ->] _]. eauto.
Qed.

Lemma binding_status fuel flags (cr : FlagBindingCR) o db' :
  unique_types (St cr) -> oexec actor (flagbinding_Reconcile fuel flags k (Got cr)) db o db' ->
  match fetchFlag (Spec cr) flags with
  | Some flag =>
      exists versions err st, oexec actor (publishAll fuel (Spec cr) flag) db (versions, err) db' /\
        leaves cr ["Synced"; "Ready"; "Published"] o st /\ reported k cr err versions o st /\
        (err = None -> says "Published" true "AllEnvironmentsPublished" (Conditions st))
  | None =>
      db' = db /\ exists st, leaves cr ["Ready"] o st /\ says "Ready" false "FlagNotFound" (Conditions st) /\
        ObservedGeneration st = ObservedGeneration (St cr) /\ Own st = Own (St cr) /\ RequeueAfter o = 10 ^ 9
  end.
Proof.
  intros Hu. unfold flagbinding_Reconcile. destruct (fetchFlag (Spec cr) flags) as [flag|].
  - intros ([versions err] & H & ->)%oexec_pass.
    set (publishedTrue := mkCondition "Published" true "AllEnvironmentsPublished" 0).
    lazymatch goal with |- context [finish k cr err ?m] =>
      destruct (finish_reported k cr err m ["Synced"; "Ready"; "Published"] versions (fun conds => setCondition (k_now k 2) conds publishedTrue))
        as (st & H1 & H2) end;
      [exact Hu | | | | | |exists versions, err, st; split_and!; [exact H | exact H1 | exact H2 |]].
    + intros conds g t. reflexivity.
    + intros conds. apply set_unique.
    + intros conds typ Ht. apply set_other. cbn [c_Type]. destruct Ht as [->|[->|Ht]]; [done | done |]. intros ->. apply Ht. cbn. tauto.
    + by left.
    + right. by left.
    + intros ->. destruct H1 as ([= <-] & _). apply (set_says _ _ publishedTrue).
  - intros [-> ->]. split; [done|]. eexists. split; [split; [reflexivity|split]|].
    + by apply set_unique.
    + intros typ Ht. apply set_other. cbn. intros ->. apply Ht. by left.
    + split; [apply (set_says _ _ (conditionFalse "Ready" "FlagNotFound")) | done].
Qed.

Lemma snapshot_pass_status (cr : FlagSnapshotCR) o db' :
  unique_types (St cr) -> oexec actor (flagsnapshot_Reconcile k (Got cr)) db o db' ->
  exists r st, served actor (RpcGetLatestSnapshot (Spec cr)) db r db' /\ leaves cr ["Synced"; "Ready"; "Compiled"] o st /\
  match r with
  | Ok m => exists s, m = MSnapshot s /\ says "Compiled" true "SnapshotExists" (Conditions st) /\
      applied k cr (mkSnapshotStatus (pn_Version s) (default (FlagCount (Own (St cr))) (flag_count s))) o st
  | Err e => says "Compiled" false "Unavailable" (Conditions st) /\ (e <> Connect CodeAlreadyExists -> failed k cr e o st)
  end.
Proof.
  intros Hu (r & db1 & Hs & H). exists r.
  assert (forall now conds c typ, c_Type c = "Synced" \/ c_Type c = "Ready" \/ c_Type c = "Compiled" -> ~ In typ ["Synced"; "Ready"; "Compiled"] ->
    condition typ (setCondition now conds c) = condition typ conds) as Hset.
  { intros now conds c typ Hc Ht. apply set_other. intros ->. apply Ht. cbn. destruct Hc as [-> |[-> | ->]]; auto. }
  destruct r as [m|e].
  - destruct (snapshot_message _ _ _ Hs) as [s ->]. cbn in H. destruct H as [-> ->]. eexists. split; [done|]. split; [split; [reflexivity|split]|].
    + by repeat apply set_unique.
    + intros typ Ht. cbn [Conditions]. rewrite !Hset by (cbn; auto). done.
    + exists s. split; [done|]. cbn [Conditions]. split; [apply set_keeps_says; [done|]; apply (set_says _ _ (mkCondition "Compiled" true "SnapshotExists" 0))|].
      unfold applied. cbn [Conditions ObservedGeneration LastSyncTime Own]. split_and!; try done.
      * do 2 (apply set_keeps_says; [done|]). apply (set_says _ _ syncedTrue).
      * apply (set_says _ _ readyTrue).
  - cbn [snapshot_status] in H. destruct (translateError (Some e)) as [[requeue cond] ret] eqn:E. destruct H as [-> ->].
    eexists. split; [done|]. split; [split; [reflexivity|split]|].
    + by repeat apply set_unique.
    + intros typ Ht. cbn [Conditions]. rewrite Hset by (cbn; auto). rewrite Hset; [done| |done].
      destruct e as [[]|]; injection E as <- <- <-; cbn; auto.
    + split; [apply (set_says _ _ (conditionFalse "Compiled" "Unavailable"))|]. intros He. unfold failed.
      split; [done|]. split; [done|]. split; [done|]. destruct e as [[]|]; try done; injection E as <- <- <-; cbn [Conditions]; split_and!; try done;
        (apply set_keeps_says; [done|]); apply (set_says _ _ (conditionFalse _ _)).
Qed.

Lemma policy_status (cr : RolloutPolicyCR) :
  unique_types (St cr) ->
  let o := rolloutpolicy_Reconcile k (Got cr) in
  exists st, leaves cr ["Synced"; "Ready"; "Resolved"] o st /\
  if validateRolloutPolicy (Spec cr) then
    says "Resolved" true "Valid" (Conditions st) /\ says "Synced" true "UpstreamApplied" (Conditions st) /\
    says "Ready" true "AsExpected" (Conditions st) /\ ObservedGeneration st = Generation (Meta cr) /\
    LastSyncTime st = Some (k_now k 3) /\ (status_ok k = true -> RequeueAfter o = 30 * 10 ^ 9) /\ handled k o
  else
    says "Resolved" false "InvalidSpec" (Conditions st) /\ says "Ready" false "InvalidSpec" (Conditions st) /\
    ObservedGeneration st = ObservedGeneration (St cr) /\ RequeueAfter o = 0 /\ Error o = None.
Proof.
  intros Hu o.
  assert (forall now conds c typ, c_Type c = "Synced" \/ c_Type c = "Ready" \/ c_Type c = "Resolved" -> ~ In typ ["Synced"; "Ready"; "Resolved"] ->
    condition typ (setCondition now conds c) = condition typ conds) as Hset.
  { intros now conds c typ Hc Ht. apply set_other. intros ->. apply Ht. cbn. destruct Hc as [-> |[-> | ->]]; auto. }
  unfold o, rolloutpolicy_Reconcile. cbv zeta. destruct (validateRolloutPolicy (Spec cr)); cbn [negb].
  - eexists. split; [split; [destruct (status_ok k); reflexivity|split]|].
    + by repeat apply set_unique.
    + intros typ Ht. cbn [Conditions]. rewrite !Hset by (cbn; auto). done.
    + cbn [Conditions ObservedGeneration LastSyncTime]. split_and!; try done.
      * apply set_keeps_says; [done|]. apply (set_says _ _ (mkCondition "Resolved" true "Valid" 0)).
      * apply (set_says _ _ syncedTrue).
      * do 2 (apply set_keeps_says; [done|]). apply (set_says _ _ readyTrue).
      * intros Hk. by rewrite Hk.
      * unfold handled. by destruct (status_ok k).
  - eexists. split; [split; [reflexivity|split]|].
    + by repeat apply set_unique.
    + intros typ Ht. cbn [Conditions]. rewrite !Hset by (cbn; auto). done.
    + cbn [Conditions ObservedGeneration]. split_and!; try done.
      * apply (set_says _ _ (conditionFalse "Resolved" "InvalidSpec")).
      * apply set_keeps_says; [done|]. apply (set_says _ _ (conditionFalse "Ready" "InvalidSpec")).
Qed.

(** C38. What the status says after a pass of each of the seven reconcilers over a
    resource with one condition per type, whatever the calls of the pass answered.
    The project, environment, segment, flag and binding reconcilers report the
    outcome of their synchronisation: success (or an object that already exists) as
    Synced and Ready with the generation and time noted, and again in 30 s, a flag
    with the version last published and a binding with the versions it published and
    Published; an invalid spec as Ready false; a conflict or a missing upstream
    object as Synced false and again in 1 s; any other error as Synced false and
    returned.  Without its finalizer, or while it is deleted, a segment or flag makes
    no call and keeps its status.  A binding without its flag is not Ready and is
    tried again in 1 s.  A snapshot resource reports the latest snapshot, with
    Compiled true, or the error with Compiled false.  A rollout policy is Ready and
    Resolved exactly when it is valid.  Conditions of other types stay. *)
Theorem reconcile_status fuel policies flags :
  (forall cr o db', unique_types (St cr) -> oexec actor (project_Reconcile k (Got cr)) db o db' ->
     exists err st, oexec actor (project_sync (Spec cr)) db err db' /\
       leaves cr ["Synced"; "Ready"] o st /\ reported k cr err tt o st) /\
  (forall cr o db', unique_types (St cr) -> oexec actor (environment_Reconcile k (Got cr)) db o db' ->
     exists err st, oexec actor (environment_sync (Spec cr)) db err db' /\
       leaves cr ["Synced"; "Ready"] o st /\ reported k cr err tt o st) /\
  (forall cr o db', unique_types (St cr) -> oexec actor (segment_Reconcile k (Got cr)) db o db' ->
     if in_service segmentFinalizer cr then
       exists err st, oexec actor (segment_sync (Spec cr)) db err db' /\
         leaves cr ["Synced"; "Ready"] o st /\ reported k cr err tt o st
     else db' = db /\ exists cr', After o = Some cr' /\ Spec cr' = Spec cr /\ St cr' = St cr) /\
  (forall cr o db', unique_types (St cr) -> oexec actor (flag_Reconcile fuel policies k (Got cr)) db o db' ->
     if in_service flagFinalizer cr then
       exists version err st, oexec actor (flag_sync fuel policies (Spec cr)) db (version, err) db' /\
         leaves cr ["Synced"; "Ready"] o st /\ reported k cr err (if 0 <? version then version else Own (St cr)) o st
     else db' = db /\ exists cr', After o = Some cr' /\ Spec cr' = Spec cr /\ St cr' = St cr) /\
  (forall cr o db', unique_types (St cr) -> oexec actor (flagbinding_Reconcile fuel flags k (Got cr)) db o db' ->
     match fetchFlag (Spec cr) flags with
     | Some flag =>
         exists versions err st, oexec actor (publishAll fuel (Spec cr) flag) db (versions, err) db' /\
           leaves cr ["Synced"; "Ready"; "Published"] o st /\ reported k cr err versions o st /\
           (err = None -> says "Published" true "AllEnvironmentsPublished" (Conditions st))
     | None =>
         db' = db /\ exists st, leaves cr ["Ready"] o st /\ says "Ready" false "FlagNotFound" (Conditions st) /\
           ObservedGeneration st = ObservedGeneration (St cr) /\ Own st = Own (St cr) /\ RequeueAfter o = 10 ^ 9
     end) /\
  (forall cr o db', unique_types (St cr) -> oexec actor (flagsnapshot_Reconcile k (Got cr)) db o db' ->
     exists r st, served actor (RpcGetLatestSnapshot (Spec cr)) db r db' /\ leaves cr ["Synced"; "Ready"; "Compiled"] o st /\
     match r with
     | Ok m => exists s, m = MSnapshot s /\ says "Compiled" true "SnapshotExists" (Conditions st) /\
         applied k cr (mkSnapshotStatus (pn_Version s) (default (FlagCount (Own (St cr))) (flag_count s))) o st
     | Err e => says "Compiled" false "Unavailable" (Conditions st) /\
         (e <> Connect CodeAlreadyExists -> failed k cr e o st)
     end) /\
  (forall cr, unique_types (St cr) ->
     let o := rolloutpolicy_Reconcile k (Got cr) in
     exists st, leaves cr ["Synced"; "Ready"; "Resolved"] o st /\
     if validateRolloutPolicy (Spec cr) then
       says "Resolved" true "Valid" (Conditions st) /\ says "Synced" true "UpstreamApplied" (Conditions st) /\
       says "Ready" true "AsExpected" (Conditions st) /\ ObservedGeneration st = Generation (Meta cr) /\
       LastSyncTime st = Some (k_now k 3) /\ (status_ok k = true -> RequeueAfter o = 30 * 10 ^ 9) /\ handled k o
     else
       says "Resolved" false "InvalidSpec" (Conditions st) /\ says "Ready" false "InvalidSpec" (Conditions st) /\
       ObservedGeneration st = ObservedGeneration (St cr) /\ RequeueAfter o = 0 /\ Error o = None).
Proof.
  assert (forall S E (cr : Resource S E) err own (more : Status E -> Status E), unique_types (St cr) ->
    (forall conds g t, more (mkStatus conds g t (Own (St cr))) = mkStatus conds g t own) ->
    exists st, leaves cr ["Synced"; "Ready"] (finish k cr err more) st /\ reported k cr err own (finish k cr err more) st) as Hplain.
  { intros S E cr err own more Hu Hm. apply (finish_reported k cr err more ["Synced"; "Ready"] own id); try done; cbn; auto. }
  split_and!.
  - intros cr o db' Hu (err & H & ->)%oexec_pass. destruct (Hplain _ _ cr err tt (fun st => st) Hu) as (st & H1 & H2); [by destruct (Own (St cr))|]. eauto.
  - intros cr o db' Hu (err & H & ->)%oexec_pass. destruct (Hplain _ _ cr err tt (fun st => st) Hu) as (st & H1 & H2); [by destruct (Own (St cr))|]. eauto.
  - intros cr o db' Hu H%oexec_finalized. destruct (in_service _ _); [|done]. destruct H as (err & H & ->).
    destruct (Hplain _ _ cr err tt (fun st => st) Hu) as (st & H1 & H2); [by destruct (Own (St cr))|]. eauto.
  - intros cr o db' Hu H%oexec_finalized. destruct (in_service _ _); [|done]. destruct H as ([version err] & H & ->).
    edestruct (Hplain _ _ cr err (if 0 <? version then version else Own (St cr))) as (st & H1 & H2); [exact Hu| |by exists version, err, st].
    intros conds g t. by destruct (0 <? version).
  - intros cr o db' Hu H. by apply binding_status.
  - exact snapshot_pass_status.
  - exact policy_status.
Qed.
End passes.
End theorems.

(** ** Rollout policies *)

Lemma heaviest_spec vs acc :
  In (fold_left heavier vs acc) (acc :: vs) /\ forall v, In v (acc :: vs) -> rv_Weight v <= rv_Weight (fold_left heavier vs acc).
Proof.
  revert acc. induction vs as [|v vs IH]; intros acc; cbn [fold_left].
  - split; [by left|]. intros w [<-|[]]. lia.
  - destruct (IH (heavier acc v)) as [Hin Hmax]. unfold heavier in *. split.
    + destruct Hin as [<-|Hin]; [destruct (_ <? _); cbn; auto | cbn; auto].
    + destruct (Z.ltb_spec (rv_Weight acc) (rv_Weight v)); intros w [<-|[<-|Hw]];
        try (by apply Hmax; cbn; auto); (etransitivity; [|apply Hmax; left; reflexivity]); lia.
Qed.

(** A rule with a rollout reference serves one variant to everybody its
    predicate matches: the policy's heaviest, whatever its bucketing; no
    rollout predicate is added. *)
Theorem rollout_serves_heaviest rollouts r rule rp :
  rule_for rollouts r = Some rule -> fr_RolloutRef r <> "" -> map_get (fr_RolloutRef r) rollouts = Some rp ->
  (forall v, In v (rp_Variants rp) -> rv_Value v <> "") -> (exists v, In v (rp_Variants rp) /\ 0 < rv_Weight v) ->
  ID rule = fr_ID r /\ When rule = unmarshalPredicate (fr_When r) /\
  exists v, In v (rp_Variants rp) /\ RuleValue rule = rv_Value v /\ forall v', In v' (rp_Variants rp) -> rv_Weight v' <= rv_Weight v.
Proof.
  intros H Href Hg Hv (w & Hw & Hpos). unfold rule_for in H. destruct (unmarshalPredicate (fr_When r)) as [p|]; [|done]. cbn in H.
  destruct (String.eqb_spec (fr_RolloutRef r) ""); [done|]. cbn in H. rewrite Hg in H. cbn in H. unfold pickRolloutValue in H.
  destruct (heaviest_spec (rp_Variants rp) zero_variant) as [Hin Hmax].
  set (hv := fold_left heavier (rp_Variants rp) zero_variant) in *.
  destruct Hin as [E|Hin]; [exfalso; specialize (Hmax w (or_intror Hw)); rewrite <- E in Hmax; cbn in Hmax; lia|].
  destruct (rp_Variants rp) as [|first vs]; [done|]. destruct (String.eqb_spec (rv_Value hv) "") as [E|_]; [by destruct (Hv hv Hin)|].
  cbn in H. injection H as <-. cbn. split_and!; try done. exists hv. split_and!; [done|done|]. intros v' Hv'. apply Hmax. by right.
Qed.

Definition total (vs : list RolloutVariant) : Z := fold_right (fun v n => rv_Weight v + n) 0 vs.
Lemma total_bounds vs : Forall (fun v => 0 <= rv_Weight v <= 100) vs -> 0 <= total vs <= 100 * Z.of_nat (List.length vs).
Proof. induction 1; cbn [total fold_right List.length] in *; [lia|]. fold (total l) in *. lia. Qed.
Lemma sum_weights_spec vs acc :
  Forall (fun v => 0 <= rv_Weight v <= 100) vs -> 0 <= acc -> acc + 100 * Z.of_nat (List.length vs) <= int32_max ->
  sum_weights acc vs = if existsb (fun v => String.eqb (rv_Value v) "") vs then None else Some (acc + total vs).
Proof.
  intros H. revert acc. induction H as [|v vs Hv H IH]; intros acc Ha Hb; cbn [sum_weights existsb total fold_right]; [f_equal; lia|].
  destruct (String.eqb (rv_Value v) ""); [done|]. cbn [orb]. cbn [List.length] in Hb.
  rewrite wrap32_id by (unfold int32_min, int32_max in *; lia). rewrite IH by lia. destruct (existsb _ vs); [done|]. f_equal. fold (total vs). lia.
Qed.

(** Within the bounds of the resource's schema (weights from 0 to 100) and
    for up to twenty million variants the int32 sum does not wrap: a policy is
    valid exactly when it has a variant, every variant has a value, and the
    weights add up to 100.  Without the schema's bounds the sum wraps, and
    weights of 2^31-1, 2^31-1 and 102 pass. *)
Theorem rollout_policy_valid rp :
  (Forall (fun v => 0 <= rv_Weight v <= 100) (rp_Variants rp) -> Z.of_nat (List.length (rp_Variants rp)) <= 20000000 ->
   validateRolloutPolicy rp = true <->
   rp_Variants rp <> [] /\ (forall v, In v (rp_Variants rp) -> rv_Value v <> "") /\ total (rp_Variants rp) = 100) /\
  validateRolloutPolicy (mkPolicy "p" "n" "id" "fnv1a_64" "" (map (fun w => mkVariant "v" w "1") [int32_max; int32_max; 102])) = true.
Proof.
  split; [|reflexivity]. intros Hw Hn. unfold validateRolloutPolicy. destruct (rp_Variants rp) as [|v vs]; [by split; [|intros [? _]]|].
  rewrite sum_weights_spec; [|done|lia|unfold int32_max; lia]. cbn [Z.add].
  destruct (existsb (fun v => String.eqb (rv_Value v) "") (v :: vs)) eqn:E.
  - split; [done|]. intros (_ & H & _). apply existsb_exists in E as (x & Hin & Ex). apply String.eqb_eq in Ex. by destruct (H x Hin).
  - rewrite Z.eqb_eq. split; [|by intros (_ & _ & ?)]. intros Ht. split_and!; [done| |done]. intros x Hin Ex.
    assert (existsb (fun v => String.eqb (rv_Value v) "") (v :: vs) = true); [|congruence]. apply existsb_exists. exists x. by rewrite Ex.
Qed.

(** ** Runs without faults *)

Section runs.
Context {RX : RegexpLib} {CEL : CelLib} {TS : TsLib} {SP : StructPb}.
Variable actor : string.

(** The [n]-th call and those after it draw from [ds]. *)
Fixpoint orun {A} (ds : nat -> draws) (n : nat) (p : oprog A) (db : DB) : option A * DB :=
  match p with
  | ODone a => (Some a, db)
  | OCall q k =>
      match run (ds n) (rpc_handle actor q) db with
      | (Some m, db1) => orun ds (S n) (k (rmap_err Connect m)) db1
      | (None, db1) => (None, db1)
      end
  end.
Lemma orun_exec {A} ds n (p : oprog A) db a db' : orun ds n p db = (Some a, db') -> oexec actor p db a db'.
Proof.
  revert n db. induction p as [x|q k IH]; intros n db; cbn [orun oexec]; [by intros [= -> ->]|].
  destruct (run (ds n) (rpc_handle actor q) db) as [[m|] db1] eqn:E; [|done]. intros H.
  exists (rmap_err Connect m), db1. split; [left; exists m; split; [by eapply run_exec | done] | by eapply IH].
Qed.
End runs.

Module OperatorDemo.
Import Demo HandlersDemo RpcDemo.

#[export] Instance demo_laws : StructPbLaws.
Proof. intros m s _ [= <-]. reflexivity. Qed.

Definition us_when : RawExtension := print (eq_doc "country" (jstr "US")).
Definition us_rule : FlagRule := mkFlagRule "us" us_when (Some "true") "".
Definition split_rule : FlagRule := mkFlagRule "split" us_when None "half".
(** One binding per environment: on by default in staging, off in production. *)
Definition us_spec : FlagSpec :=
  mkFlagSpec "acme" "us" "US" "boolean" "false" [us_rule]
    [mkFlagSpecBinding "staging" (Some "true") None; mkFlagSpecBinding "production" None None].
Definition demo_seq (n : nat) : draws := demo_draws (10 + Z.of_nat n).

Definition sync_result : Z * option api_err := default (0, None) (orun "operator" demo_seq 0 (flag_sync 1 (Some []) us_spec) db2).1.
Definition sync_db : DB := (orun "operator" demo_seq 0 (flag_sync 1 (Some []) us_spec) db2).2.
Definition us_tree : RulesTree := default zero_tree (IRForFlag us_spec [] (last (fs_Bindings us_spec))).

Lemma sync_run : orun "operator" demo_seq 0 (flag_sync 1 (Some []) us_spec) db2 = (Some (2, None), sync_db).
Proof. vm_compute. reflexivity. Qed.


Definition demo_cr : Resource FlagSpec Z := mkResource (mkMeta false [flagFinalizer] 3) us_spec (mkStatus [] 2 None 0).
Definition demo_k8s : k8s := mkK8s true true (fun i => 7 + Z.of_nat i).
Definition demo_pass : oprog (outcome FlagSpec Z) := flag_Reconcile 1 (Some []) demo_k8s (Got demo_cr).
Definition demo_outcome : outcome FlagSpec Z := default (mkOutcome 0 None None) (orun "operator" demo_seq 0 demo_pass db2).1.
Lemma demo_pass_run : orun "operator" demo_seq 0 demo_pass db2 = (Some demo_outcome, sync_db).
Proof. vm_compute. reflexivity. Qed.
Lemma reconcile_status_witness :
  exists version err st, leaves demo_cr ["Synced"; "Ready"] demo_outcome st /\
    reported demo_k8s demo_cr err (if 0 <? version then version else 0) demo_outcome st.
Proof.
  destruct (reconcile_status "operator" demo_k8s db2 1 (Some []) None) as (_ & _ & _ & H & _).
  destruct (H demo_cr demo_outcome sync_db (NoDup_nil_2) (orun_exec "operator" demo_seq 0 demo_pass db2 demo_outcome sync_db demo_pass_run))
    as (version & err & st & _ & H1 & H2).
  exists version, err, st. split; [exact H1 | exact H2].
Defined.

Definition half : RolloutPolicySpec :=
  mkPolicy "acme" "half" "user.id" "fnv1a_64" "s" [mkVariant "off" 40 "false"; mkVariant "on" 60 "true"].
Lemma rollout_serves_heaviest_witness :
  exists rule, rule_for [("half", half)] split_rule = Some rule /\ ID rule = "split".
Proof.
  destruct (rule_for [("half", half)] split_rule) as [rule|] eqn:E; [|vm_compute in E; discriminate E].
  destruct (rollout_serves_heaviest [("half", half)] split_rule rule half E) as (H & _ & _).
  - vm_compute. discriminate.
  - reflexivity.
  - intros v [<-|[<-|[]]]; vm_compute; discriminate.
  - exists (mkVariant "on" 60 "true"). split; [right; left; reflexivity | vm_compute; reflexivity].
  - exists rule. split; [reflexivity | exact H].
Defined.
Lemma rollout_policy_valid_witness : validateRolloutPolicy half = true.
Proof.
  apply (proj1 (rollout_policy_valid half)); [repeat constructor; vm_compute; discriminate | vm_compute; discriminate |].
  split; [discriminate|]. split; [|reflexivity]. intros v [<-|[<-|[]]]; vm_compute; discriminate.
Defined.
End OperatorDemo.
