(* ===== verification/Mcp.v ===== *)
(** The MCP server's tools ([internal/mcp/tools]): clients of the Connect API, and
    the in-process [validate_config].

    A tool is a program of Connect calls, as the operator's reconcilers are.
    [protojson] and the names of Connect codes are outside the repository
    ([McpLib]).  A tool error's text is kept without the message of the error it
    quotes.  The MCP library checks inputs against the schema before the tool
    runs.  The texts of compile errors are a parameter of the same class. *)
From stdpp Require Import base list strings numbers gmap.
From Stdlib Require Import Ascii String ZArith Lia.
From S2P Require Import Prelude Text Literal Json Float64 GoValue GoTime Ir Compile Rollout Eval AnyTrip Trace Segments Sdk Db Store SqliteText Api Handlers AuditApi Rpc Operator.

Record CallToolResult : Type := mkToolResult { IsError : bool; Content : string }.

(** The service clients a [clientapi.Client] may lack. *)
Record ApiClient : Type := mkApiClient { c_Projects : bool; c_Flags : bool; c_Evaluation : bool; c_Audit : bool }.
Definition has_client (f : ApiClient -> bool) (c : option ApiClient) : bool := match c with Some c => f c | None => false end.

Class McpLib {SP : StructPb} : Type := {
  Marshal_message : message -> option string;
  Marshal_flag : option PFlag -> option string;
  Marshal_version : PFlagVersion -> option string;
  code_String : code -> string;
  error_text : cfg_error -> string     (* [err.Error()] of a compilation *)
}.

Section mcp.
Context {RX : RegexpLib} {CEL : CelLib} {TS : TsLib} {SP : StructPb} {ML : McpLib}.

(** ** Errors ([errors.go]) *)

Definition toolError (text : string) : CallToolResult := mkToolResult true text.
Definition textResult (body : string) : CallToolResult := mkToolResult false body.
Definition connectErrToToolResult (err : api_err) : CallToolResult :=
  match err with
  | OtherError => toolError "upstream error: "
  | Connect CodeNotFound => toolError "not found: "
  | Connect CodeInvalidArgument => toolError "invalid argument: "
  | Connect CodePermissionDenied => toolError "permission denied: "
  | Connect CodeUnavailable => toolError "upstream unavailable: "
  | Connect CodeUnauthenticated => toolError "unauthenticated: "
  | Connect c => toolError ("upstream error (" +:+ code_String c +:+ "): ")
  end.

(** ** Projects and flags ([projects.go], [flags.go]) *)

Definition marshalProto (m : message) (kind : string) : CallToolResult :=
  match Marshal_message m with
  | None => toolError ("failed to marshal " +:+ kind +:+ " response: ")
  | Some body => textResult body
  end.
(** One call whose answer is passed on. *)
Definition pass_through (q : rpc_request) (kind : string) : oprog CallToolResult :=
  OCall q (fun r => ODone (match r with Err e => connectErrToToolResult e | Ok m => marshalProto m kind end)).

Definition listProjects (client : option ApiClient) : oprog CallToolResult :=
  if negb (has_client c_Projects client) then ODone (toolError "projects client unavailable")
  else pass_through RpcListProjects "projects".
Definition listFlags (client : option ApiClient) (projectSlug : string) : oprog CallToolResult :=
  if negb (has_client c_Flags client) then ODone (toolError "flags client unavailable")
  else pass_through (RpcListFlags projectSlug) "flags".

(** A [json.RawMessage] that is not nil. *)
Definition raw_doc (raw : string) : option jdoc := do? d := scan raw in Some (esc_doc d).
Definition GetFlag (m : message) : option PFlag := match m with MFlagWithLatest f _ => Some f | _ => None end.
Definition GetLatestVersion (m : message) : option PFlagVersion := match m with MFlagWithLatest _ v => v | _ => None end.

Definition never_published : string := "flag has never been published".
(** The body: [json.Marshal] sorts the keys of the map. *)
Definition get_flag_body (flagJSON : string) (versionJSON : option string) : option string :=
  do? flag := raw_doc flagJSON in
  match versionJSON with
  | None => Some (print (JObj [("flag", flag); ("note", enc_str never_published); ("published_version", JNull)]))
  | Some v => do? version := raw_doc v in Some (print (JObj [("flag", flag); ("published_version", version)]))
  end.
Definition get_flag_result (m : message) : CallToolResult :=
  match Marshal_flag (GetFlag m) with
  | None => toolError "failed to marshal flag: "
  | Some flagJSON =>
      let finish versionJSON :=
        match get_flag_body flagJSON versionJSON with
        | None => toolError "failed to marshal get_flag response: "
        | Some body => textResult body
        end in
      match GetLatestVersion m with
      | None => finish None
      | Some v =>
          match Marshal_version v with
          | None => toolError "failed to marshal flag version: "
          | Some versionJSON => finish (Some versionJSON)
          end
      end
  end.
Definition getFlag (client : option ApiClient) (projectSlug flagKey : string) : oprog CallToolResult :=
  if negb (has_client c_Flags client) then ODone (toolError "flags client unavailable")
  else OCall (RpcGetFlag projectSlug flagKey) (fun r =>
    ODone (match r with Err e => connectErrToToolResult e | Ok m => get_flag_result m end)).

(** ** Evaluation ([explain_evaluation.go]) *)

Definition explainEvaluation (client : option ApiClient) (projectSlug flagKey : string) (context : list (string * goval)) :
    oprog CallToolResult :=
  if negb (has_client c_Evaluation client) then ODone (toolError "evaluation client unavailable") else
  let explain ctxStruct := pass_through (RpcEvaluateTrace projectSlug flagKey ctxStruct) "evaluate-with-trace" in
  match context with
  | [] => explain None
  | _ => match NewStruct context with
         | None => ODone (toolError "invalid context: ")
         | Some s => explain (Some s)
         end
  end.

(** ** The audit log ([audit.go]) *)

Record SearchAuditLogInput : Type := mkSearch {
  sa_ProjectSlug : string; sa_Action : string; sa_Actor : string; sa_From : string; sa_To : string;
  sa_Limit : Z; sa_Cursor : string
}.
Definition normalizeLimit (n : Z) : Z := if n <=? 0 then 50 else if 200 <? n then 200 else n.
Definition mcp_parseRFC3339 (s : string) : option Time := Parse RFC3339 s.
(** A bound of the search: absent, unreadable, or what the server makes of the
    timestamp, which is no bound for the zero time. *)
Definition bound (s : string) : option (option time) :=
  if String.eqb s "" then Some None else do? t := mcp_parseRFC3339 s in Some (time_ptr t).

(** The server ignores the cursor of the message. *)
Definition searchAuditLog (client : option ApiClient) (i : SearchAuditLogInput) : oprog CallToolResult :=
  if negb (has_client c_Audit client) then ODone (toolError "audit client unavailable") else
  match bound (sa_From i) with
  | None => ODone (toolError "invalid from timestamp: ")
  | Some from =>
      match bound (sa_To i) with
      | None => ODone (toolError "invalid to timestamp: ")
      | Some to =>
          pass_through (RpcListAudit (sa_ProjectSlug i) (normalizeLimit (sa_Limit i)) (str_ptr (sa_Action i))
            (str_ptr (sa_Actor i)) from to) "audit-events"
      end
  end.

(** ** Validation ([validate_config.go]) *)

Record ValidateConfigSummary : Type := mkSummary {
  ValueTypeOf : string; RuleCount : Z; HasRollout : bool; HasCEL : bool; CELProgramCount : Z
}.
Inductive config_problem : Type := EmptySource | CompileProblem (e : cfg_error).
Record ValidateConfigOutput : Type := mkValidation {
  Valid : bool; StrategyOf : string; Problems : list config_problem; IRSummary : option ValidateConfigSummary
}.

Fixpoint predicateHasKind (p : Predicate) (kind : string) {struct p} : bool :=
  let child (o : option Predicate) := match o with None => false | Some q => predicateHasKind q kind end in
  if String.eqb (Kind p) kind then true else existsb child (Of p) || child (OfOne p).
Definition ptrHasKind (o : option Predicate) (kind : string) : bool :=
  match o with None => false | Some q => predicateHasKind q kind end.
Definition summarize (c : Compiled) : ValidateConfigSummary :=
  let programs := Z.of_nat (size (CELPrograms c)) in
  mkSummary (TreeValueType (IR c)) (Z.of_nat (List.length (rules_of (IR c))))
    (existsb (fun r => ptrHasKind (When r) (kind_name PredRollout)) (rules_of (IR c))) (0 <? programs) programs.

(** A tool error, or the report that [jsonResult] renders. *)
Definition validateConfig (strategy source : string) : CallToolResult + ValidateConfigOutput :=
  if negb (Strategy_Valid strategy) then inl (toolError ("unknown strategy: " +:+ strategy +:+ " (valid: json, cel, typescript)"))
  else if String.eqb source "" then inr (mkValidation false strategy [EmptySource] None)
  else match Compile strategy source with
       | Err e => inr (mkValidation false strategy [CompileProblem e] None)
       | Ok compiled => inr (mkValidation true strategy [] (Some (summarize compiled)))
       end.

(** [jsonResult] of a report. *)
Definition summary_doc (s : ValidateConfigSummary) : jdoc :=
  JObj [("value_type", enc_str (ValueTypeOf s)); ("rule_count", JNum (itoa (RuleCount s))); ("has_rollout", JBool (HasRollout s));
        ("has_cel", JBool (HasCEL s)); ("cel_program_count", JNum (itoa (CELProgramCount s)))].
Definition problem_text (p : config_problem) : string :=
  match p with EmptySource => "empty source" | CompileProblem e => error_text e end.
Definition validation_doc (o : ValidateConfigOutput) : jdoc :=
  JObj ([("valid", JBool (Valid o)); ("strategy", enc_str (StrategyOf o))] ++
        match Problems o with [] => [] | l => [("errors", JArr (map (fun p => enc_str (problem_text p)) l))] end ++
        match IRSummary o with None => [] | Some s => [("ir_summary", summary_doc s)] end).
Definition jsonResult (o : ValidateConfigOutput) : CallToolResult := textResult (print (validation_doc o)).

(** ** The tools ([register.go], [tools.go]) *)

Definition ToolNames : list string :=
  ["list_projects"; "list_flags"; "get_flag"; "validate_config"; "explain_evaluation"; "search_audit_log"].
Inductive tool : Type :=
| TListProjects
| TListFlags (projectSlug : string)
| TGetFlag (projectSlug flagKey : string)
| TExplain (projectSlug flagKey : string) (context : list (string * goval))
| TSearch (input : SearchAuditLogInput)
| TValidate (strategy source : string).
Definition call_tool (client : option ApiClient) (t : tool) : oprog CallToolResult :=
  match t with
  | TListProjects => listProjects client
  | TListFlags slug => listFlags client slug
  | TGetFlag slug key => getFlag client slug key
  | TExplain slug key ctx => explainEvaluation client slug key ctx
  | TSearch i => searchAuditLog client i
  | TValidate strategy source =>
      ODone (match validateConfig strategy source with inl e => e | inr o => jsonResult o end)
  end.
(** The name a tool is registered under, and the inputs that have it. *)
Definition tool_name (t : tool) : string :=
  match t with
  | TListProjects => "list_projects"
  | TListFlags _ => "list_flags"
  | TGetFlag _ _ => "get_flag"
  | TValidate _ _ => "validate_config"
  | TExplain _ _ _ => "explain_evaluation"
  | TSearch _ => "search_audit_log"
  end.
(** The list that smoke tests and documents use names every tool, once. *)
Lemma tool_names_complete : NoDup ToolNames /\ forall n, In n ToolNames <-> exists t, tool_name t = n.
Proof.
  split; [apply (bool_decide_unpack (NoDup ToolNames)); vm_compute; done|]. intros n. split.
  - intros [<-|[<-|[<-|[<-|[<-|[<-|[]]]]]]];
      [exists TListProjects | exists (TListFlags "") | exists (TGetFlag "" "") | exists (TValidate "" "") | exists (TExplain "" "" []) |
       exists (TSearch (mkSearch "" "" "" "" "" 0 ""))]; done.
  - intros [t <-]. destruct t; cbn; tauto.
Qed.

(** ** Calls that only read *)

Definition reads (q : rpc_request) : Prop := forall actor, writes (fun _ _ _ => False) (rpc_handle actor q).
Fixpoint only_reads {A} (p : oprog A) : Prop :=
  match p with ODone _ => True | OCall q k => reads q /\ forall r, only_reads (k r) end.

Lemma served_reads actor q db r db' : reads q -> served actor q db r db' -> db' = db.
Proof. intros Hq [(m & H & _)|(e & _ & [->|[m H]])]; [| done |]; by eapply exec_reads. Qed.
Lemma oexec_reads actor {A} (p : oprog A) db a db' : only_reads p -> oexec actor p db a db' -> db' = db.
Proof.
  revert db. induction p as [x|q k IH]; intros db; cbn [only_reads oexec]; [by intros _ [_ ->]|].
  intros [Hq Hk] (r & db1 & Hs & H). apply served_reads in Hs as ->; [|done]. by eapply IH.
Qed.

Ltac walk_reads := intros actor; cbn [rpc_handle]; unfold_surfaces; walk_writes.
Lemma reads_projects : reads RpcListProjects.
Proof. walk_reads. Qed.
Lemma reads_flags slug : reads (RpcListFlags slug).
Proof. walk_reads. Qed.
Lemma reads_flag slug key : reads (RpcGetFlag slug key).
Proof. walk_reads. intros [v|[]]; apply writes_done. Qed.
Lemma reads_trace slug key ctx : reads (RpcEvaluateTrace slug key ctx).
Proof. walk_reads. Qed.
Lemma reads_audit slug limit action who from to : reads (RpcListAudit slug limit action who from to).
Proof. walk_reads. Qed.

(** No tool changes the database: whatever the tool, its input and the clients
    it has, and whatever faults its calls meet, the database is the same
    afterwards.  In particular no tool leaves an audit event. *)
Theorem tools_read_only actor client t db r db' : oexec actor (call_tool client t) db r db' -> db' = db.
Proof.
  apply oexec_reads. destruct t; cbn [call_tool]; unfold listProjects, listFlags, getFlag, explainEvaluation, searchAuditLog, pass_through;
    repeat case_match; cbn [only_reads]; auto using reads_projects, reads_flags, reads_flag, reads_trace, reads_audit.
Qed.

(** ** What get_flag says *)

Lemma exec_get_flag actor slug key db m db' :
  exec (rpc_handle actor (RpcGetFlag slug key)) db (Ok m) db' ->
  exists proj flag, GetProjectBySlug slug db = Ok proj /\ GetFlagByKey (P_ID proj) key db = Ok flag /\
    match GetLatestFlagVersion (F_ID flag) db with
    | Ok v => m = MFlagWithLatest (flagToProto flag) (Some (flagVersionToProto v))
    | Err e => e = ErrNotFound /\ m = MFlagWithLatest (flagToProto flag) None
    end.
Proof.
  cbn [rpc_handle]. unfold rpc_GetFlag. intros H. set (good := fun r : rpc_response => is_ok r = true).
  assert (forall e, ~ good (connectError e)) as Hbad by (intros e; unfold good, connectError; by repeat case_match).
  apply (exec_get good) in H as (proj & Hp & H); [|done|done]. apply (exec_get good) in H as (flag & Hf & H); [|done|done].
  exists proj, flag. split; [done|]. split; [done|]. destruct H as (r & [->|(e & He & ->)] & H).
  - destruct (GetLatestFlagVersion (F_ID flag) db) as [v|[|d|]]; destruct H as [E _]; try (injection E as ->; done);
      unfold connectError in E; by repeat case_match.
  - destruct He as [Hn _]. destruct e as [|d|]; [done|..]; destruct H as [E _]; unfold connectError in E; by repeat case_match.
Qed.

(** get_flag reports the flag of the project under the key, with its latest
    version when there is one; the note that the flag was never published, and a
    null published_version, are there exactly when no version is stored. *)
Theorem get_flag_published actor client slug key db r db' :
  oexec actor (getFlag client slug key) db r db' -> IsError r = false ->
  exists proj flag flagDoc,
    GetProjectBySlug slug db = Ok proj /\ GetFlagByKey (P_ID proj) key db = Ok flag /\
    (do? t := Marshal_flag (Some (flagToProto flag)) in raw_doc t) = Some flagDoc /\
    match GetLatestFlagVersion (F_ID flag) db with
    | Ok v => exists version, (do? t := Marshal_version (flagVersionToProto v) in raw_doc t) = Some version /\
        Content r = print (JObj [("flag", flagDoc); ("published_version", version)])
    | Err e => e = ErrNotFound /\
        Content r = print (JObj [("flag", flagDoc); ("note", enc_str never_published); ("published_version", JNull)])
    end.
Proof.
  unfold getFlag. destruct (negb (has_client c_Flags client)); [by intros [-> _]|]. intros (a & db1 & Hs & -> & ->) Hok.
  destruct Hs as [([m|c] & H & ->)|(e & -> & _)]; cbn [rmap_err] in *; [|by destruct c | by destruct e as [[]|]].
  apply exec_get_flag in H as (proj & flag & Hp & Hf & Hv). exists proj, flag.
  assert (GetFlag m = Some (flagToProto flag)) as Eg by (destruct (GetLatestFlagVersion _ _); [by subst | by destruct Hv as [_ ->]]).
  unfold get_flag_result in *. rewrite Eg in *. destruct (Marshal_flag (Some (flagToProto flag))) as [t|]; [|done]. cbn [mbind option_bind].
  unfold get_flag_body in *. destruct (GetLatestFlagVersion (F_ID flag) db) as [v|e].
  - subst m. cbn [GetLatestVersion] in *. destruct (Marshal_version (flagVersionToProto v)) as [tv|]; [|done]. cbn [mbind option_bind].
    destruct (raw_doc t) as [d|]; [|done]. cbn [mbind option_bind] in *. destruct (raw_doc tv) as [dv|]; [|done]. cbn [mbind option_bind] in *.
    exists d. repeat (split; [done|]). by exists dv.
  - destruct Hv as [-> ->]. cbn [GetLatestVersion] in *. destruct (raw_doc t) as [d|]; [|done]. by exists d.
Qed.
(** ** What explain_evaluation explains *)

Lemma exec_trace actor slug key ctx db m db' :
  exec (rpc_handle actor (RpcEvaluateTrace slug key ctx)) db (Ok m) db' ->
  exists proj flag v c d tr,
    GetProjectBySlug slug db = Ok proj /\ GetFlagByKey (P_ID proj) key db = Ok flag /\ GetLatestFlagVersion (F_ID flag) db = Ok v /\
    Compile (V_Strategy v) (V_Compiled v) = Ok c /\ EvaluateWithTrace (Some c) (struct_map ctx) (V_Version v) = Ok (d, tr) /\
    m = MDecisionTrace (decisionToProto d) (traceToProto tr).
Proof.
  cbn [rpc_handle]. unfold rpc_EvaluateWithTrace, rpc_loadEvaluation. intros H. set (good := fun r : rpc_response => is_ok r = true).
  assert (forall e, ~ good (connectError e)) as Hbad by (intros e; unfold good, connectError; by repeat case_match).
  apply (exec_get good) in H as (proj & Hp & H); [|done|done]. apply (exec_get good) in H as (flag & Hf & H); [|done|done].
  apply (exec_get good) in H as (v & Hv & H); [|done|done]. apply (exec_need good) in H as (c & Hc & H); [|done|done].
  apply (exec_need good) in H as ([d tr] & Hd & H); [|done|done]. destruct H as [[= ->] _]. by exists proj, flag, v, c, d, tr.
Qed.

(** An explanation is of the flag's latest version, compiled as the server
    compiles it, in the context of the input. *)
Theorem explains_latest {SL : StructPbLaws} actor client slug key ctx db r db' :
  plain (VMap ctx) = true ->
  oexec actor (explainEvaluation client slug key ctx) db r db' -> IsError r = false ->
  exists proj flag v c d tr,
    GetProjectBySlug slug db = Ok proj /\ GetFlagByKey (P_ID proj) key db = Ok flag /\ GetLatestFlagVersion (F_ID flag) db = Ok v /\
    Compile (V_Strategy v) (V_Compiled v) = Ok c /\ EvaluateWithTrace (Some c) ctx (V_Version v) = Ok (d, tr) /\
    Marshal_message (MDecisionTrace (decisionToProto d) (traceToProto tr)) = Some (Content r).
Proof.
  intros Hplain. unfold explainEvaluation. destruct (negb (has_client c_Evaluation client)); [by intros [-> _]|].
  assert (forall s, struct_map s = ctx -> oexec actor (pass_through (RpcEvaluateTrace slug key s) "evaluate-with-trace") db r db' ->
    IsError r = false -> exists proj flag v c d tr,
    GetProjectBySlug slug db = Ok proj /\ GetFlagByKey (P_ID proj) key db = Ok flag /\ GetLatestFlagVersion (F_ID flag) db = Ok v /\
    Compile (V_Strategy v) (V_Compiled v) = Ok c /\ EvaluateWithTrace (Some c) ctx (V_Version v) = Ok (d, tr) /\
    Marshal_message (MDecisionTrace (decisionToProto d) (traceToProto tr)) = Some (Content r)) as Hcall.
  { intros s Es (a & db1 & Hs & -> & ->) Hok. destruct Hs as [([m|c] & H & ->)|(e & -> & _)];
      cbn [rmap_err] in *; [|by destruct c | by destruct e as [[]|]].
    apply exec_trace in H as (proj & flag & v & c & d & tr & Hp & Hf & Hv & Hc & Hd & ->). rewrite Es in Hd.
    exists proj, flag, v, c, d, tr. unfold marshalProto in *. by destruct (Marshal_message _) as [body|]. }
  destruct ctx as [|kv ctx]; [by apply Hcall|]. destruct (NewStruct (kv :: ctx)) as [s|] eqn:En; [|by intros [-> _]].
  apply Hcall. cbn. by apply as_map_new.
Qed.

(** ** What validate_config reports *)

(** A predicate at any depth. *)
Inductive subpredicate (q : Predicate) : Predicate -> Prop :=
| sub_self : subpredicate q q
| sub_of p o : In (Some o) (Of p) -> subpredicate q o -> subpredicate q p
| sub_one p o : OfOne p = Some o -> subpredicate q o -> subpredicate q p.

Lemma predicateHasKind_spec p kind : predicateHasKind p kind = true <-> exists q, subpredicate q p /\ Kind q = kind.
Proof.
  split.
  - induction p as [p IHo IHo1] using Predicate_ind. destruct p as [k a v vs pat s pc o o1 src key]. cbn [predicateHasKind Kind Of OfOne] in *.
    destruct (String.eqb_spec k kind) as [->|_]; [intros _; eexists; split; [constructor | done]|].
    intros [H|H]%orb_true_iff.
    + apply existsb_exists in H as ([q|] & Hin & Hq); [|done]. rewrite List.Forall_forall in IHo.
      destruct (IHo _ Hin Hq) as (q' & Hs & Hk). exists q'. split; [|done]. by eapply sub_of.
    + destruct o1 as [q|]; [|done]. destruct (IHo1 H) as (q' & Hs & Hk). exists q'. split; [|done]. by eapply sub_one.
  - intros (q & Hs & <-). induction Hs as [|p o Hin _ IH|p o E _ IH].
    + destruct q as [k a v vs pat s pc oo oo1 src key]. cbn [predicateHasKind Kind]. by rewrite String.eqb_refl.
    + destruct p as [k a v vs pat s pc oo oo1 src key]. cbn [predicateHasKind Kind Of] in *. destruct (String.eqb _ _); [done|]. apply orb_true_iff. left. apply existsb_exists. by exists (Some o).
    + destruct p as [k a v vs pat s pc oo oo1 src key]. cbn [predicateHasKind Kind OfOne] in *. destruct (String.eqb _ _); [done|]. apply orb_true_iff. right. by rewrite E.
Qed.

Lemma program_count s src c : Compile s src = Ok c -> size (CELPrograms c) = List.length (remove_dups (tree_sources (IR c))).
Proof.
  intros (Hk & _)%program_table. rewrite <- size_dom.
  assert (dom (CELPrograms c) = list_to_set (remove_dups (tree_sources (IR c))) :> gset string) as ->.
  { apply set_eq. intros k. rewrite elem_of_dom, Hk, elem_of_list_to_set, elem_of_remove_dups. symmetry. apply list_elem_of_In. }
  apply size_list_to_set, NoDup_remove_dups.
Qed.

(** validate_config calls a source valid exactly when it compiles under the
    strategy, and then describes the compiled rules: their number and value type,
    whether a rollout occurs in one of them at any depth, and how many distinct
    CEL programs the evaluator can reach.  It fails only for an unknown strategy. *)
Theorem validate_config_report strategy source :
  (Strategy_Valid strategy = false <-> exists e, validateConfig strategy source = inl e) /\
  forall o, validateConfig strategy source = inr o ->
  (Valid o = true <-> source <> "" /\ is_ok (Compile strategy source) = true) /\
  (Valid o = true <-> Problems o = []) /\ (Valid o = false <-> IRSummary o = None) /\
  forall s c, IRSummary o = Some s -> Compile strategy source = Ok c ->
    ValueTypeOf s = TreeValueType (IR c) /\ RuleCount s = Z.of_nat (List.length (rules_of (IR c))) /\
    (HasRollout s = true <-> exists r p q, In r (rules_of (IR c)) /\ When r = Some p /\ subpredicate q p /\ Kind q = "rollout") /\
    (HasCEL s = true <-> tree_sources (IR c) <> []) /\
    CELProgramCount s = Z.of_nat (List.length (remove_dups (tree_sources (IR c)))).
Proof.
  unfold validateConfig. destruct (Strategy_Valid strategy); cbn [negb].
  2: { split; [split; [eauto | done] | done]. }
  split; [split; [done|]; destruct (String.eqb source ""); [by intros [e H]|]; by destruct (Compile strategy source); intros [e' H]|].
  destruct (String.eqb_spec source "") as [->|Hne]; [intros o [= <-]; cbn; repeat split; try done; by intros [? _]|].
  destruct (Compile strategy source) as [c|e] eqn:Ec; intros o [= <-]; cbn [Valid Problems IRSummary is_ok];
    [|repeat split; try done; by intros [_ ?]].
  repeat (split; [by repeat split|]). intros s c' [= <-] [= <-]. unfold summarize. cbn [ValueTypeOf RuleCount HasRollout HasCEL CELProgramCount].
  rewrite (program_count _ _ _ Ec). repeat (split; [done|]). split_and!; [| |done].
  - rewrite existsb_exists. split.
    + intros (r & Hin & Hr). unfold ptrHasKind in Hr. destruct (When r) as [p|] eqn:Ew; [|done].
      apply predicateHasKind_spec in Hr as (q & Hs & Hk). by exists r, p, q.
    + intros (r & p & q & Hin & Ew & Hs & Hk). exists r. split; [done|]. unfold ptrHasKind. rewrite Ew.
      apply predicateHasKind_spec. by exists q.
  - assert (tree_sources (IR c) = [] <-> remove_dups (tree_sources (IR c)) = []) as ->.
    { split; [by intros ->|]. intros E. destruct (tree_sources (IR c)) as [|x l]; [done|].
      assert (x ∈ remove_dups (x :: l)) as Hx by (apply elem_of_remove_dups; constructor). rewrite E in Hx. by apply elem_of_nil in Hx. }
    destruct (remove_dups (tree_sources (IR c))); cbn [List.length]; [by split; [|intros []]|]. split; [done|]. intros _. apply Z.ltb_lt. lia.
Qed.

(** ** A validated source, published *)

(** The document [j] reads as [text] does: the same tree, with values spelled
    differently at most (spacing, the order of keys, escapes, [1.0] for [1]).  It
    excludes a text with two keys of one field, or a number out of range: Go does
    not write back what it read there. *)
Definition reads_alike (text j : string) : Prop :=
  exists t f, dec_tree text = Some t /\ (forall r, raw_equiv (f r) r) /\ dec_tree j = Some (respell_tree f t).

Lemma alike_resolved strategy text c f j resolver fuel :
  Compile strategy text = Ok c -> (forall r, raw_equiv (f r) r) -> dec_tree j = Some (respell_tree f (IR c)) ->
  tree_no_refs (IR c) = true ->
  exists resolved c', resolveSegmentRefs resolver (S fuel) j = Ok resolved /\ Compile strategy resolved = Ok c' /\
    is_Some (enc_tree (IR c')) /\ forall ctx n, Evaluate (Some c') ctx n = Evaluate (Some c) ctx n.
Proof.
  intros Hc Hf Dj Hno. destruct (Compile_ok _ _ _ Hc) as [Hs Hok].
  pose proof (compile_doc f strategy c j Hf Hs Hok Dj) as Hj.
  destruct (rehydrate _ _ _ Hj) as (j' & Ej & Cj). cbn [IR CELPrograms] in *.
  eexists j', _. split_and!; [|exact Cj| |].
  - unfold resolveSegmentRefs. rewrite Dj, resolve_id by (by rewrite tree_no_refs_respell). cbn. by rewrite Ej.
  - destruct (rehydrate _ _ _ Cj) as (j2 & E2 & _). by exists j2.
  - intros ctx n. rewrite (Evaluate_respell _ norm_raw_equiv), (Evaluate_respell _ Hf). destruct c; cbn in *. by subst.
Qed.

(** Identifiers no row of the two tables has. *)
Definition unused (ds : draws) (db : DB) : Prop :=
  ~ In (new_id (d_fn ds)) (map vr_id (flag_versions db)) /\ ~ In (new_id (d_audit ds)) (map ar_id (audit_events db)).

Lemma project_found slug db proj : GetProjectBySlug slug db = Ok proj -> project_exists db (P_ID proj) = true.
Proof.
  unfold GetProjectBySlug, q_GetProjectBySlug, query_one. destruct (List.find _ _) as [r|] eqn:E; [|done]. intros [= <-].
  apply find_some in E as [Hin _]. apply existsb_exists. exists r. by rewrite Z.eqb_refl.
Qed.
Lemma flag_found project key db flag : GetFlagByKey project key db = Ok flag -> flag_exists db (F_ID flag) = true.
Proof.
  unfold GetFlagByKey, q_GetFlagByKey, query_one. destruct (List.find _ _) as [r|] eqn:E; [|done]. intros [= <-].
  apply find_some in E as [Hin _]. apply existsb_exists. exists r. by rewrite Z.eqb_refl.
Qed.

Lemma publish_fresh d p db :
  db_ok db -> one_of strategies (pv_Strategy p) = true -> flag_exists db (pv_FlagID p) = true ->
  ~ In (new_id d) (map vr_id (flag_versions db)) -> exists v db', publishFlagVersionTx d p db = Ok (v, db').
Proof.
  intros Hok Hs Hf Hid. unfold publishFlagVersionTx, q_CreateFlagVersion. cbv zeta. rewrite Hs, Hf. cbn [negb].
  rewrite (proj2 (has_false (fun r => vr_id r =? new_id d) _)).
  2: { intros r Hr. apply Z.eqb_neq. intros E. apply Hid. rewrite <- E. by apply in_map. }
  rewrite (proj2 (has_false _ (flag_versions db))); [eauto|]. intros r Hr. destruct (Z.eqb_spec (vr_flag r) (pv_FlagID p)) as [Hv|]; [|done]. cbn.
  apply Z.eqb_neq. intros E. destruct (ok_versions db Hok (pv_FlagID p)) as [n Hn].
  assert (In (vr_version r) (upto n)) as Hin.
  { rewrite <- Hn. apply in_map. unfold versions_of. apply filter_In. by rewrite Hv, Z.eqb_refl. }
  unfold q_NextFlagVersion in E. rewrite Hn, max_upto in E. rewrite E in Hin. apply in_map_iff in Hin as (i & Hi1 & Hi). apply in_seq in Hi. lia.
Qed.

Lemma append_fresh d ev db :
  ~ In (new_id d) (map ar_id (audit_events db)) ->
  opt_exists (project_exists db) (aa_ProjectID ev) && opt_exists (flag_exists db) (aa_FlagID ev) = true ->
  exists x db', AppendAudit d ev db = Ok (x, db').
Proof.
  intros Hid Hr. unfold AppendAudit, q_AppendAuditEvent. cbv zeta. rewrite Hr. cbn [negb].
  rewrite (proj2 (has_false (fun r => ar_id r =? new_id d) _)); [eauto|].
  intros r Hin. apply Z.eqb_neq. intros E. apply Hid. rewrite <- E. by apply in_map.
Qed.
Lemma quiet_audit {A} d ev (fn : write A) db a db1 x db2 :
  fn db = Ok (a, db1) -> AppendAudit d ev db1 = Ok (x, db2) -> WithAudit quiet (fun _ => d) ev (fun _ => fn) db = (Ok a, db2).
Proof.
  intros Hf Ha. apply (busy_is_retried quiet _ 0); [lia | lia | done | done |]. unfold audited. by rewrite Hf, Ha.
Qed.

Definition refused (r : response) : Prop := status r = 400 \/ status r = 422.

Lemma compile_input_raw strategy raw text : strategy = StrategyJSON \/ strategy = StrategyCEL -> compile_input strategy raw text = raw.
Proof. by intros [-> | ->]. Qed.
Lemma known_strategy strategy : strategy = StrategyJSON \/ strategy = StrategyCEL ->
  Strategy_Valid strategy = true /\ one_of strategies strategy = true.
Proof. by intros [-> | ->]. Qed.

Section alike.
Context (strategy text j : string) (c : Compiled) (f : RawMessage -> RawMessage) (req : PublishFlagVersionRequest).
Hypothesis Hs : strategy = StrategyJSON \/ strategy = StrategyCEL.
Hypothesis Hc : Compile strategy text = Ok c.
Hypothesis Hf : forall r, raw_equiv (f r) r.
Hypothesis Dj : dec_tree j = Some (respell_tree f (IR c)).
Hypothesis Hno : tree_no_refs (IR c) = true.
Hypothesis Hreq : rq_PubStrategy req = strategy.
Hypothesis Ej : marshal (rq_Source req) = Some j.

Lemma alike_accepted fuel actor slug key db resp db' :
  exec (h_PublishFlagVersion (S fuel) (mkAPI true) actor slug key (Some req)) db resp db' -> ~ refused resp.
Proof.
  intros H Hr. destruct (known_strategy strategy Hs) as [Hsv _].
  assert (forall e, ~ refused (notFoundOrError e)) as H1 by (intros e; unfold refused; destruct e; cbn; lia).
  assert (forall e, ~ refused (writeStoreErr e)) as H2 by (intros e; unfold refused, writeStoreErr; destruct e; try destruct (IsConflict _); cbn; lia).
  unfold h_PublishFlagVersion in H. cbn [requireStore a_Store] in H.
  apply (exec_get refused) in H as (proj & Hp & H); [|exact Hr|exact H1].
  apply (exec_get refused) in H as (flag & Hfl & H); [|exact Hr|exact H1].
  cbn [body_or] in H. cbv zeta in H. rewrite Hreq, Hsv, Ej in H. cbn [negb body_or] in H. destruct H as (get & _ & H).
  rewrite compile_input_raw in H by done.
  destruct (alike_resolved strategy text c f j (storeSegmentResolver get) fuel Hc Hf Dj Hno) as (r & c' & Er & Hc' & [j' Ej'] & _).
  rewrite Er, Hc' in H. cbn [need] in H. rewrite Ej' in H. cbn [body_or] in H.
  apply (exec_audit refused) in H as (d & v & db1 & row & _ & -> & _); [|exact Hr|exact H2]. destruct Hr; done.
Qed.

Lemma alike_runs fuel actor slug key db proj flag ds :
  db_ok db -> GetProjectBySlug slug db = Ok proj -> GetFlagByKey (P_ID proj) key db = Ok flag -> unused ds db ->
  exists resp db', run ds (h_PublishFlagVersion (S fuel) (mkAPI true) actor slug key (Some req)) db = (Some resp, db') /\ success resp.
Proof.
  intros Hok Hp Hfl [Hid Haid]. destruct (known_strategy strategy Hs) as [Hsv Hso].
  unfold h_PublishFlagVersion. cbn [requireStore a_Store get_or run]. rewrite Hp. cbn [get_or run].
  rewrite Hfl. cbn [get_or run body_or]. cbv zeta.
  rewrite Hreq, Hsv, Ej. cbn [negb body_or run]. rewrite compile_input_raw by done.
  destruct (alike_resolved strategy text c f j (storeSegmentResolver (segment_text (P_ID proj) db)) fuel Hc Hf Dj Hno)
    as (r & c' & -> & -> & [j' Ej'] & _).
  cbn [need]. rewrite Ej'. cbn [body_or]. unfold audit_or. cbn [run].
  destruct (publish_fresh (d_fn ds) (mkPublishParams (F_ID flag) strategy
    (persisted_source strategy j j' (derefString (rq_SourceText req))) j' (derefString (rq_SourceText req))) db) as (v & db1 & Hv);
    [done | done | by eapply flag_found | done |].
  destruct (publish_db _ _ _ _ _ Hv) as (row & Edb & _).
  destruct (append_fresh (d_audit ds) (mkAuditParams (Some (P_ID proj)) (Some (F_ID flag)) "publish_version" actor
    (mustMarshal (VMap [("flag_key", VStr (F_Key flag)); ("strategy", VStr strategy)]))) db1) as (x & db2 & Ha).
  { by subst db1. }
  { subst db1. pose proof (project_found _ _ _ Hp) as E1. pose proof (flag_found _ _ _ _ Hfl) as E2.
    change (project_exists db (P_ID proj) && flag_exists db (F_ID flag) = true). by rewrite E1, E2. }
  rewrite (quiet_audit _ _ _ _ _ _ _ _ Hv Ha). eexists _, _. split; [reflexivity|]. unfold success. cbn [status writeJSON]. lia.
Qed.
End alike.

(** C28. What validate_config accepts, publishing accepts.  Take a JSON or CEL text
    it calls valid, without segment references, and a publish request for an
    existing flag with that strategy, whose source Go writes as a text that reads
    like the validated one.  Whatever faults it meets, the request is never refused
    as a bad request or a failed compilation; when it succeeds, the evaluate
    endpoint then answers every context as the validated source decides; and
    without faults, with identifiers not used before, it succeeds. *)
Theorem validated_config_publishes strategy text o t j fuel actor slug key req db proj flag :
  strategy = StrategyJSON \/ strategy = StrategyCEL ->
  validateConfig strategy text = inr o -> Valid o = true -> dec_tree text = Some t -> tree_no_refs t = true ->
  rq_PubStrategy req = strategy -> marshal (rq_Source req) = Some j -> reads_alike text j ->
  db_ok db -> GetProjectBySlug slug db = Ok proj -> GetFlagByKey (P_ID proj) key db = Ok flag ->
  let publish := h_PublishFlagVersion (S fuel) (mkAPI true) actor slug key (Some req) in
  exists c, Compile strategy text = Ok c /\
  (forall resp db', exec publish db resp db' -> ~ refused resp /\ (success resp ->
     exists v, resp = writeJSON 200 (BFlagVersion (flagVersionToAPI v)) /\
     forall ds ctx, run ds (h_EvaluateFlag (mkAPI true) slug key (Some (mkEvaluation ctx))) db' =
       (Some (match Evaluate (Some c) ctx (V_Version v) with
              | Ok d => writeJSON 200 (BDecision (decisionToAPI d))
              | Err _ => writeError 500
              end), db'))) /\
  (forall ds, unused ds db -> exists resp db', run ds publish db = (Some resp, db') /\ success resp).
Proof.
  intros Hs Hval Hv Ht Hno Hreq Ej (t' & f & Ht' & Hf & Dj) Hok Hp Hfl publish.
  rewrite Ht in Ht'. injection Ht' as <-. unfold validateConfig in Hval. destruct (negb (Strategy_Valid strategy)); [done|].
  destruct (String.eqb text ""); [by injection Hval as <-|]. destruct (Compile strategy text) as [c|e] eqn:Ec; [|by injection Hval as <-].
  pose proof (tree_compiles _ _ _ Hs Ec) as Htree. rewrite Ht in Htree. injection Htree as ->.
  exists c. split; [done|]. split.
  - intros resp db' H. split; [by eapply alike_accepted|]. intros Hsuc.
    destruct (publish_serves _ _ _ _ _ _ _ _ Hok H Hsuc) as
      (proj' & flag' & get & source & resolved & c' & v & _ & _ & _ & Es & Er & Hc' & -> & _ & _ & _ & _ & _ & He).
    exists v. split; [done|]. intros ds ctx. rewrite He.
    rewrite Ej in Es. injection Es as <-. rewrite Hreq, compile_input_raw in Er by done. rewrite Hreq in Hc'.
    destruct (alike_resolved strategy text c f j (storeSegmentResolver get) fuel Ec Hf Dj Hno) as (r2 & c2 & Er2 & Hc2 & _ & Heq).
    rewrite Er in Er2. injection Er2 as <-. rewrite Hc' in Hc2. injection Hc2 as <-. by rewrite Heq.
  - intros ds Hd. by eapply alike_runs.
Qed.
End mcp.

Module McpDemo.
Import Demo HandlersDemo RpcDemo OperatorDemo.

(** Messages rendered by a field or two; codes by one name. *)
#[export] Instance demo_mcp : McpLib := {
  Marshal_message _ := Some "{}";
  Marshal_flag f := Some (print (JObj (match f with Some f => [("key", enc_str (pf_Key f))] | None => [] end)));
  Marshal_version v := Some (print (JObj [("version", JNum (itoa (pv_Version v)))]));
  code_String _ := "other";
  error_text _ := "compile error"
}.
Definition client : option ApiClient := Some (mkApiClient true true true true).
Definition get_us : oprog CallToolResult := call_tool client (TGetFlag "acme" "us").
Definition shown (db : DB) : CallToolResult := default (toolError "") (orun "mcp/falseflag-mcp" demo_seq 0 get_us db).1.

Example shown_texts :
  Content (shown db2) = print (JObj [("flag", JObj [("key", enc_str "us")]); ("note", enc_str never_published); ("published_version", JNull)]) /\
  Content (shown db3) = print (JObj [("flag", JObj [("key", enc_str "us")]); ("published_version", JObj [("version", JNum "1")])]).
Proof. vm_compute. split; reflexivity. Qed.

Lemma shown_run : orun "mcp/falseflag-mcp" demo_seq 0 get_us db2 = (Some (shown db2), db2).
Proof. vm_compute. reflexivity. Qed.


Lemma get_flag_published_witness :
  exists proj flag, GetProjectBySlug "acme" db2 = Ok proj /\ GetFlagByKey (P_ID proj) "us" db2 = Ok flag.
Proof.
  destruct (get_flag_published "mcp/falseflag-mcp" client "acme" "us" db2 (shown db2) db2) as (proj & flag & d & H1 & H2 & _).
  - exact (orun_exec "mcp/falseflag-mcp" demo_seq 0 get_us db2 (shown db2) db2 shown_run).
  - vm_compute. reflexivity.
  - exists proj, flag. split; [exact H1 | exact H2].
Defined.

Definition us_report : ValidateConfigOutput :=
  match validateConfig StrategyCEL us_source with inr o => o | inl _ => mkValidation false "" [] None end.
Lemma us_validated : validateConfig StrategyCEL us_source = inr us_report.
Proof. vm_compute. reflexivity. Qed.

Lemma validate_config_report_witness :
  Valid us_report = true <-> us_source <> "" /\ is_ok (Compile StrategyCEL us_source) = true.
Proof. exact (proj1 (proj2 (validate_config_report StrategyCEL us_source) us_report us_validated)). Defined.

Lemma us_valid : Valid us_report = true.
Proof. vm_compute. reflexivity. Qed.

(** The same configuration as a client may type it: other spacing, key order and
    number spelling. *)
Definition typed_text : string := print (tree_doc "number" (JNum "1.0e1") [rule_doc "us" (obj [("value", jstr "US"); ("kind", jstr "eq"); ("attr", jstr "user.country")]) (JNum "2.50")]).
Definition typed_value : goval := (unmarshal_any typed_text).1.
Definition typed_report : ValidateConfigOutput :=
  match validateConfig StrategyJSON typed_text with inr o => o | inl _ => mkValidation false "" [] None end.
Definition typed_tree : RulesTree := default zero_tree (dec_tree typed_text).
Definition sent_text : string := default "" (marshal typed_value).
Example spelled_otherwise : sent_text <> typed_text.
Proof. vm_compute. discriminate. Qed.
Definition publish_typed : PublishFlagVersionRequest := mkPublish StrategyJSON typed_value None.
Lemma typed_alike : reads_alike typed_text sent_text.
Proof. exists typed_tree, canon. split; [vm_compute; reflexivity | split; [exact canon_equiv | vm_compute; reflexivity]]. Qed.
Definition acme_project : Project := match GetProjectBySlug "acme" db2 with Ok p => p | Err _ => mkProject 0 "" "" "" 0 0 end.
Definition us_flag : Flag := match GetFlagByKey (P_ID acme_project) "us" db2 with Ok f => f | Err _ => mkFlag 0 0 "" "" "" "" "" 0 0 end.

Lemma typed_valid : validateConfig StrategyJSON typed_text = inr typed_report /\ Valid typed_report = true.
Proof. vm_compute. split; reflexivity. Qed.
Lemma typed_reads : dec_tree typed_text = Some typed_tree /\ tree_no_refs typed_tree = true /\ marshal typed_value = Some sent_text.
Proof. vm_compute. repeat split; reflexivity. Qed.
Lemma us_found : GetProjectBySlug "acme" db2 = Ok acme_project /\ GetFlagByKey (P_ID acme_project) "us" db2 = Ok us_flag.
Proof. vm_compute. split; reflexivity. Qed.
Lemma third_unused : unused (demo_draws 3) db2.
Proof. split; intros H; vm_compute in H; intuition discriminate. Qed.

Lemma validated_config_publishes_witness :
  exists c resp db', Compile StrategyJSON typed_text = Ok c /\
    run (demo_draws 3) (h_PublishFlagVersion 1 (mkAPI true) "ops" "acme" "us" (Some publish_typed)) db2 = (Some resp, db') /\ success resp.
Proof.
  destruct (validated_config_publishes StrategyJSON typed_text typed_report typed_tree sent_text 0 "ops" "acme" "us" publish_typed db2
    acme_project us_flag (or_introl eq_refl) (proj1 typed_valid) (proj2 typed_valid) (proj1 typed_reads) (proj1 (proj2 typed_reads))
    eq_refl (proj2 (proj2 typed_reads)) typed_alike (proj1 (reached_ok db2 demo_server2)) (proj1 us_found) (proj2 us_found))
    as (c & Hc & _ & Hr).
  destruct (Hr (demo_draws 3) third_unused) as (resp & db' & H1 & H2).
  exists c, resp, db'. split; [exact Hc | split; [exact H1 | exact H2]].
Defined.
End McpDemo.
