(* ===== verification/Mux.v ===== *)
(** [net/http.ServeMux] and the parts of [net/url] that a listener uses.

    The REST listener, the Connect listener and the proxy each register a table
    of patterns ([GET /v1/projects/{slug}], [/falseflag.v1.FlagsService/]) and
    leave the choice of a handler to the mux.  [route] is that choice: the path
    is cleaned and split into segments, literal segments are tried before
    wildcards, a path with no trailing slash is redirected when only the pattern
    with one matches, and what is left is 405 or 404.  Hosts are not part of any
    pattern here. *)
From stdpp Require Import base list strings numbers.
From Stdlib Require Import Ascii String ZArith Lia.
From S2P Require Import Prelude Text.

Definition slash : ascii := "/"%char.

(** ** Percent escapes *)

Definition hex_val (c : ascii) : option Z :=
  if is_digit c then Some (code c - 48)
  else if byte_in 97 102 c then Some (code c - 87)
  else if byte_in 65 70 c then Some (code c - 55)
  else None.

(** [url.PathUnescape]; [plus] is the [+] of [url.QueryUnescape]. *)
Fixpoint unescape (plus : bool) (s : string) : option string :=
  match s with
  | EmptyString => Some EmptyString
  | String c r =>
      if Ascii.eqb c "%"%char then
        match r with
        | String a (String b r') =>
            do? x := hex_val a in
            do? y := hex_val b in
            do? t := unescape plus r' in Some (String (chr (16 * x + y)) t)
        | _ => None
        end
      else
        do? t := unescape plus r in
        Some (String (if plus && Ascii.eqb c "+"%char then " "%char else c) t)
  end.
Definition PathUnescape : string -> option string := unescape false.
Definition QueryUnescape : string -> option string := unescape true.

(** [Values.Get] on what [url.ParseQuery] made of a raw query, with [URL.Query]
    dropping the settings that do not parse. *)
Definition Values : Type := list (string * string).
Definition has_char (c : ascii) (s : string) : bool := existsb (Ascii.eqb c) (list_ascii_of_string s).
Definition query_setting (s : string) : option (string * string) :=
  if String.eqb s "" || has_char ";"%char s then None
  else let '(k, v) := cut "="%char s in
       do? k := QueryUnescape k in
       do? v := QueryUnescape v in Some (k, v).
Definition ParseQuery (raw : string) : Values := omap query_setting (split_on "&"%char raw).

(** ** Clean paths *)

(** [path.Clean] on the segments of a rooted path. *)
Fixpoint clean_segs (done : list string) (l : list string) : list string :=
  match l with
  | [] => rev done
  | s :: r =>
      if String.eqb s "" || String.eqb s "." then clean_segs done r
      else if String.eqb s ".." then clean_segs (tail done) r
      else clean_segs (s :: done) r
  end.
(** The path of a list of segments, each behind its slash. *)
Fixpoint path_of (l : list string) : string :=
  match l with [] => "" | s :: r => String slash (s +:+ path_of r) end.
Definition path_Clean (p : string) : string :=
  match clean_segs [] (split_on slash p) with [] => "/" | l => path_of l end.

Fixpoint last_char (s : string) : option ascii :=
  match s with EmptyString => None | String c EmptyString => Some c | String _ r => last_char r end.
Definition ends_in_slash (p : string) : bool := bool_decide (last_char p = Some slash).

(** [cleanPath]: rooted, clean, and with the trailing slash it came with. *)
Definition cleanPath (p : string) : string :=
  match p with
  | EmptyString => "/"
  | String c _ =>
      let p := if Ascii.eqb c slash then p else String slash p in
      let np := path_Clean p in
      if ends_in_slash p && negb (String.eqb np "/") then np +:+ "/" else np
  end.

(** ** Patterns and the routing tree *)

Inductive pseg : Type :=
| PLit (s : string)
| PWild (name : string)
(** The end of a pattern with a trailing slash. *)
| PRest.
Record pattern : Type := mkPattern { pt_method : string; pt_segs : list pseg }.

Definition ends_multi (p : pattern) : bool := match List.rev (pt_segs p) with PRest :: _ => true | _ => false end.

Section tree.
Context {H : Type}.
(** What is registered: patterns and handlers.  A node of the routing tree is the
    list of the patterns below it, each with what is left of its segments. *)
Definition table : Type := list (pattern * H).
Definition node : Type := list (list pseg * (pattern * H)).

Definition lit_child (seg : string) (n : node) : node :=
  omap (fun e => match e.1 with PLit s :: r => if String.eqb seg s then Some (r, e.2) else None | _ => None end) n.
Definition empty_child (n : node) : node :=
  omap (fun e => match e.1 with PWild _ :: r => Some (r, e.2) | _ => None end) n.
Definition multi_child (n : node) : option (pattern * H) :=
  head (omap (fun e => match e.1 with [PRest] => Some e.2 | _ => None end) n).
Definition leaf (n : node) : option (pattern * H) :=
  head (omap (fun e => match e.1 with [] => Some e.2 | _ => None end) n).

(** The segments of a path as [firstSegment] cuts them off. *)
Definition seg_text (s : string) : string := default s (PathUnescape s).
Fixpoint path_segs (l : list string) : list string :=
  match l with
  | [] => []
  | [s] => [if String.eqb s "" then "/" else seg_text s]
  | s :: r => seg_text s :: path_segs r
  end.
Definition segments (p : string) : list string := path_segs (tail (split_on slash p)).

(** [matchPath]. *)
Fixpoint matchPath (segs : list string) (n : node) (matches : list string) : option ((pattern * H) * list string) :=
  match segs with
  | [] => do? e := leaf n in Some (e, matches)
  | seg :: rest =>
      match matchPath rest (lit_child seg n) matches with
      | Some r => Some r
      | None =>
          match (if String.eqb seg "/" then None else matchPath rest (empty_child n) (matches ++ [seg])) with
          | Some r => Some r
          | None => do? e := multi_child n in Some (e, matches)
          end
      end
  end.

Definition with_method (m : string) (t : table) : node :=
  omap (fun e => if String.eqb (pt_method e.1) m then Some (pt_segs e.1, e) else None) t.

(** [matchMethodAndPath]: a pattern for GET serves HEAD too. *)
Definition match_tree (t : table) (method path : string) : option ((pattern * H) * list string) :=
  let segs := segments path in
  match (if String.eqb method "" then None else matchPath segs (with_method method t) []) with
  | Some r => Some r
  | None =>
      match (if String.eqb method "HEAD" then matchPath segs (with_method "GET" t) [] else None) with
      | Some r => Some r
      | None => matchPath segs (with_method "" t) []
      end
  end.

(** [exactMatch]. *)
Definition exactMatch (m : option ((pattern * H) * list string)) (path : string) : bool :=
  match m with
  | None => false
  | Some ((p, _), _) =>
      if negb (ends_multi p) then true
      else if negb (ends_in_slash path) then false
      else (List.length (pt_segs p) =? List.length (tail (split_on slash path)))%nat
  end.

(** What the mux does with a request. *)
Inductive routed : Type :=
| ToHandler (p : pattern) (h : H) (matches : list string)
| Redirected
| NotAllowed
| NotFound.

(** [matchingMethods] is not empty. *)
Definition other_method (t : table) (path : string) : bool :=
  let hits p := existsb (fun e => negb (String.eqb (pt_method e.1) "") &&
                  bool_decide (is_Some (matchPath (segments p) (with_method (pt_method e.1) t) []))) t in
  hits path || (negb (ends_in_slash path) && hits (path +:+ "/")).

(** [findHandler]. *)
Definition route (t : table) (method escapedPath : string) : routed :=
  let connect := String.eqb method "CONNECT" in
  let path := if connect then escapedPath else cleanPath escapedPath in
  let m := match_tree t method path in
  if negb (exactMatch m path) && negb (ends_in_slash path) && negb (String.eqb path "") &&
     exactMatch (match_tree t method (path +:+ "/")) (path +:+ "/") then Redirected
  else if negb connect && negb (String.eqb path escapedPath) then Redirected
  else match m with
       | Some ((p, h), matches) => ToHandler p h matches
       | None => if other_method t path then NotAllowed else NotFound
       end.

(** [r.PathValue(name)]. *)
Fixpoint wild_names (l : list pseg) : list string :=
  match l with PWild n :: r => n :: wild_names r | _ :: r => wild_names r | [] => [] end.
Definition PathValue (p : pattern) (matches : list string) (name : string) : string :=
  match List.find (fun e => String.eqb e.1 name) (zip (wild_names (pt_segs p)) matches) with
  | Some e => e.2
  | None => ""
  end.
End tree.
Arguments table : clear implicits.
Arguments routed : clear implicits.

(** ** Plain paths *)

(** A segment that no escape changes: not empty, not a dot segment, and only of
    unreserved characters. *)
Definition unreserved (c : ascii) : bool :=
  is_digit c || byte_in 97 122 c || byte_in 65 90 c || mem c ["-"%char; "_"%char; "."%char; "~"%char].
Definition plain_seg (s : string) : bool :=
  negb (String.eqb s "") && negb (String.eqb s ".") && negb (String.eqb s "..") &&
  forallb unreserved (list_ascii_of_string s).

Lemma unreserved_not c : unreserved c = true -> c <> slash /\ c <> "%"%char.
Proof. intros H. split; intros ->; vm_compute in H; discriminate H. Qed.

Lemma plain_chars s : plain_seg s = true -> Forall (fun c => unreserved c = true) (list_ascii_of_string s).
Proof. unfold plain_seg. intros H. bsplit. apply List.Forall_forall. by rewrite <- forallb_forall. Qed.

Lemma unescape_plain s :
  Forall (fun c => unreserved c = true) (list_ascii_of_string s) -> PathUnescape s = Some s.
Proof.
  unfold PathUnescape. induction s as [|c s IH]; cbn; [done|]. intros [Hc Hs]%Forall_cons_1. destruct (unreserved_not c Hc) as [_ Hp].
  apply Ascii.eqb_neq in Hp. by rewrite Hp, IH.
Qed.
Lemma seg_text_plain s : plain_seg s = true -> seg_text s = s.
Proof. intros H. unfold seg_text. by rewrite (unescape_plain _ (plain_chars _ H)). Qed.

Lemma split_app_slash s r :
  Forall (fun c => c <> slash) (list_ascii_of_string s) ->
  split_on slash (s +:+ r) = match split_on slash r with p :: ps => (s +:+ p) :: ps | [] => [] end.
Proof.
  induction s as [|c s IH]; cbn.
  - intros _. destruct (split_on slash r) eqn:E; [by apply split_on_nonempty in E | done].
  - intros [Hc Hs]%Forall_cons_1. apply Ascii.eqb_neq in Hc. rewrite Hc, IH by done. destruct (split_on slash r) eqn:E; [by apply split_on_nonempty in E | done].
Qed.
Lemma plain_no_slash s : plain_seg s = true -> Forall (fun c => c <> slash) (list_ascii_of_string s).
Proof. intros H%plain_chars. eapply Forall_impl; [|exact H]. intros c Hc. by apply unreserved_not. Qed.

Lemma split_path l : Forall (fun s => plain_seg s = true) l -> split_on slash (path_of l) = "" :: l.
Proof.
  induction 1 as [|s l Hs _ IH]; [done|]. cbn [path_of split_on]. rewrite Ascii.eqb_refl. f_equal.
  rewrite (split_app_slash _ _ (plain_no_slash _ Hs)), IH. by rewrite sapp_nil_r.
Qed.

Lemma clean_plain l acc : Forall (fun s => plain_seg s = true) l -> clean_segs acc l = rev acc ++ l.
Proof.
  intros H. revert acc. induction H as [|s l Hs _ IH]; intros acc; cbn; [by rewrite app_nil_r|].
  unfold plain_seg in Hs. bsplit. match goal with H : (s =? "")%string = false |- _ => rewrite H end.
  do 2 match goal with H : (s =? _)%string = false |- _ => rewrite H; clear H end. cbn. rewrite IH. cbn. by rewrite <- app_assoc.
Qed.

Lemma last_app s c r : last_char (s +:+ String c r) = last_char (String c r).
Proof. induction s as [|x s IH]; [done|]. cbn [String.append last_char]. destruct s; [done | exact IH]. Qed.
Lemma last_no_slash s c :
  Forall (fun c => c <> slash) (list_ascii_of_string s) -> s <> "" -> last_char (String c s) <> Some slash.
Proof.
  revert c. induction s as [|d s IH]; intros c; [done|]. cbn [list_ascii_of_string]. intros [Hd Hs]%Forall_cons_1 _.
  destruct s as [|e s]; [cbn; congruence|]. change (last_char (String d (String e s)) <> Some slash). by apply IH.
Qed.

Lemma path_last s : plain_seg s = true -> last_char (String slash s) <> Some slash.
Proof.
  intros H. apply last_no_slash; [by apply plain_no_slash|]. intros ->. discriminate H.
Qed.
Lemma plain_end l : l <> [] -> Forall (fun s => plain_seg s = true) l -> ends_in_slash (path_of l) = false.
Proof.
  intros Hne H. unfold ends_in_slash. apply bool_decide_eq_false_2. induction H as [|s l Hs Hl IH]; [done|].
  cbn [path_of]. destruct l as [|s' l]; [rewrite sapp_nil_r; by apply path_last|].
  cbn [path_of] in *. change (String slash (s +:+ ?x)) with (String slash s +:+ x). rewrite last_app. by apply IH.
Qed.

Lemma clean_plain_path l : l <> [] -> Forall (fun s => plain_seg s = true) l -> cleanPath (path_of l) = path_of l.
Proof.
  intros Hne H. destruct l as [|s l]; [done|]. unfold cleanPath. cbn [path_of]. rewrite Ascii.eqb_refl.
  change (String slash (s +:+ path_of l)) with (path_of (s :: l)). rewrite plain_end by done. cbn [andb].
  unfold path_Clean. rewrite split_path by done. change (clean_segs [] ("" :: s :: l)) with (clean_segs [] (s :: l)).
  by rewrite clean_plain.
Qed.

Lemma segments_plain l : Forall (fun s => plain_seg s = true) l -> segments (path_of l) = l.
Proof.
  intros H. unfold segments. rewrite split_path by done. cbn [tail]. induction H as [|s l Hs Hl IH]; [done|].
  destruct l as [|s' l].
  - cbn [path_segs]. rewrite seg_text_plain by done. unfold plain_seg in Hs. bsplit. by destruct (String.eqb s "").
  - change (path_segs (s :: s' :: l)) with (seg_text s :: path_segs (s' :: l)). by rewrite seg_text_plain, IH.
Qed.

(** A plain path goes to the pattern that matches it. *)
Lemma route_plain {H} (t : table H) method l p h ms :
  l <> [] -> Forall (fun s => plain_seg s = true) l -> method <> "" -> method <> "CONNECT" -> ends_multi p = false ->
  matchPath l (with_method method t) [] = Some ((p, h), ms) -> route t method (path_of l) = ToHandler p h ms.
Proof.
  intros Hne Hl Hm Hc Hp E. unfold route. apply String.eqb_neq in Hc as ->. cbn [negb andb]. rewrite clean_plain_path by done.
  assert (match_tree t method (path_of l) = Some ((p, h), ms)) as ->.
  { unfold match_tree. rewrite segments_plain by done. apply String.eqb_neq in Hm as ->. by rewrite E. }
  unfold exactMatch at 1. rewrite Hp. cbn [negb andb]. by rewrite String.eqb_refl.
Qed.

(** ** Where a handler comes from *)

Lemma omap_in {A B} (f : A -> option B) l y : In y (omap f l) -> exists x, In x l /\ f x = Some y.
Proof. rewrite <- list_elem_of_In, list_elem_of_omap. intros (x & Hx%list_elem_of_In & E). eauto. Qed.
Lemma head_member {A} (l : list A) x : head l = Some x -> In x l.
Proof. destruct l; [done|]. intros [= ->]. by left. Qed.

Lemma matchPath_in {H} segs (n : node (H := H)) ms e ms' :
  matchPath segs n ms = Some (e, ms') -> exists l, In (l, e) n.
Proof.
  revert n ms ms'. induction segs as [|seg rest IH]; intros n ms ms'; cbn [matchPath].
  - unfold leaf. destruct (head _) as [x|] eqn:E; [|done]. cbn. intros [= -> _].
    apply head_member, omap_in in E as ([l x] & Hin & Hx). cbn in Hx. repeat case_match; simplify_eq; eauto.
  - destruct (matchPath rest (lit_child seg n) ms) as [[e1 m1]|] eqn:E1.
    { intros [= -> _]. apply IH in E1 as [l Hl]. unfold lit_child in Hl. apply omap_in in Hl as ([l' x] & Hin & Hx). cbn in Hx.
      repeat case_match; simplify_eq; eauto. }
    destruct (if String.eqb seg "/" then None else _) as [[e2 m2]|] eqn:E2.
    { intros [= -> _]. destruct (String.eqb seg "/"); [done|]. apply IH in E2 as [l Hl]. unfold empty_child in Hl.
      apply omap_in in Hl as ([l' x] & Hin & Hx). cbn in Hx. repeat case_match; simplify_eq; eauto. }
    unfold multi_child. destruct (head _) as [x|] eqn:E; [|done]. cbn. intros [= -> _].
    apply head_member, omap_in in E as ([l x] & Hin & Hx). cbn in Hx. repeat case_match; simplify_eq; eauto.
Qed.

Lemma with_method_in {H} m (t : table H) l e : In (l, e) (with_method m t) -> In e t /\ pt_method e.1 = m.
Proof.
  unfold with_method. intros (x & Hin & Hx)%omap_in. destruct (String.eqb_spec (pt_method x.1) m); [|done]. by injection Hx as _ ->.
Qed.

(** A handler that is reached was registered, for the request's method, for GET
    when the method is HEAD, or for every method. *)
Lemma route_in {H} (t : table H) method path p h ms :
  route t method path = ToHandler p h ms ->
  In (p, h) t /\ (pt_method p = method \/ (method = "HEAD" /\ pt_method p = "GET") \/ pt_method p = "").
Proof.
  unfold route. set (path' := if String.eqb method "CONNECT" then path else cleanPath path).
  assert (forall r, match_tree t method path' = Some r ->
    In r.1 t /\ (pt_method r.1.1 = method \/ (method = "HEAD" /\ pt_method r.1.1 = "GET") \/ pt_method r.1.1 = "")) as Hm.
  { intros [e ms']. unfold match_tree. destruct (String.eqb method "").
    2: destruct (matchPath _ (with_method method t) []) as [[e1 m1]|] eqn:E1.
    2: { intros [= -> _]. apply matchPath_in in E1 as [l [Hin Hp]%with_method_in]. cbn. auto. }
    all: destruct (if String.eqb method "HEAD" then _ else None) as [[e2 m2]|] eqn:E2.
    1, 3: intros [= -> _]; destruct (String.eqb_spec method "HEAD"); [|done]; apply matchPath_in in E2 as [l [Hin Hp]%with_method_in]; cbn; auto.
    all: intros E3; apply matchPath_in in E3 as [l [Hin Hp]%with_method_in]; cbn; auto. }
  destruct (match_tree t method path') as [[[p' h'] ms']|] eqn:E.
  - specialize (Hm _ eq_refl). cbn in Hm. repeat case_match; try done. by intros [= -> -> _].
  - repeat case_match; done.
Qed.

Lemma plain_not_root s : plain_seg s = true -> String.eqb s "/" = false.
Proof. intros H. apply String.eqb_neq. intros ->. vm_compute in H. discriminate H. Qed.
