(* ===== verification/Bodies.v ===== *)
(** The JSON texts of the HTTP APIs.

    A request body is read by a [json.Decoder] behind [http.MaxBytesReader]
    ([decodeJSON], [internal/server/handlers/handlers.go]; [maxBodyBytes],
    [internal/server/server.go]) into a struct of
    [internal/gen/openapi/api.gen.go], with unknown fields refused; an answer is
    the [json.Encoder] text of another of its structs.  The model keeps no error
    texts, so what an answer says about an error is an argument of the encoding,
    and so are the build's version and the clock for the health probes.  The SDK's
    decoding of a snapshot response ([internal/sdkgo/sdkgo.go]) and the proxy's of
    an evaluation request ([internal/proxy/proxy.go]) are here too. *)
From stdpp Require Import base list strings numbers gmap.
From Stdlib Require Import Ascii String ZArith Lia.
From S2P Require Import Prelude Text Literal Json Float64 GoTime GoValue Ir Compile Rollout Eval AnyTrip Trace Segments Sdk Proxy Db Store SqliteText Api Handlers Wire.

(** ** [json.Decoder.Decode] *)

(** The first value of a text and what follows it, which [Decode] does not read. *)
Definition first_value (s : string) : option (jdoc * string) := scan_value (S (String.length s)) s.

Definition is_container (d : jdoc) : bool := match d with JArr _ | JObj _ => true | _ => false end.

(** The value the decoder reads from a body of which the reader returns [limit]
    bytes and then, if there are more, an error.  A value that is not closed by a
    bracket ends with the byte behind it. *)
Definition Decode (limit : Z) (body : string) : option jdoc :=
  if Z.of_nat (String.length body) <=? limit then fst <$> first_value body
  else match first_value (substring 0 (Z.to_nat limit) body) with
       | Some (d, rest) => if is_container d || negb (String.eqb rest "") then Some d else None
       | None => None
       end.

(** The cap of [restRoutes]. *)
Definition max_body : Z := 64 * 1024.

(** ** Structs *)

Section structs.
Context {A : Type}.
(** The fields of a struct: for each key, how a value is decoded into it. *)
Definition field_table : Type := list (string * (jdoc -> A -> option A)).

(** The members of an object with [DisallowUnknownFields]. *)
Fixpoint dec_strict (names : field_table) (m : list (string * jdoc)) (acc : A) : option A :=
  match m with
  | [] => Some acc
  | (k, d) :: m' =>
      match field_of names (unquote k) with
      | Some set => do? acc' := set d acc in dec_strict names m' acc'
      | None => None
      end
  end.

Definition dec_struct_with (walk : list (string * jdoc) -> A -> option A) (zero : A) (d : jdoc) : option A :=
  match d with JNull => Some zero | JObj m => walk m zero | _ => None end.
Definition strict_struct (names : field_table) : A -> jdoc -> option A := dec_struct_with (dec_strict names).
(** Without [DisallowUnknownFields]. *)
Definition loose_struct (names : field_table) : A -> jdoc -> option A :=
  dec_struct_with (dec_members names (fun set d acc => set d acc)).
End structs.
Arguments field_table : clear implicits.

Definition dec_str_ptr (d : jdoc) (old : option string) : option (option string) :=
  match d with JNull => Some None | JStr l => Some (Some (unquote l)) | _ => None end.
Definition dec_any (d : jdoc) : option goval := let '(v, bad) := any_of d in if bad then None else Some v.
(** Into a [map[string]any]: the members are added to the map that is there. *)
Definition dec_map (d : jdoc) (old : list (string * goval)) : option (list (string * goval)) :=
  match d with
  | JNull => Some []
  | JObj m =>
      let r := map_bad any_member m in
      if r.2 then None else Some (load r.1 old)
  | _ => None
  end.

(** ** Request bodies *)

Definition create_project_fields : field_table CreateProjectRequest := [
  ("config_strategy", fun d r => do? s := dec_str d (rq_Strategy r) in Some (mkCreateProject (rq_Slug r) (rq_DisplayName r) s));
  ("display_name", fun d r => do? s := dec_str d (rq_DisplayName r) in Some (mkCreateProject (rq_Slug r) s (rq_Strategy r)));
  ("slug", fun d r => do? s := dec_str d (rq_Slug r) in Some (mkCreateProject s (rq_DisplayName r) (rq_Strategy r)))].
Definition create_environment_fields : field_table CreateEnvironmentRequest := [
  ("name", fun d r => do? s := dec_str d (rq_EnvName r) in Some (mkCreateEnvironment (rq_EnvSlug r) s));
  ("slug", fun d r => do? s := dec_str d (rq_EnvSlug r) in Some (mkCreateEnvironment s (rq_EnvName r)))].
Definition create_flag_fields : field_table CreateFlagRequest := [
  ("default_value", fun d r => do? v := dec_any d in
     Some (mkCreateFlag (rq_Key r) (rq_Name r) (rq_Description r) (rq_ValueType r) v));
  ("description", fun d r => do? s := dec_str_ptr d (rq_Description r) in
     Some (mkCreateFlag (rq_Key r) (rq_Name r) s (rq_ValueType r) (rq_DefaultValue r)));
  ("key", fun d r => do? s := dec_str d (rq_Key r) in
     Some (mkCreateFlag s (rq_Name r) (rq_Description r) (rq_ValueType r) (rq_DefaultValue r)));
  ("name", fun d r => do? s := dec_str d (rq_Name r) in
     Some (mkCreateFlag (rq_Key r) s (rq_Description r) (rq_ValueType r) (rq_DefaultValue r)));
  ("value_type", fun d r => do? s := dec_str d (rq_ValueType r) in
     Some (mkCreateFlag (rq_Key r) (rq_Name r) (rq_Description r) s (rq_DefaultValue r)))].
Definition publish_fields : field_table PublishFlagVersionRequest := [
  ("source", fun d r => do? v := dec_any d in Some (mkPublish (rq_PubStrategy r) v (rq_SourceText r)));
  ("source_text", fun d r => do? s := dec_str_ptr d (rq_SourceText r) in Some (mkPublish (rq_PubStrategy r) (rq_Source r) s));
  ("strategy", fun d r => do? s := dec_str d (rq_PubStrategy r) in Some (mkPublish s (rq_Source r) (rq_SourceText r)))].
Definition create_segment_fields : field_table CreateSegmentRequest := [
  ("description", fun d r => do? s := dec_str_ptr d (rq_SegDescription r) in
     Some (mkCreateSegment (rq_SegKey r) (rq_SegName r) s (rq_Predicate r)));
  ("key", fun d r => do? s := dec_str d (rq_SegKey r) in
     Some (mkCreateSegment s (rq_SegName r) (rq_SegDescription r) (rq_Predicate r)));
  ("name", fun d r => do? s := dec_str d (rq_SegName r) in
     Some (mkCreateSegment (rq_SegKey r) s (rq_SegDescription r) (rq_Predicate r)));
  ("predicate", fun d r => do? v := dec_any d in
     Some (mkCreateSegment (rq_SegKey r) (rq_SegName r) (rq_SegDescription r) v))].
Definition update_segment_fields : field_table UpdateSegmentRequest := [
  ("description", fun d r => do? s := dec_str_ptr d (rq_UpdDescription r) in Some (mkUpdateSegment (rq_UpdName r) s (rq_UpdPredicate r)));
  ("name", fun d r => do? s := dec_str d (rq_UpdName r) in Some (mkUpdateSegment s (rq_UpdDescription r) (rq_UpdPredicate r)));
  ("predicate", fun d r => do? v := dec_any d in Some (mkUpdateSegment (rq_UpdName r) (rq_UpdDescription r) v))].
Definition compile_snapshot_fields : field_table CompileSnapshotRequest := [
  ("environment_slug", fun d r => do? s := dec_str_ptr d (rq_EnvironmentSlug r) in Some (mkCompileSnapshot s))].
Definition evaluation_fields : field_table EvaluationRequest := [
  ("context", fun d r => do? m := dec_map d (rq_Context r) in Some (mkEvaluation m))].

Definition zero_create_project : CreateProjectRequest := mkCreateProject "" "" "".
Definition zero_create_environment : CreateEnvironmentRequest := mkCreateEnvironment "" "".
Definition zero_create_flag : CreateFlagRequest := mkCreateFlag "" "" None "" VNil.
Definition zero_publish : PublishFlagVersionRequest := mkPublish "" VNil None.
Definition zero_create_segment : CreateSegmentRequest := mkCreateSegment "" "" None VNil.
Definition zero_update_segment : UpdateSegmentRequest := mkUpdateSegment "" None VNil.
Definition zero_compile_snapshot : CompileSnapshotRequest := mkCompileSnapshot None.
Definition zero_evaluation : EvaluationRequest := mkEvaluation [].

(** [decodeJSON(r, &req)] behind the cap; [None] is an error. *)
Definition decodeJSON {A} (names : field_table A) (zero : A) (body : string) : option A :=
  do? d := Decode max_body body in strict_struct names zero d.

Definition decode_create_project : string -> option CreateProjectRequest := decodeJSON create_project_fields zero_create_project.
Definition decode_create_environment : string -> option CreateEnvironmentRequest :=
  decodeJSON create_environment_fields zero_create_environment.
Definition decode_create_flag : string -> option CreateFlagRequest := decodeJSON create_flag_fields zero_create_flag.
Definition decode_publish : string -> option PublishFlagVersionRequest := decodeJSON publish_fields zero_publish.
Definition decode_create_segment : string -> option CreateSegmentRequest := decodeJSON create_segment_fields zero_create_segment.
Definition decode_update_segment : string -> option UpdateSegmentRequest := decodeJSON update_segment_fields zero_update_segment.
Definition decode_compile_snapshot : string -> option CompileSnapshotRequest :=
  decodeJSON compile_snapshot_fields zero_compile_snapshot.
Definition decode_evaluation : string -> option EvaluationRequest := decodeJSON evaluation_fields zero_evaluation.

(** ** Answers *)

(** What an answer says about errors, and what a health probe reports. *)
Record error_texts : Type := mkErrorTexts {
  et_error : string; et_details : option string; et_message : string; et_eval : eval_err -> string
}.
Record health_env : Type := mkHealthEnv { he_version : string; he_now : Time }.

(** A member of a struct, and one that [omitempty] drops when the pointer is nil. *)
Definition member (k : string) (d : option jdoc) : option (list (string * jdoc)) := do? d := d in Some [(k, d)].
Definition omit_ptr {A} (k : string) (enc : A -> option jdoc) (o : option A) : option (list (string * jdoc)) :=
  match o with None => Some [] | Some x => member k (enc x) end.
Definition struct_doc (l : list (option (list (string * jdoc)))) : option jdoc :=
  do? ms := mapM id l in Some (JObj (List.concat ms)).
Definition enc_list {A} (enc : A -> option jdoc) (l : list A) : option jdoc := do? ds := mapM enc l in Some (JArr ds).

Definition enc_text (s : string) : option jdoc := Some (enc_str s).
Definition enc_bool (b : bool) : option jdoc := Some (JBool b).
Definition enc_num (z : Z) : option jdoc := Some (JNum (itoa z)).
(** [Time.MarshalJSON]: years of four digits only. *)
Definition in_yearsb (t : Time) : bool := (-62167219200 * 10 ^ 9 <=? t) && (t <? 253402300800 * 10 ^ 9).
Definition enc_Time (t : Time) : option jdoc := if in_yearsb t then Some (JStr (Format t RFC3339Nano)) else None.
Definition enc_time (t : time) : option jdoc := enc_Time (of_ms t).

Section answers.
Context {UT : UuidText} (et : error_texts) (he : health_env).

Definition enc_uuid (u : uuid) : option jdoc := enc_text (uuid_String u).

Definition project_doc (p : WProject) : option jdoc := struct_doc [
  member "config_strategy" (enc_text (w_ConfigStrategy p)); member "created_at" (enc_time (w_CreatedAt p));
  member "display_name" (enc_text (w_DisplayName p)); member "id" (enc_uuid (w_Id p));
  member "slug" (enc_text (w_Slug p)); member "updated_at" (enc_time (w_UpdatedAt p))].
Definition environment_doc (e : WEnvironment) : option jdoc := struct_doc [
  member "created_at" (enc_time (we_CreatedAt e)); member "id" (enc_uuid (we_Id e)); member "name" (enc_text (we_Name e));
  member "project_id" (enc_uuid (we_ProjectId e)); member "slug" (enc_text (we_Slug e))].
Definition flag_doc (f : WFlag) : option jdoc := struct_doc [
  member "created_at" (enc_time (wf_CreatedAt f)); member "default_value" (doc_of (wf_DefaultValue f));
  member "description" (enc_text (wf_Description f)); member "id" (enc_uuid (wf_Id f)); member "key" (enc_text (wf_Key f));
  member "name" (enc_text (wf_Name f)); member "project_id" (enc_uuid (wf_ProjectId f));
  member "updated_at" (enc_time (wf_UpdatedAt f)); member "value_type" (enc_text (wf_ValueType f))].
Definition flag_version_doc (v : WFlagVersion) : option jdoc := struct_doc [
  member "compiled" (doc_of (wv_Compiled v)); member "flag_id" (enc_uuid (wv_FlagId v)); member "id" (enc_uuid (wv_Id v));
  member "published_at" (enc_time (wv_PublishedAt v)); member "source" (doc_of (wv_Source v));
  omit_ptr "source_text" enc_text (wv_SourceText v); member "strategy" (enc_text (wv_Strategy v));
  member "version" (enc_num (wv_Version v))].
Definition segment_doc (s : WSegment) : option jdoc := struct_doc [
  member "created_at" (enc_time (ws_CreatedAt s)); member "description" (enc_text (ws_Description s));
  member "id" (enc_uuid (ws_Id s)); member "key" (enc_text (ws_Key s)); member "name" (enc_text (ws_Name s));
  member "predicate" (doc_of (ws_Predicate s)); member "project_id" (enc_uuid (ws_ProjectId s));
  member "updated_at" (enc_time (ws_UpdatedAt s))].
Definition snapshot_doc (s : WSnapshot) : option jdoc := struct_doc [
  member "compiled" (doc_of (wn_Compiled s)); member "created_at" (enc_time (wn_CreatedAt s));
  omit_ptr "environment_id" enc_uuid (wn_EnvironmentId s); member "id" (enc_uuid (wn_Id s));
  member "project_id" (enc_uuid (wn_ProjectId s)); member "version" (enc_num (wn_Version s))].
Definition audit_event_doc (e : WAuditEvent) : option jdoc := struct_doc [
  member "action" (enc_text (wa_Action e)); omit_ptr "actor" enc_text (wa_Actor e); member "created_at" (enc_time (wa_CreatedAt e));
  omit_ptr "flag_id" enc_uuid (wa_FlagId e); member "id" (enc_uuid (wa_Id e)); member "payload" (doc_of (wa_Payload e));
  omit_ptr "project_id" enc_uuid (wa_ProjectId e)].
Definition decision_doc (d : WDecision) : option jdoc := struct_doc [
  member "reason" (enc_text (wd_Reason d)); omit_ptr "rule_id" enc_text (wd_RuleId d); member "value" (doc_of (wd_Value d));
  member "version" (enc_num (wd_Version d))].

Definition omit_nil (k : string) (v : goval) : option (list (string * jdoc)) :=
  if is_nil v then Some [] else member k (doc_of v).
Fixpoint trace_node_doc (n : WTraceNode) : option jdoc := struct_doc [
  omit_ptr "attr" enc_text (wt_Attr n); omit_nil "attr_value" (wt_AttrValue n); omit_ptr "bucket" enc_num (wt_Bucket n);
  omit_ptr "children" (fun l => do? ds := mapM trace_node_doc l in Some (JArr ds)) (wt_Children n);
  omit_nil "expected" (wt_Expected n); omit_ptr "expected_values" (enc_list doc_of) (wt_ExpectedValues n);
  member "kind" (enc_text (wt_Kind n)); omit_ptr "pattern" enc_text (wt_Pattern n); omit_ptr "percent" enc_num (wt_Percent n);
  member "result" (enc_bool (wt_Result n)); omit_ptr "salt" enc_text (wt_Salt n); omit_ptr "source" enc_text (wt_Source n)].
Definition trace_rule_doc (r : WTraceRule) : option jdoc := struct_doc [
  omit_ptr "error" (fun e => enc_text (et_eval et e)) (wr_Error r); member "matched" (enc_bool (wr_Matched r));
  member "predicate" (trace_node_doc (wr_Predicate r)); member "rule_id" (enc_text (wr_RuleId r))].
Definition trace_doc (t : WTrace) : option jdoc := struct_doc [
  member "default_used" (enc_bool (wt_DefaultUsed t)); member "evaluated_rules" (enc_list trace_rule_doc (wt_EvaluatedRules t));
  omit_ptr "matched_rule_id" enc_text (wt_MatchedRuleId t)].

Definition compile_detail_doc (d : WDetail) : option jdoc := struct_doc [
  omit_ptr "column" enc_num (cd_Column d); omit_ptr "file" enc_text (cd_File d); omit_ptr "line" enc_num (cd_Line d);
  member "text" (enc_text (cd_Text d))].
Definition items_doc {A} (enc : A -> option jdoc) (l : list A) : option jdoc := struct_doc [member "items" (enc_list enc l)].

(** The value an answer is encoded from. *)
Definition body_doc (b : body) : option jdoc :=
  match b with
  | BError => struct_doc [omit_ptr "details" enc_text (et_details et); member "error" (enc_text (et_error et))]
  | BCompileError ds => struct_doc [omit_ptr "details" (enc_list compile_detail_doc) ds; member "message" (enc_text (et_message et))]
  | BHealth st service => struct_doc [
      member "probe" (enc_text "v1.health"); member "service" (enc_text service); member "status" (enc_text st);
      member "timestamp" (enc_Time (he_now he)); member "version" (enc_text (he_version he))]
  | BProject p => project_doc p
  | BProjects l => items_doc project_doc l
  | BEnvironment e => environment_doc e
  | BEnvironments l => items_doc environment_doc l
  | BFlag f => flag_doc f
  | BFlags l => items_doc flag_doc l
  | BFlagWithLatest f v => struct_doc [member "flag" (flag_doc f); omit_ptr "latest_version" flag_version_doc v]
  | BFlagVersion v => flag_version_doc v
  | BFlagVersions l => items_doc flag_version_doc l
  | BSegment s => segment_doc s
  | BSegments l => items_doc segment_doc l
  | BSnapshot s => snapshot_doc s
  | BSnapshots l => items_doc snapshot_doc l
  | BDecision d => decision_doc d
  | BDecisionTrace d t => struct_doc [member "decision" (decision_doc d); member "trace" (trace_doc t)]
  | BAuditEvents l next => struct_doc [member "items" (enc_list audit_event_doc l); omit_ptr "next_cursor" enc_text next]
  end.

(** [json.NewEncoder(w).Encode(body)] after the status is sent: a value that does
    not encode leaves the body empty. *)
Definition newline : string := str1 "010"%char.
Definition body_text (b : body) : string := match body_doc b with Some d => print d +:+ newline | None => "" end.
End answers.

(** ** The bodies of the Go clients *)

(** The response body the SDK decodes ([pollOnce]). *)
Definition unmarshal_Time (d : jdoc) (old : Time) : option Time :=
  match d with JNull => Some old | JStr l => Parse RFC3339 l | _ => None end.
Definition dec_compiled (d : jdoc) (old : list (string * RawMessage)) : option (list (string * RawMessage)) :=
  match d with JNull => Some old | JObj m => dec_flags m old | _ => None end.

Definition snapshot_fields : field_table snapshot_body := [
  ("id", fun d b => do? s := dec_str d (sb_id b) in Some (mkBody s (sb_version b) (sb_created b) (sb_flags b)));
  ("version", fun d b => do? n := dec_int d (sb_version b) in Some (mkBody (sb_id b) n (sb_created b) (sb_flags b)));
  ("created_at", fun d b => do? t := unmarshal_Time d (sb_created b) in Some (mkBody (sb_id b) (sb_version b) t (sb_flags b)));
  ("compiled", fun d b => do? f := dec_compiled d (sb_flags b) in Some (mkBody (sb_id b) (sb_version b) (sb_created b) f))].
(** [json.NewDecoder(resp.Body).Decode(&body)]; the reader has no cap. *)
Definition sdk_body (text : string) : option snapshot_body :=
  do? v := first_value text in loose_struct snapshot_fields (mkBody "" 0 zeroTime []) v.1.

(** The request body of the proxy's [POST /v1/evaluate]. *)
Definition evaluate_fields : field_table EvaluateRequest := [
  ("key", fun d r => do? s := dec_str d (req_Key r) in Some (mkEvaluateRequest s (req_DefaultValue r) (req_Context r)));
  ("default_value", fun d r => do? v := dec_any d in Some (mkEvaluateRequest (req_Key r) v (req_Context r)));
  ("context", fun d r => do? m := dec_map d (req_Context r) in Some (mkEvaluateRequest (req_Key r) (req_DefaultValue r) m))].
Definition proxy_request (text : string) : option EvaluateRequest :=
  do? v := first_value text in loose_struct evaluate_fields (mkEvaluateRequest "" VNil []) v.1.

(** ** What is written is read back *)

Lemma first_value_print d rest : wf_doc d -> head_ok no_num rest -> first_value (print d +:+ rest) = Some (d, rest).
Proof. intros Hw Hr. unfold first_value. apply scan_value_print; [done | rewrite slength_app; lia | done]. Qed.

Lemma Decode_print limit d : wf_doc d -> Z.of_nat (String.length (print d)) <= limit -> Decode limit (print d) = Some d.
Proof.
  intros Hw Hl. unfold Decode. destruct (Z.leb_spec (Z.of_nat (String.length (print d))) limit); [|lia].
  rewrite <- (sapp_nil_r (print d)) at 1. by rewrite first_value_print.
Qed.

Lemma uuid_utf8 s : all_chars uuid_char s = true -> utf8_valid s = true.
Proof.
  induction s as [|c s IH]; [done|]. cbn [all_chars utf8_valid]. intros [Hc Hs]%andb_true_iff.
  assert ((code c <? 128) = true) as -> by (revert Hc; unfold uuid_char, is_digit, byte_in; intros H; destruct (Ascii.eqb_spec c "-"%char) as [->|]; [done | lia]).
  auto.
Qed.

Lemma in_yearsb_spec t : in_yearsb t = true <-> in_years t.
Proof. unfold in_yearsb, in_years. lia. Qed.

(** The members of a struct, all present. *)
Lemma wf_members k d m : quote k = k -> wf_doc d -> wf_doc (JObj m) -> wf_doc (JObj ((k, d) :: m)).
Proof. intros Hk Hd Hm. cbn. split; [|exact Hm]. split; [|done]. rewrite <- Hk. apply lit_quote. Qed.
Lemma wf_nil : wf_doc (JObj []).
Proof. done. Qed.
Lemma wf_enc_str s : wf_doc (enc_str s).
Proof. apply lit_quote. Qed.
Lemma wf_itoa z : wf_doc (JNum (itoa z)).
Proof. cbn. apply num_lit_itoa. Qed.

Lemma lit_digits s : all_digits s = true -> str_lit s.
Proof.
  induction s as [|c s IH]; [constructor|]. cbn. intros [Hc Hs]%andb_true_iff. constructor; [|auto].
  revert Hc. clear. destruct c as [[] [] [] [] [] [] [] []]; vm_compute; done.
Qed.
Lemma lit_time t : in_years t -> str_lit (Format t RFC3339Nano).
Proof.
  intros H. change RFC3339Nano with (timeLayout [StdFracSecond9 9; StdISO8601ColonTZ]). rewrite format_time by done.
  unfold time_fields. destruct (dateOf (day t)) as [[y m] d].
  assert (str_lit (Format t [StdFracSecond9 9; StdISO8601ColonTZ])) as Hend.
  { unfold Format, format_chunk. cbn [foldr]. destruct (dateOf (day t)) as [[? ?] ?]. rewrite sapp_nil_r.
    set (ds := fixed 9 _). assert (all_digits (trim0 ds) = true) as Hd by apply trim0_digits, all_digits_fixed.
    apply str_lit_app; [|by repeat constructor]. destruct (trim0 ds) eqn:E; [constructor|]. constructor; [done|]. by apply lit_digits. }
  repeat (apply str_lit_app; [apply lit_digits, all_digits_fixed|]; first [exact Hend | constructor; [done|]]).
Qed.

Lemma plain_doc v : plain v = true -> exists d, doc_of v = Some d /\ wf_doc d /\ any_of d = (v, false).
Proof. apply plain_decodes. Qed.

(** Look up the next key of a table: the field at an index, or no field. *)
Ltac field_at i :=
  match goal with |- context [field_of ?T (unquote ?K)] =>
    let f := eval hnf in (nth_error T i) in
    match f with Some (_, ?g) => change (field_of T (unquote K)) with (Some g); cbn [mbind option_bind] end
  end.
Ltac no_field :=
  match goal with |- context [field_of ?T (unquote ?K)] =>
    change (field_of T (unquote K)) with (@None (jdoc -> snapshot_body -> option snapshot_body)); cbn [mbind option_bind] end.

(** The SDK reads a snapshot response as the server wrote it. *)
Lemma sdk_body_text {UT : UuidText} {UL : UuidLaws} et he w flags :
  plain (wn_Compiled w) = true -> read_flags (wn_Compiled w) = Some flags -> in_years (of_ms (wn_CreatedAt w)) ->
  uuid_ok (wn_Id w) -> in_int64 (wn_Version w) = true ->
  sdk_body (body_text et he (BSnapshot w)) = Some (mkBody (uuid_String (wn_Id w)) (wn_Version w) (of_ms (wn_CreatedAt w)) flags).
Proof.
  intros Hp Hf Ht Hu Hv. destruct (plain_doc _ Hp) as (dc & Ed & Hw & _). unfold read_flags in Hf. rewrite Ed in Hf. cbn [mbind option_bind] in Hf.
  set (head := [("compiled", dc); ("created_at", JStr (Format (of_ms (wn_CreatedAt w)) RFC3339Nano))]).
  set (env := match wn_EnvironmentId w with Some u => [("environment_id", enc_str (uuid_String u))] | None => [] end).
  set (tail := [("id", enc_str (uuid_String (wn_Id w))); ("project_id", enc_str (uuid_String (wn_ProjectId w))); ("version", JNum (itoa (wn_Version w)))]).
  assert (snapshot_doc w = Some (JObj (head ++ env ++ tail))) as Edoc.
  { unfold snapshot_doc, struct_doc, member, enc_time, enc_Time. rewrite Ed. apply in_yearsb_spec in Ht. rewrite Ht.
    unfold head, env. destruct (wn_EnvironmentId w); reflexivity. }
  assert (wf_doc (JObj (head ++ env ++ tail))) as Hwf.
  { assert (wf_doc (JObj tail)) by (repeat (apply wf_members; [reflexivity | first [apply wf_enc_str | apply wf_itoa]|]); apply wf_nil).
    assert (wf_doc (JObj (env ++ tail))) by (unfold env; destruct (wn_EnvironmentId w); [apply wf_members; [reflexivity | apply wf_enc_str | done] | done]).
    apply wf_members; [reflexivity | exact Hw|]. apply wf_members; [reflexivity | by apply lit_time | done]. }
  unfold sdk_body, body_text. cbn [body_doc]. rewrite Edoc, first_value_print by done. cbn [mbind option_bind fst loose_struct dec_struct_with].
  assert (unquote (quote (uuid_String (wn_Id w))) = uuid_String (wn_Id w)) as Hq by (by apply unquote_quote, uuid_utf8, string_chars).
  assert (dec_compiled dc [] = Some flags) as Hc by (destruct dc; cbn [dec_compiled]; congruence).
  unfold head, tail. cbn [app dec_members].
  field_at 3%nat. cbn [sb_flags sb_id sb_version sb_created]. rewrite Hc. cbn [mbind option_bind].
  field_at 2%nat. cbn [unmarshal_Time sb_id sb_version sb_created sb_flags]. rewrite (parse_format_json _ Ht). cbn [mbind option_bind].
  assert (forall b m, dec_members snapshot_fields (fun set d acc => set d acc) (env ++ m) b =
    dec_members snapshot_fields (fun set d acc => set d acc) m b) as -> by (intros; unfold env; by destruct (wn_EnvironmentId w)).
  cbn [dec_members]. field_at 0%nat. cbn [dec_str enc_str sb_id sb_version sb_created sb_flags]. rewrite Hq. cbn [mbind option_bind].
  no_field. field_at 1%nat. cbn [dec_int sb_id sb_version sb_created sb_flags]. by rewrite parse_int_itoa.
Qed.

(** A snapshot whose bundle is served as a string is not read. *)
Lemma sdk_body_string {UT : UuidText} et he w raw :
  wn_Compiled w = VStr raw -> sdk_body (body_text et he (BSnapshot w)) = None.
Proof.
  intros Hc. unfold sdk_body, body_text. cbn [body_doc]. unfold snapshot_doc. rewrite Hc. cbn [doc_of].
  unfold enc_time, enc_Time. destruct (in_yearsb (of_ms (wn_CreatedAt w))) eqn:Ht; [|done].
  set (env := match wn_EnvironmentId w with Some u => [("environment_id", enc_str (uuid_String u))] | None => [] end).
  set (tail := [("id", enc_str (uuid_String (wn_Id w))); ("project_id", enc_str (uuid_String (wn_ProjectId w))); ("version", JNum (itoa (wn_Version w)))]).
  set (time := ("created_at", JStr (Format (of_ms (wn_CreatedAt w)) RFC3339Nano))).
  match goal with |- context [struct_doc ?l] =>
    assert (struct_doc l = Some (JObj (("compiled", enc_str raw) :: time :: env ++ tail))) as ->
      by (unfold env; destruct (wn_EnvironmentId w); reflexivity) end.
  rewrite first_value_print.
  - cbn [mbind option_bind fst loose_struct dec_struct_with dec_members]. field_at 3%nat. done.
  - assert (wf_doc (JObj tail)) by (repeat (apply wf_members; [reflexivity | first [apply wf_enc_str | apply wf_itoa]|]); apply wf_nil).
    assert (wf_doc (JObj (env ++ tail))) by (unfold env; destruct (wn_EnvironmentId w); [apply wf_members; [reflexivity | apply wf_enc_str | done] | done]).
    apply wf_members; [reflexivity | apply wf_enc_str|]. apply wf_members; [reflexivity | by apply lit_time, in_yearsb_spec | done].
  - done.
Qed.
