(* ===== verification/Http.v ===== *)
(** The REST listener ([internal/server/server.go], [restRoutes]; the routes and
    parameter binding of [internal/gen/openapi/api.gen.go]): from the bytes of an
    HTTP request to the program of the handler it reaches.

    [serve] composes the mux, the wrapper that binds a handler's parameters, the
    decoding of the body behind the 64 KiB cap and the handler.  Parameter binding
    is [github.com/oapi-codegen/runtime], a parameter of the model ([ParamLib]).
    Reading the headers and writing an answer to the connection are not modelled,
    nor are timeouts. *)
From stdpp Require Import base list strings numbers gmap relations.
From Stdlib Require Import Ascii String ZArith Lia.
From S2P Require Import Prelude Text Literal Json Float64 GoTime GoValue Ir Compile Rollout Eval AnyTrip Trace Segments Sdk Proxy Db Store SqliteText AuditCursor Api Handlers AuditApi Wire Rpc Mux Bodies.

(** ** Requests and answers *)

Record http_request : Type := mkHttp {
  r_Method : string;
  r_Path : string;          (* [r.URL.EscapedPath()] *)
  r_Query : string;         (* [r.URL.RawQuery] *)
  r_Actor : string;         (* the X-Actor header *)
  r_Chunked : bool;         (* the length is not announced *)
  r_Body : string
}.
Definition ContentLength (r : http_request) : Z := if r_Chunked r then -1 else Z.of_nat (String.length (r_Body r)).

(** [actorFromRequest]. *)
Definition actorFromRequest (r : http_request) : string := r_Actor r.

(** An answer of a handler, a liveness probe, a text of [http.Error] or of the mux
    with its status, or the mux's redirect to a clean path. *)
Inductive http_response : Type :=
| HJson (r : response)
| HHealth (probe : string)
| HText (status : Z)
| HRedirect.
(** The mux of Go 1.26 redirects with 307. *)
Definition http_status (h : http_response) : Z :=
  match h with HJson r => status r | HHealth _ => 200 | HText s => s | HRedirect => 307 end.

(** ** Parameter binding *)

(** [BindStyledParameterWithOptions] for a path parameter and
    [BindQueryParameterWithOptions] for an optional query parameter; [None] is an
    error. *)
Class ParamLib : Type := {
  bind_path : string -> option string;
  bind_path_uuid : string -> option uuid;
  bind_query : string -> Values -> option (option string);
  bind_query_time : string -> Values -> option (option Time);
  bind_query_int32 : string -> Values -> option (option Z)
}.
Definition absent (name : string) (q : Values) : Prop := Forall (fun kv => kv.1 <> name) q.
Class ParamLaws {PL : ParamLib} {UT : UuidText} : Prop := {
  bind_plain : forall s, plain_seg s = true -> bind_path s = Some s;
  bind_uuid_text : forall u, uuid_ok u -> bind_path_uuid (uuid_String u) = Some u;
  bind_absent : forall name q, absent name q ->
    bind_query name q = Some None /\ bind_query_time name q = Some None /\ bind_query_int32 name q = Some None
}.

(** ** The operations and their routes *)

Inductive operation : Type :=
| OpGetHealth | OpListProjects | OpCreateProject | OpGetProject | OpListAuditEvents | OpListEnvironments
| OpCreateEnvironment | OpGetEnvironment | OpListFlags | OpCreateFlag | OpGetFlag | OpPublishFlagVersion
| OpEvaluateFlag | OpEvaluateFlagWithTrace | OpListFlagVersions | OpListSegments | OpCreateSegment | OpGetSegment
| OpUpdateSegment | OpListSnapshots | OpCompileSnapshot | OpGetLatestSnapshot | OpGetSnapshot
| OpProbe (probe : string).

Definition v1 (l : list pseg) : list pseg := PLit "v1" :: l.
Definition in_project (l : list pseg) : list pseg := v1 (PLit "projects" :: PWild "slug" :: l).

(** [HandlerWithOptions]. *)
Definition openapi_routes : table operation := [
  (mkPattern "GET" (v1 [PLit "health"]), OpGetHealth);
  (mkPattern "GET" (v1 [PLit "projects"]), OpListProjects);
  (mkPattern "POST" (v1 [PLit "projects"]), OpCreateProject);
  (mkPattern "GET" (in_project []), OpGetProject);
  (mkPattern "GET" (in_project [PLit "audit-events"]), OpListAuditEvents);
  (mkPattern "GET" (in_project [PLit "environments"]), OpListEnvironments);
  (mkPattern "POST" (in_project [PLit "environments"]), OpCreateEnvironment);
  (mkPattern "GET" (in_project [PLit "environments"; PWild "envSlug"]), OpGetEnvironment);
  (mkPattern "GET" (in_project [PLit "flags"]), OpListFlags);
  (mkPattern "POST" (in_project [PLit "flags"]), OpCreateFlag);
  (mkPattern "GET" (in_project [PLit "flags"; PWild "key"]), OpGetFlag);
  (mkPattern "PUT" (in_project [PLit "flags"; PWild "key"]), OpPublishFlagVersion);
  (mkPattern "POST" (in_project [PLit "flags"; PWild "key"; PLit "evaluate"]), OpEvaluateFlag);
  (mkPattern "POST" (in_project [PLit "flags"; PWild "key"; PLit "evaluate-trace"]), OpEvaluateFlagWithTrace);
  (mkPattern "GET" (in_project [PLit "flags"; PWild "key"; PLit "versions"]), OpListFlagVersions);
  (mkPattern "GET" (in_project [PLit "segments"]), OpListSegments);
  (mkPattern "POST" (in_project [PLit "segments"]), OpCreateSegment);
  (mkPattern "GET" (in_project [PLit "segments"; PWild "segKey"]), OpGetSegment);
  (mkPattern "PUT" (in_project [PLit "segments"; PWild "segKey"]), OpUpdateSegment);
  (mkPattern "GET" (in_project [PLit "snapshots"]), OpListSnapshots);
  (mkPattern "POST" (in_project [PLit "snapshots"]), OpCompileSnapshot);
  (mkPattern "GET" (in_project [PLit "snapshots"; PLit "latest"]), OpGetLatestSnapshot);
  (mkPattern "GET" (in_project [PLit "snapshots"; PWild "id"]), OpGetSnapshot)].

Definition restRoutes : table operation := [
  (mkPattern "GET" [PLit "healthz"], OpProbe "healthz");
  (mkPattern "GET" [PLit "readyz"], OpProbe "readyz")] ++ openapi_routes.

(** ** The wrapper of each operation *)

(** What a request asks of the handlers once its parameters are bound. *)
Inductive call : Type :=
| CallHealth
| CallProbe (probe : string)
| CallAudit (slug : string) (p : ListAuditEventsRequest)
| CallApi (q : request).

Section wrappers.
Context {PL : ParamLib} {UT : UuidText}.
Variables (fuel : nat) (pv : string -> string) (r : http_request).

(** [handler], once the parameters [slug], or [slug] and another, are bound. *)
Definition with_slug (k : string -> option call) : option call := do? slug := bind_path (pv "slug") in k slug.
Definition with_slug_and (name : string) (k : string -> string -> option call) : option call :=
  with_slug (fun slug => do? x := bind_path (pv name) in k slug x).

Definition w_GetHealth : option call := Some CallHealth.
Definition w_ListProjects : option call := Some (CallApi ReqListProjects).
Definition w_CreateProject : option call := Some (CallApi (ReqCreateProject (decode_create_project (r_Body r)))).
Definition w_GetProject : option call := with_slug (fun slug => Some (CallApi (ReqGetProject slug))).
Definition w_ListAuditEvents : option call :=
  let q := ParseQuery (r_Query r) in
  with_slug (fun slug =>
    do? action := bind_query "action" q in
    do? actor := bind_query "actor" q in
    do? from := bind_query_time "from" q in
    do? to := bind_query_time "to" q in
    do? cursor := bind_query "cursor" q in
    do? limit := bind_query_int32 "limit" q in
    Some (CallAudit slug (mkListAuditEvents limit cursor action actor (from ≫= time_ptr) (to ≫= time_ptr)))).
Definition w_ListEnvironments : option call := with_slug (fun slug => Some (CallApi (ReqListEnvironments slug))).
Definition w_CreateEnvironment : option call :=
  with_slug (fun slug => Some (CallApi (ReqCreateEnvironment slug (decode_create_environment (r_Body r))))).
Definition w_GetEnvironment : option call :=
  with_slug_and "envSlug" (fun slug env => Some (CallApi (ReqGetEnvironment slug env))).
Definition w_ListFlags : option call := with_slug (fun slug => Some (CallApi (ReqListFlags slug))).
Definition w_CreateFlag : option call :=
  with_slug (fun slug => Some (CallApi (ReqCreateFlag slug (decode_create_flag (r_Body r))))).
Definition w_GetFlag : option call := with_slug_and "key" (fun slug key => Some (CallApi (ReqGetFlag slug key))).
Definition w_PublishFlagVersion : option call :=
  with_slug_and "key" (fun slug key => Some (CallApi (ReqPublish fuel slug key (decode_publish (r_Body r))))).
Definition w_EvaluateFlag : option call :=
  with_slug_and "key" (fun slug key => Some (CallApi (ReqEvaluate slug key (decode_evaluation (r_Body r))))).
Definition w_EvaluateFlagWithTrace : option call :=
  with_slug_and "key" (fun slug key => Some (CallApi (ReqEvaluateTrace slug key (decode_evaluation (r_Body r))))).
Definition w_ListFlagVersions : option call :=
  with_slug_and "key" (fun slug key => Some (CallApi (ReqListFlagVersions slug key))).
Definition w_ListSegments : option call := with_slug (fun slug => Some (CallApi (ReqListSegments slug))).
Definition w_CreateSegment : option call :=
  with_slug (fun slug => Some (CallApi (ReqCreateSegment slug (decode_create_segment (r_Body r))))).
Definition w_GetSegment : option call := with_slug_and "segKey" (fun slug key => Some (CallApi (ReqGetSegment slug key))).
Definition w_UpdateSegment : option call :=
  with_slug_and "segKey" (fun slug key => Some (CallApi (ReqUpdateSegment slug key (decode_update_segment (r_Body r))))).
Definition w_ListSnapshots : option call :=
  with_slug (fun slug => do? limit := bind_query_int32 "limit" (ParseQuery (r_Query r)) in
    Some (CallApi (ReqListSnapshots slug limit))).
(** The handler decodes a body only when its announced length is positive. *)
Definition w_CompileSnapshot : option call :=
  with_slug (fun slug => Some (CallApi (ReqCompileSnapshot slug
    (if 0 <? ContentLength r then Some (decode_compile_snapshot (r_Body r)) else None)))).
Definition w_GetLatestSnapshot : option call := with_slug (fun slug => Some (CallApi (ReqGetLatestSnapshot slug))).
Definition w_GetSnapshot : option call :=
  with_slug (fun slug => do? id := bind_path_uuid (pv "id") in Some (CallApi (ReqGetSnapshot slug id))).

Definition wrapper (op : operation) : option call :=
  match op with
  | OpGetHealth => w_GetHealth
  | OpListProjects => w_ListProjects
  | OpCreateProject => w_CreateProject
  | OpGetProject => w_GetProject
  | OpListAuditEvents => w_ListAuditEvents
  | OpListEnvironments => w_ListEnvironments
  | OpCreateEnvironment => w_CreateEnvironment
  | OpGetEnvironment => w_GetEnvironment
  | OpListFlags => w_ListFlags
  | OpCreateFlag => w_CreateFlag
  | OpGetFlag => w_GetFlag
  | OpPublishFlagVersion => w_PublishFlagVersion
  | OpEvaluateFlag => w_EvaluateFlag
  | OpEvaluateFlagWithTrace => w_EvaluateFlagWithTrace
  | OpListFlagVersions => w_ListFlagVersions
  | OpListSegments => w_ListSegments
  | OpCreateSegment => w_CreateSegment
  | OpGetSegment => w_GetSegment
  | OpUpdateSegment => w_UpdateSegment
  | OpListSnapshots => w_ListSnapshots
  | OpCompileSnapshot => w_CompileSnapshot
  | OpGetLatestSnapshot => w_GetLatestSnapshot
  | OpGetSnapshot => w_GetSnapshot
  | OpProbe probe => Some (CallProbe probe)
  end.
End wrappers.

(** ** Serving *)

Section serving.
Context {RX : RegexpLib} {CEL : CelLib} {TS : TsLib} {PL : ParamLib} {UT : UuidText}.

Definition run_call (a : API) (actor : string) (c : call) : prog http_response :=
  match c with
  | CallHealth => Done (HJson GetHealth)
  | CallProbe probe => Done (HHealth probe)
  | CallAudit slug p => pmap HJson (h_ListAuditEvents a slug p)
  | CallApi q => pmap HJson (handle a actor q)
  end.

(** [s.httpSrv.Handler.ServeHTTP]; [fuel] bounds the segment references of a
    publish. *)
Definition serve (fuel : nat) (a : API) (r : http_request) : prog http_response :=
  if String.eqb (r_Path r) "*" then Done (HText 400) else
  match route restRoutes (r_Method r) (r_Path r) with
  | ToHandler p op ms =>
      match wrapper fuel (PathValue p ms) r op with
      | None => Done (HText 400)
      | Some c => run_call a (actorFromRequest r) c
      end
  | Redirected => Done HRedirect
  | NotAllowed => Done (HText 405)
  | NotFound => Done (HText 404)
  end.
End serving.

(** The body of an answer.  [handleHealth] writes its own struct. *)
Definition health_doc (he : health_env) (probe : string) : option jdoc := struct_doc [
  member "status" (enc_text "ok"); member "service" (enc_text "falseflag-api"); member "version" (enc_text (he_version he));
  member "probe" (enc_text probe); member "timestamp" (enc_text (Format (he_now he) RFC3339))].
Definition answer_text {UT : UuidText} (et : error_texts) (he : health_env) (h : http_response) : string :=
  match h with
  | HJson r => body_text et he (payload r)
  | HHealth probe => match health_doc he probe with Some d => print d +:+ newline | None => "" end
  | HText _ | HRedirect => et_error et +:+ newline
  end.

(** ** What a request can change *)

(** The audit action of an operation that changes the database. *)
Definition op_action (op : operation) : option string :=
  match op with
  | OpCreateProject => Some "create_project"
  | OpCreateEnvironment => Some "create_environment"
  | OpCreateFlag => Some "create_flag"
  | OpPublishFlagVersion => Some "publish_version"
  | OpCreateSegment => Some "create_segment"
  | OpUpdateSegment => Some "update_segment"
  | OpCompileSnapshot => Some "compile_snapshot"
  | _ => None
  end.
(** The operation a request reaches, and its action. *)
Definition operation_of (r : http_request) : option operation :=
  match route restRoutes (r_Method r) (r_Path r) with ToHandler _ op _ => Some op | _ => None end.
Definition mutation (r : http_request) : option string := operation_of r ≫= op_action.

#[local] Ltac unfold_wrappers :=
  unfold w_GetHealth, w_ListProjects, w_CreateProject, w_GetProject, w_ListAuditEvents, w_ListEnvironments,
    w_CreateEnvironment, w_GetEnvironment, w_ListFlags, w_CreateFlag, w_GetFlag, w_PublishFlagVersion, w_EvaluateFlag,
    w_EvaluateFlagWithTrace, w_ListFlagVersions, w_ListSegments, w_CreateSegment, w_GetSegment, w_UpdateSegment, w_ListSnapshots,
    w_CompileSnapshot, w_GetLatestSnapshot, w_GetSnapshot, with_slug_and, with_slug.

Lemma wrapper_action {PL : ParamLib} {UT : UuidText} fuel pv r op c :
  wrapper fuel pv r op = Some c ->
  match c with CallApi q => action_of q = op_action op | _ => op_action op = None end.
Proof.
  destruct op; cbn [wrapper]; unfold_wrappers;
    repeat (match goal with |- context [mbind _ ?o] => destruct o; cbn [mbind option_bind]; [|done] end);
    by intros [= <-].
Qed.

Lemma mutation_method r act : mutation r = Some act -> r_Method r = "POST" \/ r_Method r = "PUT".
Proof.
  unfold mutation, operation_of. destruct (route restRoutes (r_Method r) (r_Path r)) as [p op ms| | |] eqn:E; try done. cbn.
  apply route_in in E as [Hin Hm]. intros Ha.
  assert (pt_method p = "POST" \/ pt_method p = "PUT") as Hp.
  { revert Ha Hin. clear. intros Ha Hin. repeat (destruct Hin as [[= <- <-]|Hin]; [vm_compute in Ha |- *; try discriminate Ha; auto|]). done. }
  destruct Hm as [<-|[[-> Hg]|Hg]]; [done | |]; rewrite Hg in Hp; by destruct Hp.
Qed.

(** ** The address of a request *)

(** The method and path of a request to the handlers, as the clients of the API
    write them. *)
Definition project_path (slug : string) (l : list string) : string := path_of ("v1" :: "projects" :: slug :: l).
Definition address {UT : UuidText} (q : request) : string * string :=
  match q with
  | ReqListProjects => ("GET", "/v1/projects")
  | ReqCreateProject _ => ("POST", "/v1/projects")
  | ReqGetProject slug => ("GET", project_path slug [])
  | ReqListEnvironments slug => ("GET", project_path slug ["environments"])
  | ReqCreateEnvironment slug _ => ("POST", project_path slug ["environments"])
  | ReqGetEnvironment slug env => ("GET", project_path slug ["environments"; env])
  | ReqListSegments slug => ("GET", project_path slug ["segments"])
  | ReqCreateSegment slug _ => ("POST", project_path slug ["segments"])
  | ReqGetSegment slug key => ("GET", project_path slug ["segments"; key])
  | ReqUpdateSegment slug key _ => ("PUT", project_path slug ["segments"; key])
  | ReqListFlags slug => ("GET", project_path slug ["flags"])
  | ReqCreateFlag slug _ => ("POST", project_path slug ["flags"])
  | ReqGetFlag slug key => ("GET", project_path slug ["flags"; key])
  | ReqPublish _ slug key _ => ("PUT", project_path slug ["flags"; key])
  | ReqListFlagVersions slug key => ("GET", project_path slug ["flags"; key; "versions"])
  | ReqEvaluate slug key _ => ("POST", project_path slug ["flags"; key; "evaluate"])
  | ReqEvaluateTrace slug key _ => ("POST", project_path slug ["flags"; key; "evaluate-trace"])
  | ReqListSnapshots slug _ => ("GET", project_path slug ["snapshots"])
  | ReqGetLatestSnapshot slug => ("GET", project_path slug ["snapshots"; "latest"])
  | ReqGetSnapshot slug id => ("GET", project_path slug ["snapshots"; uuid_String id])
  | ReqCompileSnapshot slug _ => ("POST", project_path slug ["snapshots"])
  end.

(** The request the handlers see when one arrives with a body and no query. *)
Definition arrived (fuel : nat) (body : string) (q : request) : request :=
  match q with
  | ReqCreateProject _ => ReqCreateProject (decode_create_project body)
  | ReqCreateEnvironment slug _ => ReqCreateEnvironment slug (decode_create_environment body)
  | ReqCreateSegment slug _ => ReqCreateSegment slug (decode_create_segment body)
  | ReqUpdateSegment slug key _ => ReqUpdateSegment slug key (decode_update_segment body)
  | ReqCreateFlag slug _ => ReqCreateFlag slug (decode_create_flag body)
  | ReqPublish _ slug key _ => ReqPublish fuel slug key (decode_publish body)
  | ReqEvaluate slug key _ => ReqEvaluate slug key (decode_evaluation body)
  | ReqEvaluateTrace slug key _ => ReqEvaluateTrace slug key (decode_evaluation body)
  | ReqListSnapshots slug _ => ReqListSnapshots slug None
  | ReqCompileSnapshot slug _ =>
      ReqCompileSnapshot slug (if 0 <? Z.of_nat (String.length body) then Some (decode_compile_snapshot body) else None)
  | q => q
  end.
Definition sent {UT : UuidText} (actor body : string) (q : request) : http_request :=
  mkHttp (address q).1 (address q).2 "" actor false body.

(** Names that a path can carry as they are. *)
Definition addressable (q : request) : Prop :=
  match q with
  | ReqListProjects | ReqCreateProject _ => True
  | ReqGetProject slug | ReqListEnvironments slug | ReqCreateEnvironment slug _ | ReqListSegments slug | ReqCreateSegment slug _
  | ReqListFlags slug | ReqCreateFlag slug _ | ReqListSnapshots slug _ | ReqGetLatestSnapshot slug | ReqCompileSnapshot slug _ =>
      plain_seg slug = true
  | ReqGetEnvironment slug key | ReqGetSegment slug key | ReqUpdateSegment slug key _ | ReqGetFlag slug key
  | ReqPublish _ slug key _ | ReqListFlagVersions slug key | ReqEvaluate slug key _ | ReqEvaluateTrace slug key _ =>
      plain_seg slug = true /\ plain_seg key = true
  | ReqGetSnapshot slug id => plain_seg slug = true /\ uuid_ok id
  end.

(** The method and path of every operation; [x] is the second name on the path. *)
Definition op_method (op : operation) : string :=
  match op with
  | OpCreateProject | OpCreateEnvironment | OpCreateFlag | OpEvaluateFlag | OpEvaluateFlagWithTrace | OpCreateSegment
  | OpCompileSnapshot => "POST"
  | OpPublishFlagVersion | OpUpdateSegment => "PUT"
  | _ => "GET"
  end.
Definition op_path (op : operation) (slug x : string) : list string :=
  let project l := "v1" :: "projects" :: slug :: l in
  match op with
  | OpProbe probe => [probe]
  | OpGetHealth => ["v1"; "health"]
  | OpListProjects | OpCreateProject => ["v1"; "projects"]
  | OpGetProject => project []
  | OpListAuditEvents => project ["audit-events"]
  | OpListEnvironments | OpCreateEnvironment => project ["environments"]
  | OpGetEnvironment => project ["environments"; x]
  | OpListFlags | OpCreateFlag => project ["flags"]
  | OpGetFlag | OpPublishFlagVersion => project ["flags"; x]
  | OpEvaluateFlag => project ["flags"; x; "evaluate"]
  | OpEvaluateFlagWithTrace => project ["flags"; x; "evaluate-trace"]
  | OpListFlagVersions => project ["flags"; x; "versions"]
  | OpListSegments | OpCreateSegment => project ["segments"]
  | OpGetSegment | OpUpdateSegment => project ["segments"; x]
  | OpListSnapshots | OpCompileSnapshot => project ["snapshots"]
  | OpGetLatestSnapshot => project ["snapshots"; "latest"]
  | OpGetSnapshot => project ["snapshots"; x]
  end.
(** The names of an operation's path are ones a path can carry as they are; a
    snapshot's is not the word of the route for the latest one. *)
Definition plain_names (op : operation) (slug x : string) : Prop :=
  match op with
  | OpProbe probe => probe = "healthz" \/ probe = "readyz"
  | OpGetHealth | OpListProjects | OpCreateProject => True
  | OpGetEnvironment | OpGetFlag | OpPublishFlagVersion | OpEvaluateFlag | OpEvaluateFlagWithTrace | OpListFlagVersions
  | OpGetSegment | OpUpdateSegment => plain_seg slug = true /\ plain_seg x = true
  | OpGetSnapshot => plain_seg slug = true /\ plain_seg x = true /\ x <> "latest"
  | _ => plain_seg slug = true
  end.

(** What a request at the address of an operation asks for: the names on the path,
    the decoded body and the bound query parameters; [None] when one cannot be
    bound. *)
Definition asked {PL : ParamLib} (fuel : nat) (op : operation) (slug x : string) (r : http_request) : option call :=
  let q := ParseQuery (r_Query r) in
  match op with
  | OpProbe probe => Some (CallProbe probe)
  | OpGetHealth => Some CallHealth
  | OpListAuditEvents =>
      do? action := bind_query "action" q in
      do? actor := bind_query "actor" q in
      do? from := bind_query_time "from" q in
      do? to := bind_query_time "to" q in
      do? cursor := bind_query "cursor" q in
      do? limit := bind_query_int32 "limit" q in
      Some (CallAudit slug (mkListAuditEvents limit cursor action actor (from ≫= time_ptr) (to ≫= time_ptr)))
  | OpListSnapshots => do? limit := bind_query_int32 "limit" q in Some (CallApi (ReqListSnapshots slug limit))
  | OpGetSnapshot => do? id := bind_path_uuid x in Some (CallApi (ReqGetSnapshot slug id))
  | OpListProjects => Some (CallApi ReqListProjects)
  | OpCreateProject => Some (CallApi (ReqCreateProject (decode_create_project (r_Body r))))
  | OpGetProject => Some (CallApi (ReqGetProject slug))
  | OpListEnvironments => Some (CallApi (ReqListEnvironments slug))
  | OpCreateEnvironment => Some (CallApi (ReqCreateEnvironment slug (decode_create_environment (r_Body r))))
  | OpGetEnvironment => Some (CallApi (ReqGetEnvironment slug x))
  | OpListFlags => Some (CallApi (ReqListFlags slug))
  | OpCreateFlag => Some (CallApi (ReqCreateFlag slug (decode_create_flag (r_Body r))))
  | OpGetFlag => Some (CallApi (ReqGetFlag slug x))
  | OpPublishFlagVersion => Some (CallApi (ReqPublish fuel slug x (decode_publish (r_Body r))))
  | OpEvaluateFlag => Some (CallApi (ReqEvaluate slug x (decode_evaluation (r_Body r))))
  | OpEvaluateFlagWithTrace => Some (CallApi (ReqEvaluateTrace slug x (decode_evaluation (r_Body r))))
  | OpListFlagVersions => Some (CallApi (ReqListFlagVersions slug x))
  | OpListSegments => Some (CallApi (ReqListSegments slug))
  | OpCreateSegment => Some (CallApi (ReqCreateSegment slug (decode_create_segment (r_Body r))))
  | OpGetSegment => Some (CallApi (ReqGetSegment slug x))
  | OpUpdateSegment => Some (CallApi (ReqUpdateSegment slug x (decode_update_segment (r_Body r))))
  | OpCompileSnapshot =>
      Some (CallApi (ReqCompileSnapshot slug (if 0 <? ContentLength r then Some (decode_compile_snapshot (r_Body r)) else None)))
  | OpGetLatestSnapshot => Some (CallApi (ReqGetLatestSnapshot slug))
  end.

Section addresses.
Context {RX : RegexpLib} {CEL : CelLib} {TS : TsLib} {UT : UuidText} {UL : UuidLaws} {PL : ParamLib} {PW : ParamLaws}.

Lemma uuid_plain u : uuid_ok u -> plain_seg (uuid_String u) = true /\ String.eqb (uuid_String u) "latest" = false.
Proof.
  intros H. pose proof (string_chars u H) as Hc. pose proof (string_nonempty u H) as Hn.
  assert (forall s, all_chars uuid_char s = true -> forallb unreserved (list_ascii_of_string s) = true) as Hu.
  { clear. induction s as [|c s IH]; cbn; [done|]. intros [Hc Hs]%andb_true_iff. rewrite IH by done.
    rewrite andb_true_r. revert Hc. clear. destruct c as [[] [] [] [] [] [] [] []]; vm_compute; done. }
  split.
  - unfold plain_seg. rewrite Hn, (Hu _ Hc). cbn [negb andb].
    destruct (String.eqb_spec (uuid_String u) ".") as [E|_]; [rewrite E in Hc; vm_compute in Hc; discriminate Hc|].
    destruct (String.eqb_spec (uuid_String u) "..") as [E|_]; [rewrite E in Hc; vm_compute in Hc; discriminate Hc|]. done.
  - apply String.eqb_neq. intros E. rewrite E in Hc. vm_compute in Hc. discriminate Hc.
Qed.

Lemma serve_plain fuel a r l p op ms :
  r_Path r = path_of l -> l <> [] -> Forall (fun s => plain_seg s = true) l -> r_Method r <> "" -> r_Method r <> "CONNECT" ->
  ends_multi p = false -> matchPath l (with_method (r_Method r) restRoutes) [] = Some ((p, op), ms) ->
  serve fuel a r = match wrapper fuel (PathValue p ms) r op with
                   | None => Done (HText 400)
                   | Some c => run_call a (actorFromRequest r) c
                   end.
Proof.
  intros Hpath Hne Hl Hm Hc Hp E. unfold serve. rewrite Hpath, (route_plain _ _ _ _ _ _ Hne Hl Hm Hc Hp E).
  destruct l as [|s l]; [done|]. done.
Qed.

(** Follow a request to its wrapper, once the names on its path are plain. *)
#[local] Ltac arrives :=
  repeat match goal with
  | H : plain_seg ?s = true |- _ =>
      lazymatch goal with
      | _ : String.eqb s "/" = false |- _ => fail
      | _ => pose proof (plain_not_root s H); pose proof (bind_plain s H)
      end
  end;
  erewrite serve_plain; [| reflexivity | done
    | repeat first [ apply Forall_nil_2 | apply Forall_cons_2; [first [assumption | reflexivity]|] ]
    | done | done | |
      cbn; repeat match goal with H : String.eqb _ _ = false |- _ => rewrite H end; reflexivity ]; [|reflexivity];
  cbn [wrapper]; unfold_wrappers;
  repeat match goal with |- context [PathValue ?p ?ms ?n] => let v := eval cbn in (PathValue p ms n) in change (PathValue p ms n) with v end;
  repeat match goal with H : bind_path _ = _ |- _ => rewrite H; cbn [mbind option_bind] end.

Lemma serve_at fuel a op slug x r :
  plain_names op slug x -> r_Method r = op_method op -> r_Path r = path_of (op_path op slug x) ->
  serve fuel a r = match asked fuel op slug x r with
                   | Some c => run_call a (actorFromRequest r) c
                   | None => Done (HText 400)
                   end.
Proof.
  destruct r as [method path query actor chunked body]. cbn [r_Method r_Path]. intros Hn -> ->.
  destruct op; cbn [plain_names op_method op_path asked] in *;
    repeat match goal with H : _ /\ _ |- _ => destruct H end;
    try match goal with H : _ = "healthz" \/ _ |- _ => destruct H as [-> | ->] end;
    try match goal with H : ?s <> "latest" |- _ => apply String.eqb_neq in H end;
    arrives; done.
Qed.

(** A request to the handlers, sent without a query. *)
Definition request_op (q : request) : operation :=
  match q with
  | ReqListProjects => OpListProjects | ReqCreateProject _ => OpCreateProject | ReqGetProject _ => OpGetProject
  | ReqListEnvironments _ => OpListEnvironments | ReqCreateEnvironment _ _ => OpCreateEnvironment
  | ReqGetEnvironment _ _ => OpGetEnvironment | ReqListSegments _ => OpListSegments | ReqCreateSegment _ _ => OpCreateSegment
  | ReqGetSegment _ _ => OpGetSegment | ReqUpdateSegment _ _ _ => OpUpdateSegment | ReqListFlags _ => OpListFlags
  | ReqCreateFlag _ _ => OpCreateFlag | ReqGetFlag _ _ => OpGetFlag | ReqPublish _ _ _ _ => OpPublishFlagVersion
  | ReqListFlagVersions _ _ => OpListFlagVersions | ReqEvaluate _ _ _ => OpEvaluateFlag
  | ReqEvaluateTrace _ _ _ => OpEvaluateFlagWithTrace | ReqListSnapshots _ _ => OpListSnapshots
  | ReqGetLatestSnapshot _ => OpGetLatestSnapshot | ReqGetSnapshot _ _ => OpGetSnapshot | ReqCompileSnapshot _ _ => OpCompileSnapshot
  end.
Lemma serve_sent fuel a actor body q :
  addressable q -> serve fuel a (sent actor body q) = pmap HJson (handle a actor (arrived fuel body q)).
Proof.
  destruct q as [| |slug|slug|slug ?|slug x|slug|slug ?|slug x|slug x ?|slug|slug ?|slug x|? slug x ?|slug x|slug x ?|slug x ?|slug ?|slug|slug id|slug ?];
    cbn [addressable]; intros Hq;
    try match goal with |- context [ReqGetSnapshot _ ?u] => destruct Hq as [Hq Hu]; destruct (uuid_plain u Hu) as [Hu1 Hu2%String.eqb_neq]; pose proof (bind_uuid_text u Hu) end;
    match goal with
    | |- context [ReqGetSnapshot ?s ?u] => rewrite (serve_at _ _ OpGetSnapshot s (uuid_String u))
    | x : string |- context [sent _ _ ?q] => rewrite (serve_at _ _ (request_op q) slug x)
    | slug : string |- context [sent _ _ ?q] => rewrite (serve_at _ _ (request_op q) slug "")
    | |- context [sent _ _ ?q] => rewrite (serve_at _ _ (request_op q) "" "")
    end; try done.
  - destruct (bind_absent "limit" (ParseQuery "") (Forall_nil_2 _)) as (_ & _ & E). cbn [asked request_op sent r_Query]. by rewrite E.
  - cbn [asked request_op]. by match goal with H : bind_path_uuid _ = _ |- _ => rewrite H end.
Qed.
End addresses.

(** An execution of a translated program is one of the program. *)
Lemma exec_unmap {A B} (f : A -> B) (p : prog A) db b db' :
  exec (pmap f p) db b db' -> exists a, b = f a /\ exec p db a db'.
Proof.
  revert db. induction p as [x| |X q k IH|pr k IH|X ev fn k IH]; intros db; cbn [exec pmap].
  - intros [-> ->]. eauto.
  - done.
  - intros (r & Hr & (a & -> & H)%IH). eauto 6.
  - intros (get & Hg & (a & -> & H)%IH). eauto 6.
  - intros (envs & dr & ds & H). destruct (WithAudit envs dr ev _ db) as [r db2] eqn:E. apply IH in H as (a & -> & H).
    exists a. split; [done|]. exists envs, dr, ds. by rewrite E.
Qed.

Section theorems.
Context {RX : RegexpLib} {CEL : CelLib} {TS : TsLib} {PL : ParamLib} {UT : UuidText}.

Lemma audit_reads a slug p : writes (fun _ _ _ => False) (h_ListAuditEvents a slug p).
Proof.
  unfold h_ListAuditEvents, requireStore. destruct (a_Store a); [|apply writes_done]. walk_writes.
  unfold audit_page. destruct (q_Cursor p) as [s|]; [|walk_writes; repeat case_match; done].
  destruct (String.eqb s ""); [walk_writes; repeat case_match; done|].
  destruct (decodeAuditCursor s) as [[]|]; walk_writes; repeat case_match; done.
Qed.

(** C17. Whatever the bytes of an HTTP request are, the REST listener changes the
    database only for a POST or PUT that its path and method route to one of
    seven operations, and then with a success status and exactly one audit row
    that names the operation's action and the request's X-Actor; every other
    answer, redirects, unknown paths and undecodable bodies included, leaves the
    database as it was, and a failed change never answers with success. *)
Theorem http_one_audit_row fuel a r db resp db' :
  exec (serve fuel a r) db resp db' ->
  match mutation r with
  | None => db' = db
  | Some action =>
      (r_Method r = "POST" \/ r_Method r = "PUT") /\
      ((300 <= http_status resp /\ db' = db) \/
       (200 <= http_status resp < 300 /\ audited_by action (r_Actor r) db db'))
  end.
Proof.
  assert (forall x, exec (Done x : prog http_response) db resp db' -> 300 <= http_status x ->
    match mutation r with None => db' = db | Some action => (r_Method r = "POST" \/ r_Method r = "PUT") /\
      ((300 <= http_status resp /\ db' = db) \/ (200 <= http_status resp < 300 /\ audited_by action (r_Actor r) db db')) end) as Hdone.
  { intros x [-> ->] Hx. destruct (mutation r) as [act|] eqn:E; [|done]. split; [by eapply mutation_method | by left]. }
  unfold serve. destruct (String.eqb (r_Path r) "*"); [intros H; eapply Hdone; [exact H | cbn; lia]|].
  destruct (route restRoutes (r_Method r) (r_Path r)) as [p op ms| | |] eqn:E; try (intros H; eapply Hdone; [exact H | cbn; lia]).
  destruct (wrapper fuel (PathValue p ms) r op) as [c|] eqn:Ew; [|intros H; eapply Hdone; [exact H | cbn; lia]].
  clear Hdone. intros H. assert (mutation r = op_action op) as Hm by (unfold mutation, operation_of; by rewrite E).
  apply wrapper_action in Ew. destruct c as [|probe|slug q|q]; cbn [run_call] in H.
  - rewrite Hm, Ew. apply H.
  - rewrite Hm, Ew. apply H.
  - rewrite Hm, Ew. apply exec_unmap in H as (x & -> & H). eapply exec_reads; [apply audit_reads | exact H].
  - apply exec_unmap in H as (x & -> & H). rewrite <- Ew in Hm. destruct (mutation r) as [act|] eqn:Em.
    + split; [by eapply mutation_method|]. destruct (audits_exec _ _ _ _ _ _ (handle_audits a (r_Actor r) q act (eq_sym Hm)) H) as [[Hf ->]|[Hs Ha]].
      * left. split; [unfold failure in Hf; cbn; lia | done].
      * right. split; [exact Hs | exact Ha].
    + eapply exec_reads; [by apply handle_reads | exact H].
Qed.
End theorems.

(** ** The SDK over HTTP *)

(** The request of [pollOnce] ([internal/sdkgo/sdkgo.go]). *)
Definition poll_request (slug : string) : http_request :=
  mkHttp "GET" ("/v1/projects/" +:+ slug +:+ "/snapshots/latest") "" "" false "".
(** What the client sees of an answer. *)
Definition poll_answer {UT : UuidText} (et : error_texts) (he : health_env) (h : http_response) : poll_response :=
  Response (http_status h) (sdk_body (answer_text et he h)).

Definition snapshots_in_range (db : DB) : Prop :=
  Forall (fun n => uuid_ok (nr_id n) /\ in_years (of_ms (nr_created n))) (snapshots db).

Lemma run_pmap {A B} (f : A -> B) ds (p : prog A) db : run ds (pmap f p) db = (f <$> (run ds p db).1, (run ds p db).2).
Proof.
  revert db. induction p as [x| |X q k IH|pr k IH|X ev fn k IH]; intros db; cbn [run pmap]; try done.
  destruct (WithAudit quiet _ ev _ db). apply IH.
Qed.

Lemma latest_snapshot_row project db n :
  GetLatestSnapshot project db = Ok n -> exists r, n = sqliteSnapshotFromRow r /\ In r (snapshots db).
Proof.
  unfold GetLatestSnapshot, q_GetLatestSnapshot. destruct (head (snapshots_desc project db)) as [r|] eqn:E; [|done]. cbn. intros [= <-].
  exists r. split; [done|]. apply head_member in E. unfold snapshots_desc in E. eapply Permutation_in in E; [|apply order_by_perm].
  unfold snapshots_of in E. by apply filter_In in E as [E _].
Qed.

Section sdk.
Context {RX : RegexpLib} {CEL : CelLib} {TS : TsLib} {UT : UuidText} {UL : UuidLaws} {PL : ParamLib} {PW : ParamLaws}.

(** What a client that polls after a compilation reads. *)
Lemma poll_reads_snapshot fuel actor slug body db resp db' ds proj et he :
  NewEnv_ok = true -> server_ok db -> plain_seg slug = true -> GetProjectBySlug slug db = Ok proj ->
  can_travel (P_ID proj) db -> snapshots_in_range db' ->
  exec (serve fuel (mkAPI true) (sent actor body (ReqCompileSnapshot slug None))) db resp db' -> 200 <= http_status resp < 300 ->
  exists answer b,
    run ds (serve fuel (mkAPI true) (poll_request slug)) db' = (Some answer, db') /\
    poll_answer et he answer = Response 200 (Some b) /\
    (exists n, GetLatestSnapshot (P_ID proj) db' = Ok n /\ sb_version b = wrap32 (N_Version n)) /\
    forall client, (pollOnce client (poll_answer et he answer)).2 = None /\
      decides_like_server proj db (pollOnce client (poll_answer et he answer)).1 (sb_version b).
Proof.
  intros Henv Hs Hslug Hp Htr Hr H Hsucc. rewrite serve_sent in H by done. apply exec_unmap in H as (x & -> & H).
  destruct (snapshot_served _ _ _ _ _ _ ds _ Henv Hs Hp Htr H Hsucc) as (n & flags & Hl & Hrun & Hread & Hplain & Hdec).
  change (poll_request slug) with (sent "" "" (ReqGetLatestSnapshot slug)). rewrite serve_sent by done.
  set (w := snapshotToAPI n) in *. set (b := mkBody (uuid_String (wn_Id w)) (wn_Version w) (of_ms (wn_CreatedAt w)) flags).
  assert (sdk_body (body_text et he (BSnapshot w)) = Some b) as Eb.
  { destruct (latest_snapshot_row _ _ _ Hl) as (row & -> & Hin).
    unfold snapshots_in_range in Hr. rewrite List.Forall_forall in Hr. destruct (Hr row Hin) as [Hu Hy].
    apply sdk_body_text; try done. unfold in_int64. pose proof (wrap32_range (nr_version row)) as Hv.
    unfold int32_min, int32_max, int64_min, int64_max in *. cbn. lia. }
  exists (HJson (writeJSON 200 (BSnapshot w))), b. split_and!.
  - cbn [arrived handle]. by rewrite run_pmap, Hrun.
  - unfold poll_answer. cbn [http_status answer_text payload writeJSON status]. by rewrite Eb.
  - exists n. by split.
  - intros client. unfold poll_answer. cbn [http_status answer_text payload writeJSON status]. rewrite Eb. split; [done | apply Hdec].
Qed.

(** C3. End to end over HTTP: when a request to compile a snapshot is answered with
    success, a Go SDK client that polls the API afterwards decodes the bytes of
    the answer, and then decides every published flag like the server's
    compilation of its latest version (with the snapshot's version number); every
    other key gets the caller's default.  The published flags of the project must be
    able to travel: every key is valid UTF-8, every number of an IR is in the range of
    a float64 with a shortest form that reads back (a number out of range makes the
    snapshot unreadable), and percentages are from 0 to 100.  The slug
    needs no escaping, the snapshots' ids and times are ones the texts of the answer
    can hold, and the CEL environment can be built. *)
Theorem sdk_polls_http fuel actor slug body db resp db' ds proj et he :
  NewEnv_ok = true -> server_ok db -> plain_seg slug = true -> GetProjectBySlug slug db = Ok proj ->
  can_travel (P_ID proj) db -> snapshots_in_range db' ->
  exec (serve fuel (mkAPI true) (sent actor body (ReqCompileSnapshot slug None))) db resp db' -> 200 <= http_status resp < 300 ->
  exists answer b,
    run ds (serve fuel (mkAPI true) (poll_request slug)) db' = (Some answer, db') /\
    poll_answer et he answer = Response 200 (Some b) /\
    forall client, (pollOnce client (poll_answer et he answer)).2 = None /\
      decides_like_server proj db (pollOnce client (poll_answer et he answer)).1 (sb_version b).
Proof.
  intros Henv Hs Hslug Hp Htr Hr H Hsucc.
  destruct (poll_reads_snapshot _ _ _ _ _ _ _ ds _ et he Henv Hs Hslug Hp Htr Hr H Hsucc) as (answer & b & H1 & H2 & _ & H3). eauto.
Qed.

(** C37. One flag can stop every SDK of its project: when the IR a flag was last
    published with has a default or a rule value with a number outside the range
    of a float64, and a snapshot of the project is then compiled with success, the
    latest snapshot is answered with 200 and its bundle as one JSON string, and a
    client that polls it reports a decoding error and keeps the snapshot it had. *)
Theorem out_of_range_breaks_snapshot fuel actor slug body db resp db' ds proj key t et he :
  NewEnv_ok = true -> server_ok db -> plain_seg slug = true -> GetProjectBySlug slug db = Ok proj ->
  published_tree (P_ID proj) key db = Some t -> tree_out_of_range t = true ->
  exec (serve fuel (mkAPI true) (sent actor body (ReqCompileSnapshot slug None))) db resp db' -> 200 <= http_status resp < 300 ->
  exists n raw,
    wn_Compiled (snapshotToAPI n) = VStr raw /\
    run ds (serve fuel (mkAPI true) (poll_request slug)) db' = (Some (HJson (writeJSON 200 (BSnapshot (snapshotToAPI n)))), db') /\
    forall client, pollOnce client (poll_answer et he (HJson (writeJSON 200 (BSnapshot (snapshotToAPI n))))) = (client, Some DecodeBody).
Proof.
  intros Henv Hs Hslug Hp Hkey Hout H Hsucc. rewrite serve_sent in H by done. apply exec_unmap in H as (x & -> & H).
  destruct (snapshot_unreadable _ _ _ _ _ _ ds _ key t Henv Hs Hp Hkey Hout H Hsucc) as (n & raw & Hl & Hrun & Hraw).
  exists n, raw. split_and!; [done| |].
  - change (poll_request slug) with (sent "" "" (ReqGetLatestSnapshot slug)). rewrite serve_sent by done.
    cbn [arrived handle]. by rewrite run_pmap, Hrun.
  - intros client. unfold poll_answer. cbn [http_status answer_text payload writeJSON status].
    by rewrite (sdk_body_string et he _ raw Hraw).
Qed.
End sdk.

(** ** Writes of the listener *)

Section listeners.
Context {RX : RegexpLib} {CEL : CelLib} {TS : TsLib} {PL : ParamLib} {UT : UuidText}.

Lemma serve_writes fuel a r : writes (within server_reach) (serve fuel a r).
Proof.
  unfold serve. destruct (String.eqb (r_Path r) "*"); [done|]. destruct (route _ _ _) as [p op ms| | |]; try done.
  destruct (wrapper _ _ _ op) as [[|probe|slug q|q]|]; cbn [run_call]; try done; apply writes_pmap; [apply audit_writes | apply handle_writes].
Qed.
End listeners.

(** ** Bodies that are refused *)






Section refused.
Context {RX : RegexpLib} {CEL : CelLib} {TS : TsLib} {UT : UuidText} {UL : UuidLaws} {PL : ParamLib} {PW : ParamLaws}.



(** C19. Every endpoint of the REST listener, the audit log, the health endpoint and
    the two probes included, is where its clients look for it.  A request with the
    method and path of an operation, whose names need no escaping, whatever its
    query, headers and body, runs that operation's handler for the X-Actor of the
    request, with the names on its path, the decoded body and the query parameters
    of the audit log and the snapshot list; when a query parameter or a snapshot's
    id cannot be bound, it is answered with 400 and no handler runs. *)
Theorem endpoints_reached fuel a op slug x r :
  plain_names op slug x -> r_Method r = op_method op -> r_Path r = path_of (op_path op slug x) ->
  serve fuel a r = match asked fuel op slug x r with
                   | Some c => run_call a (actorFromRequest r) c
                   | None => Done (HText 400)
                   end.
Proof. apply serve_at. Qed.
End refused.

Module HttpDemo.
Import Demo HandlersDemo SqliteTextDemo RpcDemo WireDemo.

(** Parameters bound as they are, and query parameters to their last value. *)
Definition query_value (name : string) (q : Values) : option string :=
  match List.find (fun kv => String.eqb kv.1 name) q with Some kv => Some kv.2 | None => None end.
#[export] Instance demo_params : ParamLib := {
  bind_path s := if String.eqb s "" then None else Some s;
  bind_path_uuid s := uuid_Parse s;
  bind_query name q := Some (query_value name q);
  bind_query_time name q :=
    match query_value name q with None => Some None | Some s => do? t := Parse RFC3339 s in Some (Some t) end;
  bind_query_int32 name q :=
    match query_value name q with
    | None => Some None
    | Some s => do? n := parse_int s in if (int32_min <=? n) && (n <=? int32_max) then Some (Some n) else None
    end
}.
#[export] Instance demo_param_laws : ParamLaws.
Proof.
  split.
  - intros s H. cbn. destruct (String.eqb_spec s "") as [->|]; [vm_compute in H; discriminate H | done].
  - intros u H. exact (parse_string u H).
  - intros name q H. assert (query_value name q = None) as E.
    { unfold query_value. induction H as [|kv q Hk _ IH]; [done|]. cbn. apply String.eqb_neq in Hk. by rewrite Hk. }
    cbn. by rewrite E.
Qed.

(** The project, the flag and its version of the handlers' demo, as bytes. *)
Definition text (v : goval) : string := default "" (marshal v).
Definition project_bytes : http_request := mkHttp "POST" "/v1/projects" "" "ops" false
  (text (VMap [("config_strategy", VStr "cel"); ("display_name", VStr "Acme"); ("slug", VStr "acme")])).
Definition flag_bytes : http_request := mkHttp "POST" "/v1/projects/acme/flags" "" "ops" false
  (text (VMap [("default_value", VBool false); ("key", VStr "us"); ("name", VStr "US"); ("value_type", VStr "boolean")])).
Definition publish_bytes : http_request := mkHttp "PUT" "/v1/projects/acme/flags/us" "" "ops" false
  (text (VMap [("source", (unmarshal_any us_source).1); ("strategy", VStr "cel")])).

Definition served_http (n : Z) (r : http_request) (db : DB) : option http_response * DB := run (demo_draws n) (serve 1 api r) db.
Definition answered (n : Z) (r : http_request) (db : DB) : http_response := default HRedirect (served_http n r db).1.

Lemma served_exec n r db h db' : served_http n r db = (Some h, db') -> exec (serve 1 api r) db h db'.
Proof. apply run_exec. Qed.

Lemma project_arrives : served_http 1 project_bytes empty_db = (Some (answered 1 project_bytes empty_db), db1).
Proof. vm_compute. reflexivity. Qed.
Lemma flag_arrives : served_http 2 flag_bytes db1 = (Some (answered 2 flag_bytes db1), db2).
Proof. vm_compute. reflexivity. Qed.
Lemma publish_accepted : served_http 3 publish_bytes db2 = (Some (answered 3 publish_bytes db2), db3).
Proof. vm_compute. reflexivity. Qed.

Lemma publish_mutation : mutation publish_bytes = Some "publish_version".
Proof. vm_compute. reflexivity. Qed.
Lemma http_one_audit_row_witness :
  (r_Method publish_bytes = "POST" \/ r_Method publish_bytes = "PUT") /\
  ((300 <= http_status (answered 3 publish_bytes db2) /\ db3 = db2) \/
   (200 <= http_status (answered 3 publish_bytes db2) < 300 /\ audited_by "publish_version" "ops" db2 db3)).
Proof.
  pose proof (http_one_audit_row 1 api publish_bytes db2 (answered 3 publish_bytes db2) db3
    (served_exec 3 publish_bytes db2 _ db3 publish_accepted)) as H.
  rewrite publish_mutation in H. exact H.
Defined.

(** A snapshot compiled over HTTP, and the poll that reads it. *)
Definition compile_bytes : http_request := sent "ops" "" (ReqCompileSnapshot "acme" None).
Lemma compile_arrives : served_http 4 compile_bytes db3 = (Some (answered 4 compile_bytes db3), db4).
Proof. vm_compute. reflexivity. Qed.
Definition demo_texts : error_texts := mkErrorTexts "error" None "message" (fun _ => "error").
Definition demo_health : health_env := mkHealthEnv "dev" 0.

Lemma sdk_polls_http_witness :
  exists answer b,
    run (demo_draws 9) (serve 1 api (poll_request "acme")) db4 = (Some answer, db4) /\
    poll_answer demo_texts demo_health answer = Response 200 (Some b).
Proof.
  destruct (sdk_polls_http 1 "ops" "acme" "" db3 (answered 4 compile_bytes db3) db4 (demo_draws 9) acme demo_texts demo_health)
    as (ans & b & H1 & H2 & _).
  - reflexivity.
  - exact (reached_ok db3 demo_server).
  - reflexivity.
  - vm_compute. reflexivity.
  - exact demo_travels.
  - repeat constructor; vm_compute; congruence.
  - exact (served_exec 4 compile_bytes db3 _ db4 compile_arrives).
  - vm_compute. split; congruence.
  - exists ans, b. exact (conj H1 H2).
Defined.

(** A flag published from a TypeScript text with a number no float64 holds, and
    the compilation and the poll after it. *)
Definition huge_tree : RulesTree := default zero_tree (published_tree 1 "us" db5).
Lemma huge_published : published_tree 1 "us" db5 = Some huge_tree /\ tree_out_of_range huge_tree = true.
Proof. vm_compute. split; reflexivity. Qed.
Lemma huge_compiled : served_http 6 compile_bytes db5 = (Some (answered 6 compile_bytes db5), db6).
Proof. vm_compute. reflexivity. Qed.
Lemma huge_server : server_ok db5.
Proof.
  apply reached_ok. etransitivity; [exact demo_server | eapply (demo_exec 5 publish_huge); vm_compute; reflexivity].
Qed.

Lemma out_of_range_breaks_snapshot_witness :
  exists n, run (demo_draws 9) (serve 1 api (poll_request "acme")) db6 = (Some (HJson (writeJSON 200 (BSnapshot (snapshotToAPI n)))), db6) /\
    forall client, pollOnce client (poll_answer demo_texts demo_health (HJson (writeJSON 200 (BSnapshot (snapshotToAPI n))))) = (client, Some DecodeBody).
Proof.
  destruct (out_of_range_breaks_snapshot 1 "ops" "acme" "" db5 (answered 6 compile_bytes db5) db6 (demo_draws 9) acme "us" huge_tree
    demo_texts demo_health) as (n & raw & _ & H1 & H2).
  - reflexivity.
  - exact huge_server.
  - reflexivity.
  - vm_compute. reflexivity.
  - exact (proj1 huge_published).
  - exact (proj2 huge_published).
  - exact (served_exec 6 compile_bytes db5 _ db6 huge_compiled).
  - vm_compute. split; congruence.
  - exists n. exact (conj H1 H2).
Defined.


(** A search of the audit log, with its query. *)
Definition search_bytes : http_request := mkHttp "GET" "/v1/projects/acme/audit-events" "action=create_flag&limit=5" "ops" false "".
Lemma endpoints_reached_witness :
  serve 1 api search_bytes = pmap HJson (h_ListAuditEvents api "acme" (mkListAuditEvents (Some 5) None (Some "create_flag") None None None)).
Proof. exact (endpoints_reached 1 api OpListAuditEvents "acme" "" search_bytes eq_refl eq_refl eq_refl). Defined.
End HttpDemo.
