(* ===== verification/Edge.v ===== *)
(** The proxy's listener ([internal/proxy/proxy.go]) over HTTP and what it serves.

    [proxy_serve] goes from an HTTP request to the answer of the route it reaches,
    and [proxy_text] to the bytes of the answer.  The proxy's SDK client polls the
    API's listener (Http), so an evaluation by the proxy can be compared with the
    same evaluation by the API. *)
From stdpp Require Import base list strings numbers gmap.
From Stdlib Require Import Ascii String ZArith Lia.
From S2P Require Import Prelude Text Literal Json Float64 GoTime GoValue Ir Compile Rollout Eval AnyTrip Trace Segments Sdk Proxy Db Store SqliteText AuditCursor Api Handlers AuditApi Wire Rpc Mux Bodies Http.

(** ** Routes *)

Inductive proxy_route : Type := ToHealth | ToReady | ToEvaluate | ToSnapshot.
Definition routes : table proxy_route := [
  (mkPattern "GET" [PLit "healthz"], ToHealth);
  (mkPattern "GET" [PLit "readyz"], ToReady);
  (mkPattern "POST" [PLit "v1"; PLit "evaluate"], ToEvaluate);
  (mkPattern "GET" [PLit "v1"; PLit "snapshot"], ToSnapshot)].

Inductive proxy_answer : Type :=
| PJson (r : Proxy.response)
| PText (st : Z)
| PRedirect.
Definition proxy_status (a : proxy_answer) : Z :=
  match a with PJson r => Proxy.status r | PText st => st | PRedirect => 307 end.

Section listener.
Context {RX : RegexpLib} {CEL : CelLib} {TS : TsLib}.
(** The build's version, and the text of the decoder's error. *)
Variables (version body_error : string).

Definition proxy_handler (p : Proxy Sdk.Client) (r : http_request) (to : proxy_route) : Proxy.response :=
  match to with
  | ToHealth => handleHealth version
  | ToReady => handleReady p
  | ToEvaluate => handleEvaluate p (match proxy_request (r_Body r) with Some q => Ok q | None => Err body_error end)
  | ToSnapshot => handleSnapshotInfo p
  end.
(** [p.srv.Handler.ServeHTTP]. *)
Definition proxy_serve (p : Proxy Sdk.Client) (r : http_request) : proxy_answer :=
  if String.eqb (r_Path r) "*" then PText 400 else
  match route routes (r_Method r) (r_Path r) with
  | ToHandler _ to _ => PJson (proxy_handler p r to)
  | Redirected => PRedirect
  | NotAllowed => PText 405
  | NotFound => PText 404
  end.
End listener.

(** The bodies: maps are written with their keys sorted, structs in order. *)
Definition info_doc (i : SnapshotInfo) : option jdoc := struct_doc [
  member "id" (enc_text (info_ID i)); member "version" (enc_num (info_Version i)); member "created_at" (enc_Time (info_CreatedAt i));
  member "flag_count" (enc_num (Z.of_nat (info_FlagCount i))); member "project_slug" (enc_text (info_ProjectSlug i))].
Definition health_map (st service version : string) : goval := VMap [("service", VStr service); ("status", VStr st); ("version", VStr version)].
Definition ready_map (st project : string) (loaded : bool) : goval :=
  VMap [("project", VStr project); ("snapshot_loaded", VBool loaded); ("status", VStr st)].
Definition error_map (code msg : string) : goval := VMap [("error", VStr code); ("message", VStr msg)].
Definition proxy_doc (b : Proxy.body) : option jdoc :=
  match b with
  | Proxy.BHealth st service version => doc_of (health_map st service version)
  | BReady st project loaded => doc_of (ready_map st project loaded)
  | Proxy.BError code msg => doc_of (error_map code msg)
  | Proxy.BDecision d => enc_decision d
  | Proxy.BSnapshot i => info_doc i
  end.
Definition proxy_text (plain_error : string) (a : proxy_answer) : string :=
  match a with
  | PJson r => match proxy_doc (Proxy.payload r) with Some d => print d +:+ newline | None => "" end
  | PText _ | PRedirect => plain_error +:+ newline
  end.

(** The MCP server's health listener ([internal/mcp/health.go]): the status and the
    body of an answer. *)
Definition healthHandler (version plain_error : string) (r : http_request) : Z * string :=
  if String.eqb (r_Path r) "*" then (400, plain_error) else
  match route [(mkPattern "GET" [PLit "healthz"], tt)] (r_Method r) (r_Path r) with
  | ToHandler _ _ _ =>
      (200, match doc_of (VMap [("probe", VStr "liveness"); ("service", VStr "falseflag-mcp"); ("status", VStr "ok"); ("version", VStr version)]) with
            | Some d => print d +:+ newline
            | None => ""
            end)
  | Redirected => (307, plain_error)
  | NotAllowed => (405, plain_error)
  | NotFound => (404, plain_error)
  end.

(** ** Requests and answers as bytes *)

(** An evaluation asked of the API and of the proxy. *)
Definition api_body (ctx : context) : string := default "" (marshal (VMap [("context", VMap ctx)])).
Definition proxy_body (key : string) (def : goval) (ctx : context) : string :=
  default "" (marshal (VMap [("context", VMap ctx); ("default_value", def); ("key", VStr key)])).
Definition evaluate_http (body : string) : http_request := mkHttp "POST" "/v1/evaluate" "" "" false body.

(** A reader of an answer: [json.Unmarshal] into a [Decision]. *)
Definition decision_fields : field_table Decision := [
  ("value", fun d x => do? v := dec_any d in Some (mkDecision v (Reason x) (RuleID x) (Version x)));
  ("reason", fun d x => do? s := dec_str d (Reason x) in Some (mkDecision (DValue x) s (RuleID x) (Version x)));
  ("rule_id", fun d x => do? s := dec_str d (RuleID x) in Some (mkDecision (DValue x) (Reason x) s (Version x)));
  ("version", fun d x => do? n := dec_int d (Version x) in Some (mkDecision (DValue x) (Reason x) (RuleID x) n))].
Definition read_decision (text : string) : option Decision :=
  do? v := first_value text in loose_struct decision_fields (mkDecision VNil "" "" 0) v.1.

Lemma dec_map_any d ctx : any_of d = (VMap ctx, false) -> dec_map d [] = Some ctx.
Proof.
  destruct d as [|b|l|l|l|m]; cbn [any_of]; try done.
  - by repeat case_match.
  - fold any_member. cbn [dec_map]. destruct (map_bad any_member m) as [r bad]. cbn [fst snd]. intros [= <- ->]. done.
Qed.
Lemma dec_any_of d v : any_of d = (v, false) -> dec_any d = Some v.
Proof. unfold dec_any. by intros ->. Qed.

Lemma evaluation_decoded ctx :
  plain (VMap ctx) = true -> Z.of_nat (String.length (api_body ctx)) <= max_body ->
  decode_evaluation (api_body ctx) = Some (mkEvaluation ctx).
Proof.
  intros Hp. destruct (plain_doc _ Hp) as (d & Ed & Hw & Ha). unfold api_body, marshal. cbn [doc_of mapM snd fst] in *.
  rewrite Ed. cbn [mbind option_bind mret option_ret default from_option id]. intros Hl. unfold decode_evaluation, decodeJSON.
  rewrite Decode_print; [|apply wf_members; [reflexivity | done | apply wf_nil] | exact Hl].
  cbn [mbind option_bind strict_struct dec_struct_with dec_strict zero_evaluation].
  change (field_of evaluation_fields (unquote (quote "context"))) with (Some (fun d r => do? m := dec_map d (rq_Context r) in Some (mkEvaluation m))).
  unfold zero_evaluation. cbn [rq_Context]. by rewrite (dec_map_any _ _ Ha).
Qed.

Lemma request_decoded key def ctx :
  plain (VMap ctx) = true -> plain def = true -> utf8_valid key = true ->
  proxy_request (proxy_body key def ctx) = Some (mkEvaluateRequest key def ctx).
Proof.
  intros Hp Hd Hk. destruct (plain_doc _ Hp) as (d & Ed & Hw & Ha). destruct (plain_doc _ Hd) as (d2 & Ed2 & Hw2 & Ha2).
  unfold proxy_body, marshal. cbn [doc_of mapM snd fst] in *. rewrite Ed, Ed2.
  cbn [mbind option_bind mret option_ret default from_option id]. unfold proxy_request. rewrite <- (sapp_nil_r (print _)).
  rewrite first_value_print; [|repeat (apply wf_members; [reflexivity | first [done | apply wf_enc_str]|]); apply wf_nil | done].
  cbn [mbind option_bind fst loose_struct dec_struct_with dec_members].
  field_at 2%nat. cbn [req_Context]. rewrite (dec_map_any _ _ Ha). cbn [mbind option_bind req_Key req_DefaultValue].
  field_at 1%nat. rewrite (dec_any_of _ _ Ha2). cbn [mbind option_bind req_Key req_DefaultValue req_Context].
  field_at 0%nat. cbn [dec_str req_Key req_DefaultValue req_Context mbind option_bind]. by rewrite unquote_quote.
Qed.

(** A decision whose texts are valid is read back from either answer. *)
Definition readable (d : Decision) : Prop :=
  plain (DValue d) = true /\ utf8_valid (Reason d) = true /\ utf8_valid (RuleID d) = true /\ in_int64 (Version d) = true.

(** A member that is a text, or the value, or the version. *)
Ltac read_text i := field_at i; cbn [dec_str enc_str mbind option_bind DValue Reason RuleID Version]; rewrite unquote_quote by done.
Ltac read_value i H := field_at i; rewrite (dec_any_of _ _ H); cbn [mbind option_bind DValue Reason RuleID Version].
Ltac read_version i := field_at i; cbn [dec_int DValue Reason RuleID Version]; rewrite parse_int_itoa by done; cbn [mbind option_bind].
Ltac wf_object := repeat (apply wf_members; [reflexivity | first [assumption | apply wf_enc_str | apply wf_itoa]|]); apply wf_nil.

Lemma proxy_decision_read e d : readable d -> read_decision (proxy_text e (PJson (Proxy.mkResponse 200 (Proxy.BDecision d)))) = Some d.
Proof.
  destruct d as [v rs id n]. intros (Hv & Hr & Hi & Hn). cbn [DValue Reason RuleID Version] in *.
  destruct (plain_doc _ Hv) as (dv & Ed & Hw & Ha). cbn [proxy_text Proxy.payload proxy_doc]. unfold enc_decision, omit_str, is_empty.
  cbn [DValue Reason RuleID Version]. rewrite Ed. unfold read_decision.
  destruct (String.eqb_spec id "") as [->|_]; cbn [mbind option_bind app]; (rewrite first_value_print; [|wf_object | done]);
    cbn [mbind option_bind fst loose_struct dec_struct_with dec_members].
  - read_value 0%nat Ha. read_text 1%nat. by read_version 3%nat.
  - read_value 0%nat Ha. read_text 1%nat. read_text 2%nat. by read_version 3%nat.
Qed.
Lemma api_decision_read {UT : UuidText} et he d :
  plain (DValue d) = true -> utf8_valid (Reason d) = true -> utf8_valid (RuleID d) = true ->
  read_decision (answer_text et he (HJson (writeJSON 200 (BDecision (decisionToAPI d))))) =
    Some (mkDecision (DValue d) (Reason d) (RuleID d) (wrap32 (Version d))).
Proof.
  destruct d as [v rs rid n]. cbn [DValue Reason RuleID Version]. intros Hv Hr Hi.
  destruct (plain_doc _ Hv) as (dv & Ed & Hw & Ha). cbn [answer_text payload writeJSON]. unfold body_text, body_doc, decision_doc, decisionToAPI, str_ptr, is_empty.
  cbn [wd_Value wd_Reason wd_RuleId wd_Version DValue Reason RuleID Version]. rewrite Ed. unfold read_decision, struct_doc, member, omit_ptr, enc_text, enc_num.
  assert (in_int64 (wrap32 n) = true) as Hn.
  { pose proof (wrap32_range n). unfold in_int64, int32_min, int32_max, int64_min, int64_max in *. lia. }
  destruct (String.eqb_spec rid "") as [->|_]; cbn [member mbind option_bind mapM mret option_ret id List.concat app];
    (rewrite first_value_print; [|wf_object | done]); cbn [mbind option_bind fst loose_struct dec_struct_with dec_members].
  - read_text 1%nat. read_value 0%nat Ha. by read_version 3%nat.
  - read_text 1%nat. read_text 2%nat. read_value 0%nat Ha. by read_version 3%nat.
Qed.

(** ** The decisions of a published flag *)

Section decisions.
Context {RX : RegexpLib} {CEL : CelLib} {TS : TsLib}.

Definition at_version (n : Z) (d : Decision) : Decision := mkDecision (DValue d) (Reason d) (RuleID d) n.

Lemma decodeValue_plain raw : plain_raw raw = true -> exists v, decodeValue raw = Some v /\ plain v = true.
Proof.
  unfold plain_raw, decodeValue. destruct (is_empty raw); [by exists VNil|]. destruct (unmarshal_any raw) as [v []]; [done|]. eauto.
Qed.

(** The decision of a tree that travels does not fail, is readable, and depends on
    the version in nothing else. *)
Lemma evaluated c ctx :
  wf_tree (IR c) = true -> plain_tree (IR c) = true ->
  exists d, plain (DValue d) = true /\ utf8_valid (Reason d) = true /\ utf8_valid (RuleID d) = true /\
    forall n, Evaluate (Some c) ctx n = Ok (at_version n d).
Proof.
  unfold wf_tree, plain_tree, Evaluate. intros Hw Hp. apply andb_true_iff in Hw as [_ Hw]. apply andb_true_iff in Hp as [Hd Hp].
  destruct (decodeValue_plain _ Hd) as (def & -> & Hdef). induction (rules_of (IR c)) as [|r rs IH]; cbn [eval_rules forallb] in *.
  - by exists (mkDecision def ReasonDefault "" 0).
  - apply andb_true_iff in Hw as [Hr Hw]. apply andb_true_iff in Hp as [Hpr Hp].
    unfold wf_rule in Hr. unfold plain_rule in Hpr. bsplit.
    destruct (match_ptr ctx (CELPrograms c) (When r)) as [[] [e|]]; [by exists (mkDecision def ReasonError (ID r) 0)| |by exists (mkDecision def ReasonError (ID r) 0)|auto].
    match goal with H : plain_raw (RuleValue r) = true |- _ => destruct (decodeValue_plain _ H) as (v & Ev & Hv) end.
    unfold Eval.serve. rewrite Ev. destruct (valueMatchesType v (TreeValueType (IR c))); [|by exists (mkDecision def ReasonTypeMismatch (ID r) 0)].
    exists (mkDecision v (reasonForRule r) (ID r) 0). split_and!; try done. cbn. unfold reasonForRule. by repeat case_match.
Qed.
End decisions.

(** ** The proxy and the API *)

Section agreement.
Context {RX : RegexpLib} {CEL : CelLib} {TS : TsLib} {UT : UuidText} {UL : UuidLaws} {PL : ParamLib} {PW : ParamLaws}.

(** The events of a run after its start that bring the client nothing new: a poll
    that fails, finds no snapshot or cannot be read, a stop, or the same answer. *)
Definition nothing_new (answer : poll_response) (e : event) : Prop := delivers e = false \/ e = EvTick answer.

Lemma delivered_same b l :
  Forall (nothing_new (Response 200 (Some b))) l -> fold_left delivered l (Some (snap_of_body b)) = Some (snap_of_body b).
Proof.
  induction 1 as [|e l [He| ->] _ IH]; [done| |exact IH]. cbn [fold_left].
  assert (delivered (Some (snap_of_body b)) e = Some (snap_of_body b)) as ->; [|exact IH].
  destruct e as [[|st [x|]]|[|st [x|]]| |]; try done; unfold delivered; cbn in He; try apply Z.eqb_neq in He; by repeat case_match.
Qed.

Lemma snap_Evaluate c c' key ctx : snap c = snap c' -> sdk_Evaluate c key ctx = sdk_Evaluate c' key ctx.
Proof. unfold sdk_Evaluate. by intros ->. Qed.

(** The client of a run in which only the first poll brought a snapshot. *)
Lemma run_snapshot slug api interval p b later p' :
  New slug api interval = Ok p -> api <> "" -> slug <> "" -> runs p (Response 200 (Some b)) later p' ->
  Forall (nothing_new (Response 200 (Some b))) later ->
  exists c, evaluator p' = Some c /\ forall c0, snap c = snap (pollOnce c0 (Response 200 (Some b))).1.
Proof.
  intros Hn Ha Hsl Hr Hl. destruct Hr as [c c' Hc Hns Hst|Hnone _].
  - exists c'. split; [done|]. intros c0. apply (New_client _ _ _ _ _ Hn), NewClient_fresh in Hc as [H0 _].
    rewrite (steps_delivered _ _ _ Hst). cbn [fold_left delivered]. by rewrite delivered_same.
  - exfalso. unfold New, is_empty in Hn. apply String.eqb_neq in Ha, Hsl. rewrite Ha, Hsl in Hn. cbn [negb andb] in Hn.
    destruct (NewClient _); [|done]. injection Hn as <-. discriminate Hnone.
Qed.

(** A flag version that is stored and travels. *)
Lemma stored_evaluated db project key flag v ctx :
  server_ok db -> can_travel project db -> GetFlagByKey project key db = Ok flag -> GetLatestFlagVersion (F_ID flag) db = Ok v ->
  utf8_valid key = true /\
  exists c d, Compile (V_Strategy v) (V_Compiled v) = Ok c /\
    plain (DValue d) = true /\ utf8_valid (Reason d) = true /\ utf8_valid (RuleID d) = true /\
    forall n, Evaluate (Some c) ctx n = Ok (at_version n d).
Proof.
  intros Hs Htr Hf Hv. destruct (latest_row _ _ _ Hv) as (r & -> & Hin). destruct (stored_tree r (proj2 Hs r Hin)) as (c & Hc & Ht).
  destruct (Htr key (IR c)) as [Hk Hpl]; [unfold published_tree; by rewrite Hf, Hv|]. split; [done|].
  destruct (evaluated c ctx) as (d & H); [by apply dec_tree_wf in Ht | done|]. exists c, d. by split.
Qed.

(** C5. What the proxy serves is what the API serves.  A snapshot is compiled by a
    request to the API; a proxy of the project starts, its first poll gets the
    API's answer, and nothing newer arrives.  Then an evaluation of a flag of the
    snapshot, as bytes to the proxy's listener, and the same evaluation to the API,
    as long as the flag's latest version is still the one of the snapshot, are both
    answered with 200, and the two bodies are read as decisions with the same reason
    and rule, and with the same value unless it is null and the caller sent a
    default, which the proxy then puts in its place.  They differ in the version: the
    snapshot's for the proxy and the flag's for the API.  As for a poll of the SDK,
    the published flags of the project have valid UTF-8 keys, numbers in the range of
    a float64 whose shortest form reads back and percentages from 0 to 100; the names need no escaping, the context and the default are JSON
    values with such numbers, and the request's body is within the API's cap. *)
Theorem proxy_agrees_with_api fuel actor slug body db resp db' ds proj et he vsn err perr api interval p answer later p' db2 key flag v ctx def :
  NewEnv_ok = true -> server_ok db -> plain_seg slug = true -> GetProjectBySlug slug db = Ok proj ->
  can_travel (P_ID proj) db -> snapshots_in_range db' ->
  exec (serve fuel (mkAPI true) (sent actor body (ReqCompileSnapshot slug None))) db resp db' -> 200 <= http_status resp < 300 ->
  run ds (serve fuel (mkAPI true) (poll_request slug)) db' = (Some answer, db') ->
  New slug api interval = Ok p -> api <> "" -> runs p (poll_answer et he answer) later p' ->
  Forall (nothing_new (poll_answer et he answer)) later ->
  GetFlagByKey (P_ID proj) key db = Ok flag -> GetLatestFlagVersion (F_ID flag) db = Ok v ->
  server_ok db2 -> GetProjectBySlug slug db2 = Ok proj -> GetFlagByKey (P_ID proj) key db2 = Ok flag ->
  GetLatestFlagVersion (F_ID flag) db2 = Ok v ->
  plain_seg key = true -> plain (VMap ctx) = true -> plain def = true -> Z.of_nat (String.length (api_body ctx)) <= max_body ->
  exists d sn, GetLatestSnapshot (P_ID proj) db' = Ok sn /\
    (let a := HJson (writeJSON 200 (BDecision (decisionToAPI d))) in
     run ds (serve fuel (mkAPI true) (sent actor (api_body ctx) (ReqEvaluate slug key None))) db2 = (Some a, db2) /\
     read_decision (answer_text et he a) = Some (at_version (wrap32 (V_Version v)) d)) /\
    (let a := proxy_serve vsn err p' (evaluate_http (proxy_body key def ctx)) in
     proxy_status a = 200 /\
     read_decision (proxy_text perr a) =
       Some (at_version (wrap32 (N_Version sn)) (if is_nil (DValue d) then mkDecision def (Reason d) (RuleID d) 0 else d))).
Proof.
  intros Henv Hs Hslug Hp Htr Hr H Hsucc Hpoll Hnew Hapi Hruns Hlater Hf Hv Hs2 Hp2 Hf2 Hv2 Hkey Hctx Hdef Hlen.
  destruct (poll_reads_snapshot _ _ _ _ _ _ _ ds _ et he Henv Hs Hslug Hp Htr Hr H Hsucc) as (answer' & b & Hpoll' & Hb & Hdec).
  destruct Hdec as ((sn & Hsn & Hver) & Hdec). rewrite Hpoll in Hpoll'. injection Hpoll' as <-. rewrite Hb in *.
  destruct (stored_evaluated _ _ _ _ _ ctx Hs Htr Hf Hv) as (Hutf & c & d & Hc & Hpv & Hpr & Hpi & Hev).
  exists (at_version (V_Version v) d), sn. split; [done|]. split.
  - rewrite serve_sent by done. cbn [arrived handle]. rewrite evaluation_decoded by done. rewrite run_pmap, (evaluate_run _ _ _ _ _ Hs2).
    rewrite Hp2. cbn [rbind]. rewrite Hf2. cbn [rbind]. rewrite Hv2, Hc, Hev. split; [done|]. by rewrite api_decision_read.
  - destruct (run_snapshot _ _ _ _ _ _ _ Hnew Hapi ltac:(by intros ->) Hruns Hlater) as (cl & Ecl & Hcl).
    unfold proxy_serve, evaluate_http. cbn [r_Path r_Method String.eqb Ascii.eqb Bool.eqb].
    change (route routes "POST" "/v1/evaluate") with (ToHandler (mkPattern "POST" [PLit "v1"; PLit "evaluate"]) ToEvaluate []).
    cbn [proxy_handler r_Body]. rewrite request_decoded by done. unfold handleEvaluate. rewrite Ecl. cbn [req_Key req_Context req_DefaultValue ev_Evaluate Client_Evaluator].
    assert (is_empty key = false) as -> by (unfold is_empty; by destruct key).
    specialize (Hdec cl) as [_ Hdec]. specialize (Hdec key ctx). rewrite Hf in Hdec. cbn [rbind] in Hdec. rewrite Hv in Hdec.
    destruct Hdec as (c1 & Hc1 & Hd). rewrite Hc in Hc1. injection Hc1 as <-. rewrite Hev in Hd.
    rewrite (snap_Evaluate _ _ key ctx (Hcl cl)), Hd, Hver. cbn [DValue at_version].
    assert (in_int64 (wrap32 (N_Version sn)) = true) as Hn.
    { pose proof (wrap32_range (N_Version sn)). unfold in_int64, int32_min, int32_max, int64_min, int64_max in *. lia. }
    split; [done|]. clear - Hpv Hpr Hpi Hdef Hn. destruct d as [dv rs rid k]. cbn [DValue Reason RuleID at_version] in *.
    destruct dv; cbn [is_nil andb]; try (apply proxy_decision_read; by split_and!).
    destruct def; cbn [is_nil negb]; apply proxy_decision_read; by split_and!.
Qed.
End agreement.

Module EdgeDemo.
Import Demo HandlersDemo SqliteTextDemo RpcDemo WireDemo SdkDemo ProxyDemo HttpDemo.

(** The demo's snapshot, polled by a proxy whose next poll finds no snapshot. *)
Definition first_answer : http_response := default HRedirect (run (demo_draws 9) (Http.serve 1 api (poll_request "acme")) db4).1.
Definition first_poll : poll_response := poll_answer demo_texts demo_health first_answer.
Definition polled (r : poll_response) : Proxy Sdk.Client :=
  mkProxy "acme" "http://api" (Some (after [EvStart r; EvTick (Response 404 None)] demo_client)).
Definition edge_proxy : Proxy Sdk.Client := polled first_poll.
Definition us_flag : Flag := match GetFlagByKey 1 "us" db3 with Ok f => f | Err _ => mkFlag 0 0 "" "" "" "" "" 0 0 end.
Definition us_version : FlagVersion :=
  match GetLatestFlagVersion (F_ID us_flag) db3 with Ok v => v | Err _ => mkFlagVersion 0 0 0 "" "" "" "" 0 end.

Lemma polled_runs r : loops (Start demo_client r).1 = 1%nat -> runs demo_proxy r [EvTick (Response 404 None)] (polled r).
Proof.
  intros Hl. apply (runs_client demo_proxy r _ demo_client); [reflexivity | by repeat constructor|].
  eapply steps_cons; [apply step_start|]. eapply steps_cons; [apply step_tick; rewrite Hl; lia | apply steps_nil].
Qed.
Lemma edge_runs : runs demo_proxy first_poll [EvTick (Response 404 None)] edge_proxy.
Proof. apply polled_runs. vm_compute. reflexivity. Qed.
Lemma snapshot_server : rtc rest_step (mkServer empty_db []) (mkServer db4 []).
Proof. etransitivity; [exact demo_server | eapply (demo_exec 4 compile); vm_compute; reflexivity]. Qed.
Lemma proxy_agrees_with_api_witness :
  proxy_status (proxy_serve "dev" "error" edge_proxy (evaluate_http (proxy_body "us" VNil demo_ctx))) = 200.
Proof.
  destruct (proxy_agrees_with_api 1 "ops" "acme" "" db3 (answered 4 compile_bytes db3) db4 (demo_draws 9) acme demo_texts demo_health
    "dev" "error" "error" "http://api" 0 demo_proxy first_answer [EvTick (Response 404 None)] edge_proxy db4 "us" us_flag us_version demo_ctx VNil)
    as (d & sn & _ & _ & H & _).
  - reflexivity.
  - exact (reached_ok db3 demo_server).
  - reflexivity.
  - vm_compute. reflexivity.
  - exact demo_travels.
  - repeat constructor; vm_compute; congruence.
  - exact (served_exec 4 compile_bytes db3 _ db4 compile_arrives).
  - vm_compute. split; congruence.
  - vm_compute. reflexivity.
  - reflexivity.
  - discriminate.
  - exact edge_runs.
  - constructor; [by left | constructor].
  - vm_compute. reflexivity.
  - vm_compute. reflexivity.
  - exact (reached_ok db4 snapshot_server).
  - vm_compute. reflexivity.
  - vm_compute. reflexivity.
  - vm_compute. reflexivity.
  - reflexivity.
  - vm_compute. reflexivity.
  - reflexivity.
  - vm_compute. congruence.
  - exact H.
Defined.
End EdgeDemo.
