(* ===== verification/Connect.v ===== *)
(** The Connect listener and the clients of it: the generated service handlers and
    clients ([internal/gen/proto/falseflag/v1/falseflagv1connect]), [rpc.Mount]
    ([internal/server/rpc/server.go]), [rpcRoutes] ([internal/server/server.go]) and
    the client bundle of the operator and the MCP server
    ([internal/operator/clientapi/client.go]).

    [rpc_serve] goes from an HTTP request to the program of the RPC it reaches;
    [client_call] from an RPC to the HTTP request that is sent.  connect-go and the
    protobuf codecs are parameters of the model ([ConnectLib]): the headers and the
    body that a unary call sends, and the message that a unary handler passes on.
    The listener has a store. *)
From stdpp Require Import base list strings numbers gmap relations.
From Stdlib Require Import Ascii String ZArith Lia.
From S2P Require Import Prelude Text Literal Json Float64 GoTime GoValue Ir Compile Rollout Eval Trace Segments Db Store SqliteText Api Handlers Rpc Mux Http.

(** ** Names ([*.connect.go]) *)

Definition HealthServiceName : string := "falseflag.v1.HealthService".
Definition HealthServiceCheckProcedure : string := "/falseflag.v1.HealthService/Check".
Definition ProjectsServiceName : string := "falseflag.v1.ProjectsService".
Definition ProjectsServiceListProjectsProcedure : string := "/falseflag.v1.ProjectsService/ListProjects".
Definition ProjectsServiceGetProjectProcedure : string := "/falseflag.v1.ProjectsService/GetProject".
Definition ProjectsServiceCreateProjectProcedure : string := "/falseflag.v1.ProjectsService/CreateProject".
Definition EnvironmentsServiceName : string := "falseflag.v1.EnvironmentsService".
Definition EnvironmentsServiceListEnvironmentsProcedure : string := "/falseflag.v1.EnvironmentsService/ListEnvironments".
Definition EnvironmentsServiceGetEnvironmentProcedure : string := "/falseflag.v1.EnvironmentsService/GetEnvironment".
Definition EnvironmentsServiceCreateEnvironmentProcedure : string := "/falseflag.v1.EnvironmentsService/CreateEnvironment".
Definition FlagsServiceName : string := "falseflag.v1.FlagsService".
Definition FlagsServiceListFlagsProcedure : string := "/falseflag.v1.FlagsService/ListFlags".
Definition FlagsServiceGetFlagProcedure : string := "/falseflag.v1.FlagsService/GetFlag".
Definition FlagsServiceCreateFlagProcedure : string := "/falseflag.v1.FlagsService/CreateFlag".
Definition FlagsServicePublishFlagVersionProcedure : string := "/falseflag.v1.FlagsService/PublishFlagVersion".
Definition FlagsServiceListFlagVersionsProcedure : string := "/falseflag.v1.FlagsService/ListFlagVersions".
Definition SegmentsServiceName : string := "falseflag.v1.SegmentsService".
Definition SegmentsServiceListSegmentsProcedure : string := "/falseflag.v1.SegmentsService/ListSegments".
Definition SegmentsServiceGetSegmentProcedure : string := "/falseflag.v1.SegmentsService/GetSegment".
Definition SegmentsServiceCreateSegmentProcedure : string := "/falseflag.v1.SegmentsService/CreateSegment".
Definition SegmentsServiceUpdateSegmentProcedure : string := "/falseflag.v1.SegmentsService/UpdateSegment".
Definition SnapshotsServiceName : string := "falseflag.v1.SnapshotsService".
Definition SnapshotsServiceListSnapshotsProcedure : string := "/falseflag.v1.SnapshotsService/ListSnapshots".
Definition SnapshotsServiceGetSnapshotProcedure : string := "/falseflag.v1.SnapshotsService/GetSnapshot".
Definition SnapshotsServiceGetLatestSnapshotProcedure : string := "/falseflag.v1.SnapshotsService/GetLatestSnapshot".
Definition SnapshotsServiceCompileSnapshotProcedure : string := "/falseflag.v1.SnapshotsService/CompileSnapshot".
Definition EvaluationServiceName : string := "falseflag.v1.EvaluationService".
Definition EvaluationServiceEvaluateProcedure : string := "/falseflag.v1.EvaluationService/Evaluate".
Definition EvaluationServiceEvaluateWithTraceProcedure : string := "/falseflag.v1.EvaluationService/EvaluateWithTrace".
Definition AuditServiceName : string := "falseflag.v1.AuditService".
Definition AuditServiceListAuditEventsProcedure : string := "/falseflag.v1.AuditService/ListAuditEvents".


(** ** Messages and connect-go *)

Inductive rpc_method : Type :=
| Rpc_Check
| Rpc_ListProjects | Rpc_GetProject | Rpc_CreateProject
| Rpc_ListEnvironments | Rpc_GetEnvironment | Rpc_CreateEnvironment
| Rpc_ListFlags | Rpc_GetFlag | Rpc_CreateFlag | Rpc_PublishFlagVersion | Rpc_ListFlagVersions
| Rpc_ListSegments | Rpc_GetSegment | Rpc_CreateSegment | Rpc_UpdateSegment
| Rpc_ListSnapshots | Rpc_GetSnapshot | Rpc_GetLatestSnapshot | Rpc_CompileSnapshot
| Rpc_Evaluate | Rpc_EvaluateWithTrace
| Rpc_ListAuditEvents.
#[export] Instance rpc_method_eq : EqDecision rpc_method.
Proof. solve_decision. Defined.
Definition procedure (m : rpc_method) : string :=
  match m with
  | Rpc_Check => HealthServiceCheckProcedure
  | Rpc_ListProjects => ProjectsServiceListProjectsProcedure
  | Rpc_GetProject => ProjectsServiceGetProjectProcedure
  | Rpc_CreateProject => ProjectsServiceCreateProjectProcedure
  | Rpc_ListEnvironments => EnvironmentsServiceListEnvironmentsProcedure
  | Rpc_GetEnvironment => EnvironmentsServiceGetEnvironmentProcedure
  | Rpc_CreateEnvironment => EnvironmentsServiceCreateEnvironmentProcedure
  | Rpc_ListFlags => FlagsServiceListFlagsProcedure
  | Rpc_GetFlag => FlagsServiceGetFlagProcedure
  | Rpc_CreateFlag => FlagsServiceCreateFlagProcedure
  | Rpc_PublishFlagVersion => FlagsServicePublishFlagVersionProcedure
  | Rpc_ListFlagVersions => FlagsServiceListFlagVersionsProcedure
  | Rpc_ListSegments => SegmentsServiceListSegmentsProcedure
  | Rpc_GetSegment => SegmentsServiceGetSegmentProcedure
  | Rpc_CreateSegment => SegmentsServiceCreateSegmentProcedure
  | Rpc_UpdateSegment => SegmentsServiceUpdateSegmentProcedure
  | Rpc_ListSnapshots => SnapshotsServiceListSnapshotsProcedure
  | Rpc_GetSnapshot => SnapshotsServiceGetSnapshotProcedure
  | Rpc_GetLatestSnapshot => SnapshotsServiceGetLatestSnapshotProcedure
  | Rpc_CompileSnapshot => SnapshotsServiceCompileSnapshotProcedure
  | Rpc_Evaluate => EvaluationServiceEvaluateProcedure
  | Rpc_EvaluateWithTrace => EvaluationServiceEvaluateWithTraceProcedure
  | Rpc_ListAuditEvents => AuditServiceListAuditEventsProcedure
  end.

Section messages.
Context {SP : StructPb}.
(** A request message: that of the health service, or one of the others'. *)
Inductive message : Type := MsgCheck | MsgCall (q : rpc_request).
Definition method_of (m : message) : rpc_method :=
  match m with
  | MsgCheck => Rpc_Check
  | MsgCall (RpcListProjects) => Rpc_ListProjects
  | MsgCall (RpcGetProject _) => Rpc_GetProject
  | MsgCall (RpcCreateProject _ _ _) => Rpc_CreateProject
  | MsgCall (RpcListEnvironments _) => Rpc_ListEnvironments
  | MsgCall (RpcGetEnvironment _ _) => Rpc_GetEnvironment
  | MsgCall (RpcCreateEnvironment _ _ _) => Rpc_CreateEnvironment
  | MsgCall (RpcListSegments _) => Rpc_ListSegments
  | MsgCall (RpcGetSegment _ _) => Rpc_GetSegment
  | MsgCall (RpcCreateSegment _ _ _ _ _) => Rpc_CreateSegment
  | MsgCall (RpcUpdateSegment _ _ _ _ _) => Rpc_UpdateSegment
  | MsgCall (RpcListFlags _) => Rpc_ListFlags
  | MsgCall (RpcGetFlag _ _) => Rpc_GetFlag
  | MsgCall (RpcCreateFlag _ _ _ _ _ _) => Rpc_CreateFlag
  | MsgCall (RpcPublish _ _ _ _ _ _) => Rpc_PublishFlagVersion
  | MsgCall (RpcListFlagVersions _ _) => Rpc_ListFlagVersions
  | MsgCall (RpcEvaluate _ _ _) => Rpc_Evaluate
  | MsgCall (RpcEvaluateTrace _ _ _) => Rpc_EvaluateWithTrace
  | MsgCall (RpcListSnapshots _ _) => Rpc_ListSnapshots
  | MsgCall (RpcGetSnapshot _ _) => Rpc_GetSnapshot
  | MsgCall (RpcGetLatestSnapshot _) => Rpc_GetLatestSnapshot
  | MsgCall (RpcCompileSnapshot _ _) => Rpc_CompileSnapshot
  | MsgCall (RpcListAudit _ _ _ _ _ _) => Rpc_ListAuditEvents
  end.

(** The model's bound on the segment references of a publish is no part of the
    message; the server's replaces it. *)
Definition with_fuel (fuel : nat) (q : rpc_request) : rpc_request :=
  match q with RpcPublish _ slug key s src text => RpcPublish fuel slug key s src text | q => q end.
Definition no_fuel (m : message) : message := match m with MsgCheck => MsgCheck | MsgCall q => MsgCall (with_fuel 0 q) end.

(** The protocol's headers with the body ([Payload]) of a unary call, and the
    message that the handler of an RPC passes to its implementation for an HTTP
    method and a payload; [None] when it answers by itself, with an error. *)
Class ConnectLib : Type := {
  Payload : Type;
  call_payload : message -> Payload;
  admits : rpc_method -> string -> Payload -> option message
}.
(** A handler admits what a client of the same method sends, and passes on only
    messages of its method. *)
Class ConnectLaws {CO : ConnectLib} : Prop := {
  admits_call : forall m, admits (method_of m) "POST" (call_payload m) = Some (no_fuel m);
  admits_typed : forall mt meth p m, admits mt meth p = Some m -> method_of m = mt
}.
End messages.
Arguments message : clear implicits.
Arguments message {SP}.

(** [strings.TrimRight(s, cutset)] for one character. *)
Fixpoint TrimRight (s : string) (c : ascii) : string :=
  match s with
  | EmptyString => EmptyString
  | String d r => match TrimRight r c with EmptyString => if Ascii.eqb d c then "" else str1 d | r' => String d r' end
  end.

(** ** The clients *)

Section clients.
Context {SP : StructPb} {CO : ConnectLib}.

(** An interceptor acts on the X-Actor header of a call. *)
Definition interceptor : Type := option string -> option string.
Record connect_client : Type := NewClient { cc_URL : string; cc_Options : list interceptor }.
Record unary_call : Type := mkCall { u_URL : string; u_Actor : option string; u_Payload : Payload }.
Definition CallUnary (c : connect_client) (m : message) : unary_call :=
  mkCall (cc_URL c) (fold_left (fun h i => i h) (cc_Options c) None) (call_payload m).

Record healthServiceClient : Type := mkHealthClient { c_check : connect_client }.
Definition NewHealthServiceClient (baseURL : string) (opts : list interceptor) : healthServiceClient :=
  let baseURL := TrimRight baseURL slash in
  mkHealthClient
    (NewClient (baseURL +:+ HealthServiceCheckProcedure) opts).
Definition healthServiceClient_Check (c : healthServiceClient) : unary_call := CallUnary (c_check c) MsgCheck.

Record projectsServiceClient : Type := mkProjectsClient { c_listProjects : connect_client; c_getProject : connect_client; c_createProject : connect_client }.
Definition NewProjectsServiceClient (baseURL : string) (opts : list interceptor) : projectsServiceClient :=
  let baseURL := TrimRight baseURL slash in
  mkProjectsClient
    (NewClient (baseURL +:+ ProjectsServiceListProjectsProcedure) opts)
    (NewClient (baseURL +:+ ProjectsServiceGetProjectProcedure) opts)
    (NewClient (baseURL +:+ ProjectsServiceCreateProjectProcedure) opts).
Definition projectsServiceClient_ListProjects (c : projectsServiceClient) : unary_call :=
  CallUnary (c_listProjects c) (MsgCall (RpcListProjects)).
Definition projectsServiceClient_GetProject (c : projectsServiceClient) slug : unary_call :=
  CallUnary (c_getProject c) (MsgCall (RpcGetProject slug)).
Definition projectsServiceClient_CreateProject (c : projectsServiceClient) slug displayName strategy : unary_call :=
  CallUnary (c_createProject c) (MsgCall (RpcCreateProject slug displayName strategy)).

Record environmentsServiceClient : Type := mkEnvironmentsClient { c_listEnvironments : connect_client; c_getEnvironment : connect_client; c_createEnvironment : connect_client }.
Definition NewEnvironmentsServiceClient (baseURL : string) (opts : list interceptor) : environmentsServiceClient :=
  let baseURL := TrimRight baseURL slash in
  mkEnvironmentsClient
    (NewClient (baseURL +:+ EnvironmentsServiceListEnvironmentsProcedure) opts)
    (NewClient (baseURL +:+ EnvironmentsServiceGetEnvironmentProcedure) opts)
    (NewClient (baseURL +:+ EnvironmentsServiceCreateEnvironmentProcedure) opts).
Definition environmentsServiceClient_ListEnvironments (c : environmentsServiceClient) projectSlug : unary_call :=
  CallUnary (c_listEnvironments c) (MsgCall (RpcListEnvironments projectSlug)).
Definition environmentsServiceClient_GetEnvironment (c : environmentsServiceClient) projectSlug envSlug : unary_call :=
  CallUnary (c_getEnvironment c) (MsgCall (RpcGetEnvironment projectSlug envSlug)).
Definition environmentsServiceClient_CreateEnvironment (c : environmentsServiceClient) projectSlug slug name : unary_call :=
  CallUnary (c_createEnvironment c) (MsgCall (RpcCreateEnvironment projectSlug slug name)).

Record flagsServiceClient : Type := mkFlagsClient { c_listFlags : connect_client; c_getFlag : connect_client; c_createFlag : connect_client; c_publishFlagVersion : connect_client; c_listFlagVersions : connect_client }.
Definition NewFlagsServiceClient (baseURL : string) (opts : list interceptor) : flagsServiceClient :=
  let baseURL := TrimRight baseURL slash in
  mkFlagsClient
    (NewClient (baseURL +:+ FlagsServiceListFlagsProcedure) opts)
    (NewClient (baseURL +:+ FlagsServiceGetFlagProcedure) opts)
    (NewClient (baseURL +:+ FlagsServiceCreateFlagProcedure) opts)
    (NewClient (baseURL +:+ FlagsServicePublishFlagVersionProcedure) opts)
    (NewClient (baseURL +:+ FlagsServiceListFlagVersionsProcedure) opts).
Definition flagsServiceClient_ListFlags (c : flagsServiceClient) projectSlug : unary_call :=
  CallUnary (c_listFlags c) (MsgCall (RpcListFlags projectSlug)).
Definition flagsServiceClient_GetFlag (c : flagsServiceClient) projectSlug key : unary_call :=
  CallUnary (c_getFlag c) (MsgCall (RpcGetFlag projectSlug key)).
Definition flagsServiceClient_CreateFlag (c : flagsServiceClient) projectSlug key name description valueType defaultValue : unary_call :=
  CallUnary (c_createFlag c) (MsgCall (RpcCreateFlag projectSlug key name description valueType defaultValue)).
Definition flagsServiceClient_PublishFlagVersion (c : flagsServiceClient) fuel projectSlug key strategy source sourceText : unary_call :=
  CallUnary (c_publishFlagVersion c) (MsgCall (RpcPublish fuel projectSlug key strategy source sourceText)).
Definition flagsServiceClient_ListFlagVersions (c : flagsServiceClient) projectSlug key : unary_call :=
  CallUnary (c_listFlagVersions c) (MsgCall (RpcListFlagVersions projectSlug key)).

Record segmentsServiceClient : Type := mkSegmentsClient { c_listSegments : connect_client; c_getSegment : connect_client; c_createSegment : connect_client; c_updateSegment : connect_client }.
Definition NewSegmentsServiceClient (baseURL : string) (opts : list interceptor) : segmentsServiceClient :=
  let baseURL := TrimRight baseURL slash in
  mkSegmentsClient
    (NewClient (baseURL +:+ SegmentsServiceListSegmentsProcedure) opts)
    (NewClient (baseURL +:+ SegmentsServiceGetSegmentProcedure) opts)
    (NewClient (baseURL +:+ SegmentsServiceCreateSegmentProcedure) opts)
    (NewClient (baseURL +:+ SegmentsServiceUpdateSegmentProcedure) opts).
Definition segmentsServiceClient_ListSegments (c : segmentsServiceClient) projectSlug : unary_call :=
  CallUnary (c_listSegments c) (MsgCall (RpcListSegments projectSlug)).
Definition segmentsServiceClient_GetSegment (c : segmentsServiceClient) projectSlug segKey : unary_call :=
  CallUnary (c_getSegment c) (MsgCall (RpcGetSegment projectSlug segKey)).
Definition segmentsServiceClient_CreateSegment (c : segmentsServiceClient) projectSlug key name description predicate : unary_call :=
  CallUnary (c_createSegment c) (MsgCall (RpcCreateSegment projectSlug key name description predicate)).
Definition segmentsServiceClient_UpdateSegment (c : segmentsServiceClient) projectSlug segKey name description predicate : unary_call :=
  CallUnary (c_updateSegment c) (MsgCall (RpcUpdateSegment projectSlug segKey name description predicate)).

Record snapshotsServiceClient : Type := mkSnapshotsClient { c_listSnapshots : connect_client; c_getSnapshot : connect_client; c_getLatestSnapshot : connect_client; c_compileSnapshot : connect_client }.
Definition NewSnapshotsServiceClient (baseURL : string) (opts : list interceptor) : snapshotsServiceClient :=
  let baseURL := TrimRight baseURL slash in
  mkSnapshotsClient
    (NewClient (baseURL +:+ SnapshotsServiceListSnapshotsProcedure) opts)
    (NewClient (baseURL +:+ SnapshotsServiceGetSnapshotProcedure) opts)
    (NewClient (baseURL +:+ SnapshotsServiceGetLatestSnapshotProcedure) opts)
    (NewClient (baseURL +:+ SnapshotsServiceCompileSnapshotProcedure) opts).
Definition snapshotsServiceClient_ListSnapshots (c : snapshotsServiceClient) projectSlug limit : unary_call :=
  CallUnary (c_listSnapshots c) (MsgCall (RpcListSnapshots projectSlug limit)).
Definition snapshotsServiceClient_GetSnapshot (c : snapshotsServiceClient) projectSlug id : unary_call :=
  CallUnary (c_getSnapshot c) (MsgCall (RpcGetSnapshot projectSlug id)).
Definition snapshotsServiceClient_GetLatestSnapshot (c : snapshotsServiceClient) projectSlug : unary_call :=
  CallUnary (c_getLatestSnapshot c) (MsgCall (RpcGetLatestSnapshot projectSlug)).
Definition snapshotsServiceClient_CompileSnapshot (c : snapshotsServiceClient) projectSlug environmentSlug : unary_call :=
  CallUnary (c_compileSnapshot c) (MsgCall (RpcCompileSnapshot projectSlug environmentSlug)).

Record evaluationServiceClient : Type := mkEvaluationClient { c_evaluate : connect_client; c_evaluateWithTrace : connect_client }.
Definition NewEvaluationServiceClient (baseURL : string) (opts : list interceptor) : evaluationServiceClient :=
  let baseURL := TrimRight baseURL slash in
  mkEvaluationClient
    (NewClient (baseURL +:+ EvaluationServiceEvaluateProcedure) opts)
    (NewClient (baseURL +:+ EvaluationServiceEvaluateWithTraceProcedure) opts).
Definition evaluationServiceClient_Evaluate (c : evaluationServiceClient) projectSlug key ctx : unary_call :=
  CallUnary (c_evaluate c) (MsgCall (RpcEvaluate projectSlug key ctx)).
Definition evaluationServiceClient_EvaluateWithTrace (c : evaluationServiceClient) projectSlug key ctx : unary_call :=
  CallUnary (c_evaluateWithTrace c) (MsgCall (RpcEvaluateTrace projectSlug key ctx)).

Record auditServiceClient : Type := mkAuditClient { c_listAuditEvents : connect_client }.
Definition NewAuditServiceClient (baseURL : string) (opts : list interceptor) : auditServiceClient :=
  let baseURL := TrimRight baseURL slash in
  mkAuditClient
    (NewClient (baseURL +:+ AuditServiceListAuditEventsProcedure) opts).
Definition auditServiceClient_ListAuditEvents (c : auditServiceClient) projectSlug limit action who from to : unary_call :=
  CallUnary (c_listAuditEvents c) (MsgCall (RpcListAudit projectSlug limit action who from to)).

(** [clientapi]. *)
Record Client : Type := mkClient {
  cl_Projects : projectsServiceClient; cl_Environments : environmentsServiceClient; cl_Flags : flagsServiceClient;
  cl_Segments : segmentsServiceClient; cl_Snapshots : snapshotsServiceClient; cl_Evaluation : evaluationServiceClient;
  cl_Audit : auditServiceClient
}.
Definition actorInterceptor (actor : string) : interceptor := fun header => if String.eqb actor "" then header else Some actor.
Definition clientapi_New (baseURL actor : string) : Client :=
  let opts := [actorInterceptor actor] in
  mkClient (NewProjectsServiceClient baseURL opts) (NewEnvironmentsServiceClient baseURL opts) (NewFlagsServiceClient baseURL opts)
    (NewSegmentsServiceClient baseURL opts) (NewSnapshotsServiceClient baseURL opts) (NewEvaluationServiceClient baseURL opts)
    (NewAuditServiceClient baseURL opts).

(** The call a consumer makes for a request. *)
Definition client_call (c : Client) (q : rpc_request) : unary_call :=
  match q with
  | RpcListProjects => projectsServiceClient_ListProjects (cl_Projects c)
  | RpcGetProject slug => projectsServiceClient_GetProject (cl_Projects c) slug
  | RpcCreateProject slug displayName strategy => projectsServiceClient_CreateProject (cl_Projects c) slug displayName strategy
  | RpcListEnvironments projectSlug => environmentsServiceClient_ListEnvironments (cl_Environments c) projectSlug
  | RpcGetEnvironment projectSlug envSlug => environmentsServiceClient_GetEnvironment (cl_Environments c) projectSlug envSlug
  | RpcCreateEnvironment projectSlug slug name => environmentsServiceClient_CreateEnvironment (cl_Environments c) projectSlug slug name
  | RpcListSegments projectSlug => segmentsServiceClient_ListSegments (cl_Segments c) projectSlug
  | RpcGetSegment projectSlug segKey => segmentsServiceClient_GetSegment (cl_Segments c) projectSlug segKey
  | RpcCreateSegment projectSlug key name description predicate => segmentsServiceClient_CreateSegment (cl_Segments c) projectSlug key name description predicate
  | RpcUpdateSegment projectSlug segKey name description predicate => segmentsServiceClient_UpdateSegment (cl_Segments c) projectSlug segKey name description predicate
  | RpcListFlags projectSlug => flagsServiceClient_ListFlags (cl_Flags c) projectSlug
  | RpcGetFlag projectSlug key => flagsServiceClient_GetFlag (cl_Flags c) projectSlug key
  | RpcCreateFlag projectSlug key name description valueType defaultValue => flagsServiceClient_CreateFlag (cl_Flags c) projectSlug key name description valueType defaultValue
  | RpcPublish fuel projectSlug key strategy source sourceText => flagsServiceClient_PublishFlagVersion (cl_Flags c) fuel projectSlug key strategy source sourceText
  | RpcListFlagVersions projectSlug key => flagsServiceClient_ListFlagVersions (cl_Flags c) projectSlug key
  | RpcEvaluate projectSlug key ctx => evaluationServiceClient_Evaluate (cl_Evaluation c) projectSlug key ctx
  | RpcEvaluateTrace projectSlug key ctx => evaluationServiceClient_EvaluateWithTrace (cl_Evaluation c) projectSlug key ctx
  | RpcListSnapshots projectSlug limit => snapshotsServiceClient_ListSnapshots (cl_Snapshots c) projectSlug limit
  | RpcGetSnapshot projectSlug id => snapshotsServiceClient_GetSnapshot (cl_Snapshots c) projectSlug id
  | RpcGetLatestSnapshot projectSlug => snapshotsServiceClient_GetLatestSnapshot (cl_Snapshots c) projectSlug
  | RpcCompileSnapshot projectSlug environmentSlug => snapshotsServiceClient_CompileSnapshot (cl_Snapshots c) projectSlug environmentSlug
  | RpcListAudit projectSlug limit action who from to => auditServiceClient_ListAuditEvents (cl_Audit c) projectSlug limit action who from to
  end.
End clients.

(** ** The listener *)

Section listener.
Context {RX : RegexpLib} {CEL : CelLib} {TS : TsLib} {SP : StructPb} {CO : ConnectLib}.

Inductive rpc_answer : Type :=
| CAnswer (r : rpc_response)
| CServing                       (* the health service's answer *)
| CProbe (probe : string)        (* the liveness probe *)
| CRefused                       (* connect-go's own answer *)
| CText (status : Z)
| CRedirected.
Record rpc_http : Type := mkRpcHttp {
  x_Method : string;
  x_Path : string;          (* [r.URL.EscapedPath()] *)
  x_Actor : string;         (* the X-Actor header *)
  x_Payload : Payload
}.
(** [actorFromHeader]. *)
Definition actorFromHeader (r : rpc_http) : string := x_Actor r.
Definition handler : Type := rpc_http -> prog rpc_answer.
(** The methods of a service implementation: what they do for an actor and a
    message. *)
Definition service : Type := rpc_method -> string -> message -> prog rpc_answer.

Definition NewUnaryHandler (mt : rpc_method) (impl : string -> message -> prog rpc_answer) : handler :=
  fun r => match admits mt (x_Method r) (x_Payload r) with Some m => impl (actorFromHeader r) m | None => Done CRefused end.
(** [r.URL.Path], which the server unescaped. *)
Definition URL_Path (r : rpc_http) : string := default "" (PathUnescape (x_Path r)).
(** The switch over [r.URL.Path] of a service's handler. *)
Fixpoint switch_path (cases : list (string * handler)) : handler :=
  fun r =>
    match cases with
    | [] => Done (CText 404)
    | (p, k) :: rest => if String.eqb (URL_Path r) p then k r else switch_path rest r
    end.

Definition NewHealthServiceHandler (svc : service) : string * handler :=
  ("/falseflag.v1.HealthService/", switch_path [
     (HealthServiceCheckProcedure, NewUnaryHandler Rpc_Check (svc Rpc_Check))]).
Definition NewProjectsServiceHandler (svc : service) : string * handler :=
  ("/falseflag.v1.ProjectsService/", switch_path [
     (ProjectsServiceListProjectsProcedure, NewUnaryHandler Rpc_ListProjects (svc Rpc_ListProjects));
     (ProjectsServiceGetProjectProcedure, NewUnaryHandler Rpc_GetProject (svc Rpc_GetProject));
     (ProjectsServiceCreateProjectProcedure, NewUnaryHandler Rpc_CreateProject (svc Rpc_CreateProject))]).
Definition NewEnvironmentsServiceHandler (svc : service) : string * handler :=
  ("/falseflag.v1.EnvironmentsService/", switch_path [
     (EnvironmentsServiceListEnvironmentsProcedure, NewUnaryHandler Rpc_ListEnvironments (svc Rpc_ListEnvironments));
     (EnvironmentsServiceGetEnvironmentProcedure, NewUnaryHandler Rpc_GetEnvironment (svc Rpc_GetEnvironment));
     (EnvironmentsServiceCreateEnvironmentProcedure, NewUnaryHandler Rpc_CreateEnvironment (svc Rpc_CreateEnvironment))]).
Definition NewFlagsServiceHandler (svc : service) : string * handler :=
  ("/falseflag.v1.FlagsService/", switch_path [
     (FlagsServiceListFlagsProcedure, NewUnaryHandler Rpc_ListFlags (svc Rpc_ListFlags));
     (FlagsServiceGetFlagProcedure, NewUnaryHandler Rpc_GetFlag (svc Rpc_GetFlag));
     (FlagsServiceCreateFlagProcedure, NewUnaryHandler Rpc_CreateFlag (svc Rpc_CreateFlag));
     (FlagsServicePublishFlagVersionProcedure, NewUnaryHandler Rpc_PublishFlagVersion (svc Rpc_PublishFlagVersion));
     (FlagsServiceListFlagVersionsProcedure, NewUnaryHandler Rpc_ListFlagVersions (svc Rpc_ListFlagVersions))]).
Definition NewSegmentsServiceHandler (svc : service) : string * handler :=
  ("/falseflag.v1.SegmentsService/", switch_path [
     (SegmentsServiceListSegmentsProcedure, NewUnaryHandler Rpc_ListSegments (svc Rpc_ListSegments));
     (SegmentsServiceGetSegmentProcedure, NewUnaryHandler Rpc_GetSegment (svc Rpc_GetSegment));
     (SegmentsServiceCreateSegmentProcedure, NewUnaryHandler Rpc_CreateSegment (svc Rpc_CreateSegment));
     (SegmentsServiceUpdateSegmentProcedure, NewUnaryHandler Rpc_UpdateSegment (svc Rpc_UpdateSegment))]).
Definition NewSnapshotsServiceHandler (svc : service) : string * handler :=
  ("/falseflag.v1.SnapshotsService/", switch_path [
     (SnapshotsServiceListSnapshotsProcedure, NewUnaryHandler Rpc_ListSnapshots (svc Rpc_ListSnapshots));
     (SnapshotsServiceGetSnapshotProcedure, NewUnaryHandler Rpc_GetSnapshot (svc Rpc_GetSnapshot));
     (SnapshotsServiceGetLatestSnapshotProcedure, NewUnaryHandler Rpc_GetLatestSnapshot (svc Rpc_GetLatestSnapshot));
     (SnapshotsServiceCompileSnapshotProcedure, NewUnaryHandler Rpc_CompileSnapshot (svc Rpc_CompileSnapshot))]).
Definition NewEvaluationServiceHandler (svc : service) : string * handler :=
  ("/falseflag.v1.EvaluationService/", switch_path [
     (EvaluationServiceEvaluateProcedure, NewUnaryHandler Rpc_Evaluate (svc Rpc_Evaluate));
     (EvaluationServiceEvaluateWithTraceProcedure, NewUnaryHandler Rpc_EvaluateWithTrace (svc Rpc_EvaluateWithTrace))]).
Definition NewAuditServiceHandler (svc : service) : string * handler :=
  ("/falseflag.v1.AuditService/", switch_path [
     (AuditServiceListAuditEventsProcedure, NewUnaryHandler Rpc_ListAuditEvents (svc Rpc_ListAuditEvents))]).

(** [Handlers], the implementation of every service. *)
Definition Handlers (fuel : nat) : service := fun _ actor m =>
  match m with MsgCheck => Done CServing | MsgCall q => pmap CAnswer (rpc_handle actor (with_fuel fuel q)) end.

(** The pattern of a path without wildcards. *)
Definition path_pattern (method path : string) : pattern :=
  mkPattern method (match List.rev (tail (split_on slash path)) with
                    | "" :: r => map PLit (List.rev r) ++ [PRest]
                    | l => map PLit (List.rev l)
                    end).
Definition mux_Handle (t : table handler) (ph : string * handler) : table handler := t ++ [(path_pattern "" ph.1, ph.2)].
Definition Mount (mux : table handler) (h : service) : table handler :=
  let mux := mux_Handle mux (NewHealthServiceHandler h) in
  let mux := mux_Handle mux (NewProjectsServiceHandler h) in
  let mux := mux_Handle mux (NewEnvironmentsServiceHandler h) in
  let mux := mux_Handle mux (NewFlagsServiceHandler h) in
  let mux := mux_Handle mux (NewSegmentsServiceHandler h) in
  let mux := mux_Handle mux (NewSnapshotsServiceHandler h) in
  let mux := mux_Handle mux (NewEvaluationServiceHandler h) in
  mux_Handle mux (NewAuditServiceHandler h).
Definition rpcRoutes (fuel : nat) : table handler :=
  Mount [(path_pattern "GET" "/healthz", fun _ => Done (CProbe "rpc-healthz"))] (Handlers fuel).

(** [s.rpcSrv.Handler.ServeHTTP]. *)
Definition rpc_serve (fuel : nat) (r : rpc_http) : prog rpc_answer :=
  if String.eqb (x_Path r) "*" then Done (CText 400) else
  match route (rpcRoutes fuel) (x_Method r) (x_Path r) with
  | ToHandler _ k _ => k r
  | Redirected => Done CRedirected
  | NotAllowed => Done (CText 405)
  | NotFound => Done (CText 404)
  end.

(** The request that arrives at the server of the address [addr] for a call. *)
Definition arriving (addr : string) (u : unary_call) : option rpc_http :=
  if hasPrefix (u_URL u) addr then Some (mkRpcHttp "POST" (drop_prefix (u_URL u) addr) (default "" (u_Actor u)) (u_Payload u))
  else None.

(** ** Calls and handlers *)

(** A POST to a procedure goes to the handler of its method. *)
Lemma procedure_handled fuel mt actor p :
  let r := mkRpcHttp "POST" (procedure mt) actor p in rpc_serve fuel r = NewUnaryHandler mt (Handlers fuel mt) r.
Proof. destruct mt; reflexivity. Qed.

Lemma client_call_is baseURL actor q :
  client_call (clientapi_New baseURL actor) q =
  CallUnary (NewClient (TrimRight baseURL slash +:+ procedure (method_of (MsgCall q))) [actorInterceptor actor]) (MsgCall q).
Proof. by destruct q. Qed.
Lemma hasPrefix_app a b : hasPrefix (a +:+ b) a = true.
Proof. induction a as [|c a IH]; [by destruct b|]. cbn. by rewrite Ascii.eqb_refl. Qed.
Lemma drop_prefix_app a b : drop_prefix (a +:+ b) a = b.
Proof. induction a as [|c a IH]; [by destruct b | done]. Qed.
Lemma with_fuel_again fuel fuel' q : with_fuel fuel (with_fuel fuel' q) = with_fuel fuel q.
Proof. by destruct q. Qed.

(** The request of a client call, and where the listener takes it. *)
Lemma client_arrival {CW : ConnectLaws} fuel baseURL actor q :
  exists r, arriving (TrimRight baseURL slash) (client_call (clientapi_New baseURL actor) q) = Some r /\
    x_Path r = procedure (method_of (MsgCall q)) /\
    rpc_serve fuel r = pmap CAnswer (rpc_handle actor (with_fuel fuel q)).
Proof.
  rewrite client_call_is. unfold arriving, CallUnary. cbn [u_URL u_Actor u_Payload cc_URL cc_Options fold_left].
  rewrite hasPrefix_app, drop_prefix_app. eexists. split; [reflexivity|]. split; [reflexivity|].
  rewrite procedure_handled. unfold NewUnaryHandler. cbn [x_Method x_Payload]. rewrite admits_call.
  cbn [no_fuel Handlers actorFromHeader x_Actor]. rewrite with_fuel_again.
  unfold actorInterceptor. by destruct (String.eqb_spec actor "") as [->|].
Qed.
Lemma client_arrives {CW : ConnectLaws} fuel baseURL actor q :
  exists r, arriving (TrimRight baseURL slash) (client_call (clientapi_New baseURL actor) q) = Some r /\
    rpc_serve fuel r = pmap CAnswer (rpc_handle actor (with_fuel fuel q)).
Proof. destruct (client_arrival fuel baseURL actor q) as (r & H1 & _ & H2). eauto. Qed.

(** C7. A call through the client bundle of the operator and the MCP server, with
    whatever slashes its base URL ends in: the request arrives at the path of the
    procedure behind the address, the mux and the service's switch take it to the
    method's handler, and the listener does what the RPC does for that request and
    that actor, also when no actor is set. *)
Theorem client_call_served {CW : ConnectLaws} fuel baseURL actor q :
  exists r, arriving (TrimRight baseURL slash) (client_call (clientapi_New baseURL actor) q) = Some r /\
    x_Path r = procedure (method_of (MsgCall q)) /\
    rpc_serve fuel r = pmap CAnswer (rpc_handle actor (with_fuel fuel q)).
Proof. apply client_arrival. Qed.

(** What a handler of the listener does: nothing, or the RPC of the path. *)
Definition rpc_of_path (fuel : nat) (r : rpc_http) (p : prog rpc_answer) : Prop :=
  (exists a, p = Done a) \/
  exists q, URL_Path r = procedure (method_of (MsgCall q)) /\
    admits (method_of (MsgCall q)) (x_Method r) (x_Payload r) = Some (MsgCall q) /\ p = pmap CAnswer (rpc_handle (actorFromHeader r) (with_fuel fuel q)).
Definition faithful (fuel : nat) (k : handler) : Prop := forall r, rpc_of_path fuel r (k r).

Lemma switch_faithful {CW : ConnectLaws} fuel cases :
  Forall (fun c => exists mt, c = (procedure mt, NewUnaryHandler mt (Handlers fuel mt))) cases -> faithful fuel (switch_path cases).
Proof.
  intros H r. induction H as [|c cases [mt ->] _ IH]; cbn [switch_path]; [left; eauto|].
  destruct (String.eqb_spec (URL_Path r) (procedure mt)) as [E|_]; [|exact IH]. unfold NewUnaryHandler.
  destruct (admits mt (x_Method r) (x_Payload r)) as [[|q]|] eqn:Ea; cbn [Handlers]; [left; eauto| |left; eauto].
  right. exists q. apply admits_typed in Ea as Em. rewrite Em. done.
Qed.
Ltac unary_case := match goal with |- exists _, (_, NewUnaryHandler ?m _) = _ => exists m; reflexivity end.
Lemma routes_faithful {CW : ConnectLaws} fuel : Forall (fun e => faithful fuel e.2) (rpcRoutes fuel).
Proof.
  unfold rpcRoutes, Mount, mux_Handle. repeat rewrite <- app_assoc. cbn [app]. apply List.Forall_cons; [intros r; left; eauto|].
  repeat (apply List.Forall_cons; [apply switch_faithful; repeat (apply List.Forall_cons; [unary_case|]); apply List.Forall_nil|]).
  apply List.Forall_nil.
Qed.

(** C22. Whatever arrives on the Connect listener, either no handler of the store
    runs, or exactly one does: the one whose procedure is the request's path, on
    the message that connect-go decoded for it, for the actor of the request. *)
Theorem rpc_only_procedures {CW : ConnectLaws} fuel r :
  (exists a, rpc_serve fuel r = Done a) \/
  exists q, URL_Path r = procedure (method_of (MsgCall q)) /\
    admits (method_of (MsgCall q)) (x_Method r) (x_Payload r) = Some (MsgCall q) /\
    rpc_serve fuel r = pmap CAnswer (rpc_handle (actorFromHeader r) (with_fuel fuel q)).
Proof.
  unfold rpc_serve. destruct (String.eqb (x_Path r) "*"); [left; eauto|].
  destruct (route (rpcRoutes fuel) (x_Method r) (x_Path r)) as [p k ms| | |] eqn:E; try (left; by eauto).
  apply route_in in E. pose proof (routes_faithful fuel) as Hf. rewrite List.Forall_forall in Hf. exact (Hf _ (proj1 E) r).
Qed.
End listener.

(** ** Both listeners *)

Section listeners.
Context {RX : RegexpLib} {CEL : CelLib} {TS : TsLib} {PL : ParamLib} {UT : UuidText} {SP : StructPb} {CO : ConnectLib} {CW : ConnectLaws}.

(** The programs the two listeners run: one for each HTTP request, whatever it
    holds. *)
Definition listens (p : prog (http_response + rpc_answer)) : Prop :=
  (exists fuel a r, p = pmap inl (serve fuel a r)) \/ (exists fuel r, p = pmap inr (rpc_serve fuel r)).

Lemma faithful_writes fuel r p : rpc_of_path fuel r p -> writes (within server_reach) p.
Proof. intros [[a ->]|(q & _ & _ & ->)]; [done|]. apply writes_pmap, rpc_writes. Qed.
Lemma rpc_serve_writes fuel r : writes (within server_reach) (rpc_serve fuel r).
Proof.
  unfold rpc_serve. destruct (String.eqb (x_Path r) "*"); [done|]. destruct (route _ _ _) as [p k ms| | |] eqn:E; try done.
  apply route_in in E. pose proof (routes_faithful fuel) as Hf. rewrite List.Forall_forall in Hf.
  exact (faithful_writes fuel r _ (Hf _ (proj1 E) r)).
Qed.
Lemma listens_writes p : listens p -> writes (within server_reach) p.
Proof. intros [(fuel & a & r & ->)|(fuel & r & ->)]; apply writes_pmap; [apply serve_writes | apply rpc_serve_writes]. Qed.

(** C2. Whatever requests arrive on the REST and on the Connect listener, whatever
    their paths and bodies, however their store calls interleave and whatever faults
    they meet, the database keeps the store's invariant, and the IR of every stored
    flag version is the IR of a compilation under the strategy it was published
    with. *)
Theorem listeners_invariant db pool :
  rtc (server_step listens) (mkServer empty_db []) (mkServer db pool) -> server_ok db.
Proof.
  intros H. eapply server_reach_ok, empty_server_ok. eapply (server_kept _ server_reach listens_writes _ _ H). constructor.
Qed.
End listeners.

(** ** An instance *)

Module ConnectDemo.
Import Demo HandlersDemo SqliteTextDemo RpcDemo HttpDemo.

(** Messages sent as they are, and admitted by the handler of their method. *)
#[export] Instance demo_connect : ConnectLib := {
  Payload := message;
  call_payload m := m;
  admits mt meth p := if String.eqb meth "POST" && bool_decide (method_of p = mt) then Some (no_fuel p) else None
}.
#[export] Instance demo_connect_laws : ConnectLaws.
Proof.
  split.
  - intros m. cbn. by rewrite bool_decide_eq_true_2.
  - intros mt meth p m. cbn. destruct (String.eqb meth "POST"); [|done]. cbn [andb]. case_bool_decide as H; [|done]. intros [= <-].
    rewrite <- H. by destruct p as [|[]].
Qed.

(** The publish of the Connect demo, sent by a client whose base URL ends in
    slashes. *)
Definition publish_call : unary_call := client_call (clientapi_New "http://api:8090//" "ops") rpc_publish.
Definition publish_arrival : rpc_http :=
  mkRpcHttp "POST" "/falseflag.v1.FlagsService/PublishFlagVersion" "ops" (MsgCall rpc_publish).
Lemma client_call_served_witness :
  publish_call = mkCall "http://api:8090/falseflag.v1.FlagsService/PublishFlagVersion" (Some "ops") (MsgCall rpc_publish) /\
  exists r, arriving "http://api:8090" publish_call = Some r /\
    rpc_serve 1 r = pmap CAnswer (rpc_handle "ops" (with_fuel 1 rpc_publish)).
Proof.
  split; [vm_compute; reflexivity|]. destruct (client_call_served 1 "http://api:8090//" "ops" rpc_publish) as (r & H1 & _ & H2).
  exists r. exact (conj H1 H2).
Defined.
Lemma rpc_only_procedures_witness :
  (exists a, rpc_serve 1 publish_arrival = Done a) \/
  exists q, URL_Path publish_arrival = procedure (method_of (MsgCall q)) /\
    admits (method_of (MsgCall q)) "POST" (MsgCall rpc_publish) = Some (MsgCall q) /\
    rpc_serve 1 publish_arrival = pmap CAnswer (rpc_handle "ops" (with_fuel 1 q)).
Proof. exact (rpc_only_procedures 1 publish_arrival). Defined.

(** A project and a flag over HTTP, a version over Connect. *)
Lemma arrival_run : run (demo_draws 3) (rpc_serve 1 publish_arrival) db2 = (Some (CAnswer rpc_published), db3).
Proof. vm_compute. reflexivity. Qed.
Lemma listened n r db db' : served_http n r db = (Some (answered n r db), db') ->
  rtc (server_step listens) (mkServer db []) (mkServer db' []).
Proof.
  intros H. apply (exec_server listens (pmap inl (serve 1 api r)) db (inl (answered n r db)) db').
  - left. by exists 1%nat, api, r.
  - by eapply exec_pmap, served_exec.
Qed.
Lemma listeners_invariant_witness : server_ok db3 /\ List.length (flag_versions db3) = 1%nat.
Proof.
  split; [|vm_compute; reflexivity]. apply (listeners_invariant db3 []).
  etransitivity; [exact (listened 1 project_bytes empty_db db1 project_arrives)|].
  etransitivity; [exact (listened 2 flag_bytes db1 db2 flag_arrives)|].
  exact (exec_server listens (pmap inr (rpc_serve 1 publish_arrival)) db2 (inr (CAnswer rpc_published)) db3
    (or_intror (ex_intro _ 1%nat (ex_intro _ publish_arrival eq_refl)))
    (exec_pmap inr (rpc_serve 1 publish_arrival) db2 (CAnswer rpc_published) db3 (run_exec (demo_draws 3) _ _ _ _ arrival_run))).
Defined.
End ConnectDemo.
