(* ===== verification/OperatorWire.v ===== *)
(** The operator and the MCP server over the network: their programs make calls
    through the Connect client bundle, each call is an HTTP request to the Connect
    listener, and what they leave is served by the REST listener.

    [wexec] is the execution of an operator program in which every call goes from
    the client ([internal/operator/clientapi]) over the address it is configured
    with to [rpc_serve]. *)
From stdpp Require Import base list strings numbers gmap.
From Stdlib Require Import Ascii String ZArith Lia.
From S2P Require Import Prelude Text Literal Json Float64 GoTime GoValue Ir Compile Rollout Eval AnyTrip Trace Segments Sdk Proxy Db Store SqliteText AuditCursor Api Handlers AuditApi Wire Rpc Operator Mcp Mux Bodies Http Connect Edge.

Section wire.
Context {RX : RegexpLib} {CEL : CelLib} {TS : TsLib} {SP : StructPb} {CO : ConnectLib} {CW : ConnectLaws}.
Variables (fuel : nat) (baseURL actor : string).

(** A call: the request that arrives at the server is answered by an RPC, whose
    error the client sees as a Connect error; or the call fails on the way, and
    the server handled the request or not. *)
Definition wired (q : rpc_request) (db : DB) (r : result api_err Rpc.message) (db' : DB) : Prop :=
  exists rq, arriving (TrimRight baseURL slash) (client_call (clientapi_New baseURL actor) q) = Some rq /\
    ((exists m, exec (rpc_serve fuel rq) db (CAnswer m) db' /\ r = rmap_err Operator.Connect m) \/
     (exists e, r = Err e /\ (db' = db \/ exists ans, exec (rpc_serve fuel rq) db ans db'))).
Fixpoint wexec {A} (p : oprog A) (db : DB) (a : A) (db' : DB) : Prop :=
  match p with
  | ODone x => a = x /\ db' = db
  | OCall q k => exists r db1, wired q db r db1 /\ wexec (k r) db1 a db'
  end.

(** A call over the wire is a call of the RPC. *)
Lemma wired_served q db r db' : wired q db r db' <-> served actor (with_fuel fuel q) db r db'.
Proof.
  unfold wired, served. destruct (client_arrives fuel baseURL actor q) as (rq & Ha & Hs). split.
  - intros (rq' & Ha' & H). rewrite Ha in Ha'. injection Ha' as <-. rewrite Hs in H. destruct H as [(m & H & ->)|(e & -> & H)].
    + left. apply exec_unmap in H as (x & [= ->] & H). eauto.
    + right. exists e. split; [done|]. destruct H as [->|(ans & (x & _ & H)%exec_unmap)]; eauto.
  - intros H. exists rq. split; [done|]. rewrite Hs. destruct H as [(m & H & ->)|(e & -> & H)].
    + left. exists m. split; [by apply exec_pmap | done].
    + right. exists e. split; [done|]. destruct H as [->|(m & H)]; [by left|]. right. exists (CAnswer m). by apply exec_pmap.
Qed.

(** Programs whose publishes have the listener's bound on segment references. *)
Fixpoint fueled {A} (p : oprog A) : Prop :=
  match p with ODone _ => True | OCall q k => with_fuel fuel q = q /\ forall r, fueled (k r) end.

(** An execution over the wire is one against the RPCs. *)
Lemma wexec_oexec {A} (p : oprog A) db a db' : fueled p -> wexec p db a db' <-> oexec actor p db a db'.
Proof.
  revert db. induction p as [x|q k IH]; intros db; cbn [fueled wexec oexec]; [done|]. intros [Hq Hk].
  split; intros (r & db1 & Hs & H); exists r, db1.
  - rewrite wired_served, Hq in Hs. split; [done|]. by apply IH.
  - rewrite wired_served, Hq. split; [done|]. by apply IH.
Qed.
End wire.

Section programs.
Context {SP : StructPb}.
Variable fuel : nat.

End programs.

Section synced.
Context {RX : RegexpLib} {CEL : CelLib} {TS : TsLib} {SP : StructPb} {laws : StructPbLaws} {CO : ConnectLib} {CW : ConnectLaws}.
Context {UT : UuidText} {UL : UuidLaws} {PL : ParamLib} {PW : ParamLaws}.




End synced.

Section tools.
Context {RX : RegexpLib} {CEL : CelLib} {TS : TsLib} {SP : StructPb} {ML : McpLib} {CO : ConnectLib} {CW : ConnectLaws}.

Lemma fueled_tool fuel client t : fueled fuel (call_tool client t).
Proof.
  destruct t; cbn [call_tool]; unfold listProjects, listFlags, getFlag, explainEvaluation, searchAuditLog, pass_through;
    repeat case_match; cbn [fueled]; auto.
Qed.

(** C27. No tool of the MCP server changes the database: whatever the tool, its
    input and the clients it has, and whatever faults its calls meet on their way
    to the Connect listener, the database is the same afterwards.  In particular no
    tool leaves an audit event. *)
Theorem tools_over_wire fuel baseURL actor client t db r db' :
  wexec fuel baseURL actor (call_tool client t) db r db' -> db' = db.
Proof. intros H%wexec_oexec; [|apply fueled_tool]. by apply tools_read_only in H. Qed.
End tools.

Module WiredDemo.
Import Demo HandlersDemo SqliteTextDemo RpcDemo HttpDemo OperatorDemo McpDemo ConnectDemo.



Lemma get_over_wire : wexec 1 "http://api:8090" "mcp/falseflag-mcp" get_us db2 (shown db2) db2.
Proof.
  apply wexec_oexec; [apply fueled_tool|]. exact (orun_exec "mcp/falseflag-mcp" demo_seq 0 get_us db2 (shown db2) db2 shown_run).
Qed.
Lemma tools_over_wire_witness : wexec 1 "http://api:8090" "mcp/falseflag-mcp" get_us db2 (shown db2) db2 /\ db2 = db2.
Proof.
  split; [exact get_over_wire|].
  exact (tools_over_wire 1 "http://api:8090" "mcp/falseflag-mcp" client (TGetFlag "acme" "us") db2 (shown db2) db2 get_over_wire).
Defined.
End WiredDemo.
