(* ===== verification/Enums.v ===== *)
(** The enumerations of the REST API ([internal/gen/openapi/api.gen.go]) and the
    answers that hold them.

    The generated types are strings, and no handler calls their [Valid]: that an
    answer holds only known values rests on the [CHECK]s of the schema, on the
    handlers' own tests and on the reasons the evaluator gives.  [ensures] says
    what holds of every answer of a program, whatever other requests do to the
    database between its store calls, as long as they keep an invariant. *)
From stdpp Require Import base list strings numbers gmap relations.
From Stdlib Require Import Ascii String ZArith Lia Sorting.Permutation.
From S2P Require Import Prelude Text Literal Json Float64 GoTime GoValue Ir Compile Rollout Eval AnyTrip Trace Segments Sdk Db Store SqliteText AuditCursor Api Handlers AuditApi Wire Rpc Mux Bodies Http Connect.

(** ** [Valid] *)

Definition DecisionReason_Valid (e : string) : bool :=
  if String.eqb e "default" then true
  else if String.eqb e "error" then true
  else if String.eqb e "rollout_in_bucket" then true
  else if String.eqb e "rollout_out_of_bucket" then true
  else if String.eqb e "rule_matched" then true
  else String.eqb e "type_mismatch".
Definition HealthResponseStatus_Valid (e : string) : bool := String.eqb e "ok".
Definition openapi_Strategy_Valid (e : string) : bool :=
  if String.eqb e "cel" then true else if String.eqb e "json" then true else String.eqb e "typescript".
Definition ValueType_Valid (e : string) : bool :=
  if String.eqb e "boolean" then true
  else if String.eqb e "number" then true
  else if String.eqb e "object" then true
  else String.eqb e "string".

(** The enumerated fields of an answer. *)
Definition project_enums (p : WProject) : bool := openapi_Strategy_Valid (w_ConfigStrategy p).
Definition flag_enums (f : WFlag) : bool := ValueType_Valid (wf_ValueType f).
Definition version_enums (v : WFlagVersion) : bool := openapi_Strategy_Valid (wv_Strategy v).
Definition decision_enums (d : WDecision) : bool := DecisionReason_Valid (wd_Reason d).
Definition body_enums (b : body) : bool :=
  match b with
  | BHealth st _ => HealthResponseStatus_Valid st
  | BProject p => project_enums p
  | BProjects l => forallb project_enums l
  | BFlag f => flag_enums f
  | BFlags l => forallb flag_enums l
  | BFlagWithLatest f v => flag_enums f && match v with Some v => version_enums v | None => true end
  | BFlagVersion v => version_enums v
  | BFlagVersions l => forallb version_enums l
  | BDecision d | BDecisionTrace d _ => decision_enums d
  | _ => true
  end.
Definition enums_ok (r : response) : Prop := body_enums (payload r) = true.

(** ** What every answer of a program satisfies *)

Section ensures.
Context (I : DB -> Prop).
Fixpoint ensures {A} (P : A -> Prop) (p : prog A) : Prop :=
  match p with
  | Done a => P a
  | Panics => True
  | Read q k => (forall db, I db -> ensures P (k (q db))) /\ forall e, ensures P (k (Err e))
  | Segs _ k => forall get, ensures P (k get)
  | Audit ev fn k => forall envs draws ds db, I db ->
      let '(r, db2) := WithAudit envs draws ev (fun n => fn (ds n)) db in I db2 /\ ensures P (k r)
  end.

Lemma pstep_ensures {A} (P : A -> Prop) p db p' db' : I db -> ensures P p -> pstep p db p' db' -> I db' /\ ensures P p'.
Proof.
  intros Hi Hp H. destruct p as [x| |X q k|pr k|X ev fn k]; cbn [pstep ensures] in *; try done.
  - destruct Hp as [Hq He]. destruct H as (r & [->|(e & _ & ->)] & -> & ->); auto.
  - destruct H as (get & _ & -> & ->). auto.
  - destruct H as (envs & dr & ds & H). specialize (Hp envs dr ds db Hi). destruct (WithAudit envs dr ev _ db) as [r db2].
    destruct H as [-> ->]. done.
Qed.
(** Requests that each keep the invariant and ensure their answer do so together. *)
Lemma server_ensures {A} (accepts : prog A -> Prop) (P : A -> Prop) s s' :
  (forall p, accepts p -> ensures P p) -> rtc (server_step accepts) s s' ->
  I (sv_db s) -> Forall (ensures P) (inflight s) -> I (sv_db s') /\ Forall (ensures P) (inflight s').
Proof.
  intros Ha. induction 1 as [|s1 s2 s3 H _ IH]; [done|]. intros Hi Hp. cut (I (sv_db s2) /\ Forall (ensures P) (inflight s2)); [intros [? ?]; auto|].
  clear IH. destruct H as [p db pool Hacc|i p p' db db' pool Hl Hst|i a db pool Hl|i db pool Hl]; cbn [sv_db inflight] in *.
  - split; [done|]. apply Forall_app. split; [done|]. apply Forall_singleton. auto.
  - destruct (pstep_ensures P p db p' db' Hi) as [Hi' Hp']; [by eapply Forall_lookup_1 | done|]. split; [done|]. by apply Forall_insert.
  - split; [done|]. by apply Forall_delete.
  - split; [done|]. by apply Forall_delete.
Qed.

Lemma ensures_pmap {A B} (f : A -> B) (P : B -> Prop) p : ensures (fun a => P (f a)) p -> ensures P (pmap f p).
Proof.
  induction p as [x| |X q k IH|pr k IH|X ev fn k IH]; cbn [ensures pmap]; auto.
  - intros [H1 H2]. split; auto.
  - intros H envs dr ds db Hi. specialize (H envs dr ds db Hi). destruct (WithAudit envs dr ev _ db). destruct H. auto.
Qed.
(** Without a claim on the answers, the writes suffice. *)
Lemma ensures_writes {A} (T : DB -> DB -> Prop) (P : A -> Prop) p :
  (forall db db', T db db' -> I db -> I db') -> (forall a, P a) -> writes (within T) p -> ensures P p.
Proof.
  intros HT HP. induction p as [x| |X q k IH|pr k IH|X ev fn k IH]; cbn [ensures writes]; auto.
  intros [Hw Hk] envs dr ds db Hi. specialize (Hw envs dr ds db). destruct (WithAudit envs dr ev _ db) as [r db2]. split; [by eapply HT | auto].
Qed.

Lemma ensures_get {X R} (P : R -> Prop) q (h : store_err -> R) (k : X -> prog R) :
  (forall e, P (h e)) -> (forall db x, I db -> q db = Ok x -> ensures P (k x)) -> ensures P (get_or q h k).
Proof. intros Hh Hk. split; [|done]. intros db Hi. destruct (q db) eqn:E; [by eapply Hk | apply Hh]. Qed.
Lemma ensures_need {X E R} (P : R -> Prop) (m : result E X) h (k : X -> prog R) :
  (forall e, P (h e)) -> (forall x, m = Ok x -> ensures P (k x)) -> ensures P (need m h k).
Proof. intros Hh Hk. destruct m; [by apply Hk | apply Hh]. Qed.
Lemma ensures_body {X R} (P : R -> Prop) (b : option X) (h : R) (k : X -> prog R) :
  P h -> (forall x, b = Some x -> ensures P (k x)) -> ensures P (body_or b h k).
Proof. intros Hh Hk. destruct b; [by apply Hk | apply Hh]. Qed.

Context (I_audit : forall l db, I db -> I (set_audit l db)).
Lemma ensures_audit {X R} (P : R -> Prop) ev (fn : draw -> write X) (h : store_err -> R) (k : X -> R) :
  (forall e, P (h e)) -> (forall d db x db', I db -> fn d db = Ok (x, db') -> I db' /\ P (k x)) -> ensures P (audit_or ev fn h k).
Proof.
  intros Hh Hf envs dr ds db Hi. destruct (WithAudit_cases envs dr ev (fun n => fn (ds n)) db) as [[e ->]|(n & x & db1 & row & _ & Ef & -> & _)].
  - split; [done | apply Hh].
  - destruct (Hf _ _ _ _ Hi Ef). auto.
Qed.
End ensures.

(** ** The stored values *)

Lemma one_of_strategy s : one_of strategies s = openapi_Strategy_Valid s.
Proof. unfold openapi_Strategy_Valid. cbn. destruct (String.eqb s "json"), (String.eqb s "cel"), (String.eqb s "typescript"); done. Qed.
Lemma one_of_value_type s : one_of value_types s = ValueType_Valid s.
Proof. unfold ValueType_Valid. cbn. by destruct (String.eqb s "boolean"), (String.eqb s "string"), (String.eqb s "number"), (String.eqb s "object"). Qed.

Record rows_valid (db : DB) : Prop := {
  rv_projects : Forall (fun r => openapi_Strategy_Valid (pr_strategy r) = true) (projects db);
  rv_flags : Forall (fun r => ValueType_Valid (fr_vtype r) = true) (flags db);
  rv_versions : Forall (fun r => openapi_Strategy_Valid (vr_strategy r) = true) (flag_versions db)
}.
Lemma rows_audit l db : rows_valid db -> rows_valid (set_audit l db).
Proof. by intros []. Qed.

Lemma stmt_rows db db' : stmt db db' -> rows_valid db -> rows_valid db'.
Proof.
  intros H [Hp Hf Hv].
  destruct H as [? ? ? ? s ? ? ? H|? ? ? ? ? ? vt ? ? ? ? H|? ? ? s ? ? ? ? ? ? H|? ? ? ? ? ? ? ? H|? ? ? ? ? ? ? ? ? ? H|? ? ? ? ? ? ? ? ? H|? ? ? ? ? ? ? ? H|? ? ? ? ? ? ? ? ? ? H];
    [unfold q_CreateProject in H | unfold q_CreateFlag in H | unfold q_CreateFlagVersion in H | unfold q_CreateEnvironment in H
    | unfold q_CreateSegment in H | | unfold q_CreateSnapshot in H | unfold q_AppendAuditEvent in H]; try (inv_stmt H).
  - split; cbn; try done. apply Forall_app. split; [done|]. apply Forall_singleton. cbn. by rewrite <- one_of_strategy.
  - split; cbn; try done. apply Forall_app. split; [done|]. apply Forall_singleton. cbn. by rewrite <- one_of_value_type.
  - split; cbn; try done. apply Forall_app. split; [done|]. apply Forall_singleton. cbn. by rewrite <- one_of_strategy.
  - done.
  - done.
  - unfold q_UpdateSegment in H. repeat case_match; try done. by injection H as <- <-.
  - done.
  - done.
Qed.
Lemma reach_rows {RX : RegexpLib} {CEL : CelLib} {TS : TsLib} db db' : server_reach db db' -> rows_valid db -> rows_valid db'.
Proof. induction 1 as [|x y z [H _] _ IH]; [done|]. intros Hr. by apply IH, (stmt_rows x y). Qed.

(** What the reads return. *)
Lemma Forall_in {A} (P : A -> Prop) l x : Forall P l -> In x l -> P x.
Proof. intros H. by apply List.Forall_forall. Qed.
Lemma order_Forall {A} (P : A -> Prop) before l : Forall P l -> Forall P (order_by before l).
Proof. rewrite !List.Forall_forall. intros H x Hin. apply H. by eapply Permutation_in; [apply order_by_perm|]. Qed.
Lemma forallb_map {A B} (f : B -> bool) (g : A -> B) l : forallb f (map g l) = forallb (fun x => f (g x)) l.
Proof. induction l as [|x l IH]; [done|]. cbn. by rewrite IH. Qed.
Lemma Forall_forallb {A} (f : A -> bool) l : Forall (fun x => f x = true) l -> forallb f l = true.
Proof. induction 1 as [|x l Hx _ IH]; [done|]. cbn. by rewrite Hx. Qed.

Lemma get_project slug db p : rows_valid db -> GetProjectBySlug slug db = Ok p -> openapi_Strategy_Valid (P_ConfigStrategy p) = true.
Proof.
  intros [H _ _]. unfold GetProjectBySlug, q_GetProjectBySlug, query_one. destruct (List.find _ _) as [r|] eqn:E; [|done]. cbn. intros [= <-].
  apply find_in in E as [Hin _]. exact (Forall_in _ _ _ H Hin).
Qed.
Lemma get_flag project key db f : rows_valid db -> GetFlagByKey project key db = Ok f -> ValueType_Valid (F_ValueType f) = true.
Proof.
  intros [_ H _]. unfold GetFlagByKey, q_GetFlagByKey, query_one. destruct (List.find _ _) as [r|] eqn:E; [|done]. cbn. intros [= <-].
  apply find_in in E as [Hin _]. exact (Forall_in _ _ _ H Hin).
Qed.
Lemma get_version flag db v : rows_valid db -> GetLatestFlagVersion flag db = Ok v -> openapi_Strategy_Valid (V_Strategy v) = true.
Proof. intros [_ _ H] (r & -> & Hin)%latest_row. exact (Forall_in _ _ _ H Hin). Qed.
Lemma list_projects db : rows_valid db -> forallb project_enums (map projectToAPI (ListProjects db)) = true.
Proof. intros [H _ _]. unfold ListProjects, q_ListProjects. rewrite !forallb_map. apply Forall_forallb, order_Forall, H. Qed.
Lemma list_flags project db : rows_valid db -> forallb flag_enums (map flagToAPI (ListFlagsByProject project db)) = true.
Proof.
  intros [_ H _]. unfold ListFlagsByProject, q_ListFlagsByProject. rewrite !forallb_map. apply Forall_forallb, order_Forall.
  apply List.Forall_forall. intros r [Hin _]%filter_In. exact (Forall_in _ _ _ H Hin).
Qed.
Lemma list_versions flag db : rows_valid db -> forallb version_enums (map flagVersionToAPI (ListFlagVersions flag db)) = true.
Proof.
  intros [_ _ H]. unfold ListFlagVersions, q_ListFlagVersions, versions_of. rewrite !forallb_map. apply Forall_forallb, order_Forall.
  apply List.Forall_forall. intros r [Hin _]%filter_In. exact (Forall_in _ _ _ H Hin).
Qed.

(** What the transactions return and keep. *)
Lemma new_project d slug n s db p db' : rows_valid db -> tx_CreateProject d slug n s db = Ok (p, db') ->
  rows_valid db' /\ openapi_Strategy_Valid (P_ConfigStrategy p) = true.
Proof.
  intros Hr (r & H & ->)%wrap_ok. split; [eapply stmt_rows; [by eapply st_project | done]|]. unfold q_CreateProject in H. inv_stmt H. cbn.
  by rewrite <- one_of_strategy.
Qed.
Lemma new_flag d p db f db' : rows_valid db -> tx_CreateFlag d p db = Ok (f, db') -> rows_valid db' /\ ValueType_Valid (F_ValueType f) = true.
Proof.
  intros Hr (r & H & ->)%wrap_ok. split; [eapply stmt_rows; [by eapply st_flag | done]|]. unfold q_CreateFlag in H. inv_stmt H. cbn.
  by rewrite <- one_of_value_type.
Qed.
Lemma new_version d p db v db' : rows_valid db -> publishFlagVersionTx d p db = Ok (v, db') ->
  rows_valid db' /\ openapi_Strategy_Valid (V_Strategy v) = true.
Proof.
  intros Hr (r & H & ->)%wrap_ok. split; [eapply stmt_rows; [by eapply st_version | done]|]. unfold q_CreateFlagVersion in H. inv_stmt H. cbn.
  by rewrite <- one_of_strategy.
Qed.

(** ** The handlers *)

Section answers.
Context {RX : RegexpLib} {CEL : CelLib} {TS : TsLib} {PL : ParamLib} {UT : UuidText}.

Lemma reason_for_rule r : DecisionReason_Valid (reasonForRule r) = true.
Proof. unfold reasonForRule. by repeat case_match. Qed.
Lemma evaluated_reason c ctx n d : Evaluate c ctx n = Ok d -> decision_enums (decisionToAPI d) = true.
Proof.
  unfold Evaluate. destruct c as [c|]; [|done]. destruct (decodeValue _) as [def|]; [|done]. intros [= <-].
  induction (rules_of (IR c)) as [|r rs IH]; [done|]. cbn [eval_rules]. destruct (match_ptr _ _ _) as [[] [e|]]; [done| |done|exact IH].
  unfold Eval.serve. repeat case_match; try done. apply reason_for_rule.
Qed.
Lemma traced_reason c ctx n dt : EvaluateWithTrace c ctx n = Ok dt -> decision_enums (decisionToAPI dt.1) = true.
Proof.
  unfold EvaluateWithTrace. destruct c as [c|]; [|done]. destruct (decodeValue _) as [def|]; [|done].
  destruct (trace_rules _ _ _ _ _) as [trs [w|]]; [|by intros [= <-]]. destruct (decodeValue (RuleValue w)) as [v|]; [|by intros [= <-]].
  destruct (valueMatchesType _ _); intros [= <-]; [apply reason_for_rule | done].
Qed.

Lemma found_enums e : enums_ok (notFoundOrError e).
Proof. by destruct e. Qed.
Lemma store_err_enums e : enums_ok (writeStoreErr e).
Proof. unfold writeStoreErr. by repeat case_match. Qed.
Lemma internal_enums e : enums_ok (internalError e).
Proof. done. Qed.

(** Follow a handler: each step that can answer does so with an error, and what
    the reads and transactions return is kept. *)
#[local] Ltac walk_ensures :=
  repeat lazymatch goal with
  | |- ensures _ _ (Done _) => cbn [ensures]
  | |- ensures _ _ (requireStore _ _) => unfold requireStore
  | |- ensures _ _ (if ?b then _ else _) => destruct b
  | |- ensures _ _ (get_or _ _ _) =>
      apply ensures_get; [first [apply found_enums | apply internal_enums | by intros []]|];
      let db := fresh "db" in let Hi := fresh "Hi" in let E := fresh "E" in intros db ? Hi E
  | |- ensures _ _ (need _ _ _) => apply ensures_need; [by intros; repeat case_match|]; intros ? ?
  | |- ensures _ _ (body_or _ _ _) => apply ensures_body; [done|]; intros ? ?
  | |- ensures _ _ (audit_or _ _ _ _) => apply ensures_audit; [exact rows_audit | apply store_err_enums|]; intros ? ? ? ? ? ?
  end.
#[local] Ltac kept st :=
  match goal with H : ?tx = Ok _, Hi : rows_valid _ |- rows_valid _ /\ _ =>
    let r := fresh "r" in apply wrap_ok in H as (r & H & ->); split; [eapply stmt_rows; [by eapply st | exact Hi] | done] end.

(** A value that was read. *)
#[local] Ltac from_read L := eapply L; [|eassumption]; eassumption.

Lemma handle_ensures a actor q : ensures rows_valid enums_ok (handle a actor q).
Proof.
  destruct q; cbn [handle];
    unfold h_ListProjects, h_CreateProject, h_GetProject, h_ListEnvironments, h_CreateEnvironment, h_GetEnvironment, h_ListSegments,
      h_CreateSegment, h_GetSegment, h_UpdateSegment, h_ListFlags, h_CreateFlag, h_GetFlag, h_PublishFlagVersion, h_ListFlagVersions,
      h_EvaluateFlag, h_EvaluateFlagWithTrace, loadEvaluation, h_ListSnapshots, h_GetLatestSnapshot, h_GetSnapshot, h_CompileSnapshot,
      select_environment; walk_ensures; try done; unfold listed in *; simplify_eq.
  - by apply list_projects.
  - by eapply new_project.
  - by eapply get_project.
  - kept st_env.
  - kept st_segment.
  - kept st_update.
  - by apply list_flags.
  - by eapply new_flag.
  - split.
    + intros db' Hv. destruct (GetLatestFlagVersion _ db') as [v|e] eqn:Ev.
      * cbn [ensures]. unfold enums_ok. cbn [payload writeJSON body_enums]. apply andb_true_iff. split; [from_read get_flag | from_read get_version].
      * destruct e; try done. cbn [ensures]. unfold enums_ok. cbn [payload writeJSON body_enums]. rewrite andb_true_r. from_read get_flag.
    + intros []; try done. cbn [ensures]. unfold enums_ok. cbn [payload writeJSON body_enums]. rewrite andb_true_r. from_read get_flag.
  - intros get. destruct (resolveSegmentRefs _ _ _) as [resolved|[|e]]; [|done..]. walk_ensures. by eapply new_version.
  - by apply list_versions.
  - by eapply evaluated_reason.
  - by eapply traced_reason.
  - repeat case_match; walk_ensures; try done; kept st_snapshot.
Qed.

Definition http_enums (h : http_response) : Prop := match h with HJson r => enums_ok r | _ => True end.
Lemma audit_ensures a slug p : ensures rows_valid enums_ok (h_ListAuditEvents a slug p).
Proof. unfold h_ListAuditEvents, audit_page. walk_ensures; repeat case_match; walk_ensures; repeat case_match; walk_ensures; done. Qed.
Lemma serve_ensures fuel a r : ensures rows_valid http_enums (serve fuel a r).
Proof.
  unfold serve. destruct (String.eqb _ "*"); [done|]. destruct (route _ _ _); [|done..]. destruct (wrapper _ _ _ _) as [c|]; [|done].
  destruct c; cbn [run_call]; try done; apply ensures_pmap; cbn [http_enums]; [apply audit_ensures | apply handle_ensures].
Qed.

Context {SP : StructPb} {CO : ConnectLib} {CW : ConnectLaws}.

(** C21. The enumerations of the API.  Whatever requests arrive on the two listeners,
    however their store calls interleave and whatever faults they meet, an answer of
    the REST listener holds only values that the generated [Valid] methods know: the
    strategy of a project and of a version, the value type of a flag, the reason of a
    decision and the health status.  No handler calls them; a request with an unknown
    value type is stopped by the schema. *)
Theorem answers_hold_enums db pool i h :
  rtc (server_step listens) (mkServer empty_db []) (mkServer db pool) -> pool !! i = Some (Done (inl h)) -> http_enums h.
Proof.
  intros H Hi. set (P := fun x : http_response + rpc_answer => match x with inl h => http_enums h | inr _ => True end).
  assert (forall p, listens p -> ensures rows_valid P p) as Hl.
  { intros p [(fuel & a & r & ->)|(fuel & r & ->)]; apply ensures_pmap; [apply serve_ensures|].
    apply (ensures_writes _ server_reach); [exact reach_rows | done | apply rpc_serve_writes]. }
  destruct (server_ensures rows_valid listens P _ _ Hl H) as [_ Hp]; [by repeat constructor | constructor|].
  eapply Forall_lookup_1 in Hp; [|exact Hi]. exact Hp.
Qed.
End answers.

(** One request alone on the listener. *)
Lemma alone_steps {A} (accepts : prog A -> Prop) (s s' : prog A * DB) :
  rtc step_pair s s' -> rtc (server_step accepts) (mkServer s.2 [s.1]) (mkServer s'.2 [s'.1]).
Proof.
  induction 1 as [|[p db] [p1 db1] [p2 db2] H _ IH]; [reflexivity|]. eapply rtc_l; [|exact IH].
  exact (sv_call accepts 0 p p1 db db1 [p] eq_refl H).
Qed.

Module EnumsDemo.
Import Demo HandlersDemo SqliteTextDemo RpcDemo HttpDemo ConnectDemo.
Definition created : http_response := answered 1 project_bytes empty_db.
Lemma created_reached : rtc (server_step listens) (mkServer empty_db []) (mkServer db1 [Done (inl created)]).
Proof.
  eapply rtc_l; [apply (sv_accept listens (pmap inl (serve 1 api project_bytes))); left; by exists 1%nat, api, project_bytes|].
  apply (alone_steps listens (pmap inl (serve 1 api project_bytes), empty_db) (Done (inl created), db1)).
  apply (proj1 (exec_steps _ _ _ _)), (exec_pmap inl (serve 1 api project_bytes)), (served_exec 1), project_arrives.
Qed.
Lemma answers_hold_enums_witness : http_enums created.
Proof. exact (answers_hold_enums db1 [Done (inl created)] 0 created created_reached eq_refl). Defined.
End EnumsDemo.
