(* ===== verification/Seed.v ===== *)
(** The seed command ([cmd/falseflag-seed]): its dataset and the requests it sends
    to the API, one after the other, over the REST listener.

    A run is a program of HTTP calls.  A call is answered by the server with a
    status, or fails in transport, in which case the server ran it or not.  The
    names of the dataset go into the paths as they are; the environment variables
    are arguments, and so is how often the clock allowed another health check. *)
From stdpp Require Import base list strings numbers gmap relations.
From Stdlib Require Import Ascii String ZArith Lia.
From S2P Require Import Prelude Text Literal Json Float64 GoTime GoValue Ir Compile Rollout Eval AnyTrip Trace Segments Sdk Proxy Db Store SqliteText AuditCursor Api Handlers AuditApi Wire Rpc Mux Bodies Http.

(** ** The dataset ([dataset.go]) *)

Record demoEnvironment : Type := mkEnv { de_Slug : string; de_DisplayName : string }.
Record demoFlag : Type := mkFlag {
  df_Key : string; df_Name : string; df_Description : string; df_ValueType : string; df_Strategy : string;
  df_IR : list (string * goval); df_SourceText : string
}.
Record demoProject : Type := mkDemoProject {
  dp_Slug : string; dp_DisplayName : string; dp_Strategy : string; dp_Environments : list demoEnvironment; dp_Flags : list demoFlag
}.

(** A raw string literal, which cannot contain a back quote; here it stands for a
    double quote. *)
Fixpoint raw_literal (s : string) : string :=
  match s with
  | EmptyString => EmptyString
  | String c r => String (if Ascii.eqb c "`"%char then dq else c) (raw_literal r)
  end.
Definition tree_value (vt : string) (def : goval) (rules : list goval) : list (string * goval) :=
  [("default", def); ("rules", VSlice rules); ("value_type", VStr vt)].
Definition rule_value (id : string) (when_ : list (string * goval)) (v : goval) : goval :=
  VMap [("id", VStr id); ("value", v); ("when", VMap when_)].
Definition eq_value (attr v : string) : list (string * goval) := [("attr", VStr attr); ("kind", VStr "eq"); ("value", VStr v)].
Definition cel_value (src : string) : list (string * goval) := [("kind", VStr "cel"); ("source", VStr src)].

Definition acme_web : demoProject := mkDemoProject "acme-web" "Acme Web App" "json"
  [mkEnv "production" "Production"; mkEnv "staging" "Staging"; mkEnv "dev" "Development"]
  [mkFlag "checkout-redesign" "Checkout Redesign" "New checkout flow for paying users." "boolean" "json"
     (tree_value "boolean" (VBool false)
        [rule_value "paid" [("attr", VStr "user.plan"); ("kind", VStr "in"); ("values", VSlice [VStr "pro"; VStr "enterprise"])] (VBool true)])
     (raw_literal "{
  `value_type`: `boolean`,
  `default`: false,
  `rules`: [
    {
      `id`: `paid`,
      `when`: { `kind`: `in`, `attr`: `user.plan`, `values`: [`pro`, `enterprise`] },
      `value`: true
    }
  ]
}");
   mkFlag "max-cart-items" "Max Cart Items" "Cart-size cap." "number" "json"
     (tree_value "number" (VInt 25) [rule_value "vip" (eq_value "user.plan" "enterprise") (VInt 250)])
     (raw_literal "{
  `value_type`: `number`,
  `default`: 25,
  `rules`: [
    {
      `id`: `vip`,
      `when`: { `kind`: `eq`, `attr`: `user.plan`, `value`: `enterprise` },
      `value`: 250
    }
  ]
}");
   mkFlag "checkout-banner-text" "Checkout Banner Text" "Promo banner copy." "string" "json"
     (tree_value "string" (VStr "Free shipping on orders over $50")
        [rule_value "us" (eq_value "request.country" "us") (VStr "Free shipping on US orders over $25")])
     (raw_literal "{
  `value_type`: `string`,
  `default`: `Free shipping on orders over $50`,
  `rules`: [
    {
      `id`: `us`,
      `when`: { `kind`: `eq`, `attr`: `request.country`, `value`: `us` },
      `value`: `Free shipping on US orders over $25`
    }
  ]
}");
   mkFlag "proxy-smoke-bool" "Proxy Smoke" "Used by tests/hurl/11-proxy-evaluate.hurl." "boolean" "json"
     (tree_value "boolean" (VBool false) [rule_value "pro-only" (eq_value "user.plan" "pro") (VBool true)])
     (raw_literal "{
  `value_type`: `boolean`,
  `default`: false,
  `rules`: [
    {
      `id`: `pro-only`,
      `when`: { `kind`: `eq`, `attr`: `user.plan`, `value`: `pro` },
      `value`: true
    }
  ]
}")].

Definition acme_mobile : demoProject := mkDemoProject "acme-mobile" "Acme Mobile App" "cel"
  [mkEnv "production" "Production"; mkEnv "staging" "Staging"]
  [mkFlag "force-update-required" "Force Update Required" "Block clients below min version." "boolean" "cel"
     (tree_value "boolean" (VBool false) [rule_value "older-than-3.5" (cel_value "ctx.client.version < '3.5.0'") (VBool true)])
     (raw_literal "{
  `value_type`: `boolean`,
  `default`: false,
  `rules`: [
    {
      `id`: `older-than-3.5`,
      `when`: { `kind`: `cel`, `source`: `ctx.client.version < '3.5.0'` },
      `value`: true
    }
  ]
}");
   mkFlag "push-notification-cadence" "Push Cadence (min)" "Throttle in minutes." "number" "cel"
     (tree_value "number" (VInt 60) [rule_value "active-users" (cel_value "ctx.user.session_count > 30") (VInt 15)])
     (raw_literal "{
  `value_type`: `number`,
  `default`: 60,
  `rules`: [
    {
      `id`: `active-users`,
      `when`: { `kind`: `cel`, `source`: `ctx.user.session_count > 30` },
      `value`: 15
    }
  ]
}")].

Definition acme_internal : demoProject := mkDemoProject "acme-internal" "Acme Internal Tools" "typescript"
  [mkEnv "production" "Production"]
  [mkFlag "feature-x" "Feature X" "Internal beta feature, gated to @acme.internal emails." "boolean" "typescript"
     (tree_value "boolean" (VBool false)
        [rule_value "internal-only" [("attr", VStr "user.email"); ("kind", VStr "matches"); ("pattern", VStr ".+@acme\.internal$")] (VBool true)])
     (raw_literal "import { FalseFlag as ff } from `@falseflag/config`;

export default ff.flag({
  value_type: `boolean`,
  default: false,
  rules: [
    ff.rule(
      `internal-only`,
      ff.matches(`user.email`, `.+@acme\\.internal$`),
      true,
    ),
  ],
});
");
   mkFlag "dark-mode-default" "Dark Mode Default" "Roll dark mode out to 50% of pro users." "boolean" "typescript"
     (tree_value "boolean" (VBool false)
        [rule_value "pro-rollout-50"
           [("kind", VStr "all");
            ("of", VSlice [VMap (eq_value "user.plan" "pro");
                           VMap [("attr", VStr "user.id"); ("kind", VStr "rollout"); ("percent", VInt 50); ("salt", VStr "dark-mode-default-v1")]])]
           (VBool true)])
     (raw_literal "import { FalseFlag as ff } from `@falseflag/config`;

export default ff.flag({
  value_type: `boolean`,
  default: false,
  rules: [
    ff.rule(
      `pro-rollout-50`,
      ff.all(
        ff.eq(`user.plan`, `pro`),
        ff.rollout(`user.id`, `dark-mode-default-v1`, 50),
      ),
      true,
    ),
  ],
});
")].

Definition demoProjects : list demoProject := [acme_web; acme_mobile; acme_internal].

(** ** Programs of HTTP calls *)

Inductive sprog (A : Type) : Type :=
| SDone (a : A)
(** Send a request; the status of the answer, or a failure. *)
| SSend (r : http_request) (k : option Z -> sprog A).
Arguments SDone {A} a.
Arguments SSend {A} r k.
Fixpoint sbind {A B} (p : sprog A) (f : A -> sprog B) : sprog B :=
  match p with SDone a => f a | SSend r k => SSend r (fun s => sbind (k s) f) end.

Inductive seed_err : Type := Encoding | Transport | Status (status : Z) | TimedOut.
(** A step returns nil ([None]) or an error, at which the run stops. *)
Definition step : Type := sprog (option seed_err).
Definition then_ (p q : step) : step := sbind p (fun e => match e with Some _ => SDone e | None => q end).
Fixpoint steps {A} (f : A -> step) (l : list A) : step :=
  match l with [] => SDone None | x :: r => then_ (f x) (steps f r) end.

(** [getenv]: an empty value counts as unset. *)
Definition getenv (v : option string) (fallback : string) : string :=
  match v with Some s => if String.eqb s "" then fallback else s | None => fallback end.

Section client.
Variable actor : string.

(** [client.do]. *)
Definition do_request (method path : string) (body : goval) : sprog (result seed_err Z) :=
  match marshal body with
  | None => SDone (Err Encoding)
  | Some j => SSend (mkHttp method path "" actor false j) (fun s => SDone (of_option Transport s))
  end.
Definition expect (accepted : list Z) (p : sprog (result seed_err Z)) : step :=
  sbind p (fun r => SDone (match r with
                           | Err e => Some e
                           | Ok status => if bool_decide (status ∈ accepted) then None else Some (Status status)
                           end)).

Definition projects_path : string := "/v1/projects".
Definition createProject (p : demoProject) : step :=
  expect [200; 201; 409] (do_request "POST" projects_path
    (VMap [("config_strategy", VStr (dp_Strategy p)); ("display_name", VStr (dp_DisplayName p)); ("slug", VStr (dp_Slug p))])).
Definition createEnvironment (projectSlug : string) (e : demoEnvironment) : step :=
  expect [200; 201; 409] (do_request "POST" ("/v1/projects/" +:+ projectSlug +:+ "/environments")
    (VMap [("name", VStr (de_DisplayName e)); ("slug", VStr (de_Slug e))])).
Definition publishFlag (projectSlug : string) (f : demoFlag) : step :=
  then_ (expect [200; 201; 409] (do_request "POST" ("/v1/projects/" +:+ projectSlug +:+ "/flags")
           (VMap [("default_value", default VNil (map_get "default" (df_IR f))); ("description", VStr (df_Description f));
                  ("key", VStr (df_Key f)); ("name", VStr (df_Name f)); ("value_type", VStr (df_ValueType f))])))
        (expect [200; 201] (do_request "PUT" ("/v1/projects/" +:+ projectSlug +:+ "/flags/" +:+ df_Key f)
           (VMap [("source", VMap (df_IR f)); ("source_text", VStr (df_SourceText f)); ("strategy", VStr (df_Strategy f))]))).
Definition compileSnapshot (projectSlug : string) : step :=
  expect [200; 201] (do_request "POST" ("/v1/projects/" +:+ projectSlug +:+ "/snapshots") (VMap [])).

(** [waitForHealth]: check, and while the deadline has not passed ([late]), again. *)
Fixpoint waitForHealth (late : list bool) : step :=
  SSend (mkHttp "GET" "/healthz" "" "" false "") (fun s =>
    if bool_decide (s = Some 200) then SDone None
    else match late with false :: later => waitForHealth later | _ => SDone (Some TimedOut) end).

(** The loop body of [run] for one project, and [run]. *)
Definition seed_project (p : demoProject) : step :=
  then_ (createProject p) (then_ (steps (createEnvironment (dp_Slug p)) (dp_Environments p))
    (then_ (steps (publishFlag (dp_Slug p)) (dp_Flags p)) (compileSnapshot (dp_Slug p)))).
Definition seed_run (late : list bool) (dataset : list demoProject) : step :=
  then_ (waitForHealth late) (steps seed_project dataset).
End client.

(** ** The published history of a flag *)

(** The versions published under a slug and a key, oldest first; none when the
    project or the flag does not exist. *)
Definition history (slug key : string) (db : DB) : list entry :=
  match GetProjectBySlug slug db with
  | Err _ => []
  | Ok proj => match GetFlagByKey (P_ID proj) key db with Err _ => [] | Ok flag => log db (F_ID flag) end
  end.

Lemma find_app {A} (p : A -> bool) l x :
  List.find p (l ++ [x]) = match List.find p l with Some y => Some y | None => if p x then Some x else None end.
Proof. induction l as [|y l IH]; [done|]. cbn. by destruct (p y). Qed.

(** A new project has no flags, and a new flag no versions. *)
Lemma project_history id now slug name s db r db' :
  q_CreateProject id now slug name s db = Ok (r, db') -> db_ok db -> forall sl key, history sl key db' = history sl key db.
Proof.
  unfold q_CreateProject. intros H Hok sl key. inv_stmt H.
  unfold history, GetProjectBySlug, q_GetProjectBySlug, query_one. cbn [projects set_projects]. rewrite find_app.
  destruct (List.find _ (projects db)) as [row|]; [done|]. cbn [pr_slug]. destruct (String.eqb slug sl); [|done].
  cbn [of_option found P_ID sqliteProjectFromRow pr_id]. unfold GetFlagByKey, q_GetFlagByKey, query_one. cbn [flags set_projects].
  destruct (List.find _ (flags db)) as [f|] eqn:E; [|done]. exfalso. apply find_in in E as [Hin Hf]. apply andb_true_iff in Hf as [Hf _].
  apply (ok_flag_project _ Hok) in Hin. unfold project_exists in Hin. apply Z.eqb_eq in Hf. rewrite Hf in Hin.
  apply has_true in Hin as (p & Hp & Ep). rewrite has_false in G0. by rewrite (G0 p Hp) in Ep.
Qed.
Lemma flag_history id now p k n d vt df db r db' :
  q_CreateFlag id now p k n d vt df db = Ok (r, db') -> db_ok db -> forall sl key, history sl key db' = history sl key db.
Proof.
  unfold q_CreateFlag. intros H Hok sl key. inv_stmt H.
  unfold history. change (GetProjectBySlug sl (set_flags _ db)) with (GetProjectBySlug sl db). destruct (GetProjectBySlug sl db) as [proj|]; [|done].
  unfold GetFlagByKey, q_GetFlagByKey, query_one. cbn [flags set_flags]. rewrite find_app.
  destruct (List.find _ (flags db)) as [row|]; [done|]. cbn [fr_project fr_key]. destruct ((p =? P_ID proj) && String.eqb k key); [|done].
  cbn [of_option found F_ID sqliteFlagFromRow fr_id]. unfold log, versions_of. cbn [flag_versions set_flags].
  replace (List.filter (fun r => vr_flag r =? id) (flag_versions db)) with (@nil FlagVersionRow); [done|]. symmetry.
  destruct (List.filter _ (flag_versions db)) as [|v l] eqn:E; [done|]. exfalso.
  assert (In v (List.filter (fun r => vr_flag r =? id) (flag_versions db))) as [Hin Hv]%filter_In by (rewrite E; by left).
  apply (ok_version_flag _ Hok) in Hin. apply Z.eqb_eq in Hv. rewrite Hv in Hin. unfold flag_exists in Hin.
  apply has_true in Hin as (f & Hf & Ef). rewrite has_false in G0. by rewrite (G0 f Hf) in Ef.
Qed.

(** Changes that publish nothing. *)
Definition kept (db db' : DB) : Prop := db_ok db -> db_ok db' /\ forall slug key, history slug key db' = history slug key db.
#[export] Instance kept_preorder : PreOrder kept.
Proof.
  split; [by intros db Hok|]. intros x y z H1 H2 Hx. destruct (H1 Hx) as [Hy E1]. destruct (H2 Hy) as [Hz E2].
  split; [done|]. intros. by rewrite E2, E1.
Qed.

Lemma within_kept {X} ev (fn : draw -> write X) :
  (forall d db x db', fn d db = Ok (x, db') -> stmt db db' /\ (db_ok db -> forall slug key, history slug key db' = history slug key db)) ->
  within kept X ev fn.
Proof.
  intros Hf envs dr ds db. destruct (WithAudit_cases envs dr ev (fun n => fn (ds n)) db) as [[e ->]|(k & x & db1 & row & _ & Ef & -> & Ea)]; cbn.
  - done.
  - intros Hok. destruct (Hf _ _ _ _ Ef) as [Hs Hh]. specialize (Hh Hok). apply stmt_ok in Hs; [|done].
    apply wrap_ok in Ea as (r & Ea & _). split; [eapply stmt_ok; [by eapply st_audit | done]|]. exact Hh.
Qed.
#[local] Ltac one_kept st q hist :=
  apply within_kept; intros d db x db' H; apply wrap_ok in H as (r & H & _); split; [by eapply st|]; hist.
Lemma kept_project ev slug n s : within kept _ ev (fun d => tx_CreateProject d slug n s).
Proof. one_kept st_project q_CreateProject ltac:(intros Hok; by eapply project_history). Qed.
Lemma kept_flag ev p : within kept _ ev (fun d => tx_CreateFlag d p).
Proof. one_kept st_flag q_CreateFlag ltac:(intros Hok; by eapply flag_history). Qed.
Lemma kept_environment ev p s n : within kept _ ev (fun d => tx_CreateEnvironment d p s n).
Proof. one_kept st_env q_CreateEnvironment ltac:(intros _ slug key; unfold q_CreateEnvironment in H; by inv_stmt H). Qed.
Lemma kept_snapshot ev p : within kept _ ev (fun d => tx_CompileSnapshot d p).
Proof. one_kept st_snapshot q_CreateSnapshot ltac:(intros _ slug key; unfold q_CreateSnapshot in H; by inv_stmt H). Qed.
#[local] Hint Resolve kept_project kept_flag kept_environment kept_snapshot : ff.

(** ** What is published under one name stays there *)

Lemma nodup_key {A K} (k : A -> K) l x y : NoDup (map k l) -> In x l -> In y l -> k x = k y -> x = y.
Proof.
  induction l as [|z l IH]; [done|]. cbn. intros [Hz Hnd]%NoDup_cons Hx Hy E.
  assert (forall w, In w l -> k z = k w -> False) as Hne.
  { intros w Hw Ew. apply Hz. rewrite Ew. apply list_elem_of_In. by apply in_map. }
  destruct Hx as [<-|Hx], Hy as [<-|Hy]; try done; [by destruct (Hne y Hy) | by destruct (Hne x Hx) | by apply IH].
Qed.

(** A flag has one slug and one key. *)
Lemma one_name db slug key proj flag sl k p f :
  db_ok db -> GetProjectBySlug slug db = Ok proj -> GetFlagByKey (P_ID proj) key db = Ok flag ->
  GetProjectBySlug sl db = Ok p -> GetFlagByKey (P_ID p) k db = Ok f -> F_ID f = F_ID flag -> sl = slug /\ k = key.
Proof.
  intros Hok. unfold GetProjectBySlug, GetFlagByKey, q_GetProjectBySlug, q_GetFlagByKey, query_one.
  destruct (List.find _ (projects db)) as [pr1|] eqn:E1; [|done]. intros [= <-]. cbn [P_ID sqliteProjectFromRow].
  destruct (List.find (fun r => (fr_project r =? pr_id pr1) && _) (flags db)) as [fr1|] eqn:E2; [|done]. intros [= <-].
  destruct (List.find (fun r => String.eqb (pr_slug r) sl) (projects db)) as [pr2|] eqn:E3; [|done]. intros [= <-]. cbn [P_ID sqliteProjectFromRow].
  destruct (List.find (fun r => (fr_project r =? pr_id pr2) && _) (flags db)) as [fr2|] eqn:E4; [|done]. intros [= <-]. cbn [F_ID sqliteFlagFromRow].
  intros E. apply find_in in E1 as [H1 S1], E2 as [H2 S2], E3 as [H3 S3], E4 as [H4 S4].
  assert (fr2 = fr1) as -> by (eapply (nodup_key fr_id); [apply (ok_flag_ids _ Hok) | done..]).
  apply andb_true_iff in S2 as [S2 K2], S4 as [S4 K4]. apply Z.eqb_eq in S2, S4. apply String.eqb_eq in K2, K4, S1, S3.
  assert (pr2 = pr1) as -> by (eapply (nodup_key pr_id); [apply (ok_project_ids _ Hok) | done | done | congruence]). split; congruence.
Qed.

(** A new entry in the log of one flag, seen through the names. *)
Lemma history_append db db' slug key proj flag e :
  db_ok db -> GetProjectBySlug slug db = Ok proj -> GetFlagByKey (P_ID proj) key db = Ok flag ->
  projects db' = projects db -> flags db' = flags db ->
  (forall f, log db' f = if f =? F_ID flag then log db f ++ [e] else log db f) ->
  forall sl k, history sl k db' = history sl k db ++ (if String.eqb sl slug && String.eqb k key then [e] else []).
Proof.
  intros Hok Hp Hf Ep Ef Hl sl k. unfold history.
  assert (GetProjectBySlug sl db' = GetProjectBySlug sl db) as -> by (unfold GetProjectBySlug, q_GetProjectBySlug; by rewrite Ep).
  destruct (String.eqb_spec sl slug) as [->|Hs].
  - rewrite Hp. assert (GetFlagByKey (P_ID proj) k db' = GetFlagByKey (P_ID proj) k db) as -> by (unfold GetFlagByKey, q_GetFlagByKey; by rewrite Ef).
    destruct (String.eqb_spec k key) as [->|Hk]; cbn [andb].
    + rewrite Hf. by rewrite Hl, Z.eqb_refl.
    + rewrite app_nil_r. destruct (GetFlagByKey (P_ID proj) k db) as [f|] eqn:E; [|done]. rewrite Hl.
      destruct (Z.eqb_spec (F_ID f) (F_ID flag)) as [Ei|]; [|done]. by destruct (one_name _ _ _ _ _ _ _ _ _ Hok Hp Hf Hp E Ei).
  - cbn [andb]. rewrite app_nil_r. destruct (GetProjectBySlug sl db) as [p|] eqn:E1; [|done].
    assert (GetFlagByKey (P_ID p) k db' = GetFlagByKey (P_ID p) k db) as -> by (unfold GetFlagByKey, q_GetFlagByKey; by rewrite Ef).
    destruct (GetFlagByKey (P_ID p) k db) as [f|] eqn:E2; [|done]. rewrite Hl.
    destruct (Z.eqb_spec (F_ID f) (F_ID flag)) as [Ei|]; [|done]. by destruct (one_name _ _ _ _ _ _ _ _ _ Hok Hp Hf E1 E2 Ei).
Qed.

(** ** The publish body arrives *)

(** A value sent as JSON is received as another: numbers as floats. *)
Definition received (v w : goval) : Prop := exists d, doc_of v = Some d /\ wf_doc d /\ any_of d = (w, false).
Lemma received_plain v : plain v = true -> received v v.
Proof. apply plain_decodes. Qed.

Lemma publish_arrives s t v w j :
  utf8_valid s = true -> utf8_valid t = true -> received v w ->
  marshal (VMap [("source", v); ("source_text", VStr t); ("strategy", VStr s)]) = Some j ->
  Z.of_nat (String.length j) <= max_body -> decode_publish j = Some (mkPublish s w (Some t)).
Proof.
  intros Hs Ht (d & Ed & Hw & Ea) Ej Hl. set (m := [("source", d); ("source_text", enc_str t); ("strategy", enc_str s)]).
  assert (j = print (JObj m)) as ->.
  { unfold marshal in Ej. cbn [doc_of mapM mbind option_bind fst snd] in Ej. rewrite Ed in Ej. by apply Some_inj in Ej. }
  unfold decode_publish, decodeJSON. rewrite Decode_print by (done || (repeat (apply wf_members; [reflexivity | first [exact Hw | apply wf_enc_str]|]); apply wf_nil)).
  unfold m.
  cbn [mbind option_bind strict_struct dec_struct_with dec_strict].
  field_at 0%nat. unfold dec_any. rewrite Ea. cbn [mbind option_bind rq_PubStrategy rq_SourceText zero_publish].
  field_at 1%nat. cbn [dec_str_ptr enc_str mbind option_bind rq_PubStrategy rq_Source rq_SourceText]. rewrite (unquote_quote t Ht).
  field_at 2%nat. cbn [dec_str enc_str mbind option_bind rq_PubStrategy rq_Source rq_SourceText]. by rewrite (unquote_quote s Hs).
Qed.

(** ** Executions *)

Section executions.
Context {RX : RegexpLib} {CEL : CelLib} {TS : TsLib} {UT : UuidText} {UL : UuidLaws} {PL : ParamLib} {PW : ParamLaws}.
Variables (fuel : nat) (actor : string).
Abbreviation api := (mkAPI true).

Definition sent_to (r : http_request) (db : DB) (s : option Z) (db' : DB) : Prop :=
  (exists h, exec (serve fuel api r) db h db' /\ s = Some (http_status h)) \/
  (s = None /\ (db' = db \/ exists h, exec (serve fuel api r) db h db')).
Fixpoint sexec {A} (p : sprog A) (db : DB) (a : A) (db' : DB) : Prop :=
  match p with
  | SDone x => a = x /\ db' = db
  | SSend r k => exists s db1, sent_to r db s db1 /\ sexec (k s) db1 a db'
  end.

Lemma sexec_bind {A B} (p : sprog A) (f : A -> sprog B) db b db' :
  sexec (sbind p f) db b db' -> exists a db1, sexec p db a db1 /\ sexec (f a) db1 b db'.
Proof.
  revert db. induction p as [x|r k IH]; intros db; cbn [sbind sexec]; [eauto|].
  intros (s & db1 & Hs & (a & db2 & H1 & H2)%IH). eauto 8.
Qed.
Lemma sexec_then p q db db' : sexec (then_ p q) db None db' -> exists db1, sexec p db None db1 /\ sexec q db1 None db'.
Proof. intros H. apply sexec_bind in H as ([e|] & db1 & H1 & H2); [by destruct H2 as [[=] _] | eauto]. Qed.
Lemma sexec_expect accepted method path body db db' :
  sexec (expect accepted (do_request actor method path body)) db None db' ->
  exists j h, marshal body = Some j /\ exec (serve fuel api (mkHttp method path "" actor false j)) db h db' /\ In (http_status h) accepted.
Proof.
  unfold expect, do_request. intros H. apply sexec_bind in H as (r & db1 & H & [E ->]). destruct r as [st|]; [|done].
  case_bool_decide as Hin; [|done]. destruct (marshal body) as [j|]; [|by destruct H as [[=] _]]. exists j.
  destruct H as (s & db2 & [(h & Hx & ->)|[-> _]] & [E2 ->]); [|discriminate E2]. injection E2 as ->.
  exists h. split_and!; [done | exact Hx | by apply list_elem_of_In].
Qed.

(** A request to a handler that publishes nothing. *)
Lemma kept_call q j h db db' :
  addressable q -> writes (within kept) (handle api actor (arrived fuel j q)) ->
  exec (serve fuel api (sent actor j q)) db h db' -> kept db db'.
Proof. intros Hq Hw H. rewrite serve_sent in H by done. apply exec_unmap in H as (x & _ & H). exact (exec_within kept _ _ _ _ Hw H). Qed.

Lemma create_kept q j : match q with ReqCreateProject _ | ReqCreateEnvironment _ _ | ReqCreateFlag _ _ | ReqCompileSnapshot _ _ => True | _ => False end ->
  writes (within kept) (handle api actor (arrived fuel j q)).
Proof.
  destruct q; try done; intros _; cbn [arrived handle requireStore a_Store]; walk_writes.
  unfold select_environment. repeat case_match; walk_writes.
Qed.

(** The entry a flag of the dataset is published as. *)
Definition entry_for (f : demoFlag) (e : entry) : Prop :=
  en_strategy e = df_Strategy f /\ en_text e = df_SourceText f /\
  exists w source get resolved c, received (VMap (df_IR f)) w /\ marshal w = Some source /\
    resolveSegmentRefs (storeSegmentResolver get) fuel (compile_input (df_Strategy f) source (df_SourceText f)) = Ok resolved /\
    Compile (df_Strategy f) resolved = Ok c /\ enc_tree (IR c) = Some (en_compiled e).

(** What a step adds to the histories: for each slug and key, entries for some
    flags, in order. *)
Definition adds (fs : string -> string -> list demoFlag) (db db' : DB) : Prop :=
  server_ok db -> server_ok db' /\ forall slug key, exists es,
    history slug key db' = history slug key db ++ es /\ Forall2 entry_for (fs slug key) es.
Definition no_flags (slug key : string) : list demoFlag := [].
Definition at_name (slug : string) (f : demoFlag) (sl k : string) : list demoFlag :=
  if String.eqb sl slug && String.eqb k (df_Key f) then [f] else [].
Definition flags_at (p : demoProject) (sl k : string) : list demoFlag := flat_map (fun f => at_name (dp_Slug p) f sl k) (dp_Flags p).
Definition dataset_flags (ds : list demoProject) (sl k : string) : list demoFlag := flat_map (fun p => flags_at p sl k) ds.

Lemma adds_trans f1 f2 f3 db1 db2 db3 :
  adds f1 db1 db2 -> adds f2 db2 db3 -> (forall sl k, f3 sl k = f1 sl k ++ f2 sl k) -> adds f3 db1 db3.
Proof.
  intros H1 H2 Hf Hok. destruct (H1 Hok) as [Hok2 E1]. destruct (H2 Hok2) as [Hok3 E2]. split; [done|]. intros sl k.
  destruct (E1 sl k) as (es1 & L1 & F1), (E2 sl k) as (es2 & L2 & F2). exists (es1 ++ es2). split; [by rewrite L2, L1, app_assoc|].
  rewrite Hf. by apply Forall2_app.
Qed.
Lemma kept_adds db db' : (server_ok db -> server_ok db') -> kept db db' -> adds no_flags db db'.
Proof.
  intros Hs Hk Hok. split; [auto|]. intros sl k. exists []. destruct (Hk (proj1 Hok)) as [_ E]. rewrite E, app_nil_r. split; [done | constructor].
Qed.

Lemma serve_ok r h db db' : exec (serve fuel api r) db h db' -> server_ok db -> server_ok db'.
Proof. intros H. apply server_reach_ok. exact (exec_within server_reach _ _ _ _ (serve_writes fuel api r) H). Qed.

Lemma created accepted q method path body db db' :
  address q = (method, path) -> addressable q ->
  match q with ReqCreateProject _ | ReqCreateEnvironment _ _ | ReqCreateFlag _ _ | ReqCompileSnapshot _ _ => True | _ => False end ->
  sexec (expect accepted (do_request actor method path body)) db None db' -> adds no_flags db db'.
Proof.
  intros Ea Hq Hc H. apply sexec_expect in H as (j & h & _ & H & _).
  assert (mkHttp method path "" actor false j = sent actor j q) as E by (unfold sent; by rewrite Ea). rewrite E in H.
  apply kept_adds; [by eapply serve_ok | eapply kept_call; [exact Hq | by apply create_kept | exact H]].
Qed.

(** A flag whose requests arrive as they were meant. *)
Definition publish_body (f : demoFlag) : goval :=
  VMap [("source", VMap (df_IR f)); ("source_text", VStr (df_SourceText f)); ("strategy", VStr (df_Strategy f))].
Definition flag_fits (f : demoFlag) : Prop :=
  plain_seg (df_Key f) = true /\ utf8_valid (df_Strategy f) = true /\ utf8_valid (df_SourceText f) = true /\
  exists w j, received (VMap (df_IR f)) w /\ marshal (publish_body f) = Some j /\ Z.of_nat (String.length j) <= max_body.
Definition project_fits (p : demoProject) : Prop := plain_seg (dp_Slug p) = true /\ Forall flag_fits (dp_Flags p).

Lemma publish_adds slug f db db' :
  plain_seg slug = true -> flag_fits f ->
  sexec (expect [200; 201] (do_request actor "PUT" ("/v1/projects/" +:+ slug +:+ "/flags/" +:+ df_Key f) (publish_body f))) db None db' ->
  adds (at_name slug f) db db'.
Proof.
  intros Hslug (Hkey & Hst & Htx & w & j & Hw & Ej & Hl) H Hok. apply sexec_expect in H as (j' & h & Ej' & H & Hin).
  rewrite Ej in Ej'. injection Ej' as <-.
  assert (mkHttp "PUT" ("/v1/projects/" +:+ slug +:+ "/flags/" +:+ df_Key f) "" actor false j = sent actor j (ReqPublish 0 slug (df_Key f) None)) as E.
  { unfold sent, address, project_path. cbn [fst snd path_of]. by rewrite (sapp_nil_r (df_Key f)). }
  rewrite E in H. split; [by eapply serve_ok|]. rewrite serve_sent in H by done. apply exec_unmap in H as (resp & -> & H). cbn [arrived handle] in H.
  rewrite (publish_arrives _ _ _ _ _ Hst Htx Hw Ej Hl) in H.
  assert (success resp) as Hs by (unfold success; cbn [http_status] in Hin; destruct Hin as [E2|[E2|[]]]; lia).
  destruct (publish_success _ _ _ _ _ _ _ _ H Hs) as
    (proj & flag & get & source & resolved & c & i & d & v & db1 & row & Hp & Hf & _ & Es & Er & Hc & Ei & Hv & _ & ->).
  cbn [rq_Source rq_PubStrategy rq_SourceText derefString default] in *. pose proof Hv as Hlog. apply publish_log in Hlog as (Hlog & _); [|apply Hok].
  cbn [pv_FlagID] in Hlog. pose proof Hv as Hdb. apply publish_db in Hdb as (r & Hdb & _).
  intros sl k. match type of Hlog with context [entry_params ?p] =>
    pose proof (history_append db (set_audit (audit_events db1 ++ [row]) db1) slug (df_Key f) proj flag (entry_params p) (proj1 Hok) Hp Hf
      ltac:(by rewrite Hdb) ltac:(by rewrite Hdb) Hlog sl k) as Hh end.
  eexists. split; [exact Hh|].
  unfold at_name. destruct (String.eqb sl slug && String.eqb k (df_Key f)); [|constructor]. apply Forall2_cons_2; [|constructor].
  split_and!; [done | done|].
  exists w, source, get, resolved, c. split_and!; try done.
  cbn [entry_params en_compiled pv_Compiled]. unfold sqliteRawMessage. destruct (String.eqb_spec i "") as [->|]; [by apply enc_tree_nonempty in Ei | done].
Qed.

Lemma steps_adds {A} (f : A -> step) (fs : A -> string -> string -> list demoFlag) l db db' :
  (forall x db db', In x l -> sexec (f x) db None db' -> adds (fs x) db db') ->
  sexec (steps f l) db None db' -> adds (fun sl k => flat_map (fun x => fs x sl k) l) db db'.
Proof.
  revert db. induction l as [|x l IH]; intros db Hf; cbn [steps].
  - intros [_ ->] Hok. split; [done|]. intros sl k. exists []. rewrite app_nil_r. split; [done | constructor].
  - intros H. apply sexec_then in H as (db1 & H1 & H2). eapply adds_trans; [apply Hf; [by left | exact H1] | apply IH; [|exact H2]|done].
    intros. apply Hf; [by right | done].
Qed.

Lemma flag_adds slug f db db' :
  plain_seg slug = true -> flag_fits f -> sexec (publishFlag actor slug f) db None db' -> adds (at_name slug f) db db'.
Proof.
  intros Hslug Hf H. apply sexec_then in H as (db1 & H1 & H2).
  eapply adds_trans; [apply (created [200; 201; 409] (ReqCreateFlag slug None) "POST" ("/v1/projects/" +:+ slug +:+ "/flags") _ _ _ eq_refl Hslug I H1)
    | by apply publish_adds | done].
Qed.

Lemma project_adds p db db' : project_fits p -> sexec (seed_project actor p) db None db' -> adds (flags_at p) db db'.
Proof.
  intros [Hslug Hfl] H. apply sexec_then in H as (db1 & H1 & H). apply sexec_then in H as (db2 & H2 & H).
  apply sexec_then in H as (db3 & H3 & H4).
  assert (adds no_flags db db1) as A1 by (by apply (created _ (ReqCreateProject None) _ _ _ _ _ eq_refl I I H1)).
  assert (adds (fun sl k => flat_map (fun _ => []) (dp_Environments p)) db1 db2) as A2.
  { apply (steps_adds _ (fun _ => no_flags) _ _ _ (fun e d d' _ He => created [200; 201; 409] (ReqCreateEnvironment (dp_Slug p) None) "POST"
      ("/v1/projects/" +:+ dp_Slug p +:+ "/environments") _ _ _ eq_refl Hslug I He) H2). }
  assert (adds (flags_at p) db2 db3) as A3.
  { apply (steps_adds (publishFlag actor (dp_Slug p)) (at_name (dp_Slug p))); [|exact H3]. intros f d d' Hin. apply flag_adds; [done|].
    rewrite List.Forall_forall in Hfl. by apply Hfl. }
  assert (adds no_flags db3 db') as A4
    by (by apply (created _ (ReqCompileSnapshot (dp_Slug p) None) "POST" ("/v1/projects/" +:+ dp_Slug p +:+ "/snapshots") _ _ _ eq_refl Hslug I H4)).
  assert (forall l : list demoEnvironment, flat_map (fun _ => []) l = @nil demoFlag) as Hnil by (induction l; done).
  eapply adds_trans; [exact A1 | eapply adds_trans; [exact A2 | eapply adds_trans; [exact A3 | exact A4 | reflexivity] | reflexivity]|].
  intros sl k. cbn. by rewrite Hnil, app_nil_r.
Qed.

Lemma health_kept late db db' : sexec (waitForHealth late) db None db' -> db' = db.
Proof.
  assert (serve fuel api (mkHttp "GET" "/healthz" "" "" false "") = Done (HHealth "healthz")) as E by reflexivity.
  revert db. induction late as [|b late IH]; intros db; cbn [waitForHealth sexec];
    intros (s & db1 & Hs & H); (assert (db1 = db) as -> by (destruct Hs as [(h & Hx & _)|[_ [->|[h Hx]]]]; [|done|]; rewrite E in Hx; apply Hx));
    case_bool_decide; try by destruct H.
  destruct b; [by destruct H | by apply IH].
Qed.

Lemma run_adds late ds db db' : Forall project_fits ds -> sexec (seed_run actor late ds) db None db' -> adds (dataset_flags ds) db db'.
Proof.
  intros Hd H. apply sexec_then in H as (db1 & H1%health_kept & H2). subst db1. apply (steps_adds (seed_project actor) flags_at); [|exact H2].
  intros p d d' Hin. apply project_adds. rewrite List.Forall_forall in Hd. by apply Hd.
Qed.
End executions.

(** The dataset arrives as it was meant. *)
Lemma received_scan v d w : doc_of v = Some d -> scan (print d) = Some d -> any_of d = (w, false) -> received v w.
Proof. intros Hd Hs Ha. exists d. split_and!; [done | by eapply scan_sound | done]. Qed.
Lemma fits_by f d w j :
  plain_seg (df_Key f) && utf8_valid (df_Strategy f) && utf8_valid (df_SourceText f) = true ->
  doc_of (VMap (df_IR f)) = Some d -> scan (print d) = Some d -> any_of d = (w, false) ->
  marshal (publish_body f) = Some j -> Z.of_nat (String.length j) <= max_body -> flag_fits f.
Proof. intros [[? ?]%andb_true_iff ?]%andb_true_iff Hd Hs Ha Hj Hl. split_and!; try done. exists w, j. eauto using received_scan. Qed.
Ltac fits := eapply fits_by; [vm_compute; reflexivity.. | vm_compute; congruence].
Lemma web_fits : Forall flag_fits (dp_Flags acme_web).
Proof. do 4 (apply List.Forall_cons; [fits|]). apply List.Forall_nil. Qed.
Lemma mobile_fits : Forall flag_fits (dp_Flags acme_mobile).
Proof. do 2 (apply List.Forall_cons; [fits|]). apply List.Forall_nil. Qed.
Lemma internal_fits : Forall flag_fits (dp_Flags acme_internal).
Proof. do 2 (apply List.Forall_cons; [fits|]). apply List.Forall_nil. Qed.
Lemma dataset_fits : Forall project_fits demoProjects.
Proof.
  apply List.Forall_cons; [split; [vm_compute; reflexivity | exact web_fits]|].
  apply List.Forall_cons; [split; [vm_compute; reflexivity | exact mobile_fits]|].
  apply List.Forall_cons; [split; [vm_compute; reflexivity | exact internal_fits]|]. apply List.Forall_nil.
Qed.

Section seed.
Context {RX : RegexpLib} {CEL : CelLib} {TS : TsLib} {UT : UuidText} {UL : UuidLaws} {PL : ParamLib} {PW : ParamLaws}.

(** C18. A run of the seed command that reports success, on a server whatever it
    already holds: the server's invariant holds after it, and the published history
    of every slug and key is what it was, followed by one entry for each flag of the
    dataset with that name, in the dataset's order, and by nothing else.  The entry
    has the flag's strategy and source text and the compiled form of the source the
    server received.  So a second run publishes every flag again. *)
Theorem seed_publishes fuel actor late db db' :
  server_ok db -> sexec fuel (seed_run actor late demoProjects) db None db' ->
  server_ok db' /\ forall slug key, exists es,
    history slug key db' = history slug key db ++ es /\ Forall2 (entry_for fuel) (dataset_flags demoProjects slug key) es.
Proof. intros Hok H. exact (run_adds fuel actor late demoProjects db db' dataset_fits H Hok). Qed.
End seed.

(** ** A run of the seed on an empty server, and another *)

Module SeedDemo.
Import Demo HandlersDemo SqliteTextDemo HttpDemo.

(** A TypeScript library that knows the two source texts of the dataset. *)
#[export] Instance seed_ts : TsLib := {|
  Build s := ([], [s]);
  VM := string;
  JsValue := unit;
  goja_New := "";
  RunString _ js := Ok js;
  vm_Get _ _ := Some tt;
  vm_SetModule vm _ := Some vm;
  obj_Get _ _ _ := Some tt;
  Export vm _ := match List.find (fun f => String.eqb (df_SourceText f) vm) (dp_Flags acme_internal) with
                 | Some f => VMap (df_IR f)
                 | None => VNil
                 end;
  dslShim := ""
|}.

(** Every request answered, with fresh draws from [n] on. *)
Fixpoint srun {A} (p : sprog A) (n : Z) (db : DB) : option (A * DB) :=
  match p with
  | SDone a => Some (a, db)
  | SSend r k =>
      match run (demo_draws n) (serve 1 (mkAPI true) r) db with
      | (Some h, db') => srun (k (Some (http_status h))) (n + 1) db'
      | (None, _) => None
      end
  end.
Lemma srun_sexec {A} (p : sprog A) n db a db' : srun p n db = Some (a, db') -> sexec 1 p db a db'.
Proof.
  revert n db. induction p as [x|r k IH]; intros n db; cbn [srun sexec]; [by intros [= -> ->]|].
  destruct (run _ _ db) as [[h|] db1] eqn:E; [|done]. intros H. exists (Some (http_status h)), db1.
  split; [left; exists h; split; [by eapply run_exec | done] | by eapply IH].
Qed.

(** The state after a run, and that the run reports success. *)
Definition seeded (n : Z) (db : DB) : DB := match srun (seed_run "seed" [] demoProjects) n db with Some (_, db') => db' | None => db end.
Definition first : DB := seeded 1 empty_db.
Definition second : DB := seeded 201 first.
Lemma first_run : srun (seed_run "seed" [] demoProjects) 1 empty_db = Some (None, first).
Proof. vm_compute. reflexivity. Qed.
Lemma second_run : srun (seed_run "seed" [] demoProjects) 201 first = Some (None, second).
Proof. vm_compute. reflexivity. Qed.

Lemma seed_publishes_witness :
  (exists es, history "acme-web" "checkout-redesign" second = history "acme-web" "checkout-redesign" first ++ es /\
    Forall2 (entry_for 1) (dataset_flags demoProjects "acme-web" "checkout-redesign") es) /\
  List.length (history "acme-web" "checkout-redesign" first) = 1%nat /\
  List.length (history "acme-web" "checkout-redesign" second) = 2%nat.
Proof.
  split_and!; [|vm_compute; reflexivity..].
  destruct (seed_publishes 1 "seed" [] empty_db first empty_server_ok (srun_sexec _ _ _ _ _ first_run)) as [Hok _].
  apply (seed_publishes 1 "seed" [] first second Hok (srun_sexec _ _ _ _ _ second_run)).
Defined.
End SeedDemo.
