(* ===== verification/DeepCopy.v ===== *)
(** The deep copies of the custom resources
    ([operator/api/v1alpha1/zz_generated.deepcopy.go]): what controller-runtime calls
    before it hands out an object of its cache, so that a reconciler that writes to
    its copy does not write to the cache.

    The store is a heap of cells: what a pointer points to, the elements of a slice
    and the entries of a map.  A value is a scalar, a struct or a reference.  The
    functions of the source are statement lists over the fields of a struct; the
    deep copies of the types of k8s.io/apimachinery are parameters, of arbitrary
    shapes, that the theorems assume to be deep. *)
From stdpp Require Import base list strings numbers gmap.
From Stdlib Require Import String.
From S2P Require Import Prelude.

(** ** The heap *)

Inductive val : Type :=
| Scal (s : string)
| Ref (a : option nat)
| Struct (fs : list (string * val)).
Inductive cell : Type :=
| Target (v : val)
| Array (l : list val)
| Table (m : gmap string string).
Abbreviation heap := (gmap nat cell).

(** The kinds of fields. *)
Inductive shape : Type :=
| SScal
| SStruct (fs : list (string * shape))
| SPtr (s : shape)
| SSlice (s : shape)
| SMap.

(** What a value is, without the addresses. *)
Inductive tree : Type :=
| TScal (s : string)
| TNil
| TStruct (fs : list (string * tree))
| TPtr (t : tree)
| TSlice (l : list tree)
| TMap (m : gmap string string).

(** A value of a shape in a heap, the tree it reads as and the cells it reaches. *)
Inductive reads (h : heap) : shape -> val -> tree -> gset nat -> Prop :=
| reads_scal x : reads h SScal (Scal x) (TScal x) ∅
| reads_struct ss fs ts X : reads_fields h ss fs ts X -> reads h (SStruct ss) (Struct fs) (TStruct ts) X
| reads_ptr_nil s : reads h (SPtr s) (Ref None) TNil ∅
| reads_ptr s a v t X : h !! a = Some (Target v) -> reads h s v t X -> reads h (SPtr s) (Ref (Some a)) (TPtr t) ({[a]} ∪ X)
| reads_slice_nil s : reads h (SSlice s) (Ref None) TNil ∅
| reads_slice s a l ts X : h !! a = Some (Array l) -> reads_elems h s l ts X -> reads h (SSlice s) (Ref (Some a)) (TSlice ts) ({[a]} ∪ X)
| reads_map_nil : reads h SMap (Ref None) TNil ∅
| reads_map a m : h !! a = Some (Table m) -> reads h SMap (Ref (Some a)) (TMap m) {[a]}
with reads_fields (h : heap) : list (string * shape) -> list (string * val) -> list (string * tree) -> gset nat -> Prop :=
| reads_no_field : reads_fields h [] [] [] ∅
| reads_field f s v t X ss fs ts Y :
    reads h s v t X -> reads_fields h ss fs ts Y -> reads_fields h ((f, s) :: ss) ((f, v) :: fs) ((f, t) :: ts) (X ∪ Y)
with reads_elems (h : heap) : shape -> list val -> list tree -> gset nat -> Prop :=
| reads_no_elem s : reads_elems h s [] [] ∅
| reads_elem s v t X l ts Y : reads h s v t X -> reads_elems h s l ts Y -> reads_elems h s (v :: l) (t :: ts) (X ∪ Y).
Scheme reads_mind := Induction for reads Sort Prop
with reads_fields_mind := Induction for reads_fields Sort Prop
with reads_elems_mind := Induction for reads_elems Sort Prop.
Combined Scheme reads_mutind from reads_mind, reads_fields_mind, reads_elems_mind.

(** ** Copying *)

(** A copier takes what is in [in] and the heap, and gives what is in [out] after it. *)
Definition copier : Type := val -> heap -> heap * val.
Definition alloc (h : heap) (c : cell) : nat * heap := let a := fresh (dom h) in (a, <[a := c]> h).

(** [out.X = in.X]. *)
Definition assign : copier := fun v h => (h, v).
(** [*out = new(T); in.DeepCopyInto(out)], unless nil. *)
Definition new_into (D : copier) : copier := fun v h =>
  match v with
  | Ref (Some a) =>
      match h !! a with
      | Some (Target x) =>
          let '(b, h1) := alloc h (Target (Scal "")) in
          let '(h2, x') := D x h1 in (<[b := Target x']> h2, Ref (Some b))
      | _ => (h, v)
      end
  | _ => (h, v)
  end.
(** A new slice of the same length and the loop over the elements, unless nil. *)
Fixpoint copy_elems (D : copier) (b i : nat) (l : list val) (h : heap) : heap :=
  match l with
  | [] => h
  | x :: r =>
      let '(h1, x') := D x h in
      let h2 := match h1 !! b with Some (Array out) => <[b := Array (<[i := x']> out)]> h1 | _ => h1 end in
      copy_elems D b (S i) r h2
  end.
Definition make_slice (D : copier) : copier := fun v h =>
  match v with
  | Ref (Some a) =>
      match h !! a with
      | Some (Array l) =>
          let '(b, h1) := alloc h (Array (replicate (List.length l) (Scal ""))) in (copy_elems D b 0 l h1, Ref (Some b))
      | _ => (h, v)
      end
  | _ => (h, v)
  end.
(** A new slice filled by [copy]: elements without references. *)
Definition copy_slice : copier := make_slice assign.
(** A new map and the loop over the entries, unless nil. *)
Definition make_map : copier := fun v h =>
  match v with
  | Ref (Some a) =>
      match h !! a with
      | Some (Table m) => let '(b, h1) := alloc h (Table (map_fold (fun k x out => <[k := x]> out) ∅ m)) in (h1, Ref (Some b))
      | _ => (h, v)
      end
  | _ => (h, v)
  end.

(** A [DeepCopyInto]: [*out = *in], then its statements, each for a field. *)
Definition get (f : string) {A} (l : list (string * A)) : option A := snd <$> List.find (fun e => String.eqb e.1 f) l.
Definition put (f : string) (v : val) (l : list (string * val)) : list (string * val) :=
  map (fun e => if String.eqb e.1 f then (e.1, v) else e) l.
Fixpoint statements (l : list (string * copier)) (fs outs : list (string * val)) (h : heap) : heap * list (string * val) :=
  match l with
  | [] => (h, outs)
  | (f, D) :: r =>
      match get f fs with
      | Some v => let '(h1, v') := D v h in statements r fs (put f v' outs) h1
      | None => statements r fs outs h
      end
  end.
Definition DeepCopyInto (l : list (string * copier)) : copier := fun v h =>
  match v with
  | Struct fs => let '(h', outs) := statements l fs fs h in (h', Struct outs)
  | _ => (h, v)
  end.
(** [DeepCopy] and [DeepCopyObject]: nil for nil. *)
Definition DeepCopy (D : copier) : copier := new_into D.
Definition DeepCopyObject (D : copier) : copier := fun v h =>
  let '(h', c) := DeepCopy D v h in (h', match c with Ref (Some _) => c | _ => Ref None end).

(** ** Deep copiers *)

(** The copy reads as the original, in a heap that only grew, and reaches only cells
    that were not there. *)
Definition deep (s : shape) (D : copier) : Prop :=
  forall h v t X, reads h s v t X ->
  exists h' v' X', D v h = (h', v') /\ h ⊆ h' /\ reads h' s v' t X' /\ X' ## dom h.

Lemma reads_agree_all h :
  (forall s v t X, reads h s v t X -> forall h', (forall a, a ∈ X -> h' !! a = h !! a) -> reads h' s v t X) /\
  (forall ss fs ts X, reads_fields h ss fs ts X -> forall h', (forall a, a ∈ X -> h' !! a = h !! a) -> reads_fields h' ss fs ts X) /\
  (forall s l ts X, reads_elems h s l ts X -> forall h', (forall a, a ∈ X -> h' !! a = h !! a) -> reads_elems h' s l ts X).
Proof.
  apply reads_mutind; intros; try by constructor.
  - constructor; auto.
  - econstructor; [rewrite H0 by set_solver; done | apply H; set_solver].
  - econstructor; [rewrite H0 by set_solver; done | apply H; set_solver].
  - constructor. rewrite H by set_solver. done.
  - constructor; [apply H | apply H0]; set_solver.
  - constructor; [apply H | apply H0]; set_solver.
Qed.
Lemma reads_agree h h' s v t X : (forall a, a ∈ X -> h' !! a = h !! a) -> reads h s v t X -> reads h' s v t X.
Proof. intros Ha H. by apply (proj1 (reads_agree_all h) s v t X H). Qed.
Lemma elems_agree h h' s l ts X : (forall a, a ∈ X -> h' !! a = h !! a) -> reads_elems h s l ts X -> reads_elems h' s l ts X.
Proof. intros Ha H. by apply (proj2 (proj2 (reads_agree_all h)) s l ts X H). Qed.
Lemma fields_agree h h' ss fs ts X : (forall a, a ∈ X -> h' !! a = h !! a) -> reads_fields h ss fs ts X -> reads_fields h' ss fs ts X.
Proof. intros Ha H. by apply (proj1 (proj2 (reads_agree_all h)) ss fs ts X H). Qed.
Lemma reads_dom_all h :
  (forall s v t X, reads h s v t X -> X ⊆ dom h) /\
  (forall ss fs ts X, reads_fields h ss fs ts X -> X ⊆ dom h) /\
  (forall s l ts X, reads_elems h s l ts X -> X ⊆ dom h).
Proof.
  apply reads_mutind; intros; try set_solver.
  - apply elem_of_dom_2 in e. set_solver.
  - apply elem_of_dom_2 in e. set_solver.
  - apply elem_of_dom_2 in e. set_solver.
Qed.
Lemma reads_dom h s v t X : reads h s v t X -> X ⊆ dom h.
Proof. apply (reads_dom_all h). Qed.
Lemma elems_dom h s l ts X : reads_elems h s l ts X -> X ⊆ dom h.
Proof. apply (reads_dom_all h). Qed.

Lemma sub_lookup (h h' : heap) a : h ⊆ h' -> a ∈ dom h -> h' !! a = h !! a.
Proof. intros Hs [c Hc]%elem_of_dom. rewrite Hc. by eapply lookup_weaken. Qed.
Lemma reads_grow h h' s v t X : h ⊆ h' -> reads h s v t X -> reads h' s v t X.
Proof. intros Hs H. eapply reads_agree; [|exact H]. intros a Ha. apply sub_lookup; [done|]. by apply (reads_dom _ _ _ _ _ H). Qed.
Lemma elems_grow h h' s l ts X : h ⊆ h' -> reads_elems h s l ts X -> reads_elems h' s l ts X.
Proof. intros Hs H. eapply elems_agree; [|exact H]. intros a Ha. apply sub_lookup; [done|]. by apply (elems_dom _ _ _ _ _ H). Qed.

(** A fresh cell. *)
Lemma alloc_spec h c : let '(b, h1) := alloc h c in b ∉ dom h /\ h1 = (<[b := c]> h).
Proof. cbn. split; [apply is_fresh | done]. Qed.
Lemma insert_grow (h : heap) b c : b ∉ dom h -> h ⊆ <[b := c]> h.
Proof. intros H. apply insert_subseteq. by apply not_elem_of_dom. Qed.
(** Writing to a cell that was not in [h] leaves [h] in place. *)
Lemma insert_keeps (h h1 : heap) b c : b ∉ dom h -> h ⊆ h1 -> h ⊆ <[b := c]> h1.
Proof. intros Hb Hs. apply insert_subseteq_r; [by apply not_elem_of_dom | done]. Qed.

(** Shapes without references. *)
Fixpoint flat (s : shape) : bool :=
  match s with SScal => true | SStruct fs => forallb (fun e => flat e.2) fs | _ => false end.
Lemma flat_all h :
  (forall s v t X, reads h s v t X -> flat s = true -> X = ∅) /\
  (forall ss fs ts X, reads_fields h ss fs ts X -> forallb (fun e => flat e.2) ss = true -> X = ∅) /\
  (forall s l ts X, reads_elems h s l ts X -> flat s = true -> X = ∅).
Proof.
  apply reads_mutind; try done.
  - intros f s v t X ss fs ts Y _ IH1 _ IH2 [H1 H2]%andb_true_iff. rewrite IH1, IH2 by done. set_solver.
  - intros s v t X l ts Y _ IH1 _ IH2 H. rewrite IH1, IH2 by done. set_solver.
Qed.
Lemma deep_assign s : flat s = true -> deep s assign.
Proof.
  intros Hf h v t X H. rewrite (proj1 (flat_all h) _ _ _ _ H Hf) in H. exists h, v, ∅. split_and!; [done..|set_solver].
Qed.

Lemma deep_new s D : deep s D -> deep (SPtr s) (new_into D).
Proof.
  intros HD h v t X H. inversion H as [| |s'|s' a x t' X' Ha Hx| | | |]; subst.
  - exists h, (Ref None), ∅. split_and!; [done | done | constructor | set_solver].
  - cbn [new_into]. rewrite Ha. pose proof (alloc_spec h (Target (Scal ""))) as Hb. destruct (alloc _ _) as [b h1]. destruct Hb as [Hb ->].
    destruct (HD (<[b := Target (Scal "")]> h) x t' X') as (h2 & x' & Y & E & Hs & Hr & Hd).
    { eapply reads_grow; [by apply insert_grow | exact Hx]. }
    rewrite E. exists (<[b := Target x']> h2), (Ref (Some b)), ({[b]} ∪ Y). rewrite dom_insert_L in Hd. split_and!; [done| | |].
    + apply insert_keeps; [done|]. etransitivity; [by apply insert_grow | exact Hs].
    + econstructor; [apply lookup_insert_eq|]. eapply reads_agree; [|exact Hr]. intros a' Ha'. rewrite lookup_insert_ne; [done | set_solver].
    + set_solver.
Qed.

Lemma elems_snoc h s l ts X v t Y : reads_elems h s l ts X -> reads h s v t Y -> reads_elems h s (l ++ [v]) (ts ++ [t]) (X ∪ Y).
Proof.
  intros H Hv. induction H as [s|s v0 t0 X0 l ts Z H0 H IH]; cbn.
  - replace (∅ ∪ Y) with (Y ∪ ∅ : gset nat) by set_solver. constructor; [done | constructor].
  - replace (X0 ∪ Z ∪ Y) with (X0 ∪ (Z ∪ Y)) by set_solver. constructor; auto.
Qed.
Lemma copy_elems_spec s D b h0 : deep s D -> b ∉ dom h0 -> forall l ts X, reads_elems h0 s l ts X ->
  forall h done tsd Y, h0 ⊆ h -> h !! b = Some (Array (done ++ replicate (List.length l) (Scal ""))) ->
  reads_elems h s done tsd Y -> Y ## dom h0 -> b ∉ Y ->
  let h' := copy_elems D b (List.length done) l h in
  h0 ⊆ h' /\ exists l' Y', h' !! b = Some (Array l') /\ reads_elems h' s l' (tsd ++ ts) Y' /\ Y' ## dom h0 /\ b ∉ Y'.
Proof.
  intros HD Hb l ts X Hl. induction Hl as [s|s x t X0 l ts Z Hx Hl IH]; intros h done tsd Y Hs Ha Hd HY HbY; cbn [copy_elems].
  - split; [done|]. exists done, Y. cbn in Ha. rewrite !app_nil_r in *. done.
  - destruct (HD h x t X0 (reads_grow _ _ _ _ _ _ Hs Hx)) as (h1 & x' & Y1 & -> & Hs1 & Hr1 & Hd1).
    assert (h1 !! b = h !! b) as Hb1 by (apply sub_lookup; [done | by eapply elem_of_dom_2]). rewrite Hb1, Ha.
    assert (b ∉ Y1) as HbY1 by (apply elem_of_dom_2 in Ha; set_solver).
    cbn [replicate]. rewrite insert_app_r_alt by lia. rewrite Nat.sub_diag. cbn [List.length replicate].
    change (<[0%nat := x']> (Scal "" :: ?r)) with (x' :: r). replace (done ++ x' :: replicate (List.length l) (Scal ""))
      with ((done ++ [x']) ++ replicate (List.length l) (Scal "")) by (by rewrite <- app_assoc).
    set (h2 := <[b := _]> h1). assert (forall a, a <> b -> h2 !! a = h1 !! a) as Hne by (intros a Hab; unfold h2; by rewrite lookup_insert_ne).
    specialize (IH HD h2 (done ++ [x']) (tsd ++ [t]) (Y ∪ Y1)). rewrite length_app in IH. cbn [List.length] in IH. rewrite Nat.add_1_r in IH.
    replace (tsd ++ t :: ts) with ((tsd ++ [t]) ++ ts) by (by rewrite <- app_assoc). apply IH.
    + apply insert_keeps; [done | by etransitivity].
    + unfold h2. by rewrite lookup_insert_eq.
    + apply elems_snoc.
      * eapply elems_agree; [|exact Hd]. intros a Hin. rewrite Hne by set_solver. apply sub_lookup; [done|]. by apply (elems_dom _ _ _ _ _ Hd).
      * eapply reads_agree; [|exact Hr1]. intros a Hin. apply Hne. set_solver.
    + apply (subseteq_dom (D := gset nat)) in Hs. set_solver.
    + set_solver.
Qed.
Lemma deep_slice s D : deep s D -> deep (SSlice s) (make_slice D).
Proof.
  intros HD h v t X H. inversion H as [| | | |s'|s' a l ts X' Ha Hl| |]; subst.
  - exists h, (Ref None), ∅. split_and!; [done | done | constructor | set_solver].
  - cbn [make_slice]. rewrite Ha. pose proof (alloc_spec h (Array (replicate (List.length l) (Scal "")))) as Hb.
    destruct (alloc _ _) as [b h1]. destruct Hb as [Hb ->].
    destruct (copy_elems_spec s D b h HD Hb l ts X' Hl (<[b := Array (replicate (List.length l) (Scal ""))]> h) [] [] ∅)
      as (Hs & l' & Y & Hl' & Hr & Hd & HbY); [by apply insert_grow | by rewrite lookup_insert_eq | constructor | set_solver | set_solver|].
    eexists _, _, ({[b]} ∪ Y). split_and!; [reflexivity | exact Hs | econstructor; [exact Hl' | exact Hr] | set_solver].
Qed.
Lemma deep_copy_slice s : flat s = true -> deep (SSlice s) copy_slice.
Proof. intros H. by apply deep_slice, deep_assign. Qed.

Lemma map_rebuild (m : gmap string string) : map_fold (fun k x out => <[k := x]> out) ∅ m = m.
Proof. apply (map_fold_weak_ind (fun r m => r = m)); [done|]. by intros k x m' r _ ->. Qed.
Lemma deep_map : deep SMap make_map.
Proof.
  intros h v t X H. inversion H as [| | | | | | |a m Ha]; subst.
  - exists h, (Ref None), ∅. split_and!; [done | done | constructor | set_solver].
  - cbn [make_map]. rewrite Ha, map_rebuild. pose proof (alloc_spec h (Table m)) as Hb. destruct (alloc _ _) as [b h1]. destruct Hb as [Hb ->].
    eexists _, _, {[b]}. split_and!; [reflexivity | by apply insert_grow | constructor; by rewrite lookup_insert_eq | set_solver].
Qed.

(** ** Statement lists *)

(** The copy of a struct on its way: the names whose statements are to come, and for
    every field the original and what is in [out]. *)
Inductive progress (h0 h : heap) (pending : list string) :
  list (string * shape) -> list (string * val) -> list (string * val) -> list (string * tree) -> Prop :=
| pr_nil : progress h0 h pending [] [] [] []
| pr_done f s v v' t X Y ss fs outs ts :
    reads h0 s v t X -> reads h s v' t Y -> Y ## dom h0 -> progress h0 h pending ss fs outs ts ->
    progress h0 h pending ((f, s) :: ss) ((f, v) :: fs) ((f, v') :: outs) ((f, t) :: ts)
| pr_todo f s v t X ss fs outs ts :
    reads h0 s v t X -> In f pending -> progress h0 h pending ss fs outs ts ->
    progress h0 h pending ((f, s) :: ss) ((f, v) :: fs) ((f, v) :: outs) ((f, t) :: ts).

Definition covers (ss : list (string * shape)) (names : list string) : bool :=
  forallb (fun e => existsb (String.eqb e.1) names || flat e.2) ss && bool_decide (NoDup (map fst ss)).

Lemma progress_start h names ss fs ts X :
  reads_fields h ss fs ts X -> forallb (fun e => existsb (String.eqb e.1) names || flat e.2) ss = true -> progress h h names ss fs fs ts.
Proof.
  induction 1 as [|f s v t X0 ss fs ts Y Hv H IH]; [constructor|]. cbn. intros [Hc Hr]%andb_true_iff.
  destruct (existsb (String.eqb f) names) eqn:E.
  - eapply pr_todo; [exact Hv | | by apply IH]. apply existsb_exists in E as (g & Hg & ->%String.eqb_eq). done.
  - cbn in Hc. pose proof Hv as Hv'. rewrite (proj1 (flat_all h) _ _ _ _ Hv Hc) in Hv'.
    eapply pr_done; [exact Hv | exact Hv' | set_solver | by apply IH].
Qed.
Lemma progress_names h0 h pending ss fs outs ts : progress h0 h pending ss fs outs ts -> map fst fs = map fst ss.
Proof. induction 1; cbn; congruence. Qed.
Lemma get_none f {A} (l : list (string * A)) : ~ In f (map fst l) -> get f l = None.
Proof.
  unfold get. induction l as [|[g x] l IH]; [done|]. cbn. intros H. destruct (String.eqb_spec g f); [tauto|]. apply IH. tauto.
Qed.
Lemma put_none f v l : ~ In f (map fst l) -> put f v l = l.
Proof.
  induction l as [|[g x] l IH]; [done|]. cbn. intros H. destruct (String.eqb_spec g f); [tauto|]. f_equal. apply IH. tauto.
Qed.
Lemma progress_outs h0 h pending ss fs outs ts : progress h0 h pending ss fs outs ts -> map fst outs = map fst ss.
Proof. induction 1; cbn; congruence. Qed.

(** A pending name whose field is not there, or is not pending any more. *)
Lemma progress_weaken h0 h h' f pending ss fs outs ts :
  progress h0 h (f :: pending) ss fs outs ts -> h ⊆ h' -> ~ In f (map fst ss) -> progress h0 h' pending ss fs outs ts.
Proof.
  intros H Hs. induction H as [|g s v v' t X Y ss fs outs ts H0 H1 H2 _ IH|g s v t X ss fs outs ts H0 H1 _ IH]; cbn; intros Hn.
  - constructor.
  - eapply pr_done; [exact H0 | by eapply reads_grow | done | apply IH; tauto].
  - eapply pr_todo; [exact H0 | | apply IH; tauto]. destruct H1 as [->|H1]; [tauto | done].
Qed.
Lemma put_here f v x l : put f v ((f, x) :: l) = (f, v) :: put f v l.
Proof. cbn. by rewrite String.eqb_refl. Qed.
Lemma put_there f g v x l : g <> f -> put f v ((g, x) :: l) = (g, x) :: put f v l.
Proof. intros H. cbn. apply String.eqb_neq in H. by rewrite H. Qed.
(** The statement of the first field. *)
Lemma progress_here h0 h f s D v t X pending ss fs outs ts x :
  reads h0 s v t X -> deep s D -> h0 ⊆ h -> ~ In f (map fst ss) -> progress h0 h (f :: pending) ss fs outs ts ->
  exists h' v', D v h = (h', v') /\ h ⊆ h' /\ progress h0 h' pending ((f, s) :: ss) ((f, v) :: fs) (put f v' ((f, x) :: outs)) ((f, t) :: ts).
Proof.
  intros H0 HD Hs Hf Hp. destruct (HD h v t X (reads_grow _ _ _ _ _ _ Hs H0)) as (h' & v' & X' & E & Hs' & Hr & Hd).
  exists h', v'. split_and!; [done | done|]. rewrite put_here, put_none by (by rewrite (progress_outs _ _ _ _ _ _ _ Hp)).
  eapply pr_done; [exact H0 | exact Hr | | by eapply progress_weaken]. apply (subseteq_dom (D := gset nat)) in Hs. set_solver.
Qed.
Lemma progress_step h0 h f D pending ss fs outs ts v :
  progress h0 h (f :: pending) ss fs outs ts -> h0 ⊆ h -> NoDup (map fst ss) -> get f fs = Some v ->
  (forall s, get f ss = Some s -> deep s D) ->
  exists h' v', D v h = (h', v') /\ h ⊆ h' /\ progress h0 h' pending ss fs (put f v' outs) ts.
Proof.
  intros H Hs. induction H as [|g s x x' t X Y ss fs outs ts H0 H1 H2 Hp IH|g s x t X ss fs outs ts H0 H1 Hp IH]; [done| |];
    intros [Hg Hnd]%NoDup_cons Hv HD; unfold get in Hv, HD; cbn in Hv, HD; rewrite list_elem_of_In in Hg;
    (destruct (String.eqb_spec g f) as [->|Hne]; [injection Hv as ->; eapply progress_here; eauto|]);
    destruct (IH Hnd Hv HD) as (h' & v' & E & Hs' & Hr); exists h', v'; (split_and!; [done | done|]); rewrite put_there by done.
  - eapply pr_done; [exact H0 | by eapply reads_grow | done | done].
  - eapply pr_todo; [exact H0 | | done]. by destruct H1.
Qed.
Lemma progress_end h0 h ss fs outs ts : progress h0 h [] ss fs outs ts -> exists X, reads_fields h ss outs ts X /\ X ## dom h0.
Proof.
  induction 1 as [|g s v v' t X Y ss fs outs ts H0 H1 H2 _ (Z & HZ & Hd)|g s v t X ss fs outs ts H0 []].
  - exists ∅. split; [constructor | set_solver].
  - exists (Y ∪ Z). split; [by constructor | set_solver].
Qed.

Lemma statements_spec h0 ss fs ts l h outs :
  progress h0 h (map fst l) ss fs outs ts -> h0 ⊆ h -> NoDup (map fst ss) ->
  Forall (fun e => forall s, get e.1 ss = Some s -> deep s e.2) l ->
  exists h' outs' X, statements l fs outs h = (h', outs') /\ h ⊆ h' /\ reads_fields h' ss outs' ts X /\ X ## dom h0.
Proof.
  intros Hp Hs Hnd Hl. revert h outs Hp Hs. induction Hl as [|[f D] l HD Hl IH]; intros h outs Hp Hs; cbn [statements map fst] in *.
  - apply progress_end in Hp as (X & HX & Hd). by exists h, outs, X.
  - destruct (get f fs) as [v|] eqn:E.
    + destruct (progress_step _ _ _ D _ _ _ _ _ _ Hp Hs Hnd E HD) as (h1 & v' & Ed & Hs1 & Hp1). rewrite Ed.
      destruct (IH h1 _ Hp1) as (h' & outs' & X & E' & Hs' & HX); [by etransitivity|]. exists h', outs', X.
      split_and!; [done | by etransitivity | apply HX | apply HX].
    + apply IH; [|done]. eapply progress_weaken; [exact Hp | done|]. rewrite <- (progress_names _ _ _ _ _ _ _ Hp). intros Hin.
      unfold get in E. apply in_map_iff in Hin as ([g x] & <- & Hin). destruct (List.find _ fs) eqn:Ef; [done|].
      eapply List.find_none in Ef; [|exact Hin]. cbn in Ef. by rewrite String.eqb_refl in Ef.
Qed.

(** A function whose statements cover every field with references, each by a deep
    copier of the field's shape, is deep. *)
Lemma deep_into ss l :
  covers ss (map fst l) = true -> Forall (fun e => forall s, get e.1 ss = Some s -> deep s e.2) l -> deep (SStruct ss) (DeepCopyInto l).
Proof.
  unfold covers. intros [Hc Hnd%bool_decide_eq_true]%andb_true_iff Hl h v t X H.
  inversion H as [|ss' fs ts X' Hf| | | | | |]; subst. cbn [DeepCopyInto].
  destruct (statements_spec h ss fs ts l h fs (progress_start _ _ _ _ _ _ Hf Hc) (reflexivity h) Hnd Hl) as (h' & outs & Y & -> & Hs & HY & Hd).
  exists h', (Struct outs), Y. split_and!; [done | done | by constructor | done].
Qed.
Lemma deep_object s D : deep s D -> deep (SPtr s) (DeepCopyObject D).
Proof.
  intros HD h v t X H. destruct (deep_new s D HD h v t X H) as (h' & v' & X' & E & Hs & Hr & Hd). unfold DeepCopyObject, DeepCopy. rewrite E.
  exists h', v', X'. split_and!; [|done..]. f_equal. by inversion Hr.
Qed.

(** ** Isolation *)

(** A copy and its original: both read as the same value, and whatever is written to
    the cells of one leaves the other as it is. *)
Definition isolated (s : shape) (D : copier) : Prop :=
  forall h v t X, reads h s v t X ->
  exists h' v' X', D v h = (h', v') /\ reads h' s v t X /\ reads h' s v' t X' /\
    (forall h'', (forall a, a ∉ X' -> h'' !! a = h' !! a) -> reads h'' s v t X) /\
    (forall h'', (forall a, a ∉ X -> h'' !! a = h' !! a) -> reads h'' s v' t X').
Lemma deep_isolated s D : deep s D -> isolated s D.
Proof.
  intros HD h v t X H. destruct (HD h v t X H) as (h' & v' & X' & E & Hs & Hr & Hd). pose proof (reads_grow _ _ _ _ _ _ Hs H) as H'.
  pose proof (reads_dom _ _ _ _ _ H) as Hx. exists h', v', X'. split_and!; [done | done | done| |].
  - intros h'' Ha. eapply reads_agree; [|exact H']. intros a Hin. apply Ha. set_solver.
  - intros h'' Ha. eapply reads_agree; [|exact Hr]. intros a Hin. apply Ha. set_solver.
Qed.

(** ** The resources *)

(** The types of k8s.io/apimachinery that the resources hold: their shapes and deep
    copies. *)
Class MetaLib : Type := {
  S_TypeMeta : shape; S_ObjectMeta : shape; S_ListMeta : shape; S_Condition : shape; S_RawExtension : shape; S_Time : shape;
  ObjectMeta_DeepCopyInto : copier; ListMeta_DeepCopyInto : copier; Condition_DeepCopyInto : copier;
  RawExtension_DeepCopyInto : copier; Time_DeepCopy : copier
}.
Class MetaLaws {ML : MetaLib} : Prop := {
  flat_TypeMeta : flat S_TypeMeta = true;
  deep_ObjectMeta : deep S_ObjectMeta ObjectMeta_DeepCopyInto;
  deep_ListMeta : deep S_ListMeta ListMeta_DeepCopyInto;
  deep_Condition : deep S_Condition Condition_DeepCopyInto;
  deep_RawExtension : deep S_RawExtension RawExtension_DeepCopyInto;
  deep_Time : deep (SPtr S_Time) Time_DeepCopy
}.

Section resources.
Context {ML : MetaLib}.
Definition EnvironmentSpec_shape : shape := SStruct [("ProjectSlug", SScal); ("Slug", SScal); ("Name", SScal)].
Definition EnvironmentSpec_DeepCopyInto : copier := DeepCopyInto [].
Definition EnvironmentSpec_DeepCopy : copier := DeepCopy EnvironmentSpec_DeepCopyInto.
Definition EnvironmentStatus_shape : shape := SStruct [("Conditions", SSlice S_Condition); ("ObservedGeneration", SScal);
  ("LastSyncTime", SPtr S_Time)].
Definition EnvironmentStatus_DeepCopyInto : copier := DeepCopyInto [("Conditions", make_slice Condition_DeepCopyInto);
  ("LastSyncTime", Time_DeepCopy)].
Definition EnvironmentStatus_DeepCopy : copier := DeepCopy EnvironmentStatus_DeepCopyInto.
Definition Environment_shape : shape := SStruct [("TypeMeta", S_TypeMeta); ("ObjectMeta", S_ObjectMeta); ("Spec", EnvironmentSpec_shape);
  ("Status", EnvironmentStatus_shape)].
Definition Environment_DeepCopyInto : copier := DeepCopyInto [("TypeMeta", assign); ("ObjectMeta", ObjectMeta_DeepCopyInto);
  ("Spec", assign); ("Status", EnvironmentStatus_DeepCopyInto)].
Definition Environment_DeepCopy : copier := DeepCopy Environment_DeepCopyInto.
Definition Environment_DeepCopyObject : copier := DeepCopyObject Environment_DeepCopyInto.
Definition EnvironmentList_shape : shape := SStruct [("TypeMeta", S_TypeMeta); ("ListMeta", S_ListMeta);
  ("Items", SSlice Environment_shape)].
Definition EnvironmentList_DeepCopyInto : copier := DeepCopyInto [("TypeMeta", assign); ("ListMeta", ListMeta_DeepCopyInto);
  ("Items", make_slice Environment_DeepCopyInto)].
Definition EnvironmentList_DeepCopy : copier := DeepCopy EnvironmentList_DeepCopyInto.
Definition EnvironmentList_DeepCopyObject : copier := DeepCopyObject EnvironmentList_DeepCopyInto.
Definition FlagRule_shape : shape := SStruct [("ID", SScal); ("When", S_RawExtension); ("Value", SPtr S_RawExtension);
  ("RolloutRef", SScal)].
Definition FlagRule_DeepCopyInto : copier := DeepCopyInto [("When", RawExtension_DeepCopyInto);
  ("Value", new_into RawExtension_DeepCopyInto)].
Definition FlagRule_DeepCopy : copier := DeepCopy FlagRule_DeepCopyInto.
Definition FlagSpecBinding_shape : shape := SStruct [("Environment", SScal); ("Default", SPtr S_RawExtension);
  ("Rules", SSlice FlagRule_shape)].
Definition FlagSpecBinding_DeepCopyInto : copier := DeepCopyInto [("Default", new_into RawExtension_DeepCopyInto);
  ("Rules", make_slice FlagRule_DeepCopyInto)].
Definition FlagSpecBinding_DeepCopy : copier := DeepCopy FlagSpecBinding_DeepCopyInto.
Definition FlagSpec_shape : shape := SStruct [("ProjectSlug", SScal); ("Key", SScal); ("Name", SScal); ("ValueType", SScal);
  ("Default", S_RawExtension); ("Rules", SSlice FlagRule_shape); ("Bindings", SSlice FlagSpecBinding_shape)].
Definition FlagSpec_DeepCopyInto : copier := DeepCopyInto [("Default", RawExtension_DeepCopyInto);
  ("Rules", make_slice FlagRule_DeepCopyInto); ("Bindings", make_slice FlagSpecBinding_DeepCopyInto)].
Definition FlagSpec_DeepCopy : copier := DeepCopy FlagSpec_DeepCopyInto.
Definition FlagStatus_shape : shape := SStruct [("Conditions", SSlice S_Condition); ("ObservedGeneration", SScal);
  ("LastSyncTime", SPtr S_Time); ("LastPublishedVersion", SScal)].
Definition FlagStatus_DeepCopyInto : copier := DeepCopyInto [("Conditions", make_slice Condition_DeepCopyInto);
  ("LastSyncTime", Time_DeepCopy)].
Definition FlagStatus_DeepCopy : copier := DeepCopy FlagStatus_DeepCopyInto.
Definition Flag_shape : shape := SStruct [("TypeMeta", S_TypeMeta); ("ObjectMeta", S_ObjectMeta); ("Spec", FlagSpec_shape);
  ("Status", FlagStatus_shape)].
Definition Flag_DeepCopyInto : copier := DeepCopyInto [("TypeMeta", assign); ("ObjectMeta", ObjectMeta_DeepCopyInto);
  ("Spec", FlagSpec_DeepCopyInto); ("Status", FlagStatus_DeepCopyInto)].
Definition Flag_DeepCopy : copier := DeepCopy Flag_DeepCopyInto.
Definition Flag_DeepCopyObject : copier := DeepCopyObject Flag_DeepCopyInto.
Definition FlagList_shape : shape := SStruct [("TypeMeta", S_TypeMeta); ("ListMeta", S_ListMeta); ("Items", SSlice Flag_shape)].
Definition FlagList_DeepCopyInto : copier := DeepCopyInto [("TypeMeta", assign); ("ListMeta", ListMeta_DeepCopyInto);
  ("Items", make_slice Flag_DeepCopyInto)].
Definition FlagList_DeepCopy : copier := DeepCopy FlagList_DeepCopyInto.
Definition FlagList_DeepCopyObject : copier := DeepCopyObject FlagList_DeepCopyInto.
Definition FlagBindingSpec_shape : shape := SStruct [("ProjectSlug", SScal); ("FlagKey", SScal); ("Environments", SSlice SScal);
  ("Overrides", SPtr S_RawExtension)].
Definition FlagBindingSpec_DeepCopyInto : copier := DeepCopyInto [("Environments", copy_slice);
  ("Overrides", new_into RawExtension_DeepCopyInto)].
Definition FlagBindingSpec_DeepCopy : copier := DeepCopy FlagBindingSpec_DeepCopyInto.
Definition FlagBindingStatus_shape : shape := SStruct [("Conditions", SSlice S_Condition); ("ObservedGeneration", SScal);
  ("LastSyncTime", SPtr S_Time); ("PublishedVersions", SMap)].
Definition FlagBindingStatus_DeepCopyInto : copier := DeepCopyInto [("Conditions", make_slice Condition_DeepCopyInto);
  ("LastSyncTime", Time_DeepCopy); ("PublishedVersions", make_map)].
Definition FlagBindingStatus_DeepCopy : copier := DeepCopy FlagBindingStatus_DeepCopyInto.
Definition FlagBinding_shape : shape := SStruct [("TypeMeta", S_TypeMeta); ("ObjectMeta", S_ObjectMeta); ("Spec", FlagBindingSpec_shape);
  ("Status", FlagBindingStatus_shape)].
Definition FlagBinding_DeepCopyInto : copier := DeepCopyInto [("TypeMeta", assign); ("ObjectMeta", ObjectMeta_DeepCopyInto);
  ("Spec", FlagBindingSpec_DeepCopyInto); ("Status", FlagBindingStatus_DeepCopyInto)].
Definition FlagBinding_DeepCopy : copier := DeepCopy FlagBinding_DeepCopyInto.
Definition FlagBinding_DeepCopyObject : copier := DeepCopyObject FlagBinding_DeepCopyInto.
Definition FlagBindingList_shape : shape := SStruct [("TypeMeta", S_TypeMeta); ("ListMeta", S_ListMeta);
  ("Items", SSlice FlagBinding_shape)].
Definition FlagBindingList_DeepCopyInto : copier := DeepCopyInto [("TypeMeta", assign); ("ListMeta", ListMeta_DeepCopyInto);
  ("Items", make_slice FlagBinding_DeepCopyInto)].
Definition FlagBindingList_DeepCopy : copier := DeepCopy FlagBindingList_DeepCopyInto.
Definition FlagBindingList_DeepCopyObject : copier := DeepCopyObject FlagBindingList_DeepCopyInto.
Definition FlagSnapshotSpec_shape : shape := SStruct [("ProjectSlug", SScal)].
Definition FlagSnapshotSpec_DeepCopyInto : copier := DeepCopyInto [].
Definition FlagSnapshotSpec_DeepCopy : copier := DeepCopy FlagSnapshotSpec_DeepCopyInto.
Definition FlagSnapshotStatus_shape : shape := SStruct [("Conditions", SSlice S_Condition); ("ObservedGeneration", SScal);
  ("LastSyncTime", SPtr S_Time); ("CompiledVersion", SScal); ("FlagCount", SScal)].
Definition FlagSnapshotStatus_DeepCopyInto : copier := DeepCopyInto [("Conditions", make_slice Condition_DeepCopyInto);
  ("LastSyncTime", Time_DeepCopy)].
Definition FlagSnapshotStatus_DeepCopy : copier := DeepCopy FlagSnapshotStatus_DeepCopyInto.
Definition FlagSnapshot_shape : shape := SStruct [("TypeMeta", S_TypeMeta); ("ObjectMeta", S_ObjectMeta); ("Spec", FlagSnapshotSpec_shape);
  ("Status", FlagSnapshotStatus_shape)].
Definition FlagSnapshot_DeepCopyInto : copier := DeepCopyInto [("TypeMeta", assign); ("ObjectMeta", ObjectMeta_DeepCopyInto);
  ("Spec", assign); ("Status", FlagSnapshotStatus_DeepCopyInto)].
Definition FlagSnapshot_DeepCopy : copier := DeepCopy FlagSnapshot_DeepCopyInto.
Definition FlagSnapshot_DeepCopyObject : copier := DeepCopyObject FlagSnapshot_DeepCopyInto.
Definition FlagSnapshotList_shape : shape := SStruct [("TypeMeta", S_TypeMeta); ("ListMeta", S_ListMeta);
  ("Items", SSlice FlagSnapshot_shape)].
Definition FlagSnapshotList_DeepCopyInto : copier := DeepCopyInto [("TypeMeta", assign); ("ListMeta", ListMeta_DeepCopyInto);
  ("Items", make_slice FlagSnapshot_DeepCopyInto)].
Definition FlagSnapshotList_DeepCopy : copier := DeepCopy FlagSnapshotList_DeepCopyInto.
Definition FlagSnapshotList_DeepCopyObject : copier := DeepCopyObject FlagSnapshotList_DeepCopyInto.
Definition ProjectSpec_shape : shape := SStruct [("ProjectSlug", SScal); ("DisplayName", SScal); ("ConfigStrategy", SScal)].
Definition ProjectSpec_DeepCopyInto : copier := DeepCopyInto [].
Definition ProjectSpec_DeepCopy : copier := DeepCopy ProjectSpec_DeepCopyInto.
Definition ProjectStatus_shape : shape := SStruct [("Conditions", SSlice S_Condition); ("ObservedGeneration", SScal);
  ("LastSyncTime", SPtr S_Time)].
Definition ProjectStatus_DeepCopyInto : copier := DeepCopyInto [("Conditions", make_slice Condition_DeepCopyInto);
  ("LastSyncTime", Time_DeepCopy)].
Definition ProjectStatus_DeepCopy : copier := DeepCopy ProjectStatus_DeepCopyInto.
Definition Project_shape : shape := SStruct [("TypeMeta", S_TypeMeta); ("ObjectMeta", S_ObjectMeta); ("Spec", ProjectSpec_shape);
  ("Status", ProjectStatus_shape)].
Definition Project_DeepCopyInto : copier := DeepCopyInto [("TypeMeta", assign); ("ObjectMeta", ObjectMeta_DeepCopyInto); ("Spec", assign);
  ("Status", ProjectStatus_DeepCopyInto)].
Definition Project_DeepCopy : copier := DeepCopy Project_DeepCopyInto.
Definition Project_DeepCopyObject : copier := DeepCopyObject Project_DeepCopyInto.
Definition ProjectList_shape : shape := SStruct [("TypeMeta", S_TypeMeta); ("ListMeta", S_ListMeta); ("Items", SSlice Project_shape)].
Definition ProjectList_DeepCopyInto : copier := DeepCopyInto [("TypeMeta", assign); ("ListMeta", ListMeta_DeepCopyInto);
  ("Items", make_slice Project_DeepCopyInto)].
Definition ProjectList_DeepCopy : copier := DeepCopy ProjectList_DeepCopyInto.
Definition ProjectList_DeepCopyObject : copier := DeepCopyObject ProjectList_DeepCopyInto.
Definition Bucketing_shape : shape := SStruct [("Attribute", SScal); ("Strategy", SScal); ("Salt", SScal)].
Definition Bucketing_DeepCopyInto : copier := DeepCopyInto [].
Definition Bucketing_DeepCopy : copier := DeepCopy Bucketing_DeepCopyInto.
Definition RolloutVariant_shape : shape := SStruct [("ID", SScal); ("Weight", SScal); ("Value", S_RawExtension)].
Definition RolloutVariant_DeepCopyInto : copier := DeepCopyInto [("Value", RawExtension_DeepCopyInto)].
Definition RolloutVariant_DeepCopy : copier := DeepCopy RolloutVariant_DeepCopyInto.
Definition RolloutPolicySpec_shape : shape := SStruct [("ProjectSlug", SScal); ("Name", SScal); ("Bucketing", Bucketing_shape);
  ("Variants", SSlice RolloutVariant_shape)].
Definition RolloutPolicySpec_DeepCopyInto : copier := DeepCopyInto [("Bucketing", assign);
  ("Variants", make_slice RolloutVariant_DeepCopyInto)].
Definition RolloutPolicySpec_DeepCopy : copier := DeepCopy RolloutPolicySpec_DeepCopyInto.
Definition RolloutPolicyStatus_shape : shape := SStruct [("Conditions", SSlice S_Condition); ("ObservedGeneration", SScal);
  ("LastSyncTime", SPtr S_Time)].
Definition RolloutPolicyStatus_DeepCopyInto : copier := DeepCopyInto [("Conditions", make_slice Condition_DeepCopyInto);
  ("LastSyncTime", Time_DeepCopy)].
Definition RolloutPolicyStatus_DeepCopy : copier := DeepCopy RolloutPolicyStatus_DeepCopyInto.
Definition RolloutPolicy_shape : shape := SStruct [("TypeMeta", S_TypeMeta); ("ObjectMeta", S_ObjectMeta);
  ("Spec", RolloutPolicySpec_shape); ("Status", RolloutPolicyStatus_shape)].
Definition RolloutPolicy_DeepCopyInto : copier := DeepCopyInto [("TypeMeta", assign); ("ObjectMeta", ObjectMeta_DeepCopyInto);
  ("Spec", RolloutPolicySpec_DeepCopyInto); ("Status", RolloutPolicyStatus_DeepCopyInto)].
Definition RolloutPolicy_DeepCopy : copier := DeepCopy RolloutPolicy_DeepCopyInto.
Definition RolloutPolicy_DeepCopyObject : copier := DeepCopyObject RolloutPolicy_DeepCopyInto.
Definition RolloutPolicyList_shape : shape := SStruct [("TypeMeta", S_TypeMeta); ("ListMeta", S_ListMeta);
  ("Items", SSlice RolloutPolicy_shape)].
Definition RolloutPolicyList_DeepCopyInto : copier := DeepCopyInto [("TypeMeta", assign); ("ListMeta", ListMeta_DeepCopyInto);
  ("Items", make_slice RolloutPolicy_DeepCopyInto)].
Definition RolloutPolicyList_DeepCopy : copier := DeepCopy RolloutPolicyList_DeepCopyInto.
Definition RolloutPolicyList_DeepCopyObject : copier := DeepCopyObject RolloutPolicyList_DeepCopyInto.
Definition SegmentSpec_shape : shape := SStruct [("ProjectSlug", SScal); ("Key", SScal); ("Name", SScal); ("Description", SScal);
  ("Predicate", S_RawExtension)].
Definition SegmentSpec_DeepCopyInto : copier := DeepCopyInto [("Predicate", RawExtension_DeepCopyInto)].
Definition SegmentSpec_DeepCopy : copier := DeepCopy SegmentSpec_DeepCopyInto.
Definition SegmentStatus_shape : shape := SStruct [("Conditions", SSlice S_Condition); ("ObservedGeneration", SScal);
  ("LastSyncTime", SPtr S_Time)].
Definition SegmentStatus_DeepCopyInto : copier := DeepCopyInto [("Conditions", make_slice Condition_DeepCopyInto);
  ("LastSyncTime", Time_DeepCopy)].
Definition SegmentStatus_DeepCopy : copier := DeepCopy SegmentStatus_DeepCopyInto.
Definition Segment_shape : shape := SStruct [("TypeMeta", S_TypeMeta); ("ObjectMeta", S_ObjectMeta); ("Spec", SegmentSpec_shape);
  ("Status", SegmentStatus_shape)].
Definition Segment_DeepCopyInto : copier := DeepCopyInto [("TypeMeta", assign); ("ObjectMeta", ObjectMeta_DeepCopyInto);
  ("Spec", SegmentSpec_DeepCopyInto); ("Status", SegmentStatus_DeepCopyInto)].
Definition Segment_DeepCopy : copier := DeepCopy Segment_DeepCopyInto.
Definition Segment_DeepCopyObject : copier := DeepCopyObject Segment_DeepCopyInto.
Definition SegmentList_shape : shape := SStruct [("TypeMeta", S_TypeMeta); ("ListMeta", S_ListMeta); ("Items", SSlice Segment_shape)].
Definition SegmentList_DeepCopyInto : copier := DeepCopyInto [("TypeMeta", assign); ("ListMeta", ListMeta_DeepCopyInto);
  ("Items", make_slice Segment_DeepCopyInto)].
Definition SegmentList_DeepCopy : copier := DeepCopy SegmentList_DeepCopyInto.
Definition SegmentList_DeepCopyObject : copier := DeepCopyObject SegmentList_DeepCopyInto.

(** All of them: shape, [DeepCopyInto] and [DeepCopy]; and those that are objects. *)
Definition resources : list (shape * copier * copier) := [
  (EnvironmentSpec_shape, EnvironmentSpec_DeepCopyInto, EnvironmentSpec_DeepCopy);
  (EnvironmentStatus_shape, EnvironmentStatus_DeepCopyInto, EnvironmentStatus_DeepCopy);
  (Environment_shape, Environment_DeepCopyInto, Environment_DeepCopy);
  (EnvironmentList_shape, EnvironmentList_DeepCopyInto, EnvironmentList_DeepCopy);
  (FlagRule_shape, FlagRule_DeepCopyInto, FlagRule_DeepCopy);
  (FlagSpecBinding_shape, FlagSpecBinding_DeepCopyInto, FlagSpecBinding_DeepCopy);
  (FlagSpec_shape, FlagSpec_DeepCopyInto, FlagSpec_DeepCopy);
  (FlagStatus_shape, FlagStatus_DeepCopyInto, FlagStatus_DeepCopy);
  (Flag_shape, Flag_DeepCopyInto, Flag_DeepCopy);
  (FlagList_shape, FlagList_DeepCopyInto, FlagList_DeepCopy);
  (FlagBindingSpec_shape, FlagBindingSpec_DeepCopyInto, FlagBindingSpec_DeepCopy);
  (FlagBindingStatus_shape, FlagBindingStatus_DeepCopyInto, FlagBindingStatus_DeepCopy);
  (FlagBinding_shape, FlagBinding_DeepCopyInto, FlagBinding_DeepCopy);
  (FlagBindingList_shape, FlagBindingList_DeepCopyInto, FlagBindingList_DeepCopy);
  (FlagSnapshotSpec_shape, FlagSnapshotSpec_DeepCopyInto, FlagSnapshotSpec_DeepCopy);
  (FlagSnapshotStatus_shape, FlagSnapshotStatus_DeepCopyInto, FlagSnapshotStatus_DeepCopy);
  (FlagSnapshot_shape, FlagSnapshot_DeepCopyInto, FlagSnapshot_DeepCopy);
  (FlagSnapshotList_shape, FlagSnapshotList_DeepCopyInto, FlagSnapshotList_DeepCopy);
  (ProjectSpec_shape, ProjectSpec_DeepCopyInto, ProjectSpec_DeepCopy);
  (ProjectStatus_shape, ProjectStatus_DeepCopyInto, ProjectStatus_DeepCopy);
  (Project_shape, Project_DeepCopyInto, Project_DeepCopy);
  (ProjectList_shape, ProjectList_DeepCopyInto, ProjectList_DeepCopy);
  (Bucketing_shape, Bucketing_DeepCopyInto, Bucketing_DeepCopy);
  (RolloutVariant_shape, RolloutVariant_DeepCopyInto, RolloutVariant_DeepCopy);
  (RolloutPolicySpec_shape, RolloutPolicySpec_DeepCopyInto, RolloutPolicySpec_DeepCopy);
  (RolloutPolicyStatus_shape, RolloutPolicyStatus_DeepCopyInto, RolloutPolicyStatus_DeepCopy);
  (RolloutPolicy_shape, RolloutPolicy_DeepCopyInto, RolloutPolicy_DeepCopy);
  (RolloutPolicyList_shape, RolloutPolicyList_DeepCopyInto, RolloutPolicyList_DeepCopy);
  (SegmentSpec_shape, SegmentSpec_DeepCopyInto, SegmentSpec_DeepCopy);
  (SegmentStatus_shape, SegmentStatus_DeepCopyInto, SegmentStatus_DeepCopy);
  (Segment_shape, Segment_DeepCopyInto, Segment_DeepCopy);
  (SegmentList_shape, SegmentList_DeepCopyInto, SegmentList_DeepCopy)].
Definition objects : list (shape * copier) := [
  (Environment_shape, Environment_DeepCopyObject);
  (EnvironmentList_shape, EnvironmentList_DeepCopyObject);
  (Flag_shape, Flag_DeepCopyObject);
  (FlagList_shape, FlagList_DeepCopyObject);
  (FlagBinding_shape, FlagBinding_DeepCopyObject);
  (FlagBindingList_shape, FlagBindingList_DeepCopyObject);
  (FlagSnapshot_shape, FlagSnapshot_DeepCopyObject);
  (FlagSnapshotList_shape, FlagSnapshotList_DeepCopyObject);
  (Project_shape, Project_DeepCopyObject);
  (ProjectList_shape, ProjectList_DeepCopyObject);
  (RolloutPolicy_shape, RolloutPolicy_DeepCopyObject);
  (RolloutPolicyList_shape, RolloutPolicyList_DeepCopyObject);
  (Segment_shape, Segment_DeepCopyObject);
  (SegmentList_shape, SegmentList_DeepCopyObject)].
End resources.

Section deep_resources.
Context {ML : MetaLib} {MW : MetaLaws}.
Create HintDb deep.
#[local] Hint Resolve deep_assign deep_new deep_slice deep_copy_slice deep_map deep_ObjectMeta deep_ListMeta deep_Condition
  deep_RawExtension deep_Time flat_TypeMeta : deep.
(** A function of the source: its statements cover the fields, and each is deep. *)
Ltac into_fields :=
  apply deep_into; [reflexivity|];
  repeat (apply List.Forall_cons; [intros s [= <-]; try exact (deep_assign _ eq_refl); try exact (deep_copy_slice _ eq_refl); eauto with deep|]);
  apply List.Forall_nil.
Lemma deep_EnvironmentSpec : deep EnvironmentSpec_shape EnvironmentSpec_DeepCopyInto.
Proof. into_fields. Qed.
#[local] Hint Resolve deep_EnvironmentSpec : deep.
Lemma deep_EnvironmentStatus : deep EnvironmentStatus_shape EnvironmentStatus_DeepCopyInto.
Proof. into_fields. Qed.
#[local] Hint Resolve deep_EnvironmentStatus : deep.
Lemma deep_Environment : deep Environment_shape Environment_DeepCopyInto.
Proof. into_fields. Qed.
#[local] Hint Resolve deep_Environment : deep.
Lemma deep_EnvironmentList : deep EnvironmentList_shape EnvironmentList_DeepCopyInto.
Proof. into_fields. Qed.
#[local] Hint Resolve deep_EnvironmentList : deep.
Lemma deep_FlagRule : deep FlagRule_shape FlagRule_DeepCopyInto.
Proof. into_fields. Qed.
#[local] Hint Resolve deep_FlagRule : deep.
Lemma deep_FlagSpecBinding : deep FlagSpecBinding_shape FlagSpecBinding_DeepCopyInto.
Proof. into_fields. Qed.
#[local] Hint Resolve deep_FlagSpecBinding : deep.
Lemma deep_FlagSpec : deep FlagSpec_shape FlagSpec_DeepCopyInto.
Proof. into_fields. Qed.
#[local] Hint Resolve deep_FlagSpec : deep.
Lemma deep_FlagStatus : deep FlagStatus_shape FlagStatus_DeepCopyInto.
Proof. into_fields. Qed.
#[local] Hint Resolve deep_FlagStatus : deep.
Lemma deep_Flag : deep Flag_shape Flag_DeepCopyInto.
Proof. into_fields. Qed.
#[local] Hint Resolve deep_Flag : deep.
Lemma deep_FlagList : deep FlagList_shape FlagList_DeepCopyInto.
Proof. into_fields. Qed.
#[local] Hint Resolve deep_FlagList : deep.
Lemma deep_FlagBindingSpec : deep FlagBindingSpec_shape FlagBindingSpec_DeepCopyInto.
Proof. into_fields. Qed.
#[local] Hint Resolve deep_FlagBindingSpec : deep.
Lemma deep_FlagBindingStatus : deep FlagBindingStatus_shape FlagBindingStatus_DeepCopyInto.
Proof. into_fields. Qed.
#[local] Hint Resolve deep_FlagBindingStatus : deep.
Lemma deep_FlagBinding : deep FlagBinding_shape FlagBinding_DeepCopyInto.
Proof. into_fields. Qed.
#[local] Hint Resolve deep_FlagBinding : deep.
Lemma deep_FlagBindingList : deep FlagBindingList_shape FlagBindingList_DeepCopyInto.
Proof. into_fields. Qed.
#[local] Hint Resolve deep_FlagBindingList : deep.
Lemma deep_FlagSnapshotSpec : deep FlagSnapshotSpec_shape FlagSnapshotSpec_DeepCopyInto.
Proof. into_fields. Qed.
#[local] Hint Resolve deep_FlagSnapshotSpec : deep.
Lemma deep_FlagSnapshotStatus : deep FlagSnapshotStatus_shape FlagSnapshotStatus_DeepCopyInto.
Proof. into_fields. Qed.
#[local] Hint Resolve deep_FlagSnapshotStatus : deep.
Lemma deep_FlagSnapshot : deep FlagSnapshot_shape FlagSnapshot_DeepCopyInto.
Proof. into_fields. Qed.
#[local] Hint Resolve deep_FlagSnapshot : deep.
Lemma deep_FlagSnapshotList : deep FlagSnapshotList_shape FlagSnapshotList_DeepCopyInto.
Proof. into_fields. Qed.
#[local] Hint Resolve deep_FlagSnapshotList : deep.
Lemma deep_ProjectSpec : deep ProjectSpec_shape ProjectSpec_DeepCopyInto.
Proof. into_fields. Qed.
#[local] Hint Resolve deep_ProjectSpec : deep.
Lemma deep_ProjectStatus : deep ProjectStatus_shape ProjectStatus_DeepCopyInto.
Proof. into_fields. Qed.
#[local] Hint Resolve deep_ProjectStatus : deep.
Lemma deep_Project : deep Project_shape Project_DeepCopyInto.
Proof. into_fields. Qed.
#[local] Hint Resolve deep_Project : deep.
Lemma deep_ProjectList : deep ProjectList_shape ProjectList_DeepCopyInto.
Proof. into_fields. Qed.
#[local] Hint Resolve deep_ProjectList : deep.
Lemma deep_Bucketing : deep Bucketing_shape Bucketing_DeepCopyInto.
Proof. into_fields. Qed.
#[local] Hint Resolve deep_Bucketing : deep.
Lemma deep_RolloutVariant : deep RolloutVariant_shape RolloutVariant_DeepCopyInto.
Proof. into_fields. Qed.
#[local] Hint Resolve deep_RolloutVariant : deep.
Lemma deep_RolloutPolicySpec : deep RolloutPolicySpec_shape RolloutPolicySpec_DeepCopyInto.
Proof. into_fields. Qed.
#[local] Hint Resolve deep_RolloutPolicySpec : deep.
Lemma deep_RolloutPolicyStatus : deep RolloutPolicyStatus_shape RolloutPolicyStatus_DeepCopyInto.
Proof. into_fields. Qed.
#[local] Hint Resolve deep_RolloutPolicyStatus : deep.
Lemma deep_RolloutPolicy : deep RolloutPolicy_shape RolloutPolicy_DeepCopyInto.
Proof. into_fields. Qed.
#[local] Hint Resolve deep_RolloutPolicy : deep.
Lemma deep_RolloutPolicyList : deep RolloutPolicyList_shape RolloutPolicyList_DeepCopyInto.
Proof. into_fields. Qed.
#[local] Hint Resolve deep_RolloutPolicyList : deep.
Lemma deep_SegmentSpec : deep SegmentSpec_shape SegmentSpec_DeepCopyInto.
Proof. into_fields. Qed.
#[local] Hint Resolve deep_SegmentSpec : deep.
Lemma deep_SegmentStatus : deep SegmentStatus_shape SegmentStatus_DeepCopyInto.
Proof. into_fields. Qed.
#[local] Hint Resolve deep_SegmentStatus : deep.
Lemma deep_Segment : deep Segment_shape Segment_DeepCopyInto.
Proof. into_fields. Qed.
#[local] Hint Resolve deep_Segment : deep.
Lemma deep_SegmentList : deep SegmentList_shape SegmentList_DeepCopyInto.
Proof. into_fields. Qed.
#[local] Hint Resolve deep_SegmentList : deep.

(** C39. Every custom resource, its list, its spec and status and their parts: the
    deep copy of a pointer to one, nil or not, is isolated from the original, as is
    the [runtime.Object] of the resources and their lists, and as are the structs
    that [DeepCopyInto] fills. *)
Theorem resources_isolated :
  Forall (fun r => isolated r.1.1 r.1.2 /\ isolated (SPtr r.1.1) r.2) resources /\
  Forall (fun r => isolated (SPtr r.1) r.2) objects.
Proof.
  split; unfold resources, objects.
  - repeat (apply List.Forall_cons; [split; apply deep_isolated; [|apply deep_new]; solve [eauto with deep]|]). apply List.Forall_nil.
  - repeat (apply List.Forall_cons; [apply deep_isolated, deep_object; solve [eauto with deep]|]). apply List.Forall_nil.
Qed.
End deep_resources.

(** ** A binding in a heap *)

Module DeepCopyDemo.
#[export] Instance demo_meta : MetaLib := {
  S_TypeMeta := SStruct [("Kind", SScal); ("APIVersion", SScal)];
  S_ObjectMeta := SStruct [("Name", SScal); ("Finalizers", SSlice SScal)];
  S_ListMeta := SStruct [("ResourceVersion", SScal)];
  S_Condition := SStruct [("Type", SScal); ("Status", SScal)];
  S_RawExtension := SStruct [("Raw", SSlice SScal)];
  S_Time := SStruct [("Time", SScal)];
  ObjectMeta_DeepCopyInto := DeepCopyInto [("Finalizers", copy_slice)];
  ListMeta_DeepCopyInto := assign;
  Condition_DeepCopyInto := assign;
  RawExtension_DeepCopyInto := DeepCopyInto [("Raw", copy_slice)];
  Time_DeepCopy := new_into assign
}.
#[export] Instance demo_meta_laws : MetaLaws.
Proof.
  split; [reflexivity| | | | |].
  - apply deep_into; [reflexivity|]. apply List.Forall_cons; [intros s [= <-]; by apply deep_copy_slice | apply List.Forall_nil].
  - by apply deep_assign.
  - by apply deep_assign.
  - apply deep_into; [reflexivity|]. apply List.Forall_cons; [intros s [= <-]; by apply deep_copy_slice | apply List.Forall_nil].
  - apply deep_new. by apply deep_assign.
Qed.

(** The status of a binding with two published versions, behind a pointer. *)
Definition demo_versions : gmap string string := {["production" := "3"; "staging" := "4"]}.
Definition demo_heap : heap :=
  {[0%nat := Target (Struct [("Conditions", Ref (Some 1%nat)); ("ObservedGeneration", Scal "2"); ("LastSyncTime", Ref None);
                             ("PublishedVersions", Ref (Some 2%nat))]);
    1%nat := Array [Struct [("Type", Scal "Synced"); ("Status", Scal "True")]];
    2%nat := Table demo_versions]}.
Definition demo_tree : tree :=
  TPtr (TStruct [("Conditions", TSlice [TStruct [("Type", TScal "Synced"); ("Status", TScal "True")]]); ("ObservedGeneration", TScal "2");
                 ("LastSyncTime", TNil); ("PublishedVersions", TMap demo_versions)]).
Lemma demo_reads : exists X, reads demo_heap (SPtr FlagBindingStatus_shape) (Ref (Some 0%nat)) demo_tree X.
Proof.
  eexists. econstructor; [reflexivity|]. constructor. repeat (econstructor; try reflexivity).
Qed.
Lemma resources_isolated_witness :
  exists X h' v' X', FlagBindingStatus_DeepCopy (Ref (Some 0%nat)) demo_heap = (h', v') /\
    reads h' (SPtr FlagBindingStatus_shape) v' demo_tree X' /\
    (forall h'', (forall a, a ∉ X' -> h'' !! a = h' !! a) -> reads h'' (SPtr FlagBindingStatus_shape) (Ref (Some 0%nat)) demo_tree X).
Proof.
  destruct demo_reads as [X HX]. destruct resources_isolated as [H _]. rewrite List.Forall_forall in H.
  destruct (H (FlagBindingStatus_shape, FlagBindingStatus_DeepCopyInto, FlagBindingStatus_DeepCopy)) as [_ Hi].
  { unfold resources. cbn [In]. tauto. }
  destruct (Hi demo_heap (Ref (Some 0%nat)) demo_tree X HX) as (h' & v' & X' & E & _ & Hr & Hw & _). exists X, h', v', X'. exact (conj E (conj Hr Hw)).
Defined.
End DeepCopyDemo.
