(* ===== verification/Boot.v ===== *)
(** Configuration: the environment variables ([internal/appconfig]) and the choice
    and tuning of the database ([internal/store/dsn.go], [sqliteDSNWithPragmas]). *)
From stdpp Require Import base list strings numbers.
From Stdlib Require Import Ascii String ZArith Lia.
From S2P Require Import Prelude Text Literal Json Float64 GoTime GoValue Mux.

(** ** [net/url.Values] *)

(** A map from keys to lists of values; [ParseQuery] with its error. *)
Definition url_Values : Type := list (string * list string).
Definition values_at (k : string) (m : url_Values) : list string := default [] (map_get k m).
Definition values_Get (k : string) (m : url_Values) : string := default "" (head (values_at k m)).
Definition values_Add (k v : string) (m : url_Values) : url_Values := map_set k (values_at k m ++ [v]) m.
Definition values_Set (k v : string) (m : url_Values) : url_Values := map_set k [v] m.

Fixpoint parse_settings (l : list string) (m : url_Values) : option url_Values :=
  match l with
  | [] => Some m
  | s :: r =>
      if has_char ";"%char s then None
      else if String.eqb s "" then parse_settings r m
      else
        let '(k, v) := cut "="%char s in
        do? k := QueryUnescape k in
        do? v := QueryUnescape v in parse_settings r (values_Add k v m)
  end.
Definition url_ParseQuery (query : string) : option url_Values := parse_settings (split_on "&"%char query) [].

(** [url.QueryEscape]. *)
Definition upperhex (z : Z) : ascii := chr (if z <? 10 then z + 48 else z + 55).
Definition escape_byte (c : ascii) : string :=
  if unreserved c then str1 c
  else if Ascii.eqb c " "%char then "+"
  else String "%"%char (String (upperhex (code c / 16)) (str1 (upperhex (code c mod 16)))).
Fixpoint QueryEscape (s : string) : string :=
  match s with EmptyString => EmptyString | String c r => escape_byte c +:+ QueryEscape r end.
Definition setting (k v : string) : string := QueryEscape k +:+ "=" +:+ QueryEscape v.
Definition settings (m : url_Values) : list string := flat_map (fun kv => map (setting kv.1) kv.2) m.
(** [Values.Encode]. *)
Definition Encode (m : url_Values) : string := join_with "&"%char (settings m).

(** ** The database URL *)

Inductive Backend : Type := BackendPostgres | BackendSQLite.
(** [parseBackend]: the backend and the driver's DSN. *)
Definition parseBackend (dsn : string) : option (Backend * string) :=
  if String.eqb dsn "" then None
  else if hasPrefix dsn "postgres://" || hasPrefix dsn "postgresql://" then Some (BackendPostgres, dsn)
  else if hasPrefix dsn "sqlite://" then Some (BackendSQLite, "file:" +:+ trimPrefix dsn "sqlite://")
  else if hasPrefix dsn "file:" then Some (BackendSQLite, dsn)
  else None.

Definition requiredPragmas : list string :=
  ["journal_mode(WAL)"; "synchronous(NORMAL)"; "foreign_keys(ON)"; "busy_timeout(5000)"].
Definition txLock : string := "immediate".
Definition pragma_name (p : string) : string := (cut "("%char p).1.
(** The names that are set, as the loop over the existing values collects them. *)
Definition have (existing : list string) (name : string) : bool := existsb (fun p => String.eqb (pragma_name p) name) existing.
Definition add_pragmas (existing : list string) (m : url_Values) : url_Values :=
  fold_left (fun m p => if have existing (pragma_name p) then m else values_Add "_pragma" p m) requiredPragmas m.
Definition tuned_values (values : url_Values) : url_Values :=
  let m := add_pragmas (values_at "_pragma" values) values in
  if String.eqb (values_Get "_txlock" m) "" then values_Set "_txlock" txLock m else m.
Definition sqliteDSNWithPragmas (dsn : string) : option string :=
  let '(pathPart, query) := cut "?"%char dsn in
  do? values := url_ParseQuery query in Some (pathPart +:+ "?" +:+ Encode (tuned_values values)).

(** ** Escapes *)

Lemma unescape_byte c t : unescape true (escape_byte c +:+ t) = do? u := unescape true t in Some (String c u).
Proof.
  destruct c as [[] [] [] [] [] [] [] []];
    (match goal with |- context [escape_byte ?c] => let e := eval vm_compute in (escape_byte c) in change (escape_byte c) with e end);
    cbn [String.append unescape]; by destruct (unescape true t).
Qed.
Lemma unescape_escape s : QueryUnescape (QueryEscape s) = Some s.
Proof. unfold QueryUnescape. induction s as [|c s IH]; [done|]. cbn [QueryEscape]. by rewrite unescape_byte, IH. Qed.

Lemma list_ascii_app s t : list_ascii_of_string (s +:+ t) = list_ascii_of_string s ++ list_ascii_of_string t.
Proof. induction s as [|c s IH]; [done|]. cbn. by rewrite IH. Qed.
(** No separator is left in an escaped text. *)
Definition inert (c : ascii) : bool := negb (mem c ["&"%char; "="%char; ";"%char; "?"%char]).
Lemma escape_inert s : forallb inert (list_ascii_of_string (QueryEscape s)) = true.
Proof.
  induction s as [|c s IH]; [done|]. cbn [QueryEscape]. rewrite (list_ascii_app (escape_byte c)), forallb_app, IH, andb_true_r.
  revert c. all_bytes.
Qed.

Definition avoids (c : ascii) (s : string) : Prop := Forall (fun d => d <> c) (list_ascii_of_string s).
Lemma inert_avoids c s : inert c = false -> forallb inert (list_ascii_of_string s) = true -> avoids c s.
Proof.
  intros Hc H. apply List.Forall_forall. intros d Hd ->. rewrite forallb_forall in H. by rewrite (H c Hd) in Hc.
Qed.
Lemma escape_avoids c s : inert c = false -> avoids c (QueryEscape s).
Proof. intros H. apply inert_avoids; [done | apply escape_inert]. Qed.
Lemma avoids_app c s t : avoids c (s +:+ t) <-> avoids c s /\ avoids c t.
Proof. unfold avoids. rewrite list_ascii_app. apply Forall_app. Qed.

Lemma cut_at c s t : avoids c s -> cut c (s +:+ String c t) = (s, t).
Proof.
  induction s as [|d s IH]; cbn; [by rewrite Ascii.eqb_refl|]. intros [Hd Hs]%Forall_cons_1. apply Ascii.eqb_neq in Hd. by rewrite Hd, (IH Hs).
Qed.
Lemma cut_avoids c s : avoids c (cut c s).1.
Proof.
  induction s as [|d s IH]; cbn; [constructor|]. destruct (Ascii.eqb_spec d c); [constructor|]. destruct (cut c s) as [a b]. by constructor.
Qed.
Lemma split_join c l : l <> [] -> Forall (avoids c) l -> split_on c (join_with c l) = l.
Proof.
  induction l as [|s l IH]; [done|]. intros _ [Hs Hl]%Forall_cons_1. assert (forall t, split_on c (s +:+ t) =
    match split_on c t with p :: ps => (s +:+ p) :: ps | [] => [] end) as Hsplit.
  { intros t. clear IH. induction s as [|d s IH]; cbn.
    - destruct (split_on c t) eqn:E; [by apply split_on_nonempty in E | done].
    - apply Forall_cons_1 in Hs as [Hd Hs]. apply Ascii.eqb_neq in Hd. rewrite Hd, (IH Hs).
      destruct (split_on c t) eqn:E; [by apply split_on_nonempty in E | done]. }
  destruct l as [|s' l]; cbn [join_with].
  - rewrite <- (sapp_nil_r s) at 1. rewrite Hsplit. cbn. by rewrite sapp_nil_r.
  - rewrite Hsplit. change (split_on c (String c ?x)) with (if Ascii.eqb c c then "" :: split_on c x else match split_on c x with p :: ps => String c p :: ps | [] => [str1 c] end).
    rewrite Ascii.eqb_refl, sapp_nil_r. f_equal. by apply IH.
Qed.

(** ** A query that is encoded and parsed again *)

Definition values_ok (m : url_Values) : Prop := keys_sorted m = true /\ Forall (fun kv => kv.2 <> []) m.

Lemma setting_avoids c k v : inert c = false -> c <> "="%char -> avoids c (setting k v).
Proof. intros Hc He. unfold setting. rewrite !avoids_app. split_and!; [by apply escape_avoids | by constructor | by apply escape_avoids]. Qed.
Lemma has_char_avoids c s : avoids c s -> has_char c s = false.
Proof.
  unfold has_char, avoids. induction 1 as [|d l Hd _ IH]; [done|]. cbn. rewrite IH, orb_false_r. apply Ascii.eqb_neq. congruence.
Qed.
Lemma parse_setting k v r m : parse_settings (setting k v :: r) m = parse_settings r (values_Add k v m).
Proof.
  cbn [parse_settings]. rewrite has_char_avoids by (by apply setting_avoids).
  assert (String.eqb (setting k v) "" = false) as -> by (unfold setting; by destruct (QueryEscape k)).
  unfold setting. change ("=" +:+ QueryEscape v) with (String "="%char (QueryEscape v)). rewrite cut_at by (by apply escape_avoids).
  by rewrite !unescape_escape.
Qed.
Lemma parse_key k vs r m :
  parse_settings (map (setting k) vs ++ r) m = parse_settings r (fold_left (fun m v => values_Add k v m) vs m).
Proof. revert m. induction vs as [|v vs IH]; intros m; [done|]. cbn [map app fold_left]. by rewrite parse_setting, IH. Qed.

Lemma map_get_fresh {A} k (acc : list (string * A)) : (forall k', map_get k' acc <> None -> sltb k' k = true) -> map_get k acc = None.
Proof. intros H. destruct (map_get k acc) eqn:E; [|done]. assert (sltb k k = true) as Hk by (apply H; congruence). by rewrite sltb_irrefl in Hk. Qed.
Lemma map_set_end {A} k (v w : A) acc :
  (forall k', map_get k' acc <> None -> sltb k' k = true) -> map_set k w (acc ++ [(k, v)]) = acc ++ [(k, w)].
Proof.
  induction acc as [|[k0 v0] acc IH]; intros H; cbn [app map_set]; [by rewrite String.eqb_refl|].
  assert (sltb k0 k = true) as H0 by (apply H; cbn; by rewrite String.eqb_refl).
  destruct (String.eqb_spec k k0) as [->|_]; [by rewrite sltb_irrefl in H0|].
  destruct (sltb k k0) eqn:E; [pose proof (sltb_trans _ _ _ E H0) as E2; by rewrite sltb_irrefl in E2|].
  rewrite IH; [done|]. intros k' Hk'. apply H. cbn. by destruct (String.eqb k' k0).
Qed.
Lemma add_all k vs acc : vs <> [] -> (forall k', map_get k' acc <> None -> sltb k' k = true) ->
  fold_left (fun m v => values_Add k v m) vs acc = acc ++ [(k, vs)].
Proof.
  intros Hne Ha. destruct vs as [|v vs]; [done|]. cbn [fold_left]. unfold values_Add at 2, values_at.
  rewrite map_get_fresh by done. cbn [default app]. rewrite map_set_last by done. clear Hne. change (v :: vs) with ([v] ++ vs). generalize [v]. induction vs as [|w vs IH]; intros l.
  - by rewrite app_nil_r.
  - cbn [fold_left]. unfold values_Add at 2, values_at. rewrite map_get_app, map_get_fresh by done. cbn [map_get]. rewrite String.eqb_refl.
    cbn [default]. rewrite map_set_end by done. rewrite IH. by rewrite <- app_assoc.
Qed.

Lemma parse_settings_of m acc : values_ok m ->
  (forall k k', map_get k acc <> None -> map_get k' m <> None -> sltb k k' = true) -> parse_settings (settings m) acc = Some (acc ++ m).
Proof.
  revert acc. induction m as [|[k vs] m IH]; intros acc [Hs Hn] Ha; [by rewrite app_nil_r|].
  apply Forall_cons_1 in Hn as [Hvs Hn]. apply keys_sorted_cons in Hs as [H1 H2]. cbn [settings flat_map fst snd].
  change (flat_map _ m) with (settings m). rewrite parse_key, add_all; [|done|].
  - rewrite IH; [by rewrite <- app_assoc | done|]. intros k1 k2. rewrite map_get_app. intros Hk1 Hk2. destruct (map_get k1 acc) eqn:E.
    + apply Ha; [congruence|]. cbn. by destruct (String.eqb k2 k).
    + cbn in Hk1. destruct (String.eqb_spec k1 k) as [->|]; [by apply H1 | done].
  - intros k' Hk'. apply Ha; [done|]. cbn. by rewrite String.eqb_refl.
Qed.
Lemma parse_encode m : values_ok m -> url_ParseQuery (Encode m) = Some m.
Proof.
  intros H. unfold url_ParseQuery, Encode. destruct (settings m) as [|s l] eqn:E.
  - destruct m as [|[k vs] m]; [done|]. destruct H as [_ [Hvs _]%Forall_cons_1]. by destruct vs.
  - rewrite <- E. rewrite split_join; [by apply (parse_settings_of m []) | by rewrite E|].
    unfold settings. apply List.Forall_forall. intros x [kv [_ (v & <- & _)%in_map_iff]]%in_flat_map. by apply setting_avoids.
Qed.

Lemma set_ok k vs m : vs <> [] -> values_ok m -> values_ok (map_set k vs m).
Proof. intros Hv [Hs Hn]. split; [by apply map_set_sorted | by apply map_set_Forall]. Qed.
Lemma add_ok k v m : values_ok m -> values_ok (values_Add k v m).
Proof. apply set_ok. by destruct (values_at k m). Qed.
Lemma parse_ok l m m' : parse_settings l m = Some m' -> values_ok m -> values_ok m'.
Proof.
  revert m. induction l as [|s l IH]; intros m; cbn [parse_settings]; [by intros [= <-]|]. destruct (has_char _ s); [done|].
  destruct (String.eqb s ""); [apply IH|]. destruct (cut _ s) as [k v]. destruct (QueryUnescape k) as [k'|]; [|done].
  destruct (QueryUnescape v) as [v'|]; [|done]. cbn [mbind option_bind]. intros H Hm. by apply (IH _ H), add_ok.
Qed.

(** The pragmas that are added are those whose name is not set. *)
Lemma fold_pragmas existing l m :
  let m' := fold_left (fun m p => if have existing (pragma_name p) then m else values_Add "_pragma" p m) l m in
  (values_ok m -> values_ok m') /\
  values_at "_pragma" m' = values_at "_pragma" m ++ List.filter (fun p => negb (have existing (pragma_name p))) l /\
  forall k, k <> "_pragma" -> map_get k m' = map_get k m.
Proof.
  revert m. induction l as [|p l IH]; intros m; cbn [fold_left List.filter].
  - by rewrite app_nil_r.
  - destruct (have existing (pragma_name p)); cbn [negb]; [apply IH|]. destruct (IH (values_Add "_pragma" p m)) as (H1 & H2 & H3).
    split_and!; [intros Hm; by apply H1, add_ok| |].
    + rewrite H2. assert (values_at "_pragma" (values_Add "_pragma" p m) = values_at "_pragma" m ++ [p]) as ->
        by (unfold values_Add, values_at at 1; by rewrite map_get_set). by rewrite <- app_assoc.
    + intros k Hk. rewrite (H3 k Hk). unfold values_Add. rewrite map_get_set. by destruct (String.eqb_spec k "_pragma").
Qed.

Lemma tuned_spec values : values_ok values ->
  values_ok (tuned_values values) /\
  values_at "_pragma" (tuned_values values) = values_at "_pragma" values ++
    List.filter (fun p => negb (have (values_at "_pragma" values) (pragma_name p))) requiredPragmas /\
  values_Get "_txlock" (tuned_values values) = (if String.eqb (values_Get "_txlock" values) "" then txLock else values_Get "_txlock" values) /\
  forall k, k <> "_pragma" -> k <> "_txlock" -> map_get k (tuned_values values) = map_get k values.
Proof.
  intros Hok. unfold tuned_values, add_pragmas.
  destruct (fold_pragmas (values_at "_pragma" values) requiredPragmas values) as (H1 & H2 & H3). cbv zeta in *.
  set (m := fold_left _ requiredPragmas values) in *.
  assert (values_Get "_txlock" m = values_Get "_txlock" values) as Et by (unfold values_Get, values_at; by rewrite H3).
  rewrite Et. destruct (String.eqb_spec (values_Get "_txlock" values) "") as [E|E].
  - split_and!; [apply set_ok; auto; done| | |].
    + unfold values_at, values_Set. rewrite map_get_set. exact H2.
    + unfold values_Get, values_at, values_Set. by rewrite map_get_set.
    + intros k Hp Ht. unfold values_Set. rewrite map_get_set. apply String.eqb_neq in Ht. by rewrite Ht, H3.
  - split_and!; [auto | exact H2 | exact Et | auto].
Qed.

(** Every required pragma has its name set. *)
Lemma tuned_has values p : values_ok values -> In p requiredPragmas -> have (values_at "_pragma" (tuned_values values)) (pragma_name p) = true.
Proof.
  intros Hok Hp. destruct (tuned_spec values Hok) as (_ & -> & _). unfold have. rewrite existsb_app.
  destruct (existsb _ (values_at "_pragma" values)) eqn:E; [done|]. cbn [orb]. apply existsb_exists. exists p. split; [|apply String.eqb_refl].
  apply filter_In. split; [done|]. unfold have. by rewrite E.
Qed.
Lemma tuned_again values : values_ok values -> tuned_values (tuned_values values) = tuned_values values.
Proof.
  intros Hok. set (m := tuned_values values). unfold tuned_values, add_pragmas.
  assert (forall l m', (forall p, In p l -> In p requiredPragmas) ->
    fold_left (fun m' p => if have (values_at "_pragma" m) (pragma_name p) then m' else values_Add "_pragma" p m') l m' = m') as Hf.
  { induction l as [|p l IH]; intros m' Hl; [done|]. cbn [fold_left]. rewrite (tuned_has values p Hok (Hl p (or_introl eq_refl)) : have (values_at "_pragma" m) (pragma_name p) = true).
    apply IH. intros q Hq. apply Hl. by right. }
  rewrite Hf by done. destruct (tuned_spec values Hok) as (_ & _ & Et & _). fold m in Et. rewrite Et.
  destruct (String.eqb_spec (values_Get "_txlock" values) "") as [_|E]; [done|]. apply String.eqb_neq in E. by rewrite E.
Qed.

(** C26. The DSN that is handed to the SQLite driver: the same file; the operator's
    settings as they were, in their order, spelled so that they parse to the same
    texts; each required pragma, with foreign keys on, added exactly when no setting
    of its name was there; immediate transactions unless another lock was chosen.
    Tuning the result again changes nothing. *)
Theorem dsn_tuned dsn tuned :
  sqliteDSNWithPragmas dsn = Some tuned ->
  exists given values,
    url_ParseQuery (cut "?"%char dsn).2 = Some given /\ url_ParseQuery (cut "?"%char tuned).2 = Some values /\
    (cut "?"%char tuned).1 = (cut "?"%char dsn).1 /\
    (forall k, k <> "_pragma" -> k <> "_txlock" -> values_at k values = values_at k given) /\
    values_at "_pragma" values = values_at "_pragma" given ++
      List.filter (fun p => negb (have (values_at "_pragma" given) (pragma_name p))) requiredPragmas /\
    (forall p, In p requiredPragmas -> have (values_at "_pragma" values) (pragma_name p) = true) /\
    values_Get "_txlock" values = (if String.eqb (values_Get "_txlock" given) "" then txLock else values_Get "_txlock" given) /\
    sqliteDSNWithPragmas tuned = Some tuned.
Proof.
  unfold sqliteDSNWithPragmas. pose proof (cut_avoids "?"%char dsn) as Hc. destruct (cut "?"%char dsn) as [path query]. cbn [fst snd] in *.
  destruct (url_ParseQuery query) as [given|] eqn:Eq; [|done]. cbn [mbind option_bind]. intros [= <-].
  assert (values_ok given) as Hok by (apply (parse_ok _ _ _ Eq); by split).
  change ("?" +:+ ?x) with (String "?"%char x). rewrite (cut_at _ _ _ Hc). cbn [fst snd].
  destruct (tuned_spec given Hok) as (Ht & Hp & Hx & Hk). rewrite (parse_encode _ Ht). exists given, (tuned_values given).
  split_and!; try done.
  - intros k H1 H2. unfold values_at. by rewrite Hk.
  - intros p. by apply tuned_has.
  - cbn [mbind option_bind]. by rewrite tuned_again.
Qed.

Lemma dsn_tuned_witness :
  sqliteDSNWithPragmas "file:/data/ff.db?cache=shared&_pragma=foreign_keys(OFF)" =
    Some "file:/data/ff.db?_pragma=foreign_keys%28OFF%29&_pragma=journal_mode%28WAL%29&_pragma=synchronous%28NORMAL%29&_pragma=busy_timeout%285000%29&_txlock=immediate&cache=shared" /\
  exists given values, url_ParseQuery "cache=shared&_pragma=foreign_keys(OFF)" = Some given /\
    values_at "_pragma" values = values_at "_pragma" given ++
      List.filter (fun p => negb (have (values_at "_pragma" given) (pragma_name p))) requiredPragmas.
Proof.
  assert (sqliteDSNWithPragmas "file:/data/ff.db?cache=shared&_pragma=foreign_keys(OFF)" =
    Some "file:/data/ff.db?_pragma=foreign_keys%28OFF%29&_pragma=journal_mode%28WAL%29&_pragma=synchronous%28NORMAL%29&_pragma=busy_timeout%285000%29&_txlock=immediate&cache=shared") as H
    by (vm_compute; reflexivity).
  split; [exact H|]. destruct (dsn_tuned _ _ H) as (given & values & H1 & _ & _ & _ & H5 & _). exists given, values. exact (conj H1 H5).
Defined.

(** ** Environment variables ([appconfig]) *)

Section appconfig.
(** [os.LookupEnv], and [time.ParseDuration] in nanoseconds. *)
Variables (env : string -> option string) (ParseDuration : string -> option Z).

Definition os_Getenv (key : string) : string := default "" (env key).
Definition getEnv (key fallback : string) : string :=
  match env key with Some v => if String.eqb v "" then fallback else v | None => fallback end.
(** [strconv.ParseBool]. *)
Definition ParseBool (s : string) : option bool :=
  if existsb (String.eqb s) ["1"; "t"; "T"; "true"; "TRUE"; "True"] then Some true
  else if existsb (String.eqb s) ["0"; "f"; "F"; "false"; "FALSE"; "False"] then Some false
  else None.
Definition getEnvBool (key : string) (fallback : bool) : bool :=
  match env key with
  | Some v => if String.eqb v "" then fallback else default fallback (ParseBool v)
  | None => fallback
  end.
Definition getEnvDuration (key : string) (fallback : Z) : option Z :=
  match env key with Some v => if String.eqb v "" then Some fallback else ParseDuration v | None => Some fallback end.

Record APIConfig : Type := mkAPIConfig { api_Addr : string; api_RPCAddr : string; api_DatabaseURL : string }.
Record ProxyConfig : Type := mkProxyConfig {
  proxy_Addr : string; proxy_APIBaseURL : string; proxy_ProjectSlug : string; proxy_PollInterval : Z
}.
Record OperatorConfig : Type := mkOperatorConfig {
  op_MetricsAddr : string; op_HealthProbeAddr : string; op_LeaderElect : bool; op_APIBaseURL : string; op_Actor : string
}.
Record MCPConfig : Type := mkMCPConfig { mcp_Addr : string; mcp_HealthAddr : string; mcp_APIBaseURL : string; mcp_Actor : string }.

Definition LoadAPI : APIConfig :=
  mkAPIConfig (getEnv "FALSEFLAG_API_ADDR" ":8080") (getEnv "FALSEFLAG_API_RPC_ADDR" ":8090") (os_Getenv "FALSEFLAG_DATABASE_URL").
Definition LoadProxy : option ProxyConfig :=
  do? pollInterval := getEnvDuration "FALSEFLAG_PROXY_POLL_INTERVAL" 0 in
  Some (mkProxyConfig (getEnv "FALSEFLAG_PROXY_ADDR" ":8081") (getEnv "FALSEFLAG_API_BASE_URL" "http://localhost:8080")
    (os_Getenv "FALSEFLAG_PROXY_PROJECT_SLUG") pollInterval).
Definition LoadOperator : OperatorConfig :=
  mkOperatorConfig (getEnv "FALSEFLAG_OPERATOR_METRICS_ADDR" ":8082") (getEnv "FALSEFLAG_OPERATOR_HEALTH_ADDR" ":8083")
    (getEnvBool "FALSEFLAG_OPERATOR_LEADER_ELECT" false)
    (getEnv "FALSEFLAG_API_BASE_URL" "http://falseflag-api.default.svc.cluster.local:8090")
    (getEnv "FALSEFLAG_OPERATOR_ACTOR" "controller/falseflag-operator").
Definition LoadMCP : MCPConfig :=
  mkMCPConfig (getEnv "FALSEFLAG_MCP_ADDR" ":8091") (getEnv "FALSEFLAG_MCP_HEALTH_ADDR" ":8092")
    (getEnv "FALSEFLAG_API_RPC_ADDR" "http://localhost:8090") (getEnv "FALSEFLAG_MCP_ACTOR" "mcp/falseflag-mcp").

(** One variable is the address the API listens on and the URL the MCP server
    calls: set for both, it is the same text for both. *)
Lemma one_variable_two_meanings v :
  env "FALSEFLAG_API_RPC_ADDR" = Some v -> v <> "" -> api_RPCAddr LoadAPI = v /\ mcp_APIBaseURL LoadMCP = v.
Proof. intros E Hv. cbn. unfold getEnv. rewrite E. by destruct (String.eqb_spec v ""). Qed.
End appconfig.
