(* ===== verification/Programs.v ===== *)
(** The programs: the commands ([cmd/falseflag-api], [-proxy], [-mcp], [-operator],
    [-loadgen], [-seed]) from their start to their exit code, with what they open and close on
    the way: the store and its migrations ([internal/store/store.go], [pg_store.go],
    [sqlite_store.go], [pg_migrations.go], [sqlite_migrations.go]), the listeners
    ([internal/server/server.go], [internal/mcp/run.go], [internal/proxy/proxy.go]),
    the operator's manager ([internal/operator/run.go]), logging
    ([internal/logging/slog.go]), [WithGracefulShutdown] ([internal/buildinfo]) and
    the self-probe ([internal/healthcheck]).

    What the environment does is an input: whether the drivers connect, whether a
    migration succeeds (and if not, whether the error is the context's cancellation),
    what the operator's manager returns, when a listener fails, when a signal
    arrives, what the server of the seed command does.  A run leaves a list of the
    actions that others can see. *)
From stdpp Require Import base list strings numbers relations.
From Stdlib Require Import Ascii String ZArith Lia.
From S2P Require Import Prelude Text Literal Json Float64 GoTime GoValue Compile Rollout Eval Segments Sdk Proxy Db Store SqliteText Api Handlers Mux Bodies Http Edge Seed Boot.

(** ** Identity and logging *)

Definition product : string := "falseflag".
Definition ServiceName (suffix : string) : string := if String.eqb suffix "" then product else product +:+ "-" +:+ suffix.

(** The UTF-8 texts of the characters that [unicode.IsSpace] accepts. *)
Definition bytes (l : list Z) : string := string_of_list_ascii (map chr l).
Definition spaces : list string := map bytes (
  [[9]; [10]; [11]; [12]; [13]; [32]; [194; 133]; [194; 160]; [225; 154; 128]] ++
  map (fun b => [226; 128; b]) [128; 129; 130; 131; 132; 133; 134; 135; 136; 137; 138; 168; 169; 175] ++
  [[226; 129; 159]; [227; 128; 128]]).
Fixpoint srev (s : string) : string := match s with EmptyString => EmptyString | String c r => srev r +:+ str1 c end.
Fixpoint trim_left (cut : list string) (fuel : nat) (s : string) : string :=
  match fuel, List.find (hasPrefix s) cut with
  | S fuel, Some sp => trim_left cut fuel (drop_prefix s sp)
  | _, _ => s
  end.
(** [strings.TrimSpace]; a step takes a character off. *)
Definition TrimSpace (s : string) : string :=
  let s := trim_left spaces (String.length s) s in
  srev (trim_left (map srev spaces) (String.length s) (srev s)).
(** [strings.ToLower] as far as it can give an ASCII text: besides the capitals, a
    dotted capital I and the Kelvin sign have an ASCII lower case. *)
Fixpoint ToLower (s : string) : string :=
  match s with
  | EmptyString => EmptyString
  | String c r =>
      match r with
      | String d r' =>
          if (code c =? 196) && (code d =? 176) then String "i"%char (ToLower r')
          else match r' with
               | String e r'' =>
                   if (code c =? 226) && (code d =? 132) && (code e =? 170) then String "k"%char (ToLower r'')
                   else String (if byte_in 65 90 c then chr (code c + 32) else c) (ToLower r)
               | EmptyString => String (if byte_in 65 90 c then chr (code c + 32) else c) (ToLower r)
               end
      | EmptyString => str1 (if byte_in 65 90 c then chr (code c + 32) else c)
      end
  end.

Inductive Level : Type := LevelDebug | LevelInfo | LevelWarn | LevelError.
Definition ParseLevel (raw : string) : Level :=
  let w := ToLower (TrimSpace raw) in
  if String.eqb w "debug" then LevelDebug
  else if String.eqb w "warn" || String.eqb w "warning" then LevelWarn
  else if String.eqb w "error" then LevelError
  else LevelInfo.
Record Logger : Type := mkLogger { log_Level : Level; log_Service : string; log_Version : string }.
(** [NewWithOptions], with the level of the options; [New] has none. *)
Definition NewWithOptions (env : string -> option string) (version suffix : string) (level : option Level) : Logger :=
  let raw := os_Getenv env "LOG_LEVEL" in
  mkLogger (match level with
            | Some l => l
            | None => if String.eqb raw "" then LevelInfo else ParseLevel raw
            end) (ServiceName suffix) version.
Definition logging_New (env : string -> option string) (version suffix : string) : Logger := NewWithOptions env version suffix None.

Example levels : map ParseLevel ["debug"; " WARN "; "Warning"; "error"; "trace"; ""] =
  [LevelDebug; LevelWarn; LevelWarn; LevelError; LevelInfo; LevelInfo].
Proof. vm_compute. reflexivity. Qed.

(** ** Listeners under one errgroup *)

Inductive run_error : Type :=
| ConfigFailed | OpenFailed | MigrateFailed | ListenFailed | ShutdownFailed | ManagerFailed | RegisterFailed | StartFailed | Canceled.

(** What ends a listener's select: the context is done, and then what [Shutdown]
    returned; or an error of [ListenAndServe].  It reports the closing of the server
    as no error, but only [Shutdown] closes it. *)
Inductive wake : Type := CtxDone (failed : bool) | ErrCh.
Definition runListener (w : wake) : option run_error :=
  match w with CtxDone failed => if failed then Some ShutdownFailed else None | ErrCh => Some ListenFailed end.
(** The MCP server's drops what [Shutdown] returns. *)
Definition mcp_runListener (w : wake) : option run_error := match w with CtxDone _ => None | ErrCh => Some ListenFailed end.

(** A group: whether a signal came, whether the group's context is done, the first
    error, and for each listener what it returned, if it did. *)
Record group : Type := mkGroup { g_signal : bool; g_done : bool; g_err : option run_error; g_ends : list (option (option run_error)) }.
Definition started (n : nat) : group := mkGroup false false None (replicate n None).
(** [g.Go]'s wrapper: the first error is kept and cancels the context. *)
Definition returned (g : group) (i : nat) (r : option run_error) : group :=
  let ends := <[i := Some r]> (g_ends g) in
  match r, g_err g with
  | Some e, None => mkGroup (g_signal g) true (Some e) ends
  | _, _ => mkGroup (g_signal g) (g_done g) (g_err g) ends
  end.
Definition wakes (g : group) (w : wake) : bool := match w with CtxDone _ => g_done g | ErrCh => true end.

Inductive group_step (listener : wake -> option run_error) : group -> group -> Prop :=
| step_signal g : group_step listener g (mkGroup true true (g_err g) (g_ends g))
| step_return g i w : g_ends g !! i = Some None -> wakes g w = true -> group_step listener g (returned g i (listener w)).
(** [g.Wait] returns when every listener has. *)
Definition waited (g : group) : bool := forallb (fun e => bool_decide (is_Some e)) (g_ends g).

Section group.
Variable listener : wake -> option run_error.
Hypothesis listen_error : listener ErrCh = Some ListenFailed.
Hypothesis not_canceled : forall w, listener w <> Some Canceled.

(** What holds of a group: an error is the first of a listener's, and without one
    every listener that returned did so without error; the context is done exactly
    after a signal or an error; no listener returns before that. *)
Record group_ok (g : group) : Prop := {
  gk_clean : g_err g = None -> Forall (fun e => e = None \/ e = Some None) (g_ends g);
  gk_error : forall e, g_err g = Some e -> In (Some (Some e)) (g_ends g);
  gk_done : g_done g = g_signal g || bool_decide (is_Some (g_err g));
  gk_up : g_done g = false -> Forall (fun e => e = None) (g_ends g);
  gk_canceled : g_err g <> Some Canceled
}.
Lemma insert_in {A} (l : list A) i x : (i < List.length l)%nat -> In x (<[i := x]> l).
Proof. intros H. apply list_elem_of_In, list_elem_of_lookup. exists i. by apply list_lookup_insert_eq. Qed.
Lemma in_insert {A} (l : list A) i x y z : l !! i = Some z -> In y l -> y <> z -> In y (<[i := x]> l).
Proof.
  rewrite <- !list_elem_of_In, !list_elem_of_lookup. intros Hi [j Hj] Hy. exists j. rewrite list_lookup_insert_ne; [done|]. intros ->. congruence.
Qed.

Lemma returned_ok g i w : group_ok g -> g_ends g !! i = Some None -> wakes g w = true -> group_ok (returned g i (listener w)).
Proof.
  intros [Hc He Hd Hu Hn] Hi Hw. assert (i < List.length (g_ends g))%nat as Hlt by (by apply lookup_lt_Some in Hi). unfold returned.
  destruct (listener w) as [e|] eqn:El; [destruct (g_err g) as [e0|] eqn:Eg|]; (split; cbn [g_err g_ends g_done g_signal]).
  - done.
  - intros e' [= <-]. eapply in_insert; [exact Hi | by apply He | done].
  - exact Hd.
  - rewrite Hd, bool_decide_eq_true_2, orb_true_r; done.
  - exact Hn.
  - done.
  - intros e' [= <-]. by apply insert_in.
  - by rewrite bool_decide_eq_true_2, orb_true_r.
  - done.
  - rewrite <- El. apply not_canceled.
  - intros H. apply Forall_insert; [by apply Hc | by right].
  - intros e' H. eapply in_insert; [exact Hi | by apply He | done].
  - exact Hd.
  - destruct w; cbn in Hw; [by rewrite Hw | by rewrite listen_error in El].
  - exact Hn.
Qed.
Lemma started_ok n : group_ok (started n).
Proof. split; cbn; try done; intros _; apply Forall_replicate; auto. Qed.
Lemma group_reach_ok g g' : rtc (group_step listener) g g' -> group_ok g -> group_ok g'.
Proof.
  induction 1 as [|g g1 g2 H _ IH]; [done|]. intros Hg. apply IH. destruct H as [g|g i w Hi Hw]; [|by apply returned_ok].
  destruct Hg as [Hc He Hd Hu Hn]. by split.
Qed.
Lemma group_length g g' : rtc (group_step listener) g g' -> List.length (g_ends g') = List.length (g_ends g).
Proof.
  induction 1 as [|g g1 g2 H _ IH]; [done|]. rewrite IH. destruct H as [g|g i w _ _]; [done|]. unfold returned.
  destruct (listener w), (g_err g); apply length_insert.
Qed.
(** A group that has ended without an error was told to by a signal. *)
Lemma clean_end g : group_ok g -> (0 < List.length (g_ends g))%nat -> waited g = true -> g_err g = None -> g_signal g = true.
Proof.
  intros [_ _ Hd Hu _] Hl Hw He. rewrite He in Hd. cbn in Hd. rewrite orb_false_r in Hd. rewrite <- Hd.
  destruct (g_done g); [done|]. exfalso. specialize (Hu eq_refl). destruct (g_ends g) as [|e l] eqn:E; [cbn in Hl; lia|].
  unfold waited in Hw. rewrite E in Hw. apply Forall_cons_1 in Hu as [-> _]. discriminate Hw.
Qed.

(** The listeners still up; every return is one less. *)
Definition up (g : group) : nat := List.length (List.filter (fun e => negb (bool_decide (is_Some e))) (g_ends g)).
Lemma returned_ends g i r : g_ends (returned g i r) = <[i := Some r]> (g_ends g).
Proof. unfold returned. by destruct r, (g_err g). Qed.
Lemma filter_insert (l : list (option (option run_error))) i r : l !! i = Some None ->
  S (List.length (List.filter (fun e => negb (bool_decide (is_Some e))) (<[i := Some r]> l))) =
  List.length (List.filter (fun e => negb (bool_decide (is_Some e))) l).
Proof.
  revert i. induction l as [|x l IH]; intros [|i]; cbn; [done..| |].
  - intros [= ->]. reflexivity.
  - intros H. specialize (IH i H). destruct x as [x|]; cbn; [exact IH | by f_equal].
Qed.
Lemma return_up g i r : g_ends g !! i = Some None -> S (up (returned g i r)) = up g.
Proof. intros H. unfold up. rewrite returned_ends. by apply filter_insert. Qed.
Lemma up_waited g : up g = 0%nat -> waited g = true.
Proof. unfold up, waited. induction (g_ends g) as [|e l IH]; [done|]. cbn. destruct (bool_decide _); cbn; [exact IH | done]. Qed.
Lemma up_lookup g : (0 < up g)%nat -> exists i, g_ends g !! i = Some None.
Proof.
  unfold up. induction (g_ends g) as [|e l IH]; cbn; [lia|]. destruct (bool_decide (is_Some e)) eqn:E; cbn.
  - intros H. destruct (IH H) as [i Hi]. by exists (S i).
  - intros _. exists 0%nat. apply bool_decide_eq_false in E. destruct e; [by destruct E|done].
Qed.
(** A group whose context is done can come to its end by the listeners' returns. *)
Lemma done_ends g : g_done g = true -> exists g', rtc (group_step listener) g g' /\ waited g' = true /\ g_signal g' = g_signal g.
Proof.
  remember (up g) as n eqn:En. revert g En. induction n as [|n IH]; intros g En Hd; [exists g; split_and!; [done | by apply up_waited | done]|].
  destruct (up_lookup g) as [i Hi]; [lia|]. set (g1 := returned g i (listener (CtxDone false))).
  destruct (IH g1) as (g' & H1 & H2 & H3).
  - pose proof (return_up g i (listener (CtxDone false)) Hi) as H. fold g1 in H. lia.
  - unfold g1, returned. destruct (listener (CtxDone false)), (g_err g); done.
  - exists g'. split_and!; [eapply rtc_l; [exact (step_return listener g i (CtxDone false) Hi Hd) | exact H1] | done|]. rewrite H3. unfold g1, returned. destruct (listener (CtxDone false)), (g_err g); done.
Qed.
End group.

(** ** What a run does *)

Inductive crd : Type := CrProject | CrEnvironment | CrSegment | CrRolloutPolicy | CrFlag | CrFlagBinding | CrFlagSnapshot.
#[export] Instance crd_eq : EqDecision crd.
Proof. solve_decision. Defined.

Inductive act : Type :=
| Dialed (b : Backend) (dsn : string)     (* a connection or a pool was made *)
| Closed                                  (* it was closed *)
| Migrated (applied : nat)
| Serving (addr : string)
| Polling (slug : string)                 (* the SDK client was started *)
| Stopped                                 (* it was stopped *)
| Watching (k : crd).

(** An error of a call: does it wrap [context.Canceled]? *)
Inductive failure : Type := CancelledError | PlainError.
(** The error of a run that wraps it. *)
Definition wrapped (e : run_error) (f : failure) : run_error := match f with CancelledError => Canceled | PlainError => e end.

(** The environment of a run. *)
Record world : Type := mkWorld {
  w_env : string -> option string;
  w_duration : string -> option Z;                 (* [time.ParseDuration] *)
  w_dial : Backend -> string -> option failure;    (* [sql.Open], [pgxpool.New] *)
  w_ping : Backend -> string -> option failure;
  w_sub : string -> bool;                          (* [fs.Sub] of the embedded migrations *)
  w_provider : Backend -> string -> bool;          (* [goose.NewProvider] *)
  w_up : Backend -> string -> result failure nat;  (* [provider.Up]: the migrations applied *)
  w_kubeconfig : bool;
  w_manager : bool;                                (* [manager.New] *)
  w_start : option failure;                        (* [mgr.Start] *)
  w_builds : crd -> bool                           (* the controller builder's other errors *)
}.

Section commands.
Variable w : world.

(** ** The store *)

(** Both openers: what was done and the error, if there is no store. *)
Definition open_conn (b : Backend) (dsn : string) : list act * option failure :=
  match w_dial w b dsn with
  | Some f => ([], Some f)
  | None => match w_ping w b dsn with None => ([Dialed b dsn], None) | Some f => ([Dialed b dsn; Closed], Some f) end
  end.
Definition openPostgres (dsn : string) : list act * option failure := open_conn BackendPostgres dsn.
Definition openSQLite (dsn : string) : list act * option failure :=
  match sqliteDSNWithPragmas dsn with None => ([], Some PlainError) | Some tuned => open_conn BackendSQLite tuned end.
(** [store.Open], with the backend of the store. *)
Definition store_Open (dsn : string) : list act * result failure Backend :=
  match parseBackend dsn with
  | None => ([], Err PlainError)
  | Some (b, d) =>
      let '(t, e) := match b with BackendPostgres => openPostgres d | BackendSQLite => openSQLite d end in
      (t, match e with None => Ok b | Some f => Err f end)
  end.

(** [Migrate] of a store with or without a connection. *)
Definition goose_up (b : Backend) (dir : string) (conn : bool) : list act * option failure :=
  if negb conn then ([], Some PlainError)
  else if negb (w_sub w dir) then ([], Some PlainError)
  else if negb (w_provider w b dir) then ([], Some PlainError)
  else match w_up w b dir with Err f => ([], Some f) | Ok n => ([Migrated n], None) end.
Definition pg_Migrate : bool -> list act * option failure := goose_up BackendPostgres ".".
Definition sqlite_Migrate : bool -> list act * option failure := goose_up BackendSQLite "sqlite".
Definition Migrate (b : Backend) : list act * option failure :=
  match b with BackendPostgres => pg_Migrate true | BackendSQLite => sqlite_Migrate true end.

(** ** The API *)

(** [run] of the API command up to the listeners: what was done, and whether there
    is a store; a store that was opened is closed when the run ends. *)
Definition api_boot : list act * result run_error bool :=
  let url := api_DatabaseURL (LoadAPI (w_env w)) in
  if String.eqb url "" then ([], Ok false)
  else match store_Open url with
       | (t, Err f) => (t, Err (wrapped OpenFailed f))
       | (t, Ok b) =>
           match Migrate b with
           | (t', None) => (t ++ t', Ok true)
           | (t', Some f) => (t ++ t' ++ [Closed], Err (wrapped MigrateFailed f))
           end
       end.
Definition api_listeners : list act := [Serving (api_Addr (LoadAPI (w_env w))); Serving (api_RPCAddr (LoadAPI (w_env w)))].
(** [signal] is whether a signal came before the run ended. *)
Inductive api_run (signal : bool) : list act -> option run_error -> Prop :=
| api_boot_fails t e : api_boot = (t, Err e) -> api_run signal t (Some e)
| api_serves t (store : bool) g :
    api_boot = (t, Ok store) -> rtc (group_step runListener) (started 2) g -> waited g = true -> signal = g_signal g ->
    api_run signal (t ++ api_listeners ++ (if store then [Closed] else [])) (g_err g).

(** ** The MCP server *)

Definition mcp_listeners : list act := [Serving (mcp_Addr (LoadMCP (w_env w))); Serving (mcp_HealthAddr (LoadMCP (w_env w)))].
Inductive mcp_run (signal : bool) : list act -> option run_error -> Prop :=
| mcp_serves g :
    rtc (group_step mcp_runListener) (started 2) g -> waited g = true -> signal = g_signal g -> mcp_run signal mcp_listeners (g_err g).

(** ** The proxy *)

(** Whether [proxy.New] makes a client. *)
Definition has_client (c : ProxyConfig) : bool :=
  negb (String.eqb (proxy_ProjectSlug c) "") && negb (String.eqb (proxy_APIBaseURL c) "").
(** [Run]'s select is that of a listener of the API; the client is stopped when it
    returns. *)
Inductive proxy_run (signal : bool) : list act -> option run_error -> Prop :=
| proxy_no_config : LoadProxy (w_env w) (w_duration w) = None -> proxy_run signal [] (Some ConfigFailed)
| proxy_serves c wk :
    LoadProxy (w_env w) (w_duration w) = Some c -> (forall failed, wk = CtxDone failed -> signal = true) ->
    proxy_run signal ((if has_client c then [Polling (proxy_ProjectSlug c)] else []) ++ [Serving (proxy_Addr c)] ++
                      (if has_client c then [Stopped] else [])) (runListener wk).

(** ** The operator *)

(** The object and list types that [addKnownTypes] registers. *)
Definition addKnownTypes : list (crd * bool) :=
  flat_map (fun k => [(k, false); (k, true)])
    [CrProject; CrEnvironment; CrSegment; CrRolloutPolicy; CrFlag; CrFlagBinding; CrFlagSnapshot].
(** [For(obj).Complete(r)]: the manager's scheme has to know the type. *)
Definition SetupWithManager (k : crd) : bool := existsb (fun e => bool_decide (e = (k, false))) addKnownTypes && w_builds w k.
Definition reconcilers : list crd :=
  [CrProject; CrEnvironment; CrSegment; CrRolloutPolicy; CrFlag; CrFlagBinding; CrFlagSnapshot].
(** In order, up to the first that fails. *)
Fixpoint register (l : list crd) : list act * bool :=
  match l with
  | [] => ([], true)
  | k :: r => if SetupWithManager k then let '(t, ok) := register r in (Watching k :: t, ok) else ([], false)
  end.
Definition registerReconcilers : list act * bool := register reconcilers.

(** A manager that was told to stop by its context counts as no error. *)
Definition start_result (start : option failure) : option run_error :=
  match start with None | Some CancelledError => None | Some PlainError => Some StartFailed end.
Inductive operator_run (signal : bool) : list act -> option run_error -> Prop :=
| operator_idle : w_kubeconfig w = false -> signal = true -> operator_run signal [] None
| operator_no_manager : w_kubeconfig w = true -> w_manager w = false -> operator_run signal [] (Some ManagerFailed)
| operator_not_registered t :
    w_kubeconfig w = true -> w_manager w = true -> registerReconcilers = (t, false) -> operator_run signal t (Some RegisterFailed)
| operator_manages t :
    w_kubeconfig w = true -> w_manager w = true -> registerReconcilers = (t, true) ->
    operator_run signal t (start_result (w_start w)).

(** ** Commands *)

Inductive command : Type := CmdAPI | CmdProxy | CmdMCP | CmdOperator | CmdLoadgen | CmdSeed.
(** The function each [main] but the seed's hands to [WithGracefulShutdown]; that of
    the load generator only says that it is a stub. *)
Inductive command_run (signal : bool) : command -> list act -> option run_error -> Prop :=
| run_api t r : api_run signal t r -> command_run signal CmdAPI t r
| run_proxy t r : proxy_run signal t r -> command_run signal CmdProxy t r
| run_mcp t r : mcp_run signal t r -> command_run signal CmdMCP t r
| run_operator t r : operator_run signal t r -> command_run signal CmdOperator t r
| run_loadgen : command_run signal CmdLoadgen [] None.

(** [WithGracefulShutdown]'s exit code. *)
Definition exit_code (r : option run_error) : Z := match r with None | Some Canceled => 0 | Some _ => 1 end.

(** [RunFromArgs]: the arguments that ask for the self-probe, and its exit code for
    the status of the answer or a failure. *)
Definition RunFromArgs (args : list string) : option string :=
  match args with [_; cmd; url] => if String.eqb cmd "healthcheck" then Some url else None | _ => None end.
Definition healthcheck_run (status : option Z) : Z :=
  match status with Some s => if (s <? 200) || (300 <=? s) then 1 else 0 | None => 1 end.
Definition probes (c : command) : bool := match c with CmdAPI | CmdProxy | CmdMCP => true | _ => false end.

(** The seed command: it waits for no signal, and sends its requests to a server
    with some database. *)
Context {RX : RegexpLib} {CEL : CelLib} {TS : TsLib} {UT : UuidText} {PL : ParamLib}.
Definition seed_actor : string := getenv (w_env w "FALSEFLAG_SEED_ACTOR") "seed/falseflag-seed".
Definition seeds (fuel : nat) (db : DB) (r : option seed_err) (db' : DB) : Prop :=
  exists late, sexec fuel (seed_run seed_actor late demoProjects) db r db'.
Definition seed_exit (r : option seed_err) : Z := match r with None => 0 | Some _ => 1 end.

(** [main]: the exit code of a command; [answer] is what a probed URL answers, and
    the server of the seed command goes from [db] to [db']. *)
Inductive main (answer : string -> option Z) (signal : bool) (fuel : nat) (db : DB) (c : command) (args : list string) :
    list act -> Z -> DB -> Prop :=
| main_probe url :
    probes c = true -> RunFromArgs args = Some url -> main answer signal fuel db c args [] (healthcheck_run (answer url)) db
| main_run t r :
    probes c = false \/ RunFromArgs args = None -> command_run signal c t r -> main answer signal fuel db c args t (exit_code r) db
| main_seed r db' : c = CmdSeed -> seeds fuel db r db' -> main answer signal fuel db c args [] (seed_exit r) db'.

(** [redact]: a URL for the log. *)
Definition redact (url : string) : string :=
  if has_char "@"%char url then "postgres://***@" +:+ (cut "@"%char url).2 else url.
Lemma redact_hides u1 u2 rest : avoids "@"%char u1 -> avoids "@"%char u2 -> redact (u1 +:+ String "@"%char rest) = redact (u2 +:+ String "@"%char rest).
Proof.
  intros H1 H2. unfold redact. rewrite !cut_at by done.
  assert (forall u, has_char "@"%char (u +:+ String "@"%char rest) = true) as Hh.
  { intros u. unfold has_char. rewrite list_ascii_app, existsb_app. cbn. apply orb_true_r. }
  by rewrite !Hh.
Qed.

(** ** Nothing is left open *)

(** The connection and the client as a run goes: each is made at most once at a
    time, used only while it is there, and released. *)
Fixpoint tidy (conn poll : bool) (t : list act) : bool :=
  match t with
  | [] => negb conn && negb poll
  | Dialed _ _ :: r => negb conn && tidy true poll r
  | Closed :: r => conn && tidy false poll r
  | Migrated _ :: r => conn && tidy conn poll r
  | Polling _ :: r => negb poll && tidy conn true r
  | Stopped :: r => poll && tidy conn false r
  | Serving _ :: r | Watching _ :: r => tidy conn poll r
  end.
Lemma runListener_errors wk : runListener wk <> Some Canceled.
Proof. by destruct wk as [[]|]. Qed.
Lemma mcp_runListener_errors wk : mcp_runListener wk <> Some Canceled.
Proof. by destruct wk. Qed.

(** The groups of the API and of the MCP server. *)
Definition group_of (listener : wake -> option run_error) : Prop := listener = runListener \/ listener = mcp_runListener.
Lemma served_ok listener g : group_of listener -> rtc (group_step listener) (started 2) g -> group_ok g.
Proof.
  intros [->| ->] H; eapply group_reach_ok; try exact H; auto using runListener_errors, mcp_runListener_errors, started_ok.
Qed.
Lemma served_end listener g :
  group_of listener -> rtc (group_step listener) (started 2) g -> waited g = true ->
  exit_code (g_err g) = 0 -> g_err g = None /\ g_signal g = true.
Proof.
  intros Hl H Hw He. pose proof (served_ok _ _ Hl H) as Hok. assert (g_err g = None) as En.
  { destruct (g_err g) as [[]|] eqn:E; try done. by destruct (gk_canceled g Hok). }
  split; [done|]. apply clean_end; try done. pose proof (group_length listener _ _ H) as Hn. rewrite Hn. cbn. lia.
Qed.

(** What was opened, and closed when there is no store. *)
Lemma open_tidy url t o : store_Open url = (t, o) ->
  forall r, tidy false false (t ++ r) = tidy (is_ok o) false r.
Proof.
  unfold store_Open, openPostgres, openSQLite, open_conn. intros H r.
  by repeat (case_match; simplify_eq).
Qed.
Lemma migrate_tidy b t ok r : Migrate b = (t, ok) -> tidy true false (t ++ r) = tidy true false r.
Proof. unfold Migrate, pg_Migrate, sqlite_Migrate, goose_up. intros H. by repeat (case_match; simplify_eq). Qed.
Lemma boot_tidy t o r : api_boot = (t, o) -> tidy false false (t ++ r) = tidy (match o with Ok s => s | Err _ => false end) false r.
Proof.
  unfold api_boot. destruct (String.eqb _ ""); [by intros [= <- <-]|]. destruct (store_Open _) as [t1 [b|f]] eqn:Eo.
  - destruct (Migrate b) as [t2 [f|]] eqn:Em; intros [= <- <-]; rewrite <- ?app_assoc, (open_tidy _ _ _ Eo); cbn;
      rewrite ?(migrate_tidy _ _ _ _ Em); done.
  - intros [= <- <-]. by rewrite (open_tidy _ _ _ Eo).
Qed.
Lemma register_tidy l t ok : register l = (t, ok) -> tidy false false t = true.
Proof.
  revert t ok. induction l as [|k l IH]; intros t ok; cbn [register]; [by intros [= <- _]|]. destruct (SetupWithManager k); [|by intros [= <- _]].
  destruct (register l) as [t1 ok1]. intros [= <- _]. cbn. by eapply IH.
Qed.
Lemma command_tidy signal c t r : command_run signal c t r -> tidy false false t = true.
Proof.
  destruct 1 as [t r H|t r H|t r H|t r H|]; [..|done].
  - destruct H as [t e He|t store g Hb _ _ _]; [rewrite <- (app_nil_r t)|]; erewrite boot_tidy by eassumption; [done|]. by destruct store.
  - destruct H as [|c wk]; [done|]. by destruct (has_client c).
  - by destruct H.
  - destruct H as [| |t _ _ H|t _ _ H]; try done; by eapply register_tidy.
Qed.

(** Where an exit code of 0 comes from. *)
Definition stopped_itself (c : command) : Prop :=
  c = CmdLoadgen \/
  (c = CmdAPI /\ exists t, api_boot = (t, Err Canceled)) \/
  (c = CmdOperator /\ w_kubeconfig w = true /\ (w_start w = None \/ w_start w = Some CancelledError)).
Lemma command_signal signal c t r : command_run signal c t r -> exit_code r = 0 -> stopped_itself c \/ signal = true.
Proof.
  unfold stopped_itself. destruct 1 as [t r H|t r H|t r H|t r H|]; [..|auto].
  - destruct H as [t e He|t store g _ Hg Hw ->].
    + intros Hc. left. right. left. split; [done|]. exists t. by destruct e.
    + intros Hc. destruct (served_end _ _ (or_introl eq_refl) Hg Hw Hc). auto.
  - destruct H as [|c [[]|] _ Hs]; cbn; try done. eauto.
  - destruct H as [g Hg Hw ->]. intros Hc. destruct (served_end _ _ (or_intror eq_refl) Hg Hw Hc). auto.
  - destruct H as [_ ->| | |t Hk _ _]; try done; [auto|]. intros Hc. left. right. right. split_and!; try done.
    destruct (w_start w) as [[]|]; cbn in Hc; auto. discriminate Hc.
Qed.

(** The API serves from a database only after its migration. *)
Lemma boot_migrated t : api_boot = (t, Ok true) -> exists n, In (Migrated n) t.
Proof.
  unfold api_boot. destruct (String.eqb _ ""); [done|]. destruct (store_Open _) as [t1 [b|]]; [|done].
  destruct (Migrate b) as [t2 [f|]] eqn:Em; [done|]. intros [= <-]. unfold Migrate, pg_Migrate, sqlite_Migrate, goose_up in Em.
  repeat (case_match; simplify_eq); eexists; apply in_or_app; right; by left.
Qed.
Lemma boot_quiet t o a : api_boot = (t, o) -> ~ In (Serving a) t.
Proof.
  unfold api_boot, Migrate, pg_Migrate, sqlite_Migrate, goose_up, store_Open, openPostgres, openSQLite, open_conn. intros H Hin.
  repeat (case_match; simplify_eq); cbn in Hin; intuition discriminate.
Qed.
Lemma boot_store t store : api_boot = (t, Ok store) -> (store = true <-> api_DatabaseURL (LoadAPI (w_env w)) <> "").
Proof.
  unfold api_boot. destruct (String.eqb_spec (api_DatabaseURL (LoadAPI (w_env w))) ""); [by intros [= _ <-]|].
  destruct (store_Open _) as [t1 [b|]]; [|done]. destruct (Migrate b) as [t2 [f|]]; [done|]. by intros [= _ <-].
Qed.
Lemma migrated_first signal t r pre a post :
  api_run signal t r -> api_DatabaseURL (LoadAPI (w_env w)) <> "" -> t = pre ++ Serving a :: post -> exists n, In (Migrated n) pre.
Proof.
  destruct 1 as [t e He|t store g Hb _ _ _]; intros Hurl E.
  - exfalso. apply (boot_quiet _ _ a He). rewrite E. apply in_or_app. right. by left.
  - apply (boot_store _ _ Hb) in Hurl as ->. destruct (boot_migrated _ Hb) as [n Hn]. exists n.
    pose proof (boot_quiet _ _ a Hb) as Hq. clear Hb. revert pre E. induction t as [|x t IH]; intros pre E; [done|].
    destruct pre as [|y pre]; cbn in E; injection E as -> E.
    + exfalso. apply Hq. by left.
    + destruct Hn as [->|Hn]; [by left|]. right. eapply IH; [done | | exact E]. intros Hin. apply Hq. by right.
Qed.

(** C40. What every command leaves when it exits: each database connection and each
    SDK client it made was released, once, on every path.  Its code is 0 or 1.  It is 0
    only for a self-probe that was answered, for the load generator's stub, for a
    seed whose every request was accepted, after a signal, for an operator whose
    manager returned no error or its context's cancellation, or for an API whose
    start was broken off by the context's cancellation: a server whose listener
    failed, or whose database or manager failed otherwise, exits with 1.  The API
    listens on a database only after its migration.  For the two listeners of the API
    and of the MCP server: none returns before a signal or an error of one of them,
    and after that both can come to their end. *)
Theorem commands_exit answer signal fuel db c args t code db' :
  (main answer signal fuel db c args t code db' ->
    tidy false false t = true /\ (code = 0 \/ code = 1) /\
    (code = 0 ->
      (probes c = true /\ exists url st, RunFromArgs args = Some url /\ answer url = Some st /\ 200 <= st < 300) \/
      stopped_itself c \/ (c = CmdSeed /\ seeds fuel db None db') \/ signal = true) /\
    (c <> CmdSeed -> db' = db) /\
    (c = CmdAPI -> api_DatabaseURL (LoadAPI (w_env w)) <> "" ->
     forall pre a post, t = pre ++ Serving a :: post -> exists n, In (Migrated n) pre)) /\
  forall listener g, group_of listener -> rtc (group_step listener) (started 2) g ->
    (forall i e, g_ends g !! i = Some (Some e) -> g_signal g = true \/ is_Some (g_err g)) /\
    (g_signal g = true \/ is_Some (g_err g) -> exists g', rtc (group_step listener) g g' /\ waited g' = true).
Proof.
  split.
  - intros [url Hp Ha|t' r Ha H|r db1 -> H].
    + split; [done|]. split; [unfold healthcheck_run; repeat case_match; auto|]. split_and!; [|done|intros _ _ pre a post E; by destruct pre].
      intros Hc. left. split; [done|]. exists url. unfold healthcheck_run in Hc. destruct (answer url) as [st|]; [|done].
      exists st. split; [done|]. split; [done|]. destruct (Z.ltb_spec st 200), (Z.leb_spec 300 st); cbn in Hc; lia.
    + split; [by eapply command_tidy|]. split; [unfold exit_code; repeat case_match; auto|]. split_and!; [|done|].
      * intros H0. destruct (command_signal _ _ _ _ H H0); auto.
      * intros -> Hurl pre a post E. eapply migrated_first; [|done|exact E]. by inversion H.
    + split; [done|]. split; [destruct r; cbn; auto|]. split_and!; [|done|done]. destruct r; [done|]. intros _. right. right. left. done.
  - intros listener g Hl Hg. pose proof (served_ok _ g Hl Hg) as [_ _ Hd Hu _]. split.
    + intros i e Hi. destruct (g_done g) eqn:E.
      * symmetry in Hd. apply orb_true_iff in Hd as [?|?%bool_decide_eq_true]; auto.
      * specialize (Hu eq_refl). rewrite Forall_lookup in Hu. by apply Hu in Hi.
    + intros H. destruct (done_ends listener g) as (g' & H1 & H2 & _); [|by exists g']. rewrite Hd.
      destruct H as [->|H]; [done|]. by rewrite bool_decide_eq_true_2, orb_true_r.
Qed.
End commands.

(** The health routes of the servers that probe themselves are up whatever their
    state: with or without a store, a project or a snapshot. *)
Definition health_get : http_request := mkHttp "GET" "/healthz" "" "" false "".
Lemma self_probe_succeeds {RX : RegexpLib} {CEL : CelLib} {TS : TsLib} {PL : ParamLib} {UT : UuidText} fuel a p version err :
  (exists h, serve fuel a health_get = Done h /\ healthcheck_run (Some (http_status h)) = 0) /\
  healthcheck_run (Some (proxy_status (proxy_serve version err p health_get))) = 0 /\
  healthcheck_run (Some (healthHandler version err health_get).1) = 0.
Proof. split; [by eexists|]. by split. Qed.

Module ProgramsDemo.
Import Demo SqliteTextDemo HttpDemo.
(** A run of the API with an SQLite file, ended by a signal. *)
Definition demo_env (k : string) : option string :=
  if String.eqb k "FALSEFLAG_DATABASE_URL" then Some "sqlite:///data/ff.db" else None.
Definition demo_world : world :=
  mkWorld demo_env (fun _ => None) (fun _ _ => None) (fun _ _ => None) (fun _ => true) (fun _ _ => true) (fun _ _ => Ok 4%nat)
    false false None (fun _ => true).
Definition both_up : group := started 2.
Definition told : group := mkGroup true true None (g_ends both_up).
Definition one_left : group := returned told 0 None.
Definition ended : group := returned one_left 1 None.
Lemma demo_run : rtc (group_step runListener) both_up ended.
Proof.
  eapply rtc_l; [apply step_signal|]. eapply rtc_l; [exact (step_return runListener told 0 (CtxDone false) eq_refl eq_refl)|].
  eapply rtc_l; [exact (step_return runListener one_left 1 (CtxDone false) eq_refl eq_refl) | constructor].
Qed.
Definition demo_trace : list act := (api_boot demo_world).1 ++ api_listeners demo_world ++ [Closed].
Example demo_trace_is : demo_trace =
  [Dialed BackendSQLite "file:/data/ff.db?_pragma=journal_mode%28WAL%29&_pragma=synchronous%28NORMAL%29&_pragma=foreign_keys%28ON%29&_pragma=busy_timeout%285000%29&_txlock=immediate";
   Migrated 4; Serving ":8080"; Serving ":8090"; Closed].
Proof. vm_compute. reflexivity. Qed.
Lemma demo_main : main demo_world (fun _ => None) true 1 empty_db CmdAPI ["falseflag-api"] demo_trace 0 empty_db.
Proof.
  apply (main_run demo_world (fun _ => None) true 1 empty_db CmdAPI ["falseflag-api"] demo_trace None); [by right|]. apply run_api.
  exact (api_serves demo_world true (api_boot demo_world).1 true ended eq_refl demo_run eq_refl eq_refl).
Qed.
Lemma commands_exit_witness : tidy false false demo_trace = true /\ exists n, In (Migrated n) (take 2 demo_trace).
Proof.
  destruct (commands_exit demo_world (fun _ => None) true 1 empty_db CmdAPI ["falseflag-api"] demo_trace 0 empty_db) as [H _].
  destruct (H demo_main) as (H1 & _ & _ & _ & H2). split; [exact H1|].
  apply (H2 eq_refl ltac:(vm_compute; congruence) (take 2 demo_trace) ":8080" (drop 3 demo_trace)). vm_compute. reflexivity.
Defined.
End ProgramsDemo.
